(** * Match coordinator of the head-tracking duel server

    A shallow embedding of the two socket.io servers of the repository
    (the reactive attacker/defender server and the set-then-guess server)
    and the properties of their match/round state machines.

    The servers are single-threaded event loops.  A server state holds the
    match registry ([matches], a JS [Map] from code to match object), the
    match objects themselves ([heap]: timer callbacks close over the
    [match] object, not over its code, so objects are kept apart from the
    registry), the per-connection socket objects, the pending timers, the
    clock and the log of every [emit] performed so far. *)

From Stdlib Require Import ZArith Lia Bool List String Ascii.
From Stdlib Require Import PrimFloat Uint63.
From stdpp Require Import gmap strings list fin_maps.

Local Open Scope string_scope.
Local Open Scope Z_scope.
Set Warnings "-inexact-float".

(** ** Strings: the part of the JS string library the servers use *)

Definition ascii_in (lo hi c : ascii) : bool :=
  Nat.leb (nat_of_ascii lo) (nat_of_ascii c) && Nat.leb (nat_of_ascii c) (nat_of_ascii hi).

(** [String.prototype.toUpperCase] on ASCII text. *)
Definition upper_char (c : ascii) : ascii :=
  if ascii_in "a" "z" c then ascii_of_nat (nat_of_ascii c - 32) else c.

Fixpoint toUpperCase (s : string) : string :=
  match s with
  | EmptyString => EmptyString
  | String c s' => String (upper_char c) (toUpperCase s')
  end.

(** [s.substring(a, b)] for [a <= b]: indices are clamped to the length. *)
Definition js_substring (a b : nat) (s : string) : string :=
  String.substring a (b - a) s.

(** A digit of [Number.prototype.toString(36)]: [0-9a-z]. *)
Definition base36_digit (c : ascii) : bool :=
  ascii_in "0" "9" c || ascii_in "a" "z" c.

Definition upper_alnum (c : ascii) : bool :=
  ascii_in "0" "9" c || ascii_in "A" "Z" c.

Fixpoint string_forall (p : ascii -> bool) (s : string) : bool :=
  match s with
  | EmptyString => true
  | String c s' => p c && string_forall p s'
  end.

(** [generateMatchCode()]:
    [Math.random().toString(36).substring(2, 8).toUpperCase()].
    The argument is the text [Math.random().toString(36)] of the random
    draw, e.g. ["0.k3x9q2m7p1a"], or ["0.i"] for the draw 0.5. *)
Definition generateMatchCode (random36 : string) : string :=
  toUpperCase (js_substring 2 8 random36).

(** ** Transport: sockets, rooms and emitted notifications *)

Inductive Role := Rplayer1 | Rplayer2.

Inductive Winner := Wplayer1 | Wplayer2 | Wtie.

(** The socket object of one connection: the two ad hoc properties the
    handlers store on it, the rooms it joined and whether it is still
    connected.  Every socket is in the room named by its own id. *)
Record Socket := mkSocket {
  matchCode : option string;
  playerRole : option Role;
  rooms : list string;
  connected : bool
}.

Definition new_socket (sid : string) : Socket :=
  mkSocket None None [sid] true.

(** Addressee of an emit: [socket.emit] or [io.to(room).emit]; the room
    expression may evaluate to [null]. *)
Inductive Target :=
  | ToSelf (sid : string)
  | ToRoom (room : option string).

Record Scores := mkScores { score1 : Z; score2 : Z }.

#[global] Instance Role_eq_dec : EqDecision Role.
Proof. solve_decision. Defined.
#[global] Instance Winner_eq_dec : EqDecision Winner.
Proof. solve_decision. Defined.
#[global] Instance Scores_eq_dec : EqDecision Scores.
Proof. solve_decision. Defined.
#[global] Instance Target_eq_dec : EqDecision Target.
Proof. solve_decision. Defined.

(** JS truthiness of a value that is a string, [null] or [undefined]:
    the empty string is falsy. *)
Definition truthy (v : option string) : bool :=
  match v with
  | Some x => negb (bool_decide (x = EmptyString))
  | None => false
  end.

(** [socket.join(room)] *)
Definition socket_join (room : string) (k : Socket) : Socket :=
  mkSocket (matchCode k) (playerRole k) (room :: rooms k) (connected k).

Definition socket_assign (code : string) (role : Role) (k : Socket) : Socket :=
  mkSocket (Some code) (Some role) (rooms k) (connected k).

(** What the transport does to a socket before its ['disconnect'] handler
    runs: it has left every room and is no longer connected. *)
Definition socket_close (k : Socket) : Socket :=
  mkSocket (matchCode k) (playerRole k) [] false.

(** Timer runs used by both servers' properties. *)

(** The runs of an interval that is due at [d]: none is early, and each
    is at least one period after the one before. *)
Fixpoint on_time (d : Z) (times : list Z) : bool :=
  match times with
  | [] => true
  | a :: rest => (d <=? a) && on_time (a + 1000) rest
  end.

(** [n], [n - 1], ..., [0]. *)
Fixpoint count_down (n : nat) : list Z :=
  match n with
  | O => [0]
  | S k => Z.of_nat (S k) :: count_down k
  end.

(** One second after the other, [n] times from [a]. *)
Fixpoint every_second (a : Z) (n : nat) : list Z :=
  match n with
  | O => []
  | S k => a :: every_second (a + 1000) k
  end.

(** * The reactive server (attacker / defender, four rounds) *)

Module Reactive.

Inductive MatchState := waiting | countdown | playing | roundEnd | matchEnd.

#[global] Instance MatchState_eq_dec : EqDecision MatchState.
Proof. solve_decision. Defined.

(** [match.currentMove] *)
Record Move := mkMove {
  direction : string;
  timestamp : Z;
  responded : bool
}.

(** The match object built by the ['createMatch'] handler.  Timer handles
    are the identifiers of pending timers. *)
Record Match := mkMatch {
  code : string;
  player1 : string;
  player2 : option string;
  currentRound : Z;
  totalRounds : Z;
  scores : Scores;
  state : MatchState;
  currentAttacker : option string;
  currentDefender : option string;
  roundTimer : option nat;
  currentMove : option Move;
  moveTimeout : option nat;
  rematchProposals : bool * bool
}.

Definition set_player2 v (m : Match) : Match :=
  mkMatch (code m) (player1 m) v (currentRound m) (totalRounds m) (scores m) (state m)
    (currentAttacker m) (currentDefender m) (roundTimer m) (currentMove m) (moveTimeout m)
    (rematchProposals m).
Definition set_currentRound v (m : Match) : Match :=
  mkMatch (code m) (player1 m) (player2 m) v (totalRounds m) (scores m) (state m)
    (currentAttacker m) (currentDefender m) (roundTimer m) (currentMove m) (moveTimeout m)
    (rematchProposals m).
Definition set_scores v (m : Match) : Match :=
  mkMatch (code m) (player1 m) (player2 m) (currentRound m) (totalRounds m) v (state m)
    (currentAttacker m) (currentDefender m) (roundTimer m) (currentMove m) (moveTimeout m)
    (rematchProposals m).
Definition set_state v (m : Match) : Match :=
  mkMatch (code m) (player1 m) (player2 m) (currentRound m) (totalRounds m) (scores m) v
    (currentAttacker m) (currentDefender m) (roundTimer m) (currentMove m) (moveTimeout m)
    (rematchProposals m).
Definition set_roles a d (m : Match) : Match :=
  mkMatch (code m) (player1 m) (player2 m) (currentRound m) (totalRounds m) (scores m) (state m)
    a d (roundTimer m) (currentMove m) (moveTimeout m) (rematchProposals m).
Definition set_roundTimer v (m : Match) : Match :=
  mkMatch (code m) (player1 m) (player2 m) (currentRound m) (totalRounds m) (scores m) (state m)
    (currentAttacker m) (currentDefender m) v (currentMove m) (moveTimeout m)
    (rematchProposals m).
Definition set_currentMove v (m : Match) : Match :=
  mkMatch (code m) (player1 m) (player2 m) (currentRound m) (totalRounds m) (scores m) (state m)
    (currentAttacker m) (currentDefender m) (roundTimer m) v (moveTimeout m)
    (rematchProposals m).
Definition set_moveTimeout v (m : Match) : Match :=
  mkMatch (code m) (player1 m) (player2 m) (currentRound m) (totalRounds m) (scores m) (state m)
    (currentAttacker m) (currentDefender m) (roundTimer m) (currentMove m) v
    (rematchProposals m).
Definition set_rematchProposals v (m : Match) : Match :=
  mkMatch (code m) (player1 m) (player2 m) (currentRound m) (totalRounds m) (scores m) (state m)
    (currentAttacker m) (currentDefender m) (roundTimer m) (currentMove m) (moveTimeout m) v.

(** Outbound events with their payloads. *)
Inductive Msg :=
  | matchCreated (matchCode : string)
  | joinError (message : string)
  | matchStarted (matchCode : string) (p1 : string) (p2 : option string)
  | roundStart (round totalRounds : Z) (role : string) (countdownSeconds : Z)
  | countdownMsg (count : Z)
  | startAttacking (duration round : Z)
  | startDefending (duration round : Z)
  | roundTimerMsg (timeLeft : Z)
  | incomingMove (direction : string) (reactionTime : Z)
  | moveSent (direction : string)
  | moveMissed (direction : string)
  | opponentMissed (direction : string)
  | moveResult (expected detected : string) (correct : bool) (reactionTime : Z) (sc : Scores)
  | opponentResult (expected detected : string) (correct : bool) (reactionTime : Z) (sc : Scores)
  | roundEndMsg (round : Z) (sc : Scores)
  | matchEndMsg (sc : Scores) (winner : Winner)
  | rematchProposed
  | rematchStarting
  | opponentDisconnected.

#[global] Instance Msg_eq_dec : EqDecision Msg.
Proof. solve_decision. Defined.

(** The callbacks handed to [setInterval] / [setTimeout], with the
    variables each closure captures.  [CountdownTick] and [RoundTick] are
    intervals whose counter lives in the closure; the others fire once. *)
Inductive Job :=
  | CountdownTick (matchCode : string) (count : Z)
  | RoundTick (matchCode : string) (timeLeft : Z)
  | MoveTimeout (match_ : nat) (move : string)
  | EndMatchDelay (matchCode : string)
  | NextRoundDelay (match_ : nat) (matchCode : string)
  | RematchDelay (socket : string).

Record Timer := mkTimer { tid : nat; due : Z; job : Job }.

Record State := mkState {
  sockets : gmap string Socket;
  matches : gmap string nat;      (* the registry: code -> match object *)
  heap : gmap nat Match;          (* match objects *)
  next_ref : nat;
  timers : list Timer;            (* pending timers *)
  next_tid : nat;
  now : Z;                        (* Date.now() *)
  out : list (Target * Msg)       (* every emit so far, oldest first *)
}.

Definition init : State := mkState ∅ ∅ ∅ 0 [] 0 0 [].

Definition set_sockets v (s : State) : State :=
  mkState v (matches s) (heap s) (next_ref s) (timers s) (next_tid s) (now s) (out s).
Definition set_matches v (s : State) : State :=
  mkState (sockets s) v (heap s) (next_ref s) (timers s) (next_tid s) (now s) (out s).
Definition set_heap v (s : State) : State :=
  mkState (sockets s) (matches s) v (next_ref s) (timers s) (next_tid s) (now s) (out s).
Definition set_next_ref v (s : State) : State :=
  mkState (sockets s) (matches s) (heap s) v (timers s) (next_tid s) (now s) (out s).
Definition set_timers v (s : State) : State :=
  mkState (sockets s) (matches s) (heap s) (next_ref s) v (next_tid s) (now s) (out s).
Definition set_next_tid v (s : State) : State :=
  mkState (sockets s) (matches s) (heap s) (next_ref s) (timers s) v (now s) (out s).
Definition set_now v (s : State) : State :=
  mkState (sockets s) (matches s) (heap s) (next_ref s) (timers s) (next_tid s) v (out s).
Definition set_out v (s : State) : State :=
  mkState (sockets s) (matches s) (heap s) (next_ref s) (timers s) (next_tid s) (now s) v.

(** *** Primitives *)

Definition emit (t : Target) (e : Msg) (s : State) : State :=
  set_out (out s ++ [(t, e)]) s.

(** [setTimeout] / [setInterval]: the new handle is [next_tid s]. *)
Definition setTimer (j : Job) (delay : Z) (s : State) : State :=
  set_next_tid (S (next_tid s))
    (set_timers (timers s ++ [mkTimer (next_tid s) (now s + delay) j]) s).

(** [clearTimeout] / [clearInterval] *)
Definition clearTimer (h : nat) (s : State) : State :=
  set_timers (filter (fun t => tid t ≠ h) (timers s)) s.

(** [if (handle) clearTimeout(handle)] *)
Definition clearHandle (h : option nat) (s : State) : State :=
  match h with Some t => clearTimer t s | None => s end.

(** [matches.get(code)], with the object it refers to. *)
Definition get_match (s : State) (c : string) : option (nat * Match) :=
  match matches s !! c with
  | Some r => match heap s !! r with Some m => Some (r, m) | None => None end
  | None => None
  end.

(** Assignment to fields of a match object. *)
Definition store (r : nat) (m : Match) (s : State) : State :=
  set_heap (<[r := m]> (heap s)) s.

Definition update_socket (sid : string) (f : Socket -> Socket) (s : State) : State :=
  set_sockets (alter f sid (sockets s)) s.

Definition winner_of (sc : Scores) : Winner :=
  if score2 sc <? score1 sc then Wplayer1
  else if score1 sc <? score2 sc then Wplayer2
  else Wtie.

(** *** Round flow *)

Definition startRoundCountdown (matchCode : string) (s : State) : State :=
  match get_match s matchCode with
  | None => s
  | Some (r, m) =>
      let isOddRound := Z.rem (currentRound m) 2 =? 1 in
      let m := set_roles (if isOddRound then Some (player1 m) else player2 m)
                         (if isOddRound then player2 m else Some (player1 m)) m in
      let m := set_state countdown m in
      let s := store r m s in
      let s := emit (ToRoom (currentAttacker m))
                 (roundStart (currentRound m) (totalRounds m) "attacker" 3) s in
      let s := emit (ToRoom (currentDefender m))
                 (roundStart (currentRound m) (totalRounds m) "defender" 3) s in
      setTimer (CountdownTick matchCode 3) 1000 s
  end.

Definition startRound (matchCode : string) (s : State) : State :=
  match get_match s matchCode with
  | None => s
  | Some (r, m) =>
      let m := set_currentMove None (set_state playing m) in
      let s := emit (ToRoom (currentAttacker m)) (startAttacking 30 (currentRound m)) s in
      let s := emit (ToRoom (currentDefender m)) (startDefending 30 (currentRound m)) s in
      let h := next_tid s in
      let s := setTimer (RoundTick matchCode 30) 1000 s in
      store r (set_roundTimer (Some h) m) s
  end.

Definition endMatch (matchCode : string) (s : State) : State :=
  match get_match s matchCode with
  | None => s
  | Some (r, m) =>
      let m := set_state matchEnd m in
      let s := store r m s in
      emit (ToRoom (Some matchCode)) (matchEndMsg (scores m) (winner_of (scores m))) s
  end.

Definition endRound (matchCode : string) (s : State) : State :=
  match get_match s matchCode with
  | None => s
  | Some (r, m) =>
      let s := clearHandle (roundTimer m) s in
      let m := match roundTimer m with Some _ => set_roundTimer None m | None => m end in
      let s := clearHandle (moveTimeout m) s in
      let m := match moveTimeout m with Some _ => set_moveTimeout None m | None => m end in
      let m := set_state roundEnd m in
      let s := store r m s in
      let s := emit (ToRoom (Some matchCode)) (roundEndMsg (currentRound m) (scores m)) s in
      if totalRounds m <=? currentRound m
      then setTimer (EndMatchDelay matchCode) 2000 s
      else setTimer (NextRoundDelay r matchCode) 3000 s
  end.

(** *** Socket event handlers *)

Definition createMatch (sid : string) (random36 : string) (s : State) : State :=
  let matchCode := generateMatchCode random36 in
  let r := next_ref s in
  let m := mkMatch matchCode sid None 1 4 (mkScores 0 0) waiting None None None None None
             (false, false) in
  let s := set_next_ref (S r) (store r m s) in
  let s := set_matches (<[matchCode := r]> (matches s)) s in
  let s := update_socket sid (fun k => socket_assign matchCode Rplayer1 (socket_join matchCode k)) s in
  emit (ToSelf sid) (matchCreated matchCode) s.

Definition joinMatch (sid : string) (matchCode : string) (s : State) : State :=
  let code := toUpperCase matchCode in
  match get_match s code with
  | None => emit (ToSelf sid) (joinError "Match not found") s
  | Some (r, m) =>
      if truthy (player2 m) then emit (ToSelf sid) (joinError "Match is full") s
      else
        let m := set_player2 (Some sid) m in
        let s := store r m s in
        let s := update_socket sid (fun k => socket_assign code Rplayer2 (socket_join code k)) s in
        let s := emit (ToRoom (Some code)) (matchStarted code (player1 m) (player2 m)) s in
        startRoundCountdown code s
  end.

(** [matches.get(socket.matchCode)]: nothing is found when the socket has
    no [matchCode] property. *)
Definition socket_match (s : State) (sid : string) : option (string * nat * Match) :=
  match sockets s !! sid with
  | Some k =>
      match matchCode k with
      | Some c => match get_match s c with Some (r, m) => Some (c, r, m) | None => None end
      | None => None
      end
  | None => None
  end.

Definition socket_role (s : State) (sid : string) : option Role :=
  match sockets s !! sid with Some k => playerRole k | None => None end.

Definition socket_code (s : State) (sid : string) : option string :=
  match sockets s !! sid with Some k => matchCode k | None => None end.

Definition attackMove (sid : string) (move : string) (s : State) : State :=
  match socket_match s sid with
  | None => s
  | Some (_, r, m) =>
      if negb (bool_decide (state m = playing)) then s
      else if negb (bool_decide (Some sid = currentAttacker m)) then s
      else
        let s := clearHandle (moveTimeout m) s in
        let m := set_currentMove (Some (mkMove move (now s) false)) m in
        let s := emit (ToRoom (currentDefender m)) (incomingMove move 2000) s in
        let s := emit (ToRoom (currentAttacker m)) (moveSent move) s in
        let h := next_tid s in
        let s := setTimer (MoveTimeout r move) 2000 s in
        store r (set_moveTimeout (Some h) m) s
  end.

Definition award_point (m : Match) : Scores :=
  if bool_decide (currentDefender m = Some (player1 m))
  then mkScores (score1 (scores m) + 1) (score2 (scores m))
  else mkScores (score1 (scores m)) (score2 (scores m) + 1).

Definition defendMove (sid : string) (detectedMove : string) (s : State) : State :=
  match socket_match s sid with
  | None => s
  | Some (_, r, m) =>
      if negb (bool_decide (state m = playing)) then s
      else if negb (bool_decide (Some sid = currentDefender m)) then s
      else match currentMove m with
      | None => s
      | Some mv =>
          if responded mv then s
          else
            let expectedMove := direction mv in
            let isCorrect := bool_decide (detectedMove = expectedMove) in
            let reactionTime := now s - timestamp mv in
            let m := if isCorrect then set_scores (award_point m) m else m in
            let s := clearHandle (moveTimeout m) s in
            let m := match moveTimeout m with Some _ => set_moveTimeout None m | None => m end in
            let s := emit (ToRoom (currentDefender m))
                       (moveResult expectedMove detectedMove isCorrect reactionTime (scores m)) s in
            let s := emit (ToRoom (currentAttacker m))
                       (opponentResult expectedMove detectedMove isCorrect reactionTime (scores m)) s in
            store r (set_currentMove None m) s
      end
  end.

Definition proposeRematch (sid : string) (s : State) : State :=
  match socket_match s sid with
  | None => s
  | Some (c, r, m) =>
      if negb (bool_decide (state m = matchEnd)) then s
      else
        let byP1 := bool_decide (socket_role s sid = Some Rplayer1) in
        let m := if byP1 then set_rematchProposals (true, snd (rematchProposals m)) m
                 else set_rematchProposals (fst (rematchProposals m), true) m in
        let s := emit (ToRoom (if byP1 then player2 m else Some (player1 m))) rematchProposed s in
        if fst (rematchProposals m) && snd (rematchProposals m) then
          let m := set_rematchProposals (false, false)
                     (set_scores (mkScores 0 0) (set_currentRound 1 m)) in
          let s := store r m s in
          let s := emit (ToRoom (Some c)) rematchStarting s in
          setTimer (RematchDelay sid) 1000 s
        else store r m s
  end.

(** The ['disconnect'] handler; the transport has already closed the
    socket ([socket_close]).  [if (socket.matchCode)] skips the empty
    code as well as a missing one. *)
Definition disconnect (sid : string) (s : State) : State :=
  let s := update_socket sid socket_close s in
  match socket_match s sid with
  | None => s
  | Some (c, r, m) =>
      if negb (truthy (Some c)) then s
      else
        let s := clearHandle (roundTimer m) s in
        let s := clearHandle (moveTimeout m) s in
        let s := emit (ToRoom (Some c)) opponentDisconnected s in
        set_matches (delete c (matches s)) s
  end.

(** *** Timer callbacks *)

(** An interval stays armed, one period after the run, with the counter
    its callback left in the closure, unless the callback clears it. *)
Definition rearm (t : Timer) (j : Job) (s : State) : State :=
  set_timers (timers s ++ [mkTimer (tid t) (now s + 1000) j]) s.

Definition run_job (t : Timer) (s : State) : State :=
  match job t with
  | CountdownTick matchCode count =>
      let s := rearm t (CountdownTick matchCode (count - 1)) s in
      let s := emit (ToRoom (Some matchCode)) (countdownMsg count) s in
      if count - 1 <? 0 then startRound matchCode (clearTimer (tid t) s) else s
  | RoundTick matchCode timeLeft =>
      let s := rearm t (RoundTick matchCode (timeLeft - 1)) s in
      let s := emit (ToRoom (Some matchCode)) (roundTimerMsg (timeLeft - 1)) s in
      if timeLeft - 1 <=? 0 then endRound matchCode s else s
  | MoveTimeout r move =>
      match heap s !! r with
      | None => s
      | Some m =>
          match currentMove m with
          | None => s
          | Some mv =>
              if responded mv then s
              else
                let s := emit (ToRoom (currentDefender m)) (moveMissed move) s in
                let s := emit (ToRoom (currentAttacker m)) (opponentMissed move) s in
                store r (set_currentMove None m) s
          end
      end
  | EndMatchDelay matchCode => endMatch matchCode s
  | NextRoundDelay r matchCode =>
      let s := match heap s !! r with
               | Some m => store r (set_currentRound (currentRound m + 1) m) s
               | None => s
               end in
      startRoundCountdown matchCode s
  | RematchDelay sid =>
      match socket_code s sid with
      | Some c => startRoundCountdown c s
      | None => s
      end
  end.

(** *** The event loop *)

Inductive Inbound :=
  | InCreateMatch (random36 : string)
  | InJoinMatch (matchCode : string)
  | InAttackMove (move : string)
  | InDefendMove (detectedMove : string)
  | InProposeRematch
  | InDisconnect.

Inductive Event :=
  | Connect (sid : string)
  | Recv (sid : string) (msg : Inbound)
  | Fire (h : nat).

Definition handle (sid : string) (msg : Inbound) (s : State) : State :=
  match msg with
  | InCreateMatch r => createMatch sid r s
  | InJoinMatch c => joinMatch sid c s
  | InAttackMove mv => attackMove sid mv s
  | InDefendMove mv => defendMove sid mv s
  | InProposeRematch => proposeRematch sid s
  | InDisconnect => disconnect sid s
  end.

Definition find_timer (h : nat) (s : State) : option Timer :=
  List.find (fun t => bool_decide (tid t = h)) (timers s).

Definition is_connected (s : State) (sid : string) : bool :=
  match sockets s !! sid with Some k => connected k | None => false end.

(** One turn of the event loop at clock reading [at_]: a new connection,
    a message from a connected socket, or a pending timer whose delay has
    elapsed (timers never run early, they may run late).  [None] when the
    event cannot happen in [s]. *)
Definition step (s : State) (at_ : Z) (e : Event) : option State :=
  if at_ <? now s then None
  else
    let s := set_now at_ s in
    match e with
    | Connect sid =>
        match sockets s !! sid with
        | Some _ => None
        | None => Some (set_sockets (<[sid := new_socket sid]> (sockets s)) s)
        end
    | Recv sid msg =>
        if is_connected s sid then Some (handle sid msg s) else None
    | Fire h =>
        match find_timer h s with
        | Some t =>
            if due t <=? at_ then Some (run_job t (clearTimer h s)) else None
        | None => None
        end
    end.

Fixpoint run (s : State) (evs : list (Z * Event)) : option State :=
  match evs with
  | [] => Some s
  | (at_, e) :: evs' =>
      match step s at_ e with
      | Some s' => run s' evs'
      | None => None
      end
  end.

(** The timer the loop runs next when nothing else arrives: the least
    due time, the oldest handle among equals. *)
Definition earlier (a b : Timer) : bool :=
  (due a <? due b) || ((due a =? due b) && Nat.ltb (tid a) (tid b)).

Definition next_timer (s : State) : option Timer :=
  fold_right (fun t acc =>
    match acc with
    | Some u => if earlier u t then Some u else Some t
    | None => Some t
    end) None (timers s).

(** Let the clock run: fire the next [n] timers, each at its due time. *)
Fixpoint elapse (n : nat) (s : State) : option State :=
  match n with
  | O => Some s
  | S n' =>
      match next_timer s with
      | Some t =>
          match step s (due t) (Fire (tid t)) with
          | Some s' => elapse n' s'
          | None => None
          end
      | None => None
      end
  end.

(** *** Schedules that respect the delays

    [step] lets a timer run late.  A schedule is punctual when every
    timer runs exactly when it is due and nothing happens while a timer
    is overdue. *)

Definition overdue (s : State) (at_ : Z) : bool :=
  existsb (fun t => due t <? at_) (timers s).

Definition punctual (s : State) (at_ : Z) (e : Event) : bool :=
  negb (overdue s at_) &&
  match e with
  | Fire h => match find_timer h s with Some t => due t =? at_ | None => false end
  | _ => true
  end.

Fixpoint on_schedule (s : State) (evs : list (Z * Event)) : bool :=
  match evs with
  | [] => true
  | (at_, e) :: evs' =>
      punctual s at_ e &&
      match step s at_ e with
      | Some s' => on_schedule s' evs'
      | None => false
      end
  end.

(** *** Notions used by the statements *)

Definition total_points (m : Match) : Z := score1 (scores m) + score2 (scores m).

(** The roles of a round: player 1 attacks in odd rounds. *)
Definition with_roles (m : Match) : Match :=
  if Z.rem (currentRound m) 2 =? 1
  then set_roles (Some (player1 m)) (player2 m) m
  else set_roles (player2 m) (Some (player1 m)) m.

(** The match after the reset of a completed rematch handshake. *)
Definition reset_match (m : Match) : Match :=
  set_rematchProposals (false, false) (set_scores (mkScores 0 0) (set_currentRound 1 m)).

Definition record_proposal (role : Role) (m : Match) : Match :=
  match role with
  | Rplayer1 => set_rematchProposals (true, snd (rematchProposals m)) m
  | Rplayer2 => set_rematchProposals (fst (rematchProposals m), true) m
  end.

Definition other_player (role : Role) (m : Match) : option string :=
  match role with
  | Rplayer1 => player2 m
  | Rplayer2 => Some (player1 m)
  end.

Definition is_move_timeout (r : nat) (t : Timer) : Prop :=
  match job t with MoveTimeout r' _ => r' = r | _ => False end.

Definition not_move_job (j : Job) : Prop :=
  match j with MoveTimeout _ _ => False | _ => True end.

(** Every pending timer has a handle below the next one, handles are
    pairwise distinct, match objects lie below the next reference, and a
    pending reaction timeout is the one its match object points to. *)
Record wf (s : State) : Prop := mk_wf {
  wf_tids : forall t, t ∈ timers s -> (tid t < next_tid s)%nat;
  wf_nodup : NoDup (tid <$> timers s);
  wf_refs : forall r m, heap s !! r = Some m -> (r < next_ref s)%nat;
  wf_move : forall t r, t ∈ timers s -> is_move_timeout r t ->
            exists m, heap s !! r = Some m /\ moveTimeout m = Some (tid t)
}.

Definition no_move_timer (r : nat) (s : State) : Prop :=
  forall t, t ∈ timers s -> ~ is_move_timeout r t.

(** Every move present in [s'] is a move that was already there in [s]. *)
Definition moves_kept (s s' : State) : Prop :=
  forall r m' mv, heap s' !! r = Some m' -> currentMove m' = Some mv ->
    exists m, heap s !! r = Some m /\ currentMove m = Some mv.

(** Registry, handles and pending moves agree: registered references
    are allocated and carry their own code; a handle stored on a match
    object is an old handle, a stored [moveTimeout] names no timer but a
    reaction timeout of that object and a stored [roundTimer] names no
    reaction timeout; and a registered match in state [playing] with an
    unanswered move has its reaction timeout pending.  The last part is
    not asked of the object [ex], if any. *)
Record armed_but (ex : option nat) (s : State) : Prop := mk_armed {
  ab_reg : forall c r, matches s !! c = Some r -> (r < next_ref s)%nat;
  ab_code : forall c r m, matches s !! c = Some r -> heap s !! r = Some m -> code m = c;
  ab_fresh : forall r m h, heap s !! r = Some m ->
             moveTimeout m = Some h \/ roundTimer m = Some h -> (h < next_tid s)%nat;
  ab_kind : forall t r m, t ∈ timers s -> heap s !! r = Some m ->
            (moveTimeout m = Some (tid t) -> is_move_timeout r t)
            /\ (roundTimer m = Some (tid t) -> not_move_job (job t));
  ab_armed : forall c r m mv, ex <> Some r -> get_match s c = Some (r, m) ->
             state m = playing -> currentMove m = Some mv -> responded mv = false ->
             exists t, t ∈ timers s /\ moveTimeout m = Some (tid t)
                       /\ job t = MoveTimeout r (direction mv)
}.

Definition sound (s : State) : Prop := wf s /\ armed_but None s.

(** The object [m'] carries the code of [m] and no handle that [m] did
    not carry. *)
Definition handles_shrink (m m' : Match) : Prop :=
  code m' = code m
  /\ (moveTimeout m' = moveTimeout m \/ moveTimeout m' = None)
  /\ (roundTimer m' = roundTimer m \/ roundTimer m' = None).

(** Timer callbacks that begin with a registry lookup of [c]. *)
Definition looks_up (x : State) (c : string) (j : Job) : Prop :=
  match j with
  | EndMatchDelay c' => c' = c
  | NextRoundDelay _ c' => c' = c
  | RematchDelay p => socket_code x p = Some c
  | _ => False
  end.

(** Messages whose handler begins with [matches.get(socket.matchCode)]
    and returns when nothing is found. *)
Definition match_message (msg : Inbound) : Prop :=
  match msg with
  | InAttackMove _ | InDefendMove _ | InProposeRematch => True
  | _ => False
  end.

(** *** A match between two sockets, used in the examples *)

Definition reach (o : option State) : State := default init o.

Definition opening : list (Z * Event) :=
  [(0, Connect "A"); (0, Connect "B");
   (10, Recv "A" (InCreateMatch "0.abc123xyz4k"));
   (20, Recv "B" (InJoinMatch "abc123"))].

(** Round 1 is being counted down. *)
Definition s_countdown : State := reach (run init opening).

Definition countdown_ticks : list (Z * Event) :=
  [(1020, Fire 0%nat); (2020, Fire 0%nat); (3020, Fire 0%nat); (4020, Fire 0%nat)].

(** Round 1 is being played, "A" attacks. *)
Definition s_playing : State := reach (run s_countdown countdown_ticks).

(** "A" has sent [up] at 4500; the reaction window ends at 6500. *)
Definition s_pending : State := reach (step s_playing 4500 (Recv "A" (InAttackMove "up"))).

(** The same match two round ticks later, at 6020. *)
Definition s_pending_late : State :=
  reach (run s_pending [(5020, Fire 1%nat); (6020, Fire 1%nat)]).

Definition m_pending : Match :=
  mkMatch "ABC123" "A" (Some "B") 1 4 (mkScores 0 0) playing (Some "A") (Some "B")
    (Some 1%nat) (Some (mkMove "up" 4500 false)) (Some 2%nat) (false, false).

(** "A" sends [down] at 4900, before "B" has answered [up]. *)
Definition s_replaced : State := reach (step s_pending 4900 (Recv "A" (InAttackMove "down"))).

Definition first_attack : list (Z * Event) :=
  (opening ++ countdown_ticks ++ [(4500, Recv "A" (InAttackMove "up"))])%list.

(** Round 1 has ended (at 34020), round 2 starts at 37020. *)
Definition s_roundEnd : State := reach (elapse 34 s_countdown).

Definition m_roundEnd : Match :=
  mkMatch "ABC123" "A" (Some "B") 1 4 (mkScores 0 0) roundEnd (Some "A") (Some "B")
    None None None (false, false).

(** All four rounds have run and the match has ended, at 147020. *)
Definition s_matchEnd : State := reach (elapse 140 s_countdown).

Definition m_matchEnd : Match :=
  mkMatch "ABC123" "A" (Some "B") 4 4 (mkScores 0 0) matchEnd (Some "B") (Some "A")
    None None None (false, false).

(** Both players ask for a rematch, twice, within the second that
    follows the first handshake. *)
Definition rematch_twice : list (Z * Event) :=
  [(147100, Recv "A" InProposeRematch); (147200, Recv "B" InProposeRematch);
   (147300, Recv "A" InProposeRematch); (147400, Recv "B" InProposeRematch)].

Definition s_rematch_twice : State := reach (run s_matchEnd rematch_twice).

(** The clock then runs for the next ninety timer callbacks. *)
Definition s_overrun : State := reach (elapse 90 s_rematch_twice).


(** *** Notions for the properties of runs *)

(** The callback of the timer [h] runs at each of the [times]. *)
Definition ticks (h : nat) (times : list Z) : list (Z * Event) :=
  map (fun a => (a, Fire h)) times.

(** Every match object of [s] is still there in [s'], changed at most
    as [R] allows. *)
Definition evolves (R : Match -> Match -> Prop) (s s' : State) : Prop :=
  forall r m, heap s !! r = Some m -> exists m', heap s' !! r = Some m' /\ R m m'.

(** What identifies a match stays: its code, its creator, its number of
    rounds, and its second player once there is one. *)
Definition same_identity (m m' : Match) : Prop :=
  code m' = code m /\ player1 m' = player1 m /\ totalRounds m' = totalRounds m
  /\ (truthy (player2 m) = true -> player2 m' = player2 m).

Definition same_scores (m m' : Match) : Prop := scores m' = scores m.

(** The match object a message is about: the new one for
    ['createMatch'], the one registered under the given code for
    ['joinMatch'], the one registered under the sender's code otherwise. *)
Definition target (s : State) (sid : string) (msg : Inbound) : option nat :=
  match msg with
  | InCreateMatch _ => Some (next_ref s)
  | InJoinMatch c => fst <$> get_match s (toUpperCase c)
  | _ => (fun x => snd (fst x)) <$> socket_match s sid
  end.

(** Example states of the match of [opening], as match objects. *)
Definition m_countdown : Match :=
  mkMatch "ABC123" "A" (Some "B") 1 4 (mkScores 0 0) countdown (Some "A") (Some "B")
    None None None (false, false).

Definition m_playing : Match :=
  mkMatch "ABC123" "A" (Some "B") 1 4 (mkScores 0 0) playing (Some "A") (Some "B")
    (Some 1%nat) None None (false, false).

(** *** Notions for what follows a disconnection, and for moves that get
    no outcome *)

(** The event is a ['createMatch'] that draws the code [c]. *)
Definition draws (c : string) (e : Event) : bool :=
  match e with
  | Recv _ (InCreateMatch random36) => bool_decide (generateMatchCode random36 = c)
  | _ => false
  end.

(** The event is a ['createMatch'] or a ['joinMatch'] of the socket [p],
    the two handlers that assign [socket.matchCode]. *)
Definition assigns_code (p : string) (e : Event) : bool :=
  match e with
  | Recv q (InCreateMatch _) | Recv q (InJoinMatch _) => bool_decide (q = p)
  | _ => false
  end.

(** No event of the run satisfies [f]. *)
Definition none_of (f : Event -> bool) (evs : list (Z * Event)) : bool :=
  forallb (fun ae => negb (f (snd ae))) evs.

(** Round 1 of the match of [opening] up to its last second: "A" sends
    [up] at 33500, the round ends at 34020, "B" answers at 34100. *)
Definition last_second : list (Z * Event) :=
  (opening ++ countdown_ticks ++ ticks 1 (every_second 5020 29))%list.

Definition s_last_second : State := reach (run init last_second).

Definition late_attack : list (Z * Event) :=
  [(33500, Recv "A" (InAttackMove "up")); (34020, Fire 1%nat);
   (34100, Recv "B" (InDefendMove "up"))].

Definition s_dropped : State := reach (run s_last_second late_attack).

(** After the match has ended both players ask for a rematch, "A"
    disconnects before the restart, "B" creates a new match, and the
    restart delay of the old match runs. *)
Definition orphan_restart : list (Z * Event) :=
  [(147100, Recv "A" InProposeRematch); (147200, Recv "B" InProposeRematch);
   (147300, Recv "A" InDisconnect); (147400, Recv "B" (InCreateMatch "0.zzz999"));
   (148200, Fire 12%nat)].

Definition s_orphan_restart : State := reach (run s_matchEnd orphan_restart).

End Reactive.

(** * The guessing server (player 1 sets four moves, player 2 repeats them) *)

Module Guessing.

Inductive MatchState := waiting | inputting | countdown | guessing | roundEnd | matchEnd.

#[global] Instance GuessState_eq_dec : EqDecision MatchState.
Proof. solve_decision. Defined.

Record Match := mkMatch {
  code : string;
  player1 : string;
  player2 : option string;
  currentRound : Z;
  totalRounds : Z;
  scores : Scores;
  combination : option (list string);
  state : MatchState;
  rematchProposals : bool * bool
}.

Definition set_player2 v (m : Match) : Match :=
  mkMatch (code m) (player1 m) v (currentRound m) (totalRounds m) (scores m)
    (combination m) (state m) (rematchProposals m).
Definition set_currentRound v (m : Match) : Match :=
  mkMatch (code m) (player1 m) (player2 m) v (totalRounds m) (scores m)
    (combination m) (state m) (rematchProposals m).
Definition set_scores v (m : Match) : Match :=
  mkMatch (code m) (player1 m) (player2 m) (currentRound m) (totalRounds m) v
    (combination m) (state m) (rematchProposals m).
Definition set_combination v (m : Match) : Match :=
  mkMatch (code m) (player1 m) (player2 m) (currentRound m) (totalRounds m) (scores m)
    v (state m) (rematchProposals m).
Definition set_state v (m : Match) : Match :=
  mkMatch (code m) (player1 m) (player2 m) (currentRound m) (totalRounds m) (scores m)
    (combination m) v (rematchProposals m).
Definition set_rematchProposals v (m : Match) : Match :=
  mkMatch (code m) (player1 m) (player2 m) (currentRound m) (totalRounds m) (scores m)
    (combination m) (state m) v.

(** One entry of the [results] array of ['roundResult']; [expected] is
    [undefined] past the end of the combination. *)
Record GuessResult := mkGuessResult {
  expected : option string;
  guessed : string;
  correct : bool
}.

Inductive Msg :=
  | matchCreated (matchCode : string)
  | joinError (message : string)
  | matchStarted (matchCode : string) (p1 : string) (p2 : option string)
  | inputCombination (round : Z)
  | waitingForCombination (round : Z)
  | combinationError (message : string)
  | getReady (round countdownSeconds : Z)
  | watchingOpponent (round : Z)
  | countdownMsg (count : Z)
  | startGuessing (duration round : Z)
  | opponentGuessing (duration : Z)
  | roundResult (round : Z) (combination guesses : list string)
      (results : list GuessResult) (correctMoves : Z) (sc : Scores)
  | matchEndMsg (sc : Scores) (winner : Winner)
  | rematchProposed (by_ : Role)
  | rematchStarting
  | opponentDisconnected.

(** Timer callbacks with their captured variables: the countdown interval
    of ['submitCombination'] closes over the socket and the match object,
    the two delays over the match object. *)
Inductive Job :=
  | CountdownTick (socket : string) (match_ : nat) (count : Z)
  | NextRoundDelay (match_ : nat)
  | RematchDelay (match_ : nat).

Record Timer := mkTimer { tid : nat; due : Z; job : Job }.

Record State := mkState {
  sockets : gmap string Socket;
  matches : gmap string nat;
  heap : gmap nat Match;
  next_ref : nat;
  timers : list Timer;
  next_tid : nat;
  now : Z;
  out : list (Target * Msg)
}.

Definition init : State := mkState ∅ ∅ ∅ 0 [] 0 0 [].

Definition set_sockets v (s : State) : State :=
  mkState v (matches s) (heap s) (next_ref s) (timers s) (next_tid s) (now s) (out s).
Definition set_matches v (s : State) : State :=
  mkState (sockets s) v (heap s) (next_ref s) (timers s) (next_tid s) (now s) (out s).
Definition set_heap v (s : State) : State :=
  mkState (sockets s) (matches s) v (next_ref s) (timers s) (next_tid s) (now s) (out s).
Definition set_next_ref v (s : State) : State :=
  mkState (sockets s) (matches s) (heap s) v (timers s) (next_tid s) (now s) (out s).
Definition set_timers v (s : State) : State :=
  mkState (sockets s) (matches s) (heap s) (next_ref s) v (next_tid s) (now s) (out s).
Definition set_next_tid v (s : State) : State :=
  mkState (sockets s) (matches s) (heap s) (next_ref s) (timers s) v (now s) (out s).
Definition set_now v (s : State) : State :=
  mkState (sockets s) (matches s) (heap s) (next_ref s) (timers s) (next_tid s) v (out s).
Definition set_out v (s : State) : State :=
  mkState (sockets s) (matches s) (heap s) (next_ref s) (timers s) (next_tid s) (now s) v.

Definition emit (t : Target) (e : Msg) (s : State) : State :=
  set_out (out s ++ [(t, e)]) s.

Definition setTimer (j : Job) (delay : Z) (s : State) : State :=
  set_next_tid (S (next_tid s))
    (set_timers (timers s ++ [mkTimer (next_tid s) (now s + delay) j]) s).

Definition clearTimer (h : nat) (s : State) : State :=
  set_timers (filter (fun t => tid t ≠ h) (timers s)) s.

Definition get_match (s : State) (c : string) : option (nat * Match) :=
  match matches s !! c with
  | Some r => match heap s !! r with Some m => Some (r, m) | None => None end
  | None => None
  end.

Definition store (r : nat) (m : Match) (s : State) : State :=
  set_heap (<[r := m]> (heap s)) s.

Definition update_socket (sid : string) (f : Socket -> Socket) (s : State) : State :=
  set_sockets (alter f sid (sockets s)) s.

Definition socket_match (s : State) (sid : string) : option (string * nat * Match) :=
  match sockets s !! sid with
  | Some k =>
      match matchCode k with
      | Some c => match get_match s c with Some (r, m) => Some (c, r, m) | None => None end
      | None => None
      end
  | None => None
  end.

Definition socket_role (s : State) (sid : string) : option Role :=
  match sockets s !! sid with Some k => playerRole k | None => None end.

Definition socket_code (s : State) (sid : string) : option string :=
  match sockets s !! sid with Some k => matchCode k | None => None end.

(** The winner expression of the match-end branch of ['submitGuess']. *)
Definition winner_of (sc : Scores) : Winner :=
  if score2 sc <? score1 sc then Wplayer1
  else if score1 sc <? score2 sc then Wplayer2
  else Wtie.

(** *** Socket event handlers *)

Definition createMatch (sid : string) (random36 : string) (s : State) : State :=
  let matchCode := generateMatchCode random36 in
  let r := next_ref s in
  let m := mkMatch matchCode sid None 1 3 (mkScores 0 0) None waiting (false, false) in
  let s := set_next_ref (S r) (store r m s) in
  let s := set_matches (<[matchCode := r]> (matches s)) s in
  let s := update_socket sid (fun k => socket_assign matchCode Rplayer1 (socket_join matchCode k)) s in
  emit (ToSelf sid) (matchCreated matchCode) s.

Definition joinMatch (sid : string) (matchCode : string) (s : State) : State :=
  let code := toUpperCase matchCode in
  match get_match s code with
  | None => emit (ToSelf sid) (joinError "Match not found") s
  | Some (r, m) =>
      if truthy (player2 m) then emit (ToSelf sid) (joinError "Match is full") s
      else
        let m := set_player2 (Some sid) m in
        let s := update_socket sid (fun k => socket_assign code Rplayer2 (socket_join code k)) s in
        let s := emit (ToRoom (Some code)) (matchStarted code (player1 m) (player2 m)) s in
        let m := set_state inputting m in
        let s := store r m s in
        let s := emit (ToRoom (Some (player1 m))) (inputCombination (currentRound m)) s in
        emit (ToRoom (player2 m)) (waitingForCombination (currentRound m)) s
  end.

Definition submitCombination (sid : string) (comb : list string) (s : State) : State :=
  match socket_match s sid with
  | None => s
  | Some (_, r, m) =>
      if negb (bool_decide (socket_role s sid = Some Rplayer1)) then s
      else if negb (bool_decide (length comb = 4%nat))
      then emit (ToSelf sid) (combinationError "Combination must have 4 moves") s
      else
        let m := set_state countdown (set_combination (Some comb) m) in
        let s := store r m s in
        let s := emit (ToRoom (player2 m)) (getReady (currentRound m) 3) s in
        let s := emit (ToRoom (Some (player1 m))) (watchingOpponent (currentRound m)) s in
        setTimer (CountdownTick sid r 3) 1000 s
  end.

(** The body of the [for] loop of ['submitGuess'] at index [i]:
    [guessedMoves[i] === match.combination[i]] compares two array reads,
    each [undefined] past the end; [guessedMoves[i] || 'none'] also
    replaces the empty string. *)
Definition guess_at (comb guessedMoves : list string) (i : nat) : GuessResult :=
  let isCorrect := bool_decide (guessedMoves !! i = comb !! i) in
  mkGuessResult (comb !! i)
    (match guessedMoves !! i with
     | Some g => if bool_decide (g = EmptyString) then "none" else g
     | None => "none"
     end)
    isCorrect.

Definition guess_results (comb guessedMoves : list string) : list GuessResult :=
  map (guess_at comb guessedMoves) [0; 1; 2; 3]%nat.

Definition count_correct (results : list GuessResult) : Z :=
  Z.of_nat (length (filter (fun g => correct g = true) results)).

(** A handler either returns or throws; reading [match.combination[i]]
    while [match.combination] is [null] throws a [TypeError], which
    nothing catches. *)
Inductive Outcome :=
  | Done (s : State)
  | TypeError.

Definition submitGuess (sid : string) (guessedMoves : list string) (s : State) : Outcome :=
  match socket_match s sid with
  | None => Done s
  | Some (c, r, m) =>
      if negb (bool_decide (socket_role s sid = Some Rplayer2)) then Done s
      else match combination m with
      | None => TypeError
      | Some comb =>
          let results := guess_results comb guessedMoves in
          let correctMoves := count_correct results in
          let m := set_scores (mkScores (score1 (scores m)) (score2 (scores m) + correctMoves)) m in
          let m := set_state roundEnd m in
          let s := emit (ToRoom (Some c))
                     (roundResult (currentRound m) comb guessedMoves results correctMoves (scores m)) s in
          if totalRounds m <=? currentRound m then
            let m := set_state matchEnd m in
            let s := store r m s in
            Done (emit (ToRoom (Some c)) (matchEndMsg (scores m) (winner_of (scores m))) s)
          else
            let s := store r m s in
            Done (setTimer (NextRoundDelay r) 3000 s)
      end
  end.

Definition proposeRematch (sid : string) (s : State) : State :=
  match socket_match s sid with
  | None => s
  | Some (c, r, m) =>
      if negb (bool_decide (state m = matchEnd)) then s
      else
        let byP1 := bool_decide (socket_role s sid = Some Rplayer1) in
        let m := if byP1 then set_rematchProposals (true, snd (rematchProposals m)) m
                 else set_rematchProposals (fst (rematchProposals m), true) m in
        let s := emit (ToRoom (if byP1 then player2 m else Some (player1 m)))
                   (rematchProposed (if byP1 then Rplayer1 else Rplayer2)) s in
        if fst (rematchProposals m) && snd (rematchProposals m) then
          let m := set_state inputting
                     (set_rematchProposals (false, false)
                        (set_combination None
                           (set_scores (mkScores 0 0) (set_currentRound 1 m)))) in
          let s := store r m s in
          let s := emit (ToRoom (Some c)) rematchStarting s in
          setTimer (RematchDelay r) 1000 s
        else store r m s
  end.

Definition disconnect (sid : string) (s : State) : State :=
  let s := update_socket sid socket_close s in
  match socket_match s sid with
  | None => s
  | Some (c, _, _) =>
      if negb (truthy (Some c)) then s
      else
        let s := emit (ToRoom (Some c)) opponentDisconnected s in
        set_matches (delete c (matches s)) s
  end.

(** *** Timer callbacks *)

Definition rearm (t : Timer) (j : Job) (s : State) : State :=
  set_timers (timers s ++ [mkTimer (tid t) (now s + 1000) j]) s.

Definition run_job (t : Timer) (s : State) : State :=
  match job t with
  | CountdownTick sid r count =>
      let s := rearm t (CountdownTick sid r (count - 1)) s in
      let s := emit (ToRoom (socket_code s sid)) (countdownMsg count) s in
      if count - 1 <? 0 then
        let s := clearTimer (tid t) s in
        match heap s !! r with
        | None => s
        | Some m =>
            let m := set_state guessing m in
            let s := store r m s in
            let s := emit (ToRoom (player2 m)) (startGuessing 8 (currentRound m)) s in
            emit (ToRoom (Some (player1 m))) (opponentGuessing 8) s
        end
      else s
  | NextRoundDelay r =>
      match heap s !! r with
      | None => s
      | Some m =>
          let m := set_state inputting
                     (set_combination None (set_currentRound (currentRound m + 1) m)) in
          let s := store r m s in
          let s := emit (ToRoom (Some (player1 m))) (inputCombination (currentRound m)) s in
          emit (ToRoom (player2 m)) (waitingForCombination (currentRound m)) s
      end
  | RematchDelay r =>
      match heap s !! r with
      | None => s
      | Some m =>
          let s := emit (ToRoom (Some (player1 m))) (inputCombination (currentRound m)) s in
          emit (ToRoom (player2 m)) (waitingForCombination (currentRound m)) s
      end
  end.

(** *** The event loop *)

Inductive Inbound :=
  | InCreateMatch (random36 : string)
  | InJoinMatch (matchCode : string)
  | InSubmitCombination (comb : list string)
  | InSubmitGuess (guessedMoves : list string)
  | InProposeRematch
  | InDisconnect.

Inductive Event :=
  | Connect (sid : string)
  | Recv (sid : string) (msg : Inbound)
  | Fire (h : nat).

Definition handle (sid : string) (msg : Inbound) (s : State) : Outcome :=
  match msg with
  | InCreateMatch r => Done (createMatch sid r s)
  | InJoinMatch c => Done (joinMatch sid c s)
  | InSubmitCombination comb => Done (submitCombination sid comb s)
  | InSubmitGuess g => submitGuess sid g s
  | InProposeRematch => Done (proposeRematch sid s)
  | InDisconnect => Done (disconnect sid s)
  end.

Definition find_timer (h : nat) (s : State) : option Timer :=
  List.find (fun t => bool_decide (tid t = h)) (timers s).

Definition is_connected (s : State) (sid : string) : bool :=
  match sockets s !! sid with Some k => connected k | None => false end.

(** One turn of the event loop; [None] when the event cannot happen. *)
Definition step (s : State) (at_ : Z) (e : Event) : option Outcome :=
  if at_ <? now s then None
  else
    let s := set_now at_ s in
    match e with
    | Connect sid =>
        match sockets s !! sid with
        | Some _ => None
        | None => Some (Done (set_sockets (<[sid := new_socket sid]> (sockets s)) s))
        end
    | Recv sid msg =>
        if is_connected s sid then Some (handle sid msg s) else None
    | Fire h =>
        match find_timer h s with
        | Some t =>
            if due t <=? at_ then Some (Done (run_job t (clearTimer h s))) else None
        | None => None
        end
    end.

(** A run ends when the events are exhausted or a handler throws: the
    uncaught exception ends the process, nothing can follow it. *)
Fixpoint run (s : State) (evs : list (Z * Event)) : option Outcome :=
  match evs with
  | [] => Some (Done s)
  | (at_, e) :: evs' =>
      match step s at_ e with
      | Some (Done s') => run s' evs'
      | Some TypeError => match evs' with [] => Some TypeError | _ => None end
      | None => None
      end
  end.

(** *** Notions used by the statements *)

(** Player 1 has no points in any match object, player 2 has not lost
    any, and no ['matchEnd'] sent so far names player 1 the winner. *)
Definition scores_ok (s : State) : Prop :=
  (forall r m, heap s !! r = Some m -> score1 (scores m) = 0 /\ 0 <= score2 (scores m))
  /\ (forall t sc w, (t, matchEndMsg sc w) ∈ out s -> w <> Wplayer1 /\ score1 sc = 0).

Definition no_matchEnd (e : Msg) : Prop :=
  match e with matchEndMsg _ _ => False | _ => True end.

Definition reset_match (m : Match) : Match :=
  set_state inputting
    (set_rematchProposals (false, false)
       (set_combination None (set_scores (mkScores 0 0) (set_currentRound 1 m)))).

Definition record_proposal (role : Role) (m : Match) : Match :=
  match role with
  | Rplayer1 => set_rematchProposals (true, snd (rematchProposals m)) m
  | Rplayer2 => set_rematchProposals (fst (rematchProposals m), true) m
  end.

Definition other_player (role : Role) (m : Match) : option string :=
  match role with
  | Rplayer1 => player2 m
  | Rplayer2 => Some (player1 m)
  end.

(** *** A match between two sockets, used in the examples *)

Definition opening : list (Z * Event) :=
  [(0, Connect "A"); (0, Connect "B");
   (10, Recv "A" (InCreateMatch "0.abc123xyz4k"));
   (20, Recv "B" (InJoinMatch "abc123"))].

(** Player 2 sends four guesses before player 1 has set a combination. *)
Definition early_guess : list (Z * Event) :=
  (opening ++ [(100, Recv "B" (InSubmitGuess ["up"; "up"; "up"; "up"]))])%list.

(** A round: the combination, the countdown on timer [h], the guess. *)
Definition play_round (t0 : Z) (h : nat) (comb guess : list string) : list (Z * Event) :=
  [(t0, Recv "A" (InSubmitCombination comb));
   (t0 + 1000, Fire h); (t0 + 2000, Fire h); (t0 + 3000, Fire h); (t0 + 4000, Fire h);
   (t0 + 12000, Recv "B" (InSubmitGuess guess))].

Definition round_one : list (Z * Event) :=
  (opening ++ play_round 500 0 ["up"; "down"; "left"; "right"] ["up"; "down"; "right"; "none"])%list.

(** Player 2 sends a second guess in the same round. *)
Definition second_guess : list (Z * Event) :=
  (round_one ++ [(12600, Recv "B" (InSubmitGuess ["up"; "down"; "left"; "right"]))])%list.

(** A whole match of three rounds. *)
Definition full_match : list (Z * Event) :=
  (round_one
   ++ [(15500, Fire 1%nat)]
   ++ play_round 16000 2 ["left"; "left"; "up"; "down"] ["left"; "up"; "up"; "down"]
   ++ [(31000, Fire 3%nat)]
   ++ play_round 32000 4 ["right"; "up"; "right"; "up"] ["none"; "none"; "none"; "none"])%list.

Definition reach (o : option Outcome) : State :=
  match o with Some (Done s) => s | _ => init end.

Definition s_matchEnd : State := reach (run init full_match).

Definition m_matchEnd : Match :=
  mkMatch "ABC123" "A" (Some "B") 3 3 (mkScores 0 5) (Some ["right"; "up"; "right"; "up"])
    matchEnd (false, false).


(** *** Notions for the properties of runs *)

(** The callback of the timer [h] runs at each of the [times]. *)
Definition ticks (h : nat) (times : list Z) : list (Z * Event) :=
  map (fun a => (a, Fire h)) times.

(** Every match object satisfies [P]. *)
Definition heap_all (P : Match -> Prop) (s : State) : Prop :=
  forall r m, heap s !! r = Some m -> P m.

(** A combination, once stored, has four moves. *)
Definition four_moves (m : Match) : Prop :=
  forall comb, combination m = Some comb -> length comb = 4%nat.

(** Messages whose handler begins with [matches.get(socket.matchCode)]
    and returns when nothing is found. *)
Definition match_message (msg : Inbound) : Prop :=
  match msg with
  | InSubmitCombination _ | InSubmitGuess _ | InProposeRematch => True
  | _ => False
  end.

(** Pending timers have handles below the next one. *)
Definition old_handles (s : State) : Prop :=
  forall t, t ∈ timers s -> (tid t < next_tid s)%nat.

(** The match of [opening] while its first combination is awaited. *)
Definition s_inputting : State := reach (run init opening).

Definition m_inputting : Match :=
  mkMatch "ABC123" "A" (Some "B") 1 3 (mkScores 0 0) None inputting (false, false).

(** Player 1 has set a combination and the countdown has run. *)
Definition guessing_started : list (Z * Event) :=
  (opening ++
   [(500, Recv "A" (InSubmitCombination ["up"; "down"; "left"; "right"]));
    (1500, Fire 0%nat); (2500, Fire 0%nat); (3500, Fire 0%nat); (4500, Fire 0%nat)])%list.

Definition s_guessing : State := reach (run init guessing_started).

Definition m_guessing : Match :=
  mkMatch "ABC123" "A" (Some "B") 1 3 (mkScores 0 0) (Some ["up"; "down"; "left"; "right"])
    guessing (false, false).

(** Player 1 has set a combination, the countdown has not begun. *)
Definition s_combination : State :=
  reach (run init (opening ++
    [(500, Recv "A" (InSubmitCombination ["up"; "down"; "left"; "right"]))])%list).

Definition m_combination : Match :=
  mkMatch "ABC123" "A" (Some "B") 1 3 (mkScores 0 0) (Some ["up"; "down"; "left"; "right"])
    countdown (false, false).

(** One round of a match of [p1] and [p2]: the combination at [t0],
    the four runs of the countdown on the timer [h], the guess at [t5],
    the next-round delay on the timer after [h] at [t6]. *)
Definition round_events (p1 p2 : string) (h : nat) (comb guess : list string)
    (t0 : Z) (times : list Z) (t5 t6 : Z) : list (Z * Event) :=
  ((t0, Recv p1 (InSubmitCombination comb)) :: ticks h times
   ++ [(t5, Recv p2 (InSubmitGuess guess)); (t6, Fire (S h))])%list.

End Guessing.

(** * The pages (browser side)

    The two pages are the scripts that talk to the two servers.  Their
    variables are modelled, with the messages they emit, the timeouts and
    intervals they arm and the camera initialisations in flight; numbers
    that hold positions are binary64 floats, as in the source.  Of the
    document, only the class of the result title is recorded: the other
    writes to the document, the drawing on the canvas and the timeouts and
    intervals whose callback only writes to the document are left out, and
    [document.getElementById] is taken to find the elements that a script
    uses without a check, and the canvas to have a drawing context once
    [initCamera] has asked for it.  Each handler, callback and continuation after an
    [await] runs to its end before the next one starts; the order in which
    they run is left open, and [location.reload()] ends a page, so a run of
    a page is the beginning of a run of the model. *)

(** [a > b] on numbers. *)
Definition js_gt (a b : float) : bool := PrimFloat.ltb b a.

Record Point := mkPoint { px : float; py : float }.

(** One entry of [results.detections]: the landmarks, when the detector
    gives any, and the centre of the bounding box. *)
Record Detection := mkDetection {
  landmarks : option (list Point);
  bboxCenter : Point
}.

(** The mirrored nose position of [onFaceResults]: the third landmark,
    or the centre of the bounding box when there are fewer than three. *)
Definition nose_position (d : Detection) : Point :=
  match landmarks d with
  | Some (_ :: _ :: nose :: _) => mkPoint (1 - px nose)%float (py nose)
  | _ => mkPoint (1 - px (bboxCenter d))%float (py (bboxCenter d))
  end.

(** The centre computed by [finishCalibration]: the mean of the
    samples, or the middle of the picture when there is none. *)
Definition calibrated_center (samples : list Point) : Point :=
  match samples with
  | [] => mkPoint 0.5 0.5
  | _ =>
      let sumX := fold_left (fun acc p => (acc + px p)%float) samples 0%float in
      let sumY := fold_left (fun acc p => (acc + py p)%float) samples 0%float in
      let n := PrimFloat.of_uint63 (Uint63.of_Z (Z.of_nat (length samples))) in
      mkPoint (sumX / n)%float (sumY / n)%float
  end.

(** One step of the exponential smoothing. *)
Definition smooth (factor : float) (old : option Point) (x y : float) : Point :=
  match old with
  | Some p => mkPoint (px p + factor * (x - px p))%float (py p + factor * (y - py p))%float
  | None => mkPoint x y
  end.

Definition distance (dx dy : float) : float := PrimFloat.sqrt (dx * dx + dy * dy)%float.

(** The primary direction of a displacement: the larger delta decides. *)
Definition primary_direction (dx dy : float) : string :=
  if js_gt (PrimFloat.abs dy) (PrimFloat.abs dx)
  then (if PrimFloat.ltb dy 0 then "up" else "down")
  else (if PrimFloat.ltb dx 0 then "left" else "right").

Definition is_direction (d : string) : Prop :=
  d = "up" \/ d = "down" \/ d = "left" \/ d = "right".

(** * The page of the reactive game ([public/game.js]) *)

Module ReactClient.

Inductive Emitted :=
  | EmitCreateMatch
  | EmitJoinMatch (code : string)
  | EmitAttackMove (move : option string)
  | EmitDefendMove (detected : string)
  | EmitProposeRematch.

(** What a timeout that touches the variables does when it runs. *)
Inductive Job :=
  | FinishCalibration
  | StartTracking.

(** Who called [initCamera]: the ['roundStart'] handler, which does
    nothing with the variables after its [await], or the ['startDefending']
    handler, which goes on to calibrate. *)
Inductive CameraCall :=
  | FromRoundStart
  | FromStartDefending.

Record Client := mkClient {
  playerRole : option Role;
  currentRole : option string;
  isTracking : bool;
  cameraInitialized : bool;
  centerPosition : option Point;
  calibrationSamples : list Point;
  isCalibrating : bool;
  smoothedPosition : option Point;
  currentExpectedMove : option string;
  hasRespondedToMove : bool;
  titleClass : option string;
  emitted : list Emitted;
  timeouts : list (nat * Job);
  next_timeout : nat;
  cameraCalls : list CameraCall
}.

Definition init : Client :=
  mkClient None None false false None [] false None None false None [] [] 0 [].

Definition set_playerRole v (s : Client) : Client :=
  mkClient v (currentRole s) (isTracking s) (cameraInitialized s) (centerPosition s)
    (calibrationSamples s) (isCalibrating s) (smoothedPosition s) (currentExpectedMove s)
    (hasRespondedToMove s) (titleClass s) (emitted s) (timeouts s) (next_timeout s)
    (cameraCalls s).
Definition set_currentRole v (s : Client) : Client :=
  mkClient (playerRole s) v (isTracking s) (cameraInitialized s) (centerPosition s)
    (calibrationSamples s) (isCalibrating s) (smoothedPosition s) (currentExpectedMove s)
    (hasRespondedToMove s) (titleClass s) (emitted s) (timeouts s) (next_timeout s)
    (cameraCalls s).
Definition set_isTracking v (s : Client) : Client :=
  mkClient (playerRole s) (currentRole s) v (cameraInitialized s) (centerPosition s)
    (calibrationSamples s) (isCalibrating s) (smoothedPosition s) (currentExpectedMove s)
    (hasRespondedToMove s) (titleClass s) (emitted s) (timeouts s) (next_timeout s)
    (cameraCalls s).
Definition set_cameraInitialized v (s : Client) : Client :=
  mkClient (playerRole s) (currentRole s) (isTracking s) v (centerPosition s)
    (calibrationSamples s) (isCalibrating s) (smoothedPosition s) (currentExpectedMove s)
    (hasRespondedToMove s) (titleClass s) (emitted s) (timeouts s) (next_timeout s)
    (cameraCalls s).
Definition set_centerPosition v (s : Client) : Client :=
  mkClient (playerRole s) (currentRole s) (isTracking s) (cameraInitialized s) v
    (calibrationSamples s) (isCalibrating s) (smoothedPosition s) (currentExpectedMove s)
    (hasRespondedToMove s) (titleClass s) (emitted s) (timeouts s) (next_timeout s)
    (cameraCalls s).
Definition set_calibrationSamples v (s : Client) : Client :=
  mkClient (playerRole s) (currentRole s) (isTracking s) (cameraInitialized s) (centerPosition s)
    v (isCalibrating s) (smoothedPosition s) (currentExpectedMove s)
    (hasRespondedToMove s) (titleClass s) (emitted s) (timeouts s) (next_timeout s)
    (cameraCalls s).
Definition set_isCalibrating v (s : Client) : Client :=
  mkClient (playerRole s) (currentRole s) (isTracking s) (cameraInitialized s) (centerPosition s)
    (calibrationSamples s) v (smoothedPosition s) (currentExpectedMove s)
    (hasRespondedToMove s) (titleClass s) (emitted s) (timeouts s) (next_timeout s)
    (cameraCalls s).
Definition set_smoothedPosition v (s : Client) : Client :=
  mkClient (playerRole s) (currentRole s) (isTracking s) (cameraInitialized s) (centerPosition s)
    (calibrationSamples s) (isCalibrating s) v (currentExpectedMove s)
    (hasRespondedToMove s) (titleClass s) (emitted s) (timeouts s) (next_timeout s)
    (cameraCalls s).
Definition set_currentExpectedMove v (s : Client) : Client :=
  mkClient (playerRole s) (currentRole s) (isTracking s) (cameraInitialized s) (centerPosition s)
    (calibrationSamples s) (isCalibrating s) (smoothedPosition s) v
    (hasRespondedToMove s) (titleClass s) (emitted s) (timeouts s) (next_timeout s)
    (cameraCalls s).
Definition set_hasRespondedToMove v (s : Client) : Client :=
  mkClient (playerRole s) (currentRole s) (isTracking s) (cameraInitialized s) (centerPosition s)
    (calibrationSamples s) (isCalibrating s) (smoothedPosition s) (currentExpectedMove s)
    v (titleClass s) (emitted s) (timeouts s) (next_timeout s) (cameraCalls s).
Definition set_titleClass v (s : Client) : Client :=
  mkClient (playerRole s) (currentRole s) (isTracking s) (cameraInitialized s) (centerPosition s)
    (calibrationSamples s) (isCalibrating s) (smoothedPosition s) (currentExpectedMove s)
    (hasRespondedToMove s) v (emitted s) (timeouts s) (next_timeout s) (cameraCalls s).
Definition set_emitted v (s : Client) : Client :=
  mkClient (playerRole s) (currentRole s) (isTracking s) (cameraInitialized s) (centerPosition s)
    (calibrationSamples s) (isCalibrating s) (smoothedPosition s) (currentExpectedMove s)
    (hasRespondedToMove s) (titleClass s) v (timeouts s) (next_timeout s) (cameraCalls s).
Definition set_timeouts v n (s : Client) : Client :=
  mkClient (playerRole s) (currentRole s) (isTracking s) (cameraInitialized s) (centerPosition s)
    (calibrationSamples s) (isCalibrating s) (smoothedPosition s) (currentExpectedMove s)
    (hasRespondedToMove s) (titleClass s) (emitted s) v n (cameraCalls s).
Definition set_cameraCalls v (s : Client) : Client :=
  mkClient (playerRole s) (currentRole s) (isTracking s) (cameraInitialized s) (centerPosition s)
    (calibrationSamples s) (isCalibrating s) (smoothedPosition s) (currentExpectedMove s)
    (hasRespondedToMove s) (titleClass s) (emitted s) (timeouts s) (next_timeout s) v.

(** [socket.emit] *)
Definition emit (e : Emitted) (s : Client) : Client := set_emitted (emitted s ++ [e]) s.

(** [setTimeout] *)
Definition setTimeout (j : Job) (s : Client) : Client :=
  set_timeouts (timeouts s ++ [(next_timeout s, j)]) (S (next_timeout s)) s.

Definition DEAD_ZONE : float := 0.04.
Definition DIRECTION_THRESHOLD : float := 0.08.
Definition REACTION_THRESHOLD : float := 0.06.
Definition SMOOTHING_FACTOR : float := 0.4.

Definition startCalibration (s : Client) : Client :=
  let s := set_isCalibrating true s in
  let s := set_calibrationSamples [] s in
  let s := set_centerPosition None s in
  let s := set_smoothedPosition None s in
  setTimeout FinishCalibration s.

Definition finishCalibration (s : Client) : Client :=
  let c := calibrated_center (calibrationSamples s) in
  let s := set_centerPosition (Some c) s in
  let s := set_smoothedPosition (Some c) s in
  set_isCalibrating false s.

(** [indicator] tells whether [document.getElementById('directionIndicator')]
    finds the element: a detected move is locked in and emitted only then. *)
Definition processHeadMovement (x y : float) (indicator : bool) (s : Client) : Client :=
  match centerPosition s with
  | None => s
  | Some center =>
      if hasRespondedToMove s then s
      else
        let smoothed := smooth SMOOTHING_FACTOR (smoothedPosition s) x y in
        let s := set_smoothedPosition (Some smoothed) s in
        let deltaX := (px smoothed - px center)%float in
        let deltaY := (py smoothed - py center)%float in
        if js_gt (distance deltaX deltaY) REACTION_THRESHOLD then
          let detectedDirection := primary_direction deltaX deltaY in
          if indicator then
            let s := set_hasRespondedToMove true s in
            emit (EmitDefendMove detectedDirection) s
          else s
        else s
  end.

Definition onFaceResults (detections : option (list Detection)) (indicator : bool)
    (s : Client) : Client :=
  match detections with
  | Some (detection :: _) =>
      let nose := nose_position detection in
      if isCalibrating s
      then set_calibrationSamples (calibrationSamples s ++ [nose]) s
      else if isTracking s && bool_decide (is_Some (centerPosition s))
                && truthy (currentExpectedMove s) && negb (hasRespondedToMove s)
      then processHeadMovement (px nose) (py nose) indicator s
      else s
  | _ => s
  end.

(** The own properties of [keyMap], and the properties every object
    inherits: [keyMap[e.key]] finds those too, and they are truthy. *)
Definition object_prototype_names : list string :=
  ["constructor"; "__defineGetter__"; "__defineSetter__"; "hasOwnProperty";
   "__lookupGetter__"; "__lookupSetter__"; "isPrototypeOf"; "propertyIsEnumerable";
   "toString"; "valueOf"; "__proto__"; "toLocaleString"].

Inductive KeyValue :=
  | KeyMove (move : string)
  | KeyInherited.

Definition keyMap (key : string) : option KeyValue :=
  if bool_decide (key = "ArrowUp") then Some (KeyMove "up")
  else if bool_decide (key = "ArrowDown") then Some (KeyMove "down")
  else if bool_decide (key = "ArrowLeft") then Some (KeyMove "left")
  else if bool_decide (key = "ArrowRight") then Some (KeyMove "right")
  else if bool_decide (key ∈ object_prototype_names) then Some KeyInherited
  else None.

(** The ['keydown'] listener.  An inherited property is emitted as it
    is (not a string), after which [move.charAt] throws; what the listener
    would still do is on the document only. *)
Definition keydown (key : string) (s : Client) : Client :=
  if negb (bool_decide (currentRole s = Some "attacker")) then s
  else match keyMap key with
  | Some (KeyMove move) => emit (EmitAttackMove (Some move)) s
  | Some KeyInherited => emit (EmitAttackMove None) s
  | None => s
  end.

(** A call of [initCamera]: nothing to wait for when the camera is
    initialised already. *)
Definition after_startDefending (s : Client) : Client :=
  let s := startCalibration s in
  setTimeout StartTracking s.

Inductive Inbound :=
  | matchCreated (matchCode : string)
  | joinError (message : string)
  | matchStarted
  | roundStart (round totalRounds : Z) (role : string) (countdownSeconds : Z)
  | countdownMsg (count : Z)
  | startAttacking (duration round : Z)
  | startDefending (duration round : Z)
  | roundTimerMsg (timeLeft : Z)
  | moveSent (direction : string)
  | incomingMove (direction : string) (reactionTime : Z)
  | moveMissed (direction : string)
  | moveResult (expected detected : string) (correct : bool) (reactionTime : Z) (sc : Scores)
  | opponentResult (expected detected : string) (correct : bool) (sc : Scores)
  | opponentMissed (direction : string)
  | roundEndMsg (round : Z) (sc : Scores)
  | matchEndMsg (sc : Scores) (winner : Winner)
  | rematchProposed
  | rematchStarting
  | opponentDisconnected.

(** The class given to the result title by the ['matchEnd'] handler. *)
Definition result_class (role : option Role) (winner : Winner) : string :=
  let isWinner :=
    (bool_decide (role = Some Rplayer1) && bool_decide (winner = Wplayer1))
    || (bool_decide (role = Some Rplayer2) && bool_decide (winner = Wplayer2)) in
  if bool_decide (winner = Wtie) then EmptyString
  else if isWinner then "winner" else "loser".

Definition on_message (msg : Inbound) (s : Client) : Client :=
  match msg with
  | matchCreated _ => set_playerRole (Some Rplayer1) s
  | roundStart _ _ role _ =>
      let s := set_currentRole (Some role) s in
      if bool_decide (role = "attacker") then s
      else if cameraInitialized s then s
      else set_cameraCalls (cameraCalls s ++ [FromRoundStart]) s
  | startAttacking _ _ => set_currentRole (Some "attacker") s
  | startDefending _ _ =>
      let s := set_currentRole (Some "defender") s in
      if cameraInitialized s then after_startDefending s
      else set_cameraCalls (cameraCalls s ++ [FromStartDefending]) s
  | incomingMove direction _ =>
      set_hasRespondedToMove false (set_currentExpectedMove (Some direction) s)
  | moveMissed _ =>
      set_hasRespondedToMove false (set_currentExpectedMove None s)
  | moveResult _ _ _ _ _ => set_currentExpectedMove None s
  | roundEndMsg _ _ => set_currentExpectedMove None (set_isTracking false s)
  | matchEndMsg _ winner =>
      let s := set_isTracking false s in
      set_titleClass (Some (result_class (playerRole s) winner)) s
  | _ => s
  end.

(** The blocks of the script that run one at a time. *)
Inductive Event :=
  | Message (msg : Inbound)
  | FaceResults (detections : option (list Detection)) (indicator : bool)
  | KeyDown (key : string)
  | ClickCreate
  | ClickConfirmJoin (code : string)
  | ClickRematch
  | Timeout (h : nat)
  | CameraDone (i : nat) (ok : bool).

Definition run_job (j : Job) (s : Client) : Client :=
  match j with
  | FinishCalibration => finishCalibration s
  | StartTracking => set_isTracking true s
  end.

(** [ClickConfirmJoin] carries the trimmed text of the input field.  A
    timeout runs once; a call of [initCamera] ends once, with success or
    not, and the handler that awaited it goes on. *)
Definition step (s : Client) (e : Event) : option Client :=
  match e with
  | Message msg => Some (on_message msg s)
  | FaceResults detections indicator => Some (onFaceResults detections indicator s)
  | KeyDown key => Some (keydown key s)
  | ClickCreate => Some (emit EmitCreateMatch s)
  | ClickConfirmJoin code =>
      if bool_decide (String.length code = 6%nat) then Some (emit (EmitJoinMatch code) s)
      else Some s
  | ClickRematch => Some (emit EmitProposeRematch s)
  | Timeout h =>
      match List.find (fun t => bool_decide (fst t = h)) (timeouts s) with
      | Some (_, j) =>
          Some (run_job j
                  (set_timeouts (filter (fun t => fst t <> h) (timeouts s)) (next_timeout s) s))
      | None => None
      end
  | CameraDone i ok =>
      match cameraCalls s !! i with
      | Some call =>
          let s := set_cameraCalls (delete i (cameraCalls s)) s in
          let s := if ok then set_cameraInitialized true s else s in
          Some (match call with
                | FromRoundStart => s
                | FromStartDefending => after_startDefending s
                end)
      | None => None
      end
  end.

Fixpoint run (s : Client) (evs : list Event) : option Client :=
  match evs with
  | [] => Some s
  | e :: evs' =>
      match step s e with
      | Some s' => run s' evs'
      | None => None
      end
  end.

Definition is_defendMove (e : Emitted) : bool :=
  match e with EmitDefendMove _ => true | _ => false end.

Definition is_incomingMove (e : Event) : bool :=
  match e with Message (incomingMove _ _) => true | _ => false end.

Definition is_matchCreated (e : Event) : bool :=
  match e with Message (matchCreated _) => true | _ => false end.

(** The page can still answer the move it was sent. *)
Definition can_respond (s : Client) : bool :=
  truthy (currentExpectedMove s) && negb (hasRespondedToMove s).

(** The ['defendMove'] emitted so far, plus one while the page can
    still answer. *)
Definition answers (s : Client) : nat :=
  length (List.filter is_defendMove (emitted s)) + (if can_respond s then 1 else 0).

Definition incoming (evs : list Event) : nat := length (List.filter is_incomingMove evs).

(** A page that is sent a move, sees the head go left, and is sent
    another move. *)
Definition looking_left : option (list Detection) :=
  Some [mkDetection (Some [mkPoint 0.5 0.5; mkPoint 0.5 0.5; mkPoint 0.9 0.5])
          (mkPoint 0.5 0.5)].

Definition defending : list Event :=
  [Message (startDefending 30 1); CameraDone 0 true; Timeout 0; Timeout 1;
   Message (incomingMove "up" 2000); FaceResults looking_left true;
   FaceResults looking_left true].

(** Every ['defendMove'] emitted carries a direction. *)
Definition directions_only (s : Client) : Prop :=
  forall d, EmitDefendMove d ∈ emitted s -> is_direction d.

End ReactClient.

(** * The page of the guessing game *)

Module GuessClient.

Inductive Emitted :=
  | EmitCreateMatch
  | EmitJoinMatch (code : string)
  | EmitSubmitCombination (combination : list string)
  | EmitSubmitGuess (guessedMoves : list string)
  | EmitProposeRematch.

(** Who called [initCamera]: the ['waitingForCombination'] handler,
    which does not wait for it, or the ['getReady'] handler, which goes on
    to calibrate. *)
Inductive CameraCall :=
  | FromWaiting
  | FromGetReady.

Record Client := mkClient {
  playerRole : option Role;
  currentCombination : list string;
  detectedMoves : list string;
  isTracking : bool;
  cameraInitialized : bool;
  centerPosition : option Point;
  calibrationSamples : list Point;
  isCalibrating : bool;
  smoothedPosition : option Point;
  lastDirection : option string;
  directionHoldTime : Z;
  lastUpdateTime : Z;
  titleClass : option string;
  emitted : list Emitted;
  (** pending [finishCalibration] timeouts *)
  timeouts : list nat;
  (** the intervals of ['startGuessing'], each with its [timeLeft] *)
  intervals : list (nat * Z);
  next_timer : nat;
  cameraCalls : list CameraCall
}.

Definition init : Client :=
  mkClient None [] [] false false None [] false None None 0 0 None [] [] [] 0 [].

Definition set_playerRole v (s : Client) : Client :=
  mkClient v (currentCombination s) (detectedMoves s) (isTracking s) (cameraInitialized s)
    (centerPosition s) (calibrationSamples s) (isCalibrating s) (smoothedPosition s)
    (lastDirection s) (directionHoldTime s) (lastUpdateTime s) (titleClass s) (emitted s)
    (timeouts s) (intervals s) (next_timer s) (cameraCalls s).
Definition set_currentCombination v (s : Client) : Client :=
  mkClient (playerRole s) v (detectedMoves s) (isTracking s) (cameraInitialized s)
    (centerPosition s) (calibrationSamples s) (isCalibrating s) (smoothedPosition s)
    (lastDirection s) (directionHoldTime s) (lastUpdateTime s) (titleClass s) (emitted s)
    (timeouts s) (intervals s) (next_timer s) (cameraCalls s).
Definition set_detectedMoves v (s : Client) : Client :=
  mkClient (playerRole s) (currentCombination s) v (isTracking s) (cameraInitialized s)
    (centerPosition s) (calibrationSamples s) (isCalibrating s) (smoothedPosition s)
    (lastDirection s) (directionHoldTime s) (lastUpdateTime s) (titleClass s) (emitted s)
    (timeouts s) (intervals s) (next_timer s) (cameraCalls s).
Definition set_isTracking v (s : Client) : Client :=
  mkClient (playerRole s) (currentCombination s) (detectedMoves s) v (cameraInitialized s)
    (centerPosition s) (calibrationSamples s) (isCalibrating s) (smoothedPosition s)
    (lastDirection s) (directionHoldTime s) (lastUpdateTime s) (titleClass s) (emitted s)
    (timeouts s) (intervals s) (next_timer s) (cameraCalls s).
Definition set_cameraInitialized v (s : Client) : Client :=
  mkClient (playerRole s) (currentCombination s) (detectedMoves s) (isTracking s) v
    (centerPosition s) (calibrationSamples s) (isCalibrating s) (smoothedPosition s)
    (lastDirection s) (directionHoldTime s) (lastUpdateTime s) (titleClass s) (emitted s)
    (timeouts s) (intervals s) (next_timer s) (cameraCalls s).
Definition set_centerPosition v (s : Client) : Client :=
  mkClient (playerRole s) (currentCombination s) (detectedMoves s) (isTracking s)
    (cameraInitialized s) v (calibrationSamples s) (isCalibrating s) (smoothedPosition s)
    (lastDirection s) (directionHoldTime s) (lastUpdateTime s) (titleClass s) (emitted s)
    (timeouts s) (intervals s) (next_timer s) (cameraCalls s).
Definition set_calibrationSamples v (s : Client) : Client :=
  mkClient (playerRole s) (currentCombination s) (detectedMoves s) (isTracking s)
    (cameraInitialized s) (centerPosition s) v (isCalibrating s) (smoothedPosition s)
    (lastDirection s) (directionHoldTime s) (lastUpdateTime s) (titleClass s) (emitted s)
    (timeouts s) (intervals s) (next_timer s) (cameraCalls s).
Definition set_isCalibrating v (s : Client) : Client :=
  mkClient (playerRole s) (currentCombination s) (detectedMoves s) (isTracking s)
    (cameraInitialized s) (centerPosition s) (calibrationSamples s) v (smoothedPosition s)
    (lastDirection s) (directionHoldTime s) (lastUpdateTime s) (titleClass s) (emitted s)
    (timeouts s) (intervals s) (next_timer s) (cameraCalls s).
Definition set_smoothedPosition v (s : Client) : Client :=
  mkClient (playerRole s) (currentCombination s) (detectedMoves s) (isTracking s)
    (cameraInitialized s) (centerPosition s) (calibrationSamples s) (isCalibrating s) v
    (lastDirection s) (directionHoldTime s) (lastUpdateTime s) (titleClass s) (emitted s)
    (timeouts s) (intervals s) (next_timer s) (cameraCalls s).
Definition set_lastDirection v (s : Client) : Client :=
  mkClient (playerRole s) (currentCombination s) (detectedMoves s) (isTracking s)
    (cameraInitialized s) (centerPosition s) (calibrationSamples s) (isCalibrating s)
    (smoothedPosition s) v (directionHoldTime s) (lastUpdateTime s) (titleClass s) (emitted s)
    (timeouts s) (intervals s) (next_timer s) (cameraCalls s).
Definition set_directionHoldTime v (s : Client) : Client :=
  mkClient (playerRole s) (currentCombination s) (detectedMoves s) (isTracking s)
    (cameraInitialized s) (centerPosition s) (calibrationSamples s) (isCalibrating s)
    (smoothedPosition s) (lastDirection s) v (lastUpdateTime s) (titleClass s) (emitted s)
    (timeouts s) (intervals s) (next_timer s) (cameraCalls s).
Definition set_lastUpdateTime v (s : Client) : Client :=
  mkClient (playerRole s) (currentCombination s) (detectedMoves s) (isTracking s)
    (cameraInitialized s) (centerPosition s) (calibrationSamples s) (isCalibrating s)
    (smoothedPosition s) (lastDirection s) (directionHoldTime s) v (titleClass s) (emitted s)
    (timeouts s) (intervals s) (next_timer s) (cameraCalls s).
Definition set_titleClass v (s : Client) : Client :=
  mkClient (playerRole s) (currentCombination s) (detectedMoves s) (isTracking s)
    (cameraInitialized s) (centerPosition s) (calibrationSamples s) (isCalibrating s)
    (smoothedPosition s) (lastDirection s) (directionHoldTime s) (lastUpdateTime s) v
    (emitted s) (timeouts s) (intervals s) (next_timer s) (cameraCalls s).
Definition set_emitted v (s : Client) : Client :=
  mkClient (playerRole s) (currentCombination s) (detectedMoves s) (isTracking s)
    (cameraInitialized s) (centerPosition s) (calibrationSamples s) (isCalibrating s)
    (smoothedPosition s) (lastDirection s) (directionHoldTime s) (lastUpdateTime s)
    (titleClass s) v (timeouts s) (intervals s) (next_timer s) (cameraCalls s).
Definition set_timers v w n (s : Client) : Client :=
  mkClient (playerRole s) (currentCombination s) (detectedMoves s) (isTracking s)
    (cameraInitialized s) (centerPosition s) (calibrationSamples s) (isCalibrating s)
    (smoothedPosition s) (lastDirection s) (directionHoldTime s) (lastUpdateTime s)
    (titleClass s) (emitted s) v w n (cameraCalls s).
Definition set_cameraCalls v (s : Client) : Client :=
  mkClient (playerRole s) (currentCombination s) (detectedMoves s) (isTracking s)
    (cameraInitialized s) (centerPosition s) (calibrationSamples s) (isCalibrating s)
    (smoothedPosition s) (lastDirection s) (directionHoldTime s) (lastUpdateTime s)
    (titleClass s) (emitted s) (timeouts s) (intervals s) (next_timer s) v.

Definition emit (e : Emitted) (s : Client) : Client := set_emitted (emitted s ++ [e]) s.

Definition DEAD_ZONE : float := 0.04.
Definition DIRECTION_THRESHOLD : float := 0.08.
Definition HOLD_TIME_REQUIRED : Z := 350.
Definition SMOOTHING_FACTOR : float := 0.3.

Definition startCalibration (s : Client) : Client :=
  let s := set_isCalibrating true s in
  let s := set_calibrationSamples [] s in
  let s := set_centerPosition None s in
  let s := set_smoothedPosition None s in
  set_timers (timeouts s ++ [next_timer s]) (intervals s) (S (next_timer s)) s.

Definition finishCalibration (s : Client) : Client :=
  let c := calibrated_center (calibrationSamples s) in
  let s := set_centerPosition (Some c) s in
  let s := set_smoothedPosition (Some c) s in
  set_isCalibrating false s.

Definition resetTrackingState (s : Client) : Client :=
  let s := set_centerPosition None s in
  let s := set_calibrationSamples [] s in
  let s := set_isCalibrating false s in
  let s := set_smoothedPosition None s in
  let s := set_lastDirection None s in
  let s := set_directionHoldTime 0 s in
  set_detectedMoves [] s.

(** The direction of a displacement from the centre: none inside the
    dead zone or below the threshold. *)
Definition detect_direction (deltaX deltaY : float) : option string :=
  let d := distance deltaX deltaY in
  if js_gt d DEAD_ZONE then
    if js_gt d DIRECTION_THRESHOLD then Some (primary_direction deltaX deltaY) else None
  else None.

(** [processHeadPosition(x, y)], with [currentTime] the reading of
    [Date.now()]. *)
Definition processHeadPosition (x y : float) (currentTime : Z) (s : Client) : Client :=
  match centerPosition s with
  | None => s
  | Some center =>
      if negb (isTracking s) || (4 <=? length (detectedMoves s))%nat then s
      else
        let smoothed := smooth SMOOTHING_FACTOR (smoothedPosition s) x y in
        let s := set_smoothedPosition (Some smoothed) s in
        let deltaX := (px smoothed - px center)%float in
        let deltaY := (py smoothed - py center)%float in
        let s :=
          match detect_direction deltaX deltaY with
          | Some direction =>
              if bool_decide (Some direction = lastDirection s) then
                let s := set_directionHoldTime
                           (directionHoldTime s + (currentTime - lastUpdateTime s)) s in
                if HOLD_TIME_REQUIRED <=? directionHoldTime s then
                  if bool_decide (last (detectedMoves s) <> Some direction) then
                    let s := set_detectedMoves (detectedMoves s ++ [direction]) s in
                    let s := set_directionHoldTime 0 s in
                    set_lastDirection None s
                  else s
                else s
              else
                let s := set_lastDirection (Some direction) s in
                set_directionHoldTime 0 s
          | None =>
              let s := set_lastDirection None s in
              set_directionHoldTime 0 s
          end in
        set_lastUpdateTime currentTime s
  end.

Definition onFaceResults (detections : option (list Detection)) (currentTime : Z)
    (s : Client) : Client :=
  match detections with
  | Some (detection :: _) =>
      let nose := nose_position detection in
      if isCalibrating s
      then set_calibrationSamples (calibrationSamples s ++ [nose]) s
      else if isTracking s && bool_decide (is_Some (centerPosition s))
      then processHeadPosition (px nose) (py nose) currentTime s
      else s
  | _ => s
  end.

Definition after_getReady (s : Client) : Client :=
  startCalibration (resetTrackingState s).

Inductive Inbound :=
  | matchCreated (matchCode : string)
  | joinError (message : string)
  | matchStarted (matchCode : string)
  | inputCombination (round : Z)
  | waitingForCombination (round : Z)
  | getReady (round countdownSeconds : Z)
  | countdownMsg (count : Z)
  | startGuessing (duration : Z)
  | watchingOpponent (round : Z)
  | opponentGuessing (duration : Z)
  | roundResult
  | matchEndMsg (sc : Scores) (winner : Winner)
  | rematchProposed
  | rematchStarting
  | opponentDisconnected.

(** The class given to the result title by the ['matchEnd'] handler. *)
Definition result_class (role : option Role) (winner : Winner) : string :=
  let isWinner :=
    if bool_decide (role = Some Rplayer1) then bool_decide (winner = Wplayer1)
    else bool_decide (winner = Wplayer2) in
  if bool_decide (winner = Wtie) then EmptyString
  else if isWinner then "winner" else "loser".

Definition on_message (msg : Inbound) (currentTime : Z) (s : Client) : Client :=
  match msg with
  | matchCreated _ => set_playerRole (Some Rplayer1) s
  | inputCombination _ => set_currentCombination [] s
  | waitingForCombination _ =>
      if cameraInitialized s then s
      else set_cameraCalls (cameraCalls s ++ [FromWaiting]) s
  | getReady _ _ =>
      if cameraInitialized s then after_getReady s
      else set_cameraCalls (cameraCalls s ++ [FromGetReady]) s
  | startGuessing duration =>
      let s := set_detectedMoves [] s in
      let s := set_lastDirection None s in
      let s := set_directionHoldTime 0 s in
      let s := set_lastUpdateTime currentTime s in
      let s := set_isTracking true s in
      set_timers (timeouts s) (intervals s ++ [(next_timer s, duration)]) (S (next_timer s)) s
  | roundResult => set_isTracking false s
  | matchEndMsg _ winner =>
      let s := set_isTracking false s in
      set_titleClass (Some (result_class (playerRole s) winner)) s
  | rematchStarting => set_detectedMoves [] (set_currentCombination [] s)
  | _ => s
  end.

(** One run of the interval of ['startGuessing'] that holds [timeLeft]. *)
Definition guess_tick (h : nat) (timeLeft : Z) (s : Client) : Client :=
  let timeLeft := timeLeft - 1 in
  if timeLeft <=? 0 then
    let s := set_timers (timeouts s) (filter (fun t => fst t <> h) (intervals s))
               (next_timer s) s in
    let s := set_isTracking false s in
    let s := set_detectedMoves
               (detectedMoves s ++ replicate (4 - length (detectedMoves s)) "none") s in
    emit (EmitSubmitGuess (detectedMoves s)) s
  else
    set_timers (timeouts s)
      (map (fun t => if bool_decide (fst t = h) then (h, timeLeft) else t) (intervals s))
      (next_timer s) s.

Inductive Event :=
  | Message (msg : Inbound)
  | FaceResults (detections : option (list Detection))
  | ClickCreate
  | ClickConfirmJoin (code : string)
  | ClickMove (move : string)
  | ClickClear
  | ClickSubmit
  | ClickRematch
  | Timeout (h : nat)
  | Interval (h : nat)
  | CameraDone (i : nat) (ok : bool).

(** One block of the script, [at_] being what [Date.now()] reads.
    [ClickConfirmJoin] carries the trimmed text of the input field and
    [ClickMove] the [data-move] of the button. *)
Definition step (s : Client) (at_ : Z) (e : Event) : option Client :=
  match e with
  | Message msg => Some (on_message msg at_ s)
  | FaceResults detections => Some (onFaceResults detections at_ s)
  | ClickCreate => Some (emit EmitCreateMatch s)
  | ClickConfirmJoin code =>
      if bool_decide (String.length code = 6%nat) then Some (emit (EmitJoinMatch code) s)
      else Some s
  | ClickMove move =>
      if (length (currentCombination s) <? 4)%nat
      then Some (set_currentCombination (currentCombination s ++ [move]) s)
      else Some s
  | ClickClear => Some (set_currentCombination [] s)
  | ClickSubmit =>
      if bool_decide (length (currentCombination s) = 4%nat)
      then Some (emit (EmitSubmitCombination (currentCombination s)) s)
      else Some s
  | ClickRematch => Some (emit EmitProposeRematch s)
  | Timeout h =>
      if bool_decide (h ∈ timeouts s)
      then Some (finishCalibration
                   (set_timers (filter (fun t => t <> h) (timeouts s)) (intervals s)
                      (next_timer s) s))
      else None
  | Interval h =>
      match List.find (fun t => bool_decide (fst t = h)) (intervals s) with
      | Some (_, timeLeft) => Some (guess_tick h timeLeft s)
      | None => None
      end
  | CameraDone i ok =>
      match cameraCalls s !! i with
      | Some call =>
          let s := set_cameraCalls (delete i (cameraCalls s)) s in
          let s := if ok then set_cameraInitialized true s else s in
          Some (match call with
                | FromWaiting => s
                | FromGetReady => after_getReady s
                end)
      | None => None
      end
  end.

Fixpoint run (s : Client) (evs : list (Z * Event)) : option Client :=
  match evs with
  | [] => Some s
  | (at_, e) :: evs' =>
      match step s at_ e with
      | Some s' => run s' evs'
      | None => None
      end
  end.

(** No two neighbours are the same. *)
Fixpoint no_repeat (l : list string) : Prop :=
  match l with
  | a :: (b :: _) as rest => a <> b /\ no_repeat rest
  | _ => True
  end.

(** Head moves, none the same as the one before, then ['none'] up to
    four entries. *)
Definition guess_shape (g : list string) : Prop :=
  exists moves k,
    g = (moves ++ replicate k "none")%list
    /\ Forall is_direction moves /\ no_repeat moves.

(** A page that is told to guess for two seconds while the head goes
    left, back to the middle, and up. *)
Definition looking (x y : float) : option (list Detection) :=
  Some [mkDetection (Some [mkPoint 0.5 0.5; mkPoint 0.5 0.5; mkPoint x y]) (mkPoint 0.5 0.5)].

Definition guessing_session : list (Z * Event) :=
  [(0, Message (getReady 1 3)); (100, CameraDone 0 true); (1600, Timeout 0);
   (4000, Message (startGuessing 2));
   (4100, FaceResults (looking 0.9 0.5)); (4300, FaceResults (looking 0.9 0.5));
   (4500, FaceResults (looking 0.9 0.5)); (4700, FaceResults (looking 0.9 0.5));
   (5000, Interval 1);
   (5100, FaceResults (looking 0.5 0.5)); (5200, FaceResults (looking 0.5 0.5));
   (5300, FaceResults (looking 0.5 0.1)); (5500, FaceResults (looking 0.5 0.1));
   (5700, FaceResults (looking 0.5 0.1)); (5900, FaceResults (looking 0.5 0.1));
   (6000, Interval 1)].

(** Four clicks on move buttons, a fifth, and the submit button. *)
Definition choosing : list (Z * Event) :=
  [(0, Message (inputCombination 1));
   (10, ClickMove "up"); (20, ClickSubmit); (30, ClickMove "down"); (40, ClickMove "left");
   (50, ClickMove "right"); (60, ClickMove "up"); (70, ClickSubmit)].

(** What holds of the page in every run: the combination being chosen
    has at most four moves, the moves detected so far have the shape of a
    guess and are at most four, four once ['none'] has been added, and what
    has been emitted is well formed. *)
Record page_ok (s : Client) : Prop := mk_page_ok {
  ok_combination : (length (currentCombination s) <= 4)%nat;
  ok_detected : exists moves k,
    detectedMoves s = (moves ++ replicate k "none")%list
    /\ Forall is_direction moves /\ no_repeat moves
    /\ (k <> 0%nat -> length (detectedMoves s) = 4%nat);
  ok_length : (length (detectedMoves s) <= 4)%nat;
  ok_submitted : forall comb, EmitSubmitCombination comb ∈ emitted s -> length comb = 4%nat;
  ok_guessed : forall g, EmitSubmitGuess g ∈ emitted s -> length g = 4%nat /\ guess_shape g
}.

End GuessClient.

(** * Properties

    ** Match codes *)

Lemma upper_char_idem c : upper_char (upper_char c) = upper_char c.
Proof. destruct c as [[] [] [] [] [] [] [] []]; reflexivity. Qed.

Lemma toUpperCase_idem s : toUpperCase (toUpperCase s) = toUpperCase s.
Proof. induction s as [|c s IH]; simpl; [done|]. by rewrite upper_char_idem, IH. Qed.

Lemma upper_char_base36 c : base36_digit c = true -> upper_alnum (upper_char c) = true.
Proof. destruct c as [[] [] [] [] [] [] [] []]; simpl; intros H; try reflexivity; discriminate H. Qed.

Lemma toUpperCase_length s : String.length (toUpperCase s) = String.length s.
Proof. induction s; simpl; congruence. Qed.

Lemma toUpperCase_base36 s :
  string_forall base36_digit s = true -> string_forall upper_alnum (toUpperCase s) = true.
Proof.
  induction s as [|c s IH]; simpl; [done|].
  intros [Hc Hs]%andb_prop. by rewrite (upper_char_base36 _ Hc), IH.
Qed.

Lemma substring_forall p n m s :
  string_forall p s = true -> string_forall p (String.substring n m s) = true.
Proof.
  revert n m. induction s as [|c s IH]; intros n m H.
  - by destruct n, m.
  - simpl in H. apply andb_prop in H as [Hc Hs].
    destruct n as [|n]; [destruct m as [|m]|]; simpl; [done| |by apply IH].
    by rewrite Hc, IH.
Qed.

Lemma substring_length n m s :
  String.length (String.substring n m s) = Nat.min m (String.length s - n).
Proof.
  revert n m. induction s as [|c s IH]; intros n m.
  - destruct n, m; simpl; lia.
  - destruct n as [|n]; [destruct m as [|m]|]; simpl; [lia| |].
    + rewrite IH. lia.
    + rewrite IH. lia.
Qed.

Lemma generateMatchCode_fraction frac :
  generateMatchCode ("0." ++ frac) = toUpperCase (String.substring 0 6 frac).
Proof. reflexivity. Qed.

Lemma generateMatchCode_length frac :
  String.length (generateMatchCode ("0." ++ frac)) = Nat.min 6 (String.length frac).
Proof.
  rewrite generateMatchCode_fraction, toUpperCase_length, substring_length.
  by rewrite Nat.sub_0_r.
Qed.

Lemma generateMatchCode_alnum frac :
  string_forall base36_digit frac = true ->
  string_forall upper_alnum (generateMatchCode ("0." ++ frac)) = true.
Proof.
  intros H. rewrite generateMatchCode_fraction.
  by apply toUpperCase_base36, substring_forall.
Qed.

(** ** The reactive server *)

Module ReactiveFacts.
Import Reactive.
#[local] Arguments step : simpl never.

(** *** Reading the registry and the sockets *)

Lemma get_match_heap s c r m : get_match s c = Some (r, m) -> heap s !! r = Some m.
Proof.
  unfold get_match. intros H.
  destruct (matches s !! c) as [r'|]; [|done].
  destruct (heap s !! r') as [m'|] eqn:E; [|done].
  by injection H as -> ->.
Qed.

Lemma get_match_registry s c r m : get_match s c = Some (r, m) -> matches s !! c = Some r.
Proof.
  unfold get_match. intros H.
  destruct (matches s !! c) as [r'|]; [|done].
  destruct (heap s !! r') as [m'|] eqn:E; [|done].
  by injection H as -> ->.
Qed.

Lemma get_match_absent s c : matches s !! c = None -> get_match s c = None.
Proof. unfold get_match. by intros ->. Qed.

Lemma get_match_store_eq s c r m m' :
  get_match s c = Some (r, m) -> get_match (store r m' s) c = Some (r, m').
Proof.
  unfold get_match, store; simpl. intros H.
  destruct (matches s !! c) as [r0|]; [|done].
  destruct (heap s !! r0) as [m0|]; [|done].
  injection H as -> ->. by rewrite lookup_insert_eq.
Qed.

Lemma socket_match_heap s sid c r m :
  socket_match s sid = Some (c, r, m) -> heap s !! r = Some m.
Proof.
  unfold socket_match. intros H.
  destruct (sockets s !! sid) as [k|]; [|done].
  destruct (matchCode k) as [c'|]; [|done].
  destruct (get_match s c') as [[r' m']|] eqn:E; [|done].
  injection H as -> -> ->. by apply get_match_heap in E.
Qed.

Lemma socket_match_code s sid c r m :
  socket_match s sid = Some (c, r, m) ->
  socket_code s sid = Some c /\ get_match s c = Some (r, m).
Proof.
  unfold socket_match, socket_code. intros H.
  destruct (sockets s !! sid) as [k|]; [|done].
  destruct (matchCode k) as [c'|]; [|done].
  destruct (get_match s c') as [[r' m']|] eqn:E; [|done].
  by injection H as -> -> ->.
Qed.

Lemma socket_match_absent s sid c :
  socket_code s sid = Some c -> matches s !! c = None -> socket_match s sid = None.
Proof.
  unfold socket_code, socket_match. intros Hc Hm.
  destruct (sockets s !! sid) as [k|]; [|done]. simpl in Hc. rewrite Hc.
  by rewrite (get_match_absent _ _ Hm).
Qed.

(** A state that differs from [s] by one write to the match object. *)
Lemma socket_match_update s s' sid c r m m' :
  sockets s' = sockets s -> matches s' = matches s -> heap s' = <[r := m']> (heap s) ->
  socket_match s sid = Some (c, r, m) -> socket_match s' sid = Some (c, r, m').
Proof.
  unfold socket_match, get_match. intros -> -> -> H.
  destruct (sockets s !! sid) as [k|]; [|done].
  destruct (matchCode k) as [c'|]; [|done].
  destruct (matches s !! c') as [r'|]; [|done].
  destruct (heap s !! r') as [m0|]; [|done].
  injection H as -> -> ->. by rewrite lookup_insert_eq.
Qed.

Lemma socket_match_close s sid :
  socket_match (update_socket sid socket_close s) sid = socket_match s sid.
Proof.
  unfold socket_match, update_socket, get_match; simpl.
  rewrite lookup_alter_eq. by destruct (sockets s !! sid).
Qed.

Lemma heap_clearHandle h s : heap (clearHandle h s) = heap s.
Proof. by destruct h. Qed.

(** *** Timers and turns of the loop *)

Lemma find_timer_clearTimer h s : find_timer h (clearTimer h s) = None.
Proof.
  unfold find_timer, clearTimer; simpl.
  induction (timers s) as [|t l IH]; [done|].
  rewrite filter_cons. destruct (decide (tid t ≠ h)) as [Hne|Heq]; [|done].
  simpl. by rewrite bool_decide_eq_false_2.
Qed.

Lemma find_timer_None h s :
  (forall t, t ∈ timers s -> tid t <> h) -> find_timer h s = None.
Proof.
  unfold find_timer. induction (timers s) as [|u l IH]; intros H; [done|]. simpl.
  rewrite bool_decide_eq_false_2 by (apply H; left).
  apply IH. intros t Ht. apply H. by right.
Qed.

Lemma find_timer_elem h s t : find_timer h s = Some t -> t ∈ timers s /\ tid t = h.
Proof.
  unfold find_timer. intros [Hin Hb]%find_some.
  split; [by apply list_elem_of_In|]. by apply bool_decide_eq_true_1 in Hb.
Qed.

Lemma timers_clearHandle_sub h s t :
  t ∈ timers (clearHandle h s) -> t ∈ timers s /\ Some (tid t) <> h.
Proof.
  destruct h as [h|]; simpl; [|done].
  intros [Hne Ht]%list_elem_of_filter. split; [done|congruence].
Qed.

Lemma step_recv s at_ sid msg :
  now s <= at_ -> is_connected s sid = true ->
  step s at_ (Recv sid msg) = Some (handle sid msg (set_now at_ s)).
Proof.
  intros Hat Hc. unfold step.
  destruct (Z.ltb_spec at_ (now s)) as [?|_]; [lia|].
  change (is_connected (set_now at_ s) sid) with (is_connected s sid). by rewrite Hc.
Qed.

Lemma step_fire s at_ t :
  now s <= at_ -> find_timer (tid t) s = Some t -> due t <= at_ ->
  step s at_ (Fire (tid t)) = Some (run_job t (clearTimer (tid t) (set_now at_ s))).
Proof.
  intros Hat Hf Hd. unfold step.
  destruct (Z.ltb_spec at_ (now s)) as [?|_]; [lia|].
  change (find_timer (tid t) (set_now at_ s)) with (find_timer (tid t) s). rewrite Hf.
  by destruct (Z.leb_spec (due t) at_) as [_|?]; [|lia].
Qed.

(** A cleared timer cannot run. *)
Lemma step_fire_cleared s s' at_ h :
  timers s' = timers (clearTimer h s) -> step s' at_ (Fire h) = None.
Proof.
  intros Hst. unfold step. case (at_ <? _); [done|].
  replace (find_timer h (set_now at_ s')) with (find_timer h (clearTimer h s))
    by (unfold find_timer; simpl; by rewrite Hst).
  by rewrite find_timer_clearTimer.
Qed.

(** *** The winner *)

Lemma winner_of_player1 sc : winner_of sc = Wplayer1 <-> score1 sc > score2 sc.
Proof.
  unfold winner_of.
  destruct (Z.ltb_spec (score2 sc) (score1 sc)); [split; [lia|done]|].
  destruct (Z.ltb_spec (score1 sc) (score2 sc)); split; (done || lia).
Qed.

Lemma winner_of_player2 sc : winner_of sc = Wplayer2 <-> score2 sc > score1 sc.
Proof.
  unfold winner_of.
  destruct (Z.ltb_spec (score2 sc) (score1 sc)); [split; [done|lia]|].
  destruct (Z.ltb_spec (score1 sc) (score2 sc)); split; (done || lia).
Qed.

Lemma winner_of_tie sc : winner_of sc = Wtie <-> score1 sc = score2 sc.
Proof.
  unfold winner_of.
  destruct (Z.ltb_spec (score2 sc) (score1 sc)); [split; [done|lia]|].
  destruct (Z.ltb_spec (score1 sc) (score2 sc)); split; (done || lia).
Qed.

(** *** Timer handles stay consistent *)

Lemma wf_init : wf init.
Proof.
  split; simpl.
  - intros t Ht. by apply elem_of_nil in Ht.
  - constructor.
  - intros r m H. by rewrite lookup_empty in H.
  - intros t r Ht. by apply elem_of_nil in Ht.
Qed.

Lemma wf_same s s' :
  timers s' = timers s -> next_tid s' = next_tid s -> heap s' = heap s ->
  next_ref s' = next_ref s -> wf s -> wf s'.
Proof.
  intros Ht Hn Hh Hr [H1 H2 H3 H4]. split; rewrite ?Ht, ?Hn, ?Hh, ?Hr; auto.
Qed.

Lemma wf_emit t e s : wf s -> wf (emit t e s).
Proof. by apply wf_same. Qed.
Lemma wf_set_now a s : wf s -> wf (set_now a s).
Proof. by apply wf_same. Qed.
Lemma wf_set_sockets v s : wf s -> wf (set_sockets v s).
Proof. by apply wf_same. Qed.
Lemma wf_update_socket sid f s : wf s -> wf (update_socket sid f s).
Proof. by apply wf_same. Qed.
Lemma wf_set_matches v s : wf s -> wf (set_matches v s).
Proof. by apply wf_same. Qed.

Lemma NoDup_fmap_filter {A B} (f : A -> B) (P : A -> Prop) `{!forall x, Decision (P x)} (l : list A) :
  NoDup (f <$> l) -> NoDup (f <$> filter P l).
Proof.
  induction l as [|x l IH]; [done|].
  rewrite fmap_cons, NoDup_cons. intros [Hx Hl].
  rewrite filter_cons. destruct (decide (P x)); [|by apply IH].
  rewrite fmap_cons, NoDup_cons. split; [|by apply IH].
  intros Hin. apply Hx. apply list_elem_of_fmap in Hin as (y & -> & Hy).
  apply list_elem_of_filter in Hy as [_ Hy]. apply list_elem_of_fmap. eauto.
Qed.

Lemma wf_clearTimer h s : wf s -> wf (clearTimer h s).
Proof.
  intros [H1 H2 H3 H4]. split; simpl; auto.
  - intros t [_ Ht]%list_elem_of_filter. auto.
  - by apply NoDup_fmap_filter.
  - intros t r [_ Ht]%list_elem_of_filter. auto.
Qed.

Lemma wf_clearHandle h s : wf s -> wf (clearHandle h s).
Proof. destruct h; simpl; [apply wf_clearTimer|done]. Qed.

Lemma wf_setTimer j d s : not_move_job j -> wf s -> wf (setTimer j d s).
Proof.
  intros Hj [H1 H2 H3 H4]. split; simpl; auto.
  - intros t [Ht| ->%list_elem_of_singleton]%elem_of_app; [apply H1 in Ht|simpl]; lia.
  - rewrite fmap_app. apply NoDup_app. split; [done|]. split; [|apply NoDup_singleton].
    simpl. intros x (t & -> & Ht)%list_elem_of_fmap Heq%list_elem_of_singleton.
    apply H1 in Ht. lia.
  - intros t r [Ht| ->%list_elem_of_singleton]%elem_of_app Hm; [by apply H4|].
    unfold is_move_timeout in Hm; simpl in Hm. by destruct j.
Qed.

(** Writing back a match object whose [moveTimeout] handle is unchanged. *)
Lemma wf_store_keep r m m' s :
  heap s !! r = Some m -> moveTimeout m' = moveTimeout m -> wf s -> wf (store r m' s).
Proof.
  intros Hr Hm [H1 H2 H3 H4]. split; simpl; auto.
  - intros r0 m0. destruct (decide (r = r0)) as [<-|Hne].
    + rewrite lookup_insert_eq. intros _. eauto.
    + rewrite lookup_insert_ne by done. eauto.
  - intros t r0 Ht Hmv. destruct (H4 t r0 Ht Hmv) as (m0 & Hm0 & Hh).
    destruct (decide (r = r0)) as [<-|Hne].
    + rewrite lookup_insert_eq. exists m'. split; [done|]. congruence.
    + rewrite lookup_insert_ne by done. eauto.
Qed.

(** Writing back a match object that no pending reaction timeout refers to. *)
Lemma wf_store_free r m m' s :
  heap s !! r = Some m -> no_move_timer r s -> wf s -> wf (store r m' s).
Proof.
  intros Hr Hfree [H1 H2 H3 H4]. split; simpl; auto.
  - intros r0 m0. destruct (decide (r = r0)) as [<-|Hne].
    + rewrite lookup_insert_eq. intros _. eauto.
    + rewrite lookup_insert_ne by done. eauto.
  - intros t r0 Ht Hmv. destruct (decide (r = r0)) as [<-|Hne].
    + by destruct (Hfree t Ht).
    + rewrite lookup_insert_ne by done. eauto.
Qed.

Lemma no_move_timer_cleared r m s :
  wf s -> heap s !! r = Some m -> no_move_timer r (clearHandle (moveTimeout m) s).
Proof.
  intros [H1 H2 H3 H4] Hr t Ht Hmv.
  destruct (moveTimeout m) as [h|] eqn:Hh; simpl in Ht.
  - apply list_elem_of_filter in Ht as [Hne Ht].
    destruct (H4 t r Ht Hmv) as (m0 & Hm0 & Hh0). congruence.
  - destruct (H4 t r Ht Hmv) as (m0 & Hm0 & Hh0). congruence.
Qed.

Lemma no_move_timer_same r s s' :
  timers s' = timers s -> no_move_timer r s -> no_move_timer r s'.
Proof. unfold no_move_timer. by intros ->. Qed.

Lemma no_move_timer_clearTimer r h s :
  no_move_timer r s -> no_move_timer r (clearTimer h s).
Proof. intros H t [_ Ht]%list_elem_of_filter. by apply H. Qed.

Lemma no_move_timer_clearHandle r h s :
  no_move_timer r s -> no_move_timer r (clearHandle h s).
Proof. destruct h; [apply no_move_timer_clearTimer|done]. Qed.

(** The new reaction timeout of ['attackMove'] and the handle stored for it. *)
Lemma wf_attack r m m' mv d s :
  heap s !! r = Some m -> no_move_timer r s ->
  moveTimeout m' = Some (next_tid s) -> wf s ->
  wf (store r m' (setTimer (MoveTimeout r mv) d s)).
Proof.
  intros Hr Hfree Hm [H1 H2 H3 H4]. split; simpl; auto.
  - intros t [Ht| ->%list_elem_of_singleton]%elem_of_app; [apply H1 in Ht|simpl]; lia.
  - rewrite fmap_app. apply NoDup_app. split; [done|]. split; [|apply NoDup_singleton].
    simpl. intros x (t & -> & Ht)%list_elem_of_fmap Heq%list_elem_of_singleton.
    apply H1 in Ht. lia.
  - intros r0 m0. destruct (decide (r = r0)) as [<-|Hne].
    + rewrite lookup_insert_eq. intros _. eauto.
    + rewrite lookup_insert_ne by done. eauto.
  - intros t r0 [Ht| ->%list_elem_of_singleton]%elem_of_app Hmv.
    + destruct (decide (r = r0)) as [<-|Hne]; [by destruct (Hfree t Ht)|].
      rewrite lookup_insert_ne by done. eauto.
    + unfold is_move_timeout in Hmv; simpl in Hmv. subst r0.
      rewrite lookup_insert_eq. eauto.
Qed.

(** A fresh match object, as ['createMatch'] allocates it. *)
Lemma wf_alloc m s : wf s -> wf (set_next_ref (S (next_ref s)) (store (next_ref s) m s)).
Proof.
  intros [H1 H2 H3 H4]. split; simpl; auto.
  - intros r0 m0. destruct (decide (next_ref s = r0)) as [<-|Hne].
    + lia.
    + rewrite lookup_insert_ne by done. intros H%H3. lia.
  - intros t r0 Ht Hmv. destruct (H4 t r0 Ht Hmv) as (m0 & Hm0 & Hh).
    rewrite lookup_insert_ne; [eauto|]. apply H3 in Hm0. lia.
Qed.

(** An interval that has just run is armed again under its own handle. *)
Lemma wf_rearm t j a s :
  not_move_job j -> t ∈ timers s -> wf s ->
  wf (rearm t j (clearTimer (tid t) (set_now a s))).
Proof.
  intros Hj Hin [H1 H2 H3 H4]. split; simpl; auto.
  - intros u [[_ Hu]%list_elem_of_filter| ->%list_elem_of_singleton]%elem_of_app; simpl; auto.
  - rewrite fmap_app. apply NoDup_app.
    split; [by apply NoDup_fmap_filter|]. split; [|apply NoDup_singleton].
    simpl. intros x (u & -> & Hu)%list_elem_of_fmap Heq%list_elem_of_singleton.
    by apply list_elem_of_filter in Hu as [Hne _].
  - intros u r0 [[_ Hu]%list_elem_of_filter| ->%list_elem_of_singleton]%elem_of_app Hmv;
      [by apply H4|].
    unfold is_move_timeout in Hmv; simpl in Hmv. by destruct j.
Qed.

Ltac wf_step :=
  lazymatch goal with
  | |- wf (emit _ _ _) => apply wf_emit
  | |- wf (set_now _ _) => apply wf_set_now
  | |- wf (update_socket _ _ _) => apply wf_update_socket
  | |- wf (set_matches _ _) => apply wf_set_matches
  | |- wf (set_sockets _ _) => apply wf_set_sockets
  | |- wf (clearHandle _ _) => apply wf_clearHandle
  | |- wf (clearTimer _ _) => apply wf_clearTimer
  | |- wf (setTimer _ _ _) => apply wf_setTimer; [exact I|]
  end.

Ltac wf_go := repeat first [assumption | wf_step].

Lemma wf_startRoundCountdown c s : wf s -> wf (startRoundCountdown c s).
Proof.
  intros H. unfold startRoundCountdown.
  destruct (get_match s c) as [[r m]|] eqn:E; [|done].
  apply get_match_heap in E. wf_go. by apply (wf_store_keep r m).
Qed.

Lemma wf_startRound c s : wf s -> wf (startRound c s).
Proof.
  intros H. unfold startRound.
  destruct (get_match s c) as [[r m]|] eqn:E; [|done].
  apply get_match_heap in E. apply (wf_store_keep r m); [done|done|]. wf_go.
Qed.

Lemma wf_endMatch c s : wf s -> wf (endMatch c s).
Proof.
  intros H. unfold endMatch.
  destruct (get_match s c) as [[r m]|] eqn:E; [|done].
  apply get_match_heap in E. wf_go. by apply (wf_store_keep r m).
Qed.

Lemma wf_endRound c s : wf s -> wf (endRound c s).
Proof.
  intros H. unfold endRound.
  destruct (get_match s c) as [[r m]|] eqn:E; [|done].
  apply get_match_heap in E.
  set (m1 := match roundTimer m with Some _ => set_roundTimer None m | None => m end).
  assert (Hm1 : moveTimeout m1 = moveTimeout m) by (unfold m1; by destruct (roundTimer m)).
  rewrite Hm1.
  assert (Hw : wf (store r
      (set_state roundEnd
         (match moveTimeout m with Some _ => set_moveTimeout None m1 | None => m1 end))
      (clearHandle (moveTimeout m) (clearHandle (roundTimer m) s)))).
  { apply (wf_store_free r m); [simpl; by rewrite ?heap_clearHandle| |wf_go].
    apply no_move_timer_cleared; [wf_go|simpl; by rewrite ?heap_clearHandle]. }
  destruct (totalRounds _ <=? currentRound _); wf_go.
Qed.

Lemma wf_createMatch sid rnd s : wf s -> wf (createMatch sid rnd s).
Proof. intros H. unfold createMatch. wf_go. by apply wf_alloc. Qed.

Lemma wf_joinMatch sid c s : wf s -> wf (joinMatch sid c s).
Proof.
  intros H. unfold joinMatch.
  destruct (get_match s _) as [[r m]|] eqn:E; [|wf_go].
  apply get_match_heap in E.
  destruct (truthy (player2 m)); [wf_go|].
  apply wf_startRoundCountdown. wf_go. by apply (wf_store_keep r m).
Qed.

Lemma wf_attackMove sid mv s : wf s -> wf (attackMove sid mv s).
Proof.
  intros H. unfold attackMove.
  destruct (socket_match s sid) as [[[c r] m]|] eqn:E; [|done].
  apply socket_match_heap in E.
  destruct (negb _); [done|]. destruct (negb _); [done|].
  apply (wf_attack r m); [simpl; by rewrite ?heap_clearHandle| |done|wf_go].
  apply (no_move_timer_same _ (clearHandle (moveTimeout m) s)); [done|].
  by apply no_move_timer_cleared.
Qed.

Lemma wf_defendMove sid mv s : wf s -> wf (defendMove sid mv s).
Proof.
  intros H. unfold defendMove.
  destruct (socket_match s sid) as [[[c r] m]|] eqn:E; [|done].
  apply socket_match_heap in E.
  destruct (negb _); [done|]. destruct (negb _); [done|].
  destruct (currentMove m) as [cm|]; [|done].
  destruct (responded cm); [done|].
  set (m1 := if bool_decide _ then set_scores (award_point m) m else m).
  assert (Hm1 : moveTimeout m1 = moveTimeout m) by (unfold m1; by destruct (bool_decide _)).
  rewrite Hm1.
  apply (wf_store_free r m); [simpl; by rewrite ?heap_clearHandle| |wf_go].
  eapply no_move_timer_same; [|by apply (no_move_timer_cleared r m s)]. done.
Qed.

Lemma wf_proposeRematch sid s : wf s -> wf (proposeRematch sid s).
Proof.
  intros H. unfold proposeRematch.
  destruct (socket_match s sid) as [[[c r] m]|] eqn:E; [|done].
  apply socket_match_heap in E.
  destruct (negb _); [done|].
  destruct (bool_decide (socket_role s sid = Some Rplayer1));
    destruct (_ && _); wf_go; (apply (wf_store_keep r m); [done|done|wf_go]).
Qed.

Lemma wf_disconnect sid s : wf s -> wf (disconnect sid s).
Proof.
  intros H. unfold disconnect.
  destruct (socket_match _ sid) as [[[c r] m]|]; [|wf_go].
  destruct (negb _); wf_go.
Qed.

Lemma wf_handle sid msg s : wf s -> wf (handle sid msg s).
Proof.
  destruct msg; simpl;
    auto using wf_createMatch, wf_joinMatch, wf_attackMove, wf_defendMove,
      wf_proposeRematch, wf_disconnect.
Qed.

Lemma wf_fire a t s :
  t ∈ timers s -> wf s -> wf (run_job t (clearTimer (tid t) (set_now a s))).
Proof.
  intros Hin H. unfold run_job. destruct (job t) as [c n|c n|r mv|c|r c|sid] eqn:Hj.
  - assert (wf (emit (ToRoom (Some c)) (countdownMsg n)
             (rearm t (CountdownTick c (n - 1)) (clearTimer (tid t) (set_now a s)))))
      by (apply wf_emit; by apply wf_rearm).
    destruct (n - 1 <? 0); [|done]. apply wf_startRound. wf_go.
  - assert (wf (emit (ToRoom (Some c)) (roundTimerMsg (n - 1))
             (rearm t (RoundTick c (n - 1)) (clearTimer (tid t) (set_now a s)))))
      by (apply wf_emit; by apply wf_rearm).
    destruct (n - 1 <=? 0); [|done]. by apply wf_endRound.
  - assert (Hs : wf (clearTimer (tid t) (set_now a s))) by wf_go.
    destruct (heap _ !! r) as [m|] eqn:Hr; [|done].
    destruct (currentMove m) as [cm|]; [|done].
    destruct (responded cm); [done|].
    apply (wf_store_keep r m); [done|done|wf_go].
  - apply wf_endMatch. wf_go.
  - apply wf_startRoundCountdown.
    destruct (heap _ !! r) as [m|] eqn:Hr; [|wf_go].
    apply (wf_store_keep r m); [done|done|wf_go].
  - destruct (socket_code _ sid); [|wf_go]. apply wf_startRoundCountdown. wf_go.
Qed.

Lemma wf_step s a e s' : wf s -> step s a e = Some s' -> wf s'.
Proof.
  intros H. unfold step. destruct (a <? now s); [done|].
  destruct e as [sid|sid msg|h].
  - destruct (sockets _ !! sid); [done|]. intros [= <-]. wf_go.
  - destruct (is_connected _ sid); [|done]. intros [= <-]. apply wf_handle. wf_go.
  - destruct (find_timer h _) as [t|] eqn:Hf; [|done].
    destruct (due t <=? a); [|done]. intros [= <-].
    apply find_timer_elem in Hf as [Hin <-]. by apply wf_fire.
Qed.

Lemma wf_run evs : forall s s', wf s -> run s evs = Some s' -> wf s'.
Proof.
  induction evs as [|[a e] evs IH]; simpl; intros s s' H.
  - by intros [= <-].
  - destruct (step s a e) as [s1|] eqn:E; [|done]. apply IH. by apply (wf_step s a e).
Qed.

(** Two pending reaction timeouts of one match object are one timer. *)
Lemma wf_one_move_timer s r t1 t2 :
  wf s -> t1 ∈ timers s -> t2 ∈ timers s ->
  is_move_timeout r t1 -> is_move_timeout r t2 -> t1 = t2.
Proof.
  intros [H1 H2 H3 H4] Ht1 Ht2 Hm1 Hm2.
  destruct (H4 t1 r Ht1 Hm1) as (m1 & Hr1 & Hh1).
  destruct (H4 t2 r Ht2 Hm2) as (m2 & Hr2 & Hh2).
  assert (Heq : tid t1 = tid t2) by congruence.
  clear -H2 Ht1 Ht2 Heq. induction (timers s) as [|u l IH]; [by apply elem_of_nil in Ht1|].
  rewrite fmap_cons, NoDup_cons in H2. destruct H2 as [Hu Hl].
  apply elem_of_cons in Ht1 as [->|Ht1]; apply elem_of_cons in Ht2 as [->|Ht2]; auto.
  - destruct Hu. rewrite Heq. apply list_elem_of_fmap. eauto.
  - destruct Hu. rewrite <- Heq. apply list_elem_of_fmap. eauto.
Qed.

(** *** Where moves come from *)

Lemma mk_refl s : moves_kept s s.
Proof. intros r m mv ??. eauto. Qed.

Lemma mk_same s x x' : heap x' = heap x -> moves_kept s x -> moves_kept s x'.
Proof. unfold moves_kept. by intros ->. Qed.

Lemma mk_store_none s x r m' :
  currentMove m' = None -> moves_kept s x -> moves_kept s (store r m' x).
Proof.
  intros Hn H r0 m0 mv. simpl. destruct (decide (r = r0)) as [<-|Hne].
  - rewrite lookup_insert_eq. intros [= <-]. congruence.
  - rewrite lookup_insert_ne by done. apply H.
Qed.

Lemma mk_store_same s x r m m' :
  heap x !! r = Some m -> currentMove m' = currentMove m ->
  moves_kept s x -> moves_kept s (store r m' x).
Proof.
  intros Hr Hm H r0 m0 mv. simpl. destruct (decide (r = r0)) as [<-|Hne].
  - rewrite lookup_insert_eq. intros [= <-]. rewrite Hm. by apply H.
  - rewrite lookup_insert_ne by done. apply H.
Qed.

Lemma mk_clearHandle s x h : moves_kept s x -> moves_kept s (clearHandle h x).
Proof. apply mk_same, heap_clearHandle. Qed.

Lemma mk_emit s x t e : moves_kept s x -> moves_kept s (emit t e x).
Proof. by apply mk_same. Qed.
Lemma mk_setTimer s x j d : moves_kept s x -> moves_kept s (setTimer j d x).
Proof. by apply mk_same. Qed.
Lemma mk_clearTimer s x h : moves_kept s x -> moves_kept s (clearTimer h x).
Proof. by apply mk_same. Qed.
Lemma mk_rearm s x t j : moves_kept s x -> moves_kept s (rearm t j x).
Proof. by apply mk_same. Qed.
Lemma mk_set_now s x a : moves_kept s x -> moves_kept s (set_now a x).
Proof. by apply mk_same. Qed.
Lemma mk_update_socket s x sid f : moves_kept s x -> moves_kept s (update_socket sid f x).
Proof. by apply mk_same. Qed.
Lemma mk_set_matches s x v : moves_kept s x -> moves_kept s (set_matches v x).
Proof. by apply mk_same. Qed.
Lemma mk_set_sockets s x v : moves_kept s x -> moves_kept s (set_sockets v x).
Proof. by apply mk_same. Qed.
Lemma mk_set_next_ref s x v : moves_kept s x -> moves_kept s (set_next_ref v x).
Proof. by apply mk_same. Qed.

Ltac mk_step :=
  lazymatch goal with
  | |- moves_kept ?s ?s => apply mk_refl
  | |- moves_kept _ (clearHandle _ _) => apply mk_clearHandle
  | |- moves_kept _ (emit _ _ _) => apply mk_emit
  | |- moves_kept _ (setTimer _ _ _) => apply mk_setTimer
  | |- moves_kept _ (clearTimer _ _) => apply mk_clearTimer
  | |- moves_kept _ (rearm _ _ _) => apply mk_rearm
  | |- moves_kept _ (set_now _ _) => apply mk_set_now
  | |- moves_kept _ (update_socket _ _ _) => apply mk_update_socket
  | |- moves_kept _ (set_matches _ _) => apply mk_set_matches
  | |- moves_kept _ (set_sockets _ _) => apply mk_set_sockets
  | |- moves_kept _ (set_next_ref _ _) => apply mk_set_next_ref
  end.

Ltac mk_go := repeat first [assumption | mk_step].

Lemma mk_startRoundCountdown s x c : moves_kept s x -> moves_kept s (startRoundCountdown c x).
Proof.
  intros H. unfold startRoundCountdown.
  destruct (get_match x c) as [[r m]|] eqn:E; [|done].
  apply get_match_heap in E. mk_go. by apply (mk_store_same _ _ r m).
Qed.

Lemma mk_startRound s x c : moves_kept s x -> moves_kept s (startRound c x).
Proof.
  intros H. unfold startRound.
  destruct (get_match x c) as [[r m]|] eqn:E; [|done].
  apply mk_store_none; [done|]. mk_go.
Qed.

Lemma mk_endMatch s x c : moves_kept s x -> moves_kept s (endMatch c x).
Proof.
  intros H. unfold endMatch.
  destruct (get_match x c) as [[r m]|] eqn:E; [|done].
  apply get_match_heap in E. mk_go. by apply (mk_store_same _ _ r m).
Qed.

Lemma mk_endRound s x c : moves_kept s x -> moves_kept s (endRound c x).
Proof.
  intros H. unfold endRound.
  destruct (get_match x c) as [[r m]|] eqn:E; [|done].
  apply get_match_heap in E.
  assert (moves_kept s (store r
      (set_state roundEnd
         (match moveTimeout (match roundTimer m with Some _ => set_roundTimer None m | None => m end)
          with Some _ => set_moveTimeout None
                 (match roundTimer m with Some _ => set_roundTimer None m | None => m end)
          | None => match roundTimer m with Some _ => set_roundTimer None m | None => m end end))
      (clearHandle (moveTimeout (match roundTimer m with Some _ => set_roundTimer None m | None => m end))
         (clearHandle (roundTimer m) x)))).
  { apply (mk_store_same _ _ r m); [by rewrite !heap_clearHandle| |mk_go].
    destruct (roundTimer m); simpl; by destruct (moveTimeout m). }
  destruct (totalRounds _ <=? currentRound _); mk_go.
Qed.

Lemma mk_createMatch s sid rnd : moves_kept s (createMatch sid rnd s).
Proof. unfold createMatch. mk_go. apply mk_store_none; [done|mk_go]. Qed.

Lemma mk_joinMatch s sid c : moves_kept s (joinMatch sid c s).
Proof.
  unfold joinMatch.
  destruct (get_match s _) as [[r m]|] eqn:E; [|mk_go].
  apply get_match_heap in E.
  destruct (truthy (player2 m)); [mk_go|].
  apply mk_startRoundCountdown. mk_go. apply (mk_store_same _ _ r m); [done|done|mk_go].
Qed.

Lemma mk_defendMove s sid mv : moves_kept s (defendMove sid mv s).
Proof.
  unfold defendMove.
  destruct (socket_match s sid) as [[[c r] m]|] eqn:E; [|mk_go].
  destruct (negb _); [mk_go|]. destruct (negb _); [mk_go|].
  destruct (currentMove m) as [cm|]; [|mk_go].
  destruct (responded cm); [mk_go|].
  apply mk_store_none; [done|]. mk_go.
Qed.

Lemma mk_proposeRematch s sid : moves_kept s (proposeRematch sid s).
Proof.
  unfold proposeRematch.
  destruct (socket_match s sid) as [[[c r] m]|] eqn:E; [|mk_go].
  apply socket_match_heap in E.
  destruct (negb _); [mk_go|].
  destruct (bool_decide (socket_role s sid = Some Rplayer1));
    destruct (_ && _); mk_go; (apply (mk_store_same _ _ r m); [done|done|mk_go]).
Qed.

Lemma mk_disconnect s sid : moves_kept s (disconnect sid s).
Proof.
  unfold disconnect.
  destruct (socket_match _ sid) as [[[c r] m]|]; [|mk_go].
  destruct (negb _); mk_go.
Qed.

Lemma mk_run_job s x t : moves_kept s x -> moves_kept s (run_job t x).
Proof.
  intros H. unfold run_job. destruct (job t) as [c n|c n|r mv|c|r c|sid].
  - destruct (n - 1 <? 0); [|mk_go]. apply mk_startRound. mk_go.
  - destruct (n - 1 <=? 0); [|mk_go]. apply mk_endRound. mk_go.
  - destruct (heap x !! r) as [m|] eqn:Hr; [|done].
    destruct (currentMove m) as [cm|]; [|done].
    destruct (responded cm); [done|].
    apply mk_store_none; [done|mk_go].
  - by apply mk_endMatch.
  - apply mk_startRoundCountdown.
    destruct (heap x !! r) as [m|] eqn:Hr; [|done].
    by apply (mk_store_same _ _ r m).
  - destruct (socket_code x sid); [|done]. by apply mk_startRoundCountdown.
Qed.

(** A move found after a turn of the loop was there before the turn, or
    the turn was an ['attackMove'] of the current attacker of a match in
    state [playing] that has just created it. *)
Lemma step_move_origin s a e s' r m' mv :
  step s a e = Some s' -> heap s' !! r = Some m' -> currentMove m' = Some mv ->
  (exists m, heap s !! r = Some m /\ currentMove m = Some mv)
  \/ (exists sid move c m,
        e = Recv sid (InAttackMove move)
        /\ socket_match s sid = Some (c, r, m)
        /\ state m = playing /\ currentAttacker m = Some sid
        /\ mv = mkMove move a false).
Proof.
  unfold step. destruct (a <? now s); [done|].
  destruct e as [sid|sid msg|h].
  - destruct (sockets _ !! sid); [done|]. intros [= <-] Hr Hm. left. eauto.
  - destruct (is_connected _ sid); [|done]. intros [= <-].
    assert (Hk : forall x, moves_kept (set_now a s) x -> heap x !! r = Some m' ->
                   currentMove m' = Some mv ->
                   exists m, heap s !! r = Some m /\ currentMove m = Some mv).
    { intros x Hx H1 H2. by apply (Hx r m' mv). }
    destruct msg as [rnd|c|move|det| |]; simpl.
    + intros H1 H2. left. exact (Hk _ (mk_createMatch _ _ _) H1 H2).
    + intros H1 H2. left. exact (Hk _ (mk_joinMatch _ _ _) H1 H2).
    + unfold attackMove.
      change (socket_match (set_now a s) sid) with (socket_match s sid).
      destruct (socket_match s sid) as [[[c r0] m]|] eqn:E; [|intros ??; left; eauto].
      destruct (bool_decide (state m = playing)) eqn:Hst; simpl; [|intros ??; left; eauto].
      destruct (bool_decide (Some sid = currentAttacker m)) eqn:Hat; simpl;
        [|intros ??; left; eauto].
      apply bool_decide_eq_true_1 in Hst, Hat.
      destruct (decide (r0 = r)) as [->|Hne].
      * rewrite lookup_insert_eq. intros [= <-]. simpl. intros [= <-].
        right. exists sid, move, c, m. repeat split; try done.
        by destruct (moveTimeout m).
      * rewrite lookup_insert_ne by done. rewrite heap_clearHandle. simpl.
        intros ??. left. eauto.
    + intros H1 H2. left. exact (Hk _ (mk_defendMove _ _ _) H1 H2).
    + intros H1 H2. left. exact (Hk _ (mk_proposeRematch _ _) H1 H2).
    + intros H1 H2. left. exact (Hk _ (mk_disconnect _ _) H1 H2).
  - destruct (find_timer h _) as [t|] eqn:Hf; [|done].
    destruct (due t <=? a); [|done]. intros [= <-] Hr Hm. left.
    assert (Hx : moves_kept s (run_job t (clearTimer h (set_now a s)))).
    { apply mk_run_job. mk_go. }
    by apply (Hx r m' mv).
Qed.

(** *** A pending move: response against timeout *)

Section PendingMove.
Variables (s : State) (d c : string) (r : nat) (m : Match) (mv : Move) (t : Timer) (dir : string).
Hypothesis Hconn : is_connected s d = true.
Hypothesis Hmatch : socket_match s d = Some (c, r, m).
Hypothesis Hplaying : state m = playing.
Hypothesis Hdefender : currentDefender m = Some d.
Hypothesis Hmove : currentMove m = Some mv.
Hypothesis Hpending : responded mv = false.
Hypothesis Hhandle : moveTimeout m = Some (tid t).
Hypothesis Htimer : find_timer (tid t) s = Some t.
Hypothesis Hjob : job t = MoveTimeout r dir.

Lemma response_first det at1 :
  now s <= at1 ->
  exists s1 m1,
    step s at1 (Recv d (InDefendMove det)) = Some s1
    /\ out s1 = (out s ++
         [(ToRoom (currentDefender m),
            moveResult (direction mv) det (bool_decide (det = direction mv))
              (at1 - timestamp mv) (scores m1));
          (ToRoom (currentAttacker m),
            opponentResult (direction mv) det (bool_decide (det = direction mv))
              (at1 - timestamp mv) (scores m1))])%list
    /\ heap s1 !! r = Some m1
    /\ currentMove m1 = None
    /\ total_points m1 = total_points m + (if bool_decide (det = direction mv) then 1 else 0)
    /\ (forall at2, step s1 at2 (Fire (tid t)) = None)
    /\ out (run_job t s1) = out s1.
Proof.
  intros Hat. rewrite step_recv by done.
  unfold handle, defendMove.
  change (socket_match (set_now at1 s) d) with (socket_match s d). rewrite Hmatch.
  rewrite Hplaying, Hdefender, Hmove, Hpending. simpl.
  rewrite (bool_decide_eq_true_2 (Some d = Some d)) by done. simpl.
  destruct (bool_decide (det = direction mv)) eqn:Hok; simpl; rewrite Hhandle; simpl.
  - eexists _, (set_currentMove None (set_moveTimeout None (set_scores (award_point m) m))).
    split; [reflexivity|]. simpl.
    split; [by rewrite ?Hdefender, <- app_assoc|].
    split; [by rewrite lookup_insert_eq|].
    split; [done|].
    split; [unfold total_points, award_point; simpl; destruct (bool_decide (_ = Some (player1 m))); simpl; lia|].
    split; [intros at2; by apply (step_fire_cleared s)|].
    unfold run_job. rewrite Hjob. simpl. by rewrite lookup_insert_eq.
  - eexists _, (set_currentMove None (set_moveTimeout None m)).
    split; [reflexivity|]. simpl.
    split; [by rewrite ?Hdefender, <- app_assoc|].
    split; [by rewrite lookup_insert_eq|].
    split; [done|].
    split; [unfold total_points; simpl; lia|].
    split; [intros at2; by apply (step_fire_cleared s)|].
    unfold run_job. rewrite Hjob. simpl. by rewrite lookup_insert_eq.
Qed.

Lemma timeout_first det at1 at2 :
  now s <= at1 -> due t <= at1 -> at1 <= at2 ->
  exists s1 s2 m1,
    step s at1 (Fire (tid t)) = Some s1
    /\ out s1 = (out s ++
         [(ToRoom (currentDefender m), moveMissed dir);
          (ToRoom (currentAttacker m), opponentMissed dir)])%list
    /\ heap s1 !! r = Some m1
    /\ currentMove m1 = None
    /\ scores m1 = scores m
    /\ step s1 at2 (Recv d (InDefendMove det)) = Some s2
    /\ out s2 = out s1
    /\ heap s2 = heap s1.
Proof.
  intros Hat Hdue Hat2. rewrite step_fire by done.
  unfold run_job. rewrite Hjob. simpl.
  rewrite (socket_match_heap _ _ _ _ _ Hmatch), Hmove, Hpending. simpl.
  eexists _, _, (set_currentMove None m). split; [reflexivity|]. simpl.
  split; [by rewrite ?Hdefender, <- app_assoc|].
  split; [by rewrite lookup_insert_eq|].
  split; [done|]. split; [done|].
  rewrite step_recv by done.
  unfold handle, defendMove.
  match goal with |- context [socket_match ?st d] =>
    rewrite (socket_match_update s st d c r m (set_currentMove None m)) by done end.
  simpl.
  rewrite Hplaying, Hdefender. simpl. rewrite bool_decide_eq_true_2 by done. simpl.
  split; [reflexivity|]. done.
Qed.
End PendingMove.

(** *** Disconnection *)

Lemma stale_job_silent x c t :
  matches x !! c = None -> looks_up x c (job t) ->
  out (run_job t x) = out x /\ matches (run_job t x) = matches x.
Proof.
  intros Hm. unfold run_job, looks_up.
  destruct (job t) as [c' n|c' n|r mv|c'|r c'|p]; try done.
  - intros ->. unfold endMatch. by rewrite (get_match_absent _ _ Hm).
  - intros ->. unfold startRoundCountdown.
    destruct (heap x !! r) as [m|]; by rewrite get_match_absent.
  - intros ->. unfold startRoundCountdown. by rewrite (get_match_absent _ _ Hm).
Qed.

Lemma stale_message_silent x c p msg :
  matches x !! c = None -> socket_code x p = Some c -> match_message msg ->
  handle p msg x = x.
Proof.
  intros Hm Hc Hmsg. pose proof (socket_match_absent _ _ _ Hc Hm) as Hs.
  destruct msg; try done; simpl.
  - unfold attackMove. by rewrite Hs.
  - unfold defendMove. by rewrite Hs.
  - unfold proposeRematch. by rewrite Hs.
Qed.

Lemma disconnect_effect s a sid c r m :
  now s <= a -> is_connected s sid = true ->
  socket_match s sid = Some (c, r, m) -> c <> EmptyString ->
  exists s',
    step s a (Recv sid InDisconnect) = Some s'
    /\ matches s' = delete c (matches s)
    /\ timers s' = timers (clearHandle (moveTimeout m) (clearHandle (roundTimer m) s))
    /\ (forall h, roundTimer m = Some h \/ moveTimeout m = Some h -> find_timer h s' = None)
    /\ out s' = (out s ++ [(ToRoom (Some c), opponentDisconnected)])%list
    /\ heap s' = heap s
    /\ is_connected s' sid = false.
Proof.
  intros Ha Hc Hm Hne. rewrite step_recv by done. simpl. unfold disconnect.
  rewrite socket_match_close.
  change (socket_match (set_now a s) sid) with (socket_match s sid). rewrite Hm.
  simpl. rewrite bool_decide_eq_false_2 by done. simpl.
  eexists. split; [reflexivity|]. simpl.
  assert (Hh : forall h1 h2 x, heap (clearHandle h1 (clearHandle h2 x)) = heap x)
    by (by intros [] [] ?).
  assert (Ho : forall h1 h2 x, out (clearHandle h1 (clearHandle h2 x)) = out x)
    by (by intros [] [] ?).
  assert (Hk : forall h1 h2 x, sockets (clearHandle h1 (clearHandle h2 x)) = sockets x)
    by (by intros [] [] ?).
  assert (Hg : forall h1 h2 x, matches (clearHandle h1 (clearHandle h2 x)) = matches x)
    by (by intros [] [] ?).
  rewrite Hh, Ho, Hg. simpl.
  split; [done|]. split.
  { by destruct (moveTimeout m), (roundTimer m). }
  split.
  { intros h Hh'. apply find_timer_None. simpl. intros t Ht.
    apply timers_clearHandle_sub in Ht as [Ht H2].
    apply timers_clearHandle_sub in Ht as [Ht H1].
    destruct Hh' as [E|E]; rewrite E in *; congruence. }
  split; [done|]. split; [done|].
  unfold is_connected. simpl. rewrite Hk. simpl. rewrite lookup_alter_eq.
  unfold is_connected in Hc. by destruct (sockets s !! sid).
Qed.

(** *** Joining *)

Lemma startRoundCountdown_effect s c r m :
  get_match s c = Some (r, m) ->
  let m' := set_state countdown (with_roles m) in
  let s' := startRoundCountdown c s in
  heap s' = <[r := m']> (heap s)
  /\ out s' = (out s ++
       [(ToRoom (currentAttacker m'), roundStart (currentRound m) (totalRounds m) "attacker" 3);
        (ToRoom (currentDefender m'), roundStart (currentRound m) (totalRounds m) "defender" 3)])%list
  /\ timers s' = (timers s ++ [mkTimer (next_tid s) (now s + 1000) (CountdownTick c 3)])%list
  /\ matches s' = matches s /\ sockets s' = sockets s.
Proof.
  intros H. unfold startRoundCountdown. rewrite H. unfold with_roles.
  destruct (Z.rem (currentRound m) 2 =? 1); simpl; by rewrite <- app_assoc.
Qed.

Lemma joinMatch_cases s sid matchCode :
  let code := toUpperCase matchCode in
  let s' := joinMatch sid matchCode s in
  match get_match s code with
  | None => s' = emit (ToSelf sid) (joinError "Match not found") s
  | Some (r, m) =>
      if truthy (player2 m)
      then s' = emit (ToSelf sid) (joinError "Match is full") s
      else
        let m' := set_state countdown (with_roles (set_player2 (Some sid) m)) in
        heap s' = <[r := m']> (heap s)
        /\ player2 m' = Some sid
        /\ matches s' = matches s
        /\ sockets s' = alter (fun k => socket_assign code Rplayer2 (socket_join code k)) sid (sockets s)
        /\ out s' = (out s ++
             [(ToRoom (Some code), matchStarted code (player1 m) (Some sid));
              (ToRoom (currentAttacker m'), roundStart (currentRound m) (totalRounds m) "attacker" 3);
              (ToRoom (currentDefender m'), roundStart (currentRound m) (totalRounds m) "defender" 3)])%list
        /\ timers s' = (timers s ++ [mkTimer (next_tid s) (now s + 1000) (CountdownTick code 3)])%list
  end.
Proof.
  intros code s'. unfold s', joinMatch. fold code.
  destruct (get_match s code) as [[r m]|] eqn:E; [|done].
  destruct (truthy (player2 m)); [done|].
  set (m1 := set_player2 (Some sid) m).
  set (s1 := emit _ _ (update_socket _ _ (store r m1 s))).
  assert (E1 : get_match s1 code = Some (r, m1)) by apply (get_match_store_eq _ _ _ _ _ E).
  destruct (startRoundCountdown_effect s1 code r m1 E1) as (Hh & Ho & Ht & Hm & Hs).
  rewrite Hh, Ho, Ht, Hm, Hs. simpl.
  split; [by rewrite insert_insert_eq|].
  split; [unfold with_roles; by destruct (_ =? _)|].
  split; [done|]. split; [done|]. split; [by rewrite <- app_assoc|done].
Qed.

(** *** The rematch handshake *)

Lemma proposeRematch_ignored s sid c r m :
  socket_match s sid = Some (c, r, m) -> state m <> matchEnd -> proposeRematch sid s = s.
Proof. intros H Hs. unfold proposeRematch. rewrite H. by rewrite bool_decide_eq_false_2. Qed.

Lemma proposeRematch_first s sid c r m role :
  socket_match s sid = Some (c, r, m) -> socket_role s sid = Some role ->
  state m = matchEnd ->
  fst (rematchProposals (record_proposal role m)) && snd (rematchProposals (record_proposal role m)) = false ->
  proposeRematch sid s
  = store r (record_proposal role m) (emit (ToRoom (other_player role m)) rematchProposed s).
Proof.
  intros H Hr Hs Hf. unfold proposeRematch. rewrite H, Hr, Hs.
  rewrite bool_decide_eq_true_2 by done. simpl.
  destruct role; simpl in *; by rewrite Hf.
Qed.

Lemma proposeRematch_second s sid c r m role :
  socket_match s sid = Some (c, r, m) -> socket_role s sid = Some role ->
  state m = matchEnd ->
  fst (rematchProposals (record_proposal role m)) && snd (rematchProposals (record_proposal role m)) = true ->
  proposeRematch sid s
  = setTimer (RematchDelay sid) 1000
      (emit (ToRoom (Some c)) rematchStarting
         (store r (reset_match (record_proposal role m))
            (emit (ToRoom (other_player role m)) rematchProposed s))).
Proof.
  intros H Hr Hs Hf. unfold proposeRematch. rewrite H, Hr, Hs.
  rewrite bool_decide_eq_true_2 by done. simpl.
  destruct role; simpl in *; by rewrite Hf.
Qed.

Section Handshake.
Variables (s : State) (c : string) (r : nat) (m : Match).
Hypothesis Hend : state m = matchEnd.
Hypothesis Hnone : rematchProposals m = (false, false).

(** Proposal by [x] then by [y], the two being the two players in either order. *)
Lemma handshake_order x y rx ry :
  socket_match s x = Some (c, r, m) -> socket_match s y = Some (c, r, m) ->
  socket_role s x = Some rx -> socket_role s y = Some ry -> rx <> ry ->
  let s1 := proposeRematch x s in
  let s2 := proposeRematch y s1 in
  heap s1 = <[r := record_proposal rx m]> (heap s)
  /\ out s1 = (out s ++ [(ToRoom (other_player rx m), rematchProposed)])%list
  /\ timers s1 = timers s
  /\ heap s2 = <[r := reset_match (record_proposal ry (record_proposal rx m))]> (heap s)
  /\ out s2 = (out s1 ++ [(ToRoom (other_player ry m), rematchProposed);
                          (ToRoom (Some c), rematchStarting)])%list
  /\ timers s2 = (timers s ++ [mkTimer (next_tid s) (now s + 1000) (RematchDelay y)])%list
  /\ sockets s2 = sockets s /\ matches s2 = matches s.
Proof.
  intros Hx Hy Hrx Hry Hne s1 s2.
  assert (E1 : s1 = store r (record_proposal rx m)
                      (emit (ToRoom (other_player rx m)) rematchProposed s)).
  { apply (proposeRematch_first _ _ c); try done.
    destruct rx; simpl; rewrite Hnone; done. }
  assert (Hy1 : socket_match s1 y = Some (c, r, record_proposal rx m)).
  { apply (socket_match_update s _ _ _ _ m); [by rewrite E1..|done]. }
  assert (Hry1 : socket_role s1 y = Some ry) by (by rewrite E1).
  assert (E2 : s2 = setTimer (RematchDelay y) 1000
                      (emit (ToRoom (Some c)) rematchStarting
                         (store r (reset_match (record_proposal ry (record_proposal rx m)))
                            (emit (ToRoom (other_player ry (record_proposal rx m)))
                               rematchProposed s1)))).
  { apply (proposeRematch_second _ _ c); try done.
    - by destruct rx.
    - destruct rx, ry; simpl; try done. }
  rewrite E2, E1. simpl.
  split; [done|]. split; [done|]. split; [done|].
  split; [by rewrite insert_insert_eq|].
  split; [|done]. rewrite <- !app_assoc. by destruct rx.
Qed.
End Handshake.

Lemma reset_match_fields m :
  currentRound (reset_match m) = 1
  /\ scores (reset_match m) = mkScores 0 0
  /\ rematchProposals (reset_match m) = (false, false)
  /\ state (reset_match m) = state m.
Proof. done. Qed.

(** The example states are the states the event loop reaches. *)
Lemma examples_reached :
  run init opening = Some s_countdown
  /\ run s_countdown countdown_ticks = Some s_playing
  /\ step s_playing 4500 (Recv "A" (InAttackMove "up")) = Some s_pending
  /\ run s_pending [(5020, Fire 1%nat); (6020, Fire 1%nat)] = Some s_pending_late
  /\ elapse 34 s_countdown = Some s_roundEnd
  /\ elapse 140 s_countdown = Some s_matchEnd
  /\ run s_matchEnd rematch_twice = Some s_rematch_twice
  /\ elapse 90 s_rematch_twice = Some s_overrun
  /\ run init first_attack = Some s_pending
  /\ step s_pending 4900 (Recv "A" (InAttackMove "down")) = Some s_replaced.
Proof. do 9 (split; [vm_compute; reflexivity|]). vm_compute; reflexivity. Qed.

(** *** The end of a round *)

(** One call of [endRound]: the handles stored on the match are cleared,
    the match is in [roundEnd], ['roundEnd'] goes to the room, and one
    delay is scheduled: 2000 ms to [endMatch] in the last round, 3000 ms
    to the next round otherwise. *)
Lemma endRound_effect s c r m :
  get_match s c = Some (r, m) ->
  let s' := endRound c s in
  exists m',
    heap s' = <[r := m']> (heap s)
    /\ state m' = roundEnd /\ roundTimer m' = None /\ moveTimeout m' = None
    /\ currentRound m' = currentRound m /\ totalRounds m' = totalRounds m
    /\ scores m' = scores m
    /\ out s' = (out s ++ [(ToRoom (Some c), roundEndMsg (currentRound m) (scores m))])%list
    /\ timers s' = (timers (clearHandle (moveTimeout m) (clearHandle (roundTimer m) s)) ++
         [if totalRounds m <=? currentRound m
          then mkTimer (next_tid s) (now s + 2000) (EndMatchDelay c)
          else mkTimer (next_tid s) (now s + 3000) (NextRoundDelay r c)])%list.
Proof.
  intros H. unfold endRound. rewrite H.
  destruct (roundTimer m) eqn:Hrt, (moveTimeout m) eqn:Hmt; simpl; rewrite ?Hmt; simpl;
    destruct (totalRounds m <=? currentRound m); simpl;
    eexists; (split; [reflexivity|]); simpl; by rewrite ?Hrt, ?Hmt.
Qed.

(** The next-round delay adds one to the round number of the match
    object it captured and starts the countdown of the registered match. *)
Lemma nextRoundDelay_effect x t c r m :
  job t = NextRoundDelay r c ->
  get_match x c = Some (r, m) ->
  heap (run_job t x)
  = <[r := set_state countdown (with_roles (set_currentRound (currentRound m + 1) m))]> (heap x).
Proof.
  intros Hj Hm. unfold run_job. rewrite Hj.
  rewrite (get_match_heap _ _ _ _ Hm).
  destruct (startRoundCountdown_effect (store r (set_currentRound (currentRound m + 1) m) x)
              c r (set_currentRound (currentRound m + 1) m)) as (Hh & _).
  { by apply (get_match_store_eq _ _ _ m). }
  rewrite Hh. simpl. by rewrite insert_insert_eq.
Qed.

(** *** Messages from the wrong sender or in the wrong state *)

Lemma attackMove_ignored s sid move c r m :
  socket_match s sid = Some (c, r, m) ->
  state m <> playing \/ currentAttacker m <> Some sid ->
  attackMove sid move s = s.
Proof.
  intros H Hw. unfold attackMove. rewrite H.
  destruct (decide (state m = playing)) as [Hp|Hp].
  - rewrite (bool_decide_eq_true_2 _ Hp). simpl.
    destruct Hw as [?|Ha]; [done|]. rewrite bool_decide_eq_false_2; [done|congruence].
  - by rewrite (bool_decide_eq_false_2 _ Hp).
Qed.

Lemma defendMove_ignored s sid det c r m :
  socket_match s sid = Some (c, r, m) ->
  state m <> playing \/ currentDefender m <> Some sid \/ currentMove m = None ->
  defendMove sid det s = s.
Proof.
  intros H Hw. unfold defendMove. rewrite H.
  destruct (decide (state m = playing)) as [Hp|Hp].
  - rewrite (bool_decide_eq_true_2 _ Hp). simpl.
    destruct (decide (Some sid = currentDefender m)) as [Hd|Hd].
    + rewrite (bool_decide_eq_true_2 _ Hd). simpl.
      destruct Hw as [?|[?|Hn]]; [done|congruence|]. by rewrite Hn.
    + by rewrite (bool_decide_eq_false_2 _ Hd).
  - by rewrite (bool_decide_eq_false_2 _ Hp).
Qed.

Lemma unmatched_socket_ignored s sid msg :
  socket_match s sid = None -> match_message msg -> handle sid msg s = s.
Proof.
  intros H Hm. destruct msg; try done; simpl.
  - unfold attackMove. by rewrite H.
  - unfold defendMove. by rewrite H.
  - unfold proposeRematch. by rewrite H.
Qed.

(** *** Pending moves and their timeouts *)

Lemma ab_init : armed_but None init.
Proof.
  split; simpl.
  - intros c r H. by rewrite lookup_empty in H.
  - intros c r m H. by rewrite lookup_empty in H.
  - intros r m h H. by rewrite lookup_empty in H.
  - intros t r m H. by apply elem_of_nil in H.
  - intros c r m mv _ H. unfold get_match in H. simpl in H. by rewrite lookup_empty in H.
Qed.

Lemma get_match_same s s' c :
  matches s' = matches s -> heap s' = heap s -> get_match s' c = get_match s c.
Proof. unfold get_match. by intros -> ->. Qed.

Lemma ab_same ex s s' :
  matches s' = matches s -> heap s' = heap s -> next_ref s' = next_ref s ->
  timers s' = timers s -> next_tid s' = next_tid s ->
  armed_but ex s -> armed_but ex s'.
Proof.
  intros Hm Hh Hr Ht Hn [H1 H2 H3 H4 H5].
  split; rewrite ?Hm, ?Hh, ?Hr, ?Ht, ?Hn; auto.
  intros c r m mv Hex Hg. rewrite (get_match_same s s') in Hg by done. eauto.
Qed.

Lemma ab_weaken ex s : armed_but None s -> armed_but ex s.
Proof. intros [H1 H2 H3 H4 H5]. split; auto. intros c r m mv _. by apply H5. Qed.

Lemma ab_emit ex t e s : armed_but ex s -> armed_but ex (emit t e s).
Proof. by apply ab_same. Qed.
Lemma ab_set_now ex a s : armed_but ex s -> armed_but ex (set_now a s).
Proof. by apply ab_same. Qed.
Lemma ab_update_socket ex sid f s : armed_but ex s -> armed_but ex (update_socket sid f s).
Proof. by apply ab_same. Qed.
Lemma ab_set_sockets ex v s : armed_but ex s -> armed_but ex (set_sockets v s).
Proof. by apply ab_same. Qed.

(** Clearing a handle that names no reaction timeout of a match other
    than [ex]. *)
Lemma ab_clearTimer ex h s :
  (forall t r, t ∈ timers s -> tid t = h -> is_move_timeout r t -> ex = Some r) ->
  armed_but ex s -> armed_but ex (clearTimer h s).
Proof.
  intros Hh [H1 H2 H3 H4 H5]. split; simpl; auto.
  - intros t r m [_ Ht]%list_elem_of_filter. auto.
  - intros c r m mv Hex Hg Hp Hmv Hr.
    destruct (H5 c r m mv Hex Hg Hp Hmv Hr) as (t & Ht & Hto & Hj).
    exists t. split; [|done]. apply list_elem_of_filter. split; [|done].
    intros Heq. destruct Hex. apply (Hh t r); [done|done|].
    unfold is_move_timeout. by rewrite Hj.
Qed.

Lemma ab_clear_round ex r m s :
  heap s !! r = Some m -> armed_but ex s -> armed_but ex (clearHandle (roundTimer m) s).
Proof.
  intros Hr H. destruct (roundTimer m) as [h|] eqn:Hh; [|done]. simpl.
  apply ab_clearTimer; [|done]. intros t r' Ht Heq Hmv.
  destruct (ab_kind _ _ H t r m Ht Hr) as [_ Hk]. rewrite Heq in Hk. specialize (Hk Hh).
  unfold is_move_timeout in Hmv. by destruct (job t).
Qed.

Lemma ab_clear_move r m s :
  heap s !! r = Some m -> armed_but None s -> armed_but (Some r) (clearHandle (moveTimeout m) s).
Proof.
  intros Hr H. apply (ab_weaken (Some r)) in H.
  destruct (moveTimeout m) as [h|] eqn:Hh; [|done]. simpl.
  apply ab_clearTimer; [|done]. intros t r' Ht Heq Hmv.
  destruct (ab_kind _ _ H t r m Ht Hr) as [Hk _]. rewrite Heq in Hk. specialize (Hk Hh).
  unfold is_move_timeout in *. destruct (job t); try done. congruence.
Qed.

Lemma ab_setTimer ex j d s : not_move_job j -> armed_but ex s -> armed_but ex (setTimer j d s).
Proof.
  intros Hj [H1 H2 H3 H4 H5]. split; simpl; auto.
  - intros r m h Hr Hh. specialize (H3 r m h Hr Hh). lia.
  - intros t r m [Ht| ->%list_elem_of_singleton]%elem_of_app Hr; [by apply H4|]. simpl.
    split; intros Hh.
    + assert (next_tid s < next_tid s)%nat by (apply (H3 r m); auto). lia.
    + done.
  - intros c r m mv Hex Hg Hp Hmv Hr.
    destruct (H5 c r m mv Hex Hg Hp Hmv Hr) as (t & Ht & Hto & Hjt).
    exists t. split; [|done]. apply elem_of_app. by left.
Qed.

Lemma get_match_store s c r r0 m m0 :
  get_match (store r m s) c = Some (r0, m0) ->
  (r0 = r /\ m0 = m /\ matches s !! c = Some r)
  \/ (r0 <> r /\ get_match s c = Some (r0, m0)).
Proof.
  unfold get_match, store; simpl.
  destruct (matches s !! c) as [r1|]; [|done].
  destruct (decide (r = r1)) as [<-|Hne].
  - rewrite lookup_insert_eq. intros [= <- <-]. by left.
  - rewrite lookup_insert_ne by done.
    destruct (heap s !! r1) as [m1|]; [|done]. intros [= <- <-]. right. split; [congruence|done].
Qed.

Lemma ab_store_base ex ex' r m m' s :
  heap s !! r = Some m -> handles_shrink m m' ->
  (forall c mv, ex' <> Some r -> matches s !! c = Some r ->
     state m' = playing -> currentMove m' = Some mv -> responded mv = false ->
     exists t, t ∈ timers s /\ moveTimeout m' = Some (tid t)
               /\ job t = MoveTimeout r (direction mv)) ->
  (forall r0, ex' <> Some r0 -> r0 <> r -> ex <> Some r0) ->
  armed_but ex s -> armed_but ex' (store r m' s).
Proof.
  intros Hr (Hc & Hmt & Hrt) Hown Hex [H1 H2 H3 H4 H5]. split; simpl; auto.
  - intros c r0 m0 Hreg. destruct (decide (r = r0)) as [<-|Hne].
    + rewrite lookup_insert_eq. intros [= <-]. rewrite Hc. eauto.
    + rewrite lookup_insert_ne by done. eauto.
  - intros r0 m0 h. destruct (decide (r = r0)) as [<-|Hne].
    + rewrite lookup_insert_eq. intros [= <-] [Hh|Hh]; apply (H3 r m h Hr).
      * left. destruct Hmt as [E|E]; congruence.
      * right. destruct Hrt as [E|E]; congruence.
    + rewrite lookup_insert_ne by done. eauto.
  - intros t r0 m0 Ht. destruct (decide (r = r0)) as [<-|Hne].
    + rewrite lookup_insert_eq. intros [= <-]. destruct (H4 t r m Ht Hr) as [K1 K2]. split.
      * intros Hh. apply K1. destruct Hmt as [E|E]; congruence.
      * intros Hh. apply K2. destruct Hrt as [E|E]; congruence.
    + rewrite lookup_insert_ne by done. eauto.
  - intros c r0 m0 mv Hne Hg Hp Hmv Hresp.
    apply get_match_store in Hg as [(-> & -> & Hreg)|[Hr0 Hg]].
    + by apply (Hown c mv).
    + apply (H5 c r0 m0 mv); auto.
Qed.

(** Writing back an object whose state, move and timeout handle are the same. *)
Lemma ab_store_keep ex r m m' s :
  heap s !! r = Some m -> code m' = code m ->
  moveTimeout m' = moveTimeout m ->
  roundTimer m' = roundTimer m \/ roundTimer m' = None ->
  state m' = state m -> currentMove m' = currentMove m ->
  armed_but ex s -> armed_but ex (store r m' s).
Proof.
  intros Hr Hc Hmt Hrt Hst Hcm H. apply (ab_store_base ex ex r m m'); auto.
  - split; [done|]. split; [by left|done].
  - intros c mv Hex Hreg Hp Hmv Hresp. rewrite Hmt.
    apply (ab_armed _ _ H c r m mv); try congruence.
    unfold get_match. by rewrite Hreg, Hr.
Qed.

(** Writing back an object that is not in play, or has no move. *)
Lemma ab_store_close ex r m m' s :
  ex = None \/ ex = Some r ->
  heap s !! r = Some m -> handles_shrink m m' ->
  state m' <> playing \/ currentMove m' = None ->
  armed_but ex s -> armed_but None (store r m' s).
Proof.
  intros Hex Hr Hsh Hq H. apply (ab_store_base ex None r m m'); auto.
  - intros c mv _ _ Hp Hmv. destruct Hq; congruence.
  - intros r0 _ Hne. destruct Hex; congruence.
Qed.

(** The new round timer of [startRound]. *)
Lemma ab_round_timer ex r m m' c n d s :
  ex = None \/ ex = Some r -> wf s ->
  heap s !! r = Some m -> code m' = code m -> moveTimeout m' = moveTimeout m ->
  roundTimer m' = Some (next_tid s) -> currentMove m' = None ->
  armed_but ex s -> armed_but None (store r m' (setTimer (RoundTick c n) d s)).
Proof.
  intros Hex Hwf Hr Hc Hmt Hrt Hcm [H1 H2 H3 H4 H5]. split; simpl; auto.
  - intros c0 r0 m0 Hreg. destruct (decide (r = r0)) as [<-|Hne].
    + rewrite lookup_insert_eq. intros [= <-]. rewrite Hc. eauto.
    + rewrite lookup_insert_ne by done. eauto.
  - intros r0 m0 h. destruct (decide (r = r0)) as [<-|Hne].
    + rewrite lookup_insert_eq. intros [= <-] [Hh|Hh].
      * assert (h < next_tid s)%nat; [|lia]. apply (H3 r m h Hr). left. congruence.
      * assert (h = next_tid s) by congruence. lia.
    + rewrite lookup_insert_ne by done. intros Hr0 Hh. specialize (H3 r0 m0 h Hr0 Hh). lia.
  - intros t r0 m0 Ht. destruct (decide (r = r0)) as [<-|Hne].
    + rewrite lookup_insert_eq. intros [= <-].
      apply elem_of_app in Ht as [Ht| ->%list_elem_of_singleton].
      * destruct (H4 t r m Ht Hr) as [K1 K2]. split; [intros Hh; apply K1; congruence|].
        intros Hh. pose proof (wf_tids _ Hwf t Ht). assert (tid t = next_tid s) by congruence. lia.
      * simpl. split; [|done]. intros Hh.
        assert (next_tid s < next_tid s)%nat; [|lia]. apply (H3 r m _ Hr). left. congruence.
    + rewrite lookup_insert_ne by done. intros Hr0.
      apply elem_of_app in Ht as [Ht| ->%list_elem_of_singleton]; [by apply H4|].
      simpl. split; [|done]. intros Hh.
      assert (next_tid s < next_tid s)%nat; [|lia]. apply (H3 r0 m0 _ Hr0). by left.
  - intros c0 r0 m0 mv _ Hg Hp Hmv Hresp.
    apply get_match_store in Hg as [(-> & -> & Hreg)|[Hr0 Hg]]; [congruence|].
    destruct (H5 c0 r0 m0 mv) as (t & Ht & Hto & Hj); auto.
    { destruct Hex; congruence. }
    exists t. split; [|done]. apply elem_of_app. by left.
Qed.

(** The new move of ['attackMove'] with its reaction timeout. *)
Lemma ab_attack r m m' mv ts d s :
  wf s -> heap s !! r = Some m -> code m' = code m -> roundTimer m' = roundTimer m ->
  moveTimeout m' = Some (next_tid s) -> currentMove m' = Some (mkMove mv ts false) ->
  armed_but (Some r) s -> armed_but None (store r m' (setTimer (MoveTimeout r mv) d s)).
Proof.
  intros Hwf Hr Hc Hrt Hmt Hcm [H1 H2 H3 H4 H5]. split; simpl; auto.
  - intros c0 r0 m0 Hreg. destruct (decide (r = r0)) as [<-|Hne].
    + rewrite lookup_insert_eq. intros [= <-]. rewrite Hc. eauto.
    + rewrite lookup_insert_ne by done. eauto.
  - intros r0 m0 h. destruct (decide (r = r0)) as [<-|Hne].
    + rewrite lookup_insert_eq. intros [= <-] [Hh|Hh].
      * assert (h = next_tid s) by congruence. lia.
      * assert (h < next_tid s)%nat; [|lia]. apply (H3 r m h Hr). right. congruence.
    + rewrite lookup_insert_ne by done. intros Hr0 Hh. specialize (H3 r0 m0 h Hr0 Hh). lia.
  - intros t r0 m0 Ht. destruct (decide (r = r0)) as [<-|Hne].
    + rewrite lookup_insert_eq. intros [= <-].
      apply elem_of_app in Ht as [Ht| ->%list_elem_of_singleton].
      * destruct (H4 t r m Ht Hr) as [K1 K2]. split; [|intros Hh; apply K2; congruence].
        intros Hh. pose proof (wf_tids _ Hwf t Ht). assert (tid t = next_tid s) by congruence. lia.
      * simpl. split; [done|]. intros Hh.
        assert (next_tid s < next_tid s)%nat; [|lia]. apply (H3 r m _ Hr). right. congruence.
    + rewrite lookup_insert_ne by done. intros Hr0.
      apply elem_of_app in Ht as [Ht| ->%list_elem_of_singleton]; [by apply H4|].
      simpl. split; intros Hh.
      * assert (next_tid s < next_tid s)%nat; [|lia]. apply (H3 r0 m0 _ Hr0). by left.
      * assert (next_tid s < next_tid s)%nat; [|lia]. apply (H3 r0 m0 _ Hr0). by right.
  - intros c0 r0 m0 mv0 _ Hg Hp Hmv Hresp.
    apply get_match_store in Hg as [(-> & -> & Hreg)|[Hr0 Hg]].
    + eexists. split; [apply elem_of_app; right; by apply list_elem_of_singleton|].
      simpl. split; [done|]. rewrite Hcm in Hmv. by injection Hmv as <-.
    + destruct (H5 c0 r0 m0 mv0) as (t & Ht & Hto & Hj); auto; [congruence|].
      exists t. split; [|done]. apply elem_of_app. by left.
Qed.

(** A new match object under a new reference, registered under its code. *)
Lemma ab_register c m s :
  wf s -> code m = c -> state m = waiting -> moveTimeout m = None -> roundTimer m = None ->
  armed_but None s ->
  armed_but None
    (set_matches (<[c := next_ref s]> (matches s))
       (set_next_ref (S (next_ref s)) (store (next_ref s) m s))).
Proof.
  intros Hwf Hc Hst Hmt Hrt [H1 H2 H3 H4 H5].
  assert (Hnew : heap s !! next_ref s = None).
  { destruct (heap s !! next_ref s) eqn:E; [|done]. apply (wf_refs _ Hwf) in E. lia. }
  split; simpl.
  - intros c0 r0. destruct (decide (c = c0)) as [<-|Hne].
    + rewrite lookup_insert_eq. intros [= <-]. lia.
    + rewrite lookup_insert_ne by done. intros Hr%H1. lia.
  - intros c0 r0 m0. destruct (decide (c = c0)) as [<-|Hne].
    + rewrite lookup_insert_eq. intros [= <-]. rewrite lookup_insert_eq. by intros [= <-].
    + rewrite lookup_insert_ne by done. intros Hreg.
      rewrite lookup_insert_ne by (apply H1 in Hreg; lia). eauto.
  - intros r0 m0 h. destruct (decide (next_ref s = r0)) as [<-|Hne].
    + rewrite lookup_insert_eq. intros [= <-] [Hh|Hh]; congruence.
    + rewrite lookup_insert_ne by done. eauto.
  - intros t r0 m0 Ht. destruct (decide (next_ref s = r0)) as [<-|Hne].
    + rewrite lookup_insert_eq. intros [= <-]. split; congruence.
    + rewrite lookup_insert_ne by done. eauto.
  - intros c0 r0 m0 mv _. unfold get_match; simpl.
    destruct (decide (c = c0)) as [<-|Hne].
    + rewrite lookup_insert_eq, lookup_insert_eq. intros [= <- <-]. congruence.
    + rewrite lookup_insert_ne by done. intros Hg.
      destruct (matches s !! c0) as [r1|] eqn:Hreg; [|done].
      rewrite lookup_insert_ne in Hg by (apply H1 in Hreg; lia).
      apply (H5 c0 r0 m0 mv); [done|]. unfold get_match. by rewrite Hreg.
Qed.

(** Taking the code of the object [r] out of the registry. *)
Lemma ab_unregister c r s :
  matches s !! c = Some r ->
  armed_but (Some r) s -> armed_but None (set_matches (delete c (matches s)) s).
Proof.
  intros Hreg [H1 H2 H3 H4 H5]. split; simpl; auto.
  - intros c0 r0 [_ H]%lookup_delete_Some. eauto.
  - intros c0 r0 m0 [_ H]%lookup_delete_Some. eauto.
  - intros c0 r0 m0 mv _. unfold get_match; simpl.
    destruct (decide (c = c0)) as [<-|Hne]; [by rewrite lookup_delete_eq|].
    rewrite lookup_delete_ne by done. intros Hg.
    destruct (matches s !! c0) as [r1|] eqn:Hreg0; [|done].
    destruct (heap s !! r1) as [m1|] eqn:Hr1; [|done]. injection Hg as -> ->.
    apply (H5 c0 r0 m0 mv); [|unfold get_match; by rewrite Hreg0, Hr1].
    intros [= Heq]. destruct Hne. subst r0.
    transitivity (code m0); [symmetry; by apply (H2 c r m0)|by apply (H2 c0 r m0)].
Qed.

(** The object left out has no unanswered move in play. *)
Lemma ab_settled r s :
  (forall m mv, heap s !! r = Some m -> state m = playing ->
     currentMove m = Some mv -> responded mv = false -> False) ->
  armed_but (Some r) s -> armed_but None s.
Proof.
  intros Hno [H1 H2 H3 H4 H5]. split; auto.
  intros c r0 m mv _ Hg Hp Hmv Hresp. destruct (decide (r0 = r)) as [->|Hne].
  - destruct (Hno m mv); auto. by apply get_match_heap in Hg.
  - apply (H5 c r0 m mv); auto. congruence.
Qed.

Lemma tid_inj s t1 t2 :
  wf s -> t1 ∈ timers s -> t2 ∈ timers s -> tid t1 = tid t2 -> t1 = t2.
Proof.
  intros Hwf H1 H2 Heq. pose proof (wf_nodup _ Hwf) as Hnd.
  apply list_elem_of_lookup in H1 as [i Hi]. apply list_elem_of_lookup in H2 as [j Hj].
  assert (i = j).
  { apply (NoDup_lookup _ i j (tid t1) Hnd).
    - by rewrite list_lookup_fmap, Hi.
    - by rewrite list_lookup_fmap, Hj, Heq. }
  subst. congruence.
Qed.

(** Clearing the handle of a pending timer that is no reaction timeout. *)
Lemma ab_clear_plain ex t s :
  wf s -> t ∈ timers s -> not_move_job (job t) ->
  armed_but ex s -> armed_but ex (clearTimer (tid t) s).
Proof.
  intros Hwf Ht Hj H. apply ab_clearTimer; [|done].
  intros u r Hu Heq Hmv. rewrite (tid_inj s u t Hwf Hu Ht Heq) in Hmv.
  unfold is_move_timeout in Hmv. by destruct (job t).
Qed.

(** Clearing the handle of a pending reaction timeout of the object [r]. *)
Lemma ab_clear_timeout r mv t s :
  wf s -> t ∈ timers s -> job t = MoveTimeout r mv ->
  armed_but None s -> armed_but (Some r) (clearTimer (tid t) s).
Proof.
  intros Hwf Ht Hj H. apply ab_clearTimer; [|by apply ab_weaken].
  intros u r' Hu Heq Hmv. rewrite (tid_inj s u t Hwf Hu Ht Heq) in Hmv.
  unfold is_move_timeout in Hmv. rewrite Hj in Hmv. congruence.
Qed.

(** An interval that has just run is armed again under its own handle. *)
Lemma ab_rearm ex t j a s :
  wf s -> t ∈ timers s -> not_move_job (job t) -> not_move_job j ->
  armed_but ex s -> armed_but ex (rearm t j (clearTimer (tid t) (set_now a s))).
Proof.
  intros Hwf Ht Hjt Hj H.
  pose proof (ab_clear_plain ex t s Hwf Ht Hjt H) as [H1 H2 H3 H4 H5].
  split; simpl; auto.
  - intros u r m [Hu| ->%list_elem_of_singleton]%elem_of_app Hr; [by apply H4|]. simpl.
    split; [|done]. intros Hh. destruct (ab_kind _ _ H t r m Ht Hr) as [K _].
    specialize (K Hh). unfold is_move_timeout in K. by destruct (job t).
  - intros c r m mv Hex Hg Hp Hmv Hr.
    destruct (H5 c r m mv Hex Hg Hp Hmv Hr) as (u & Hu & Hto & Hju).
    exists u. split; [|done]. apply elem_of_app. by left.
Qed.

Lemma sound_init : sound init.
Proof. split; [apply wf_init|apply ab_init]. Qed.

Ltac ab_step :=
  lazymatch goal with
  | |- armed_but _ (emit _ _ _) => apply ab_emit
  | |- armed_but _ (set_now _ _) => apply ab_set_now
  | |- armed_but _ (update_socket _ _ _) => apply ab_update_socket
  | |- armed_but _ (set_sockets _ _) => apply ab_set_sockets
  | |- armed_but _ (setTimer _ _ _) => apply ab_setTimer; [exact I|]
  end.

Ltac ab_go := repeat first [assumption | ab_step].

Ltac ab_side :=
  try done; try (by left); try (by right);
  try (unfold handles_shrink; simpl; by auto).

Lemma ab_startRoundCountdown c s : armed_but None s -> armed_but None (startRoundCountdown c s).
Proof.
  intros H. unfold startRoundCountdown.
  destruct (get_match s c) as [[r m]|] eqn:E; [|done].
  apply get_match_heap in E. ab_go.
  apply (ab_store_close None r m); auto; ab_side.
Qed.

Lemma ab_startRound c s : wf s -> armed_but None s -> armed_but None (startRound c s).
Proof.
  intros Hwf H. unfold startRound.
  destruct (get_match s c) as [[r m]|] eqn:E; [|done].
  apply get_match_heap in E.
  apply (ab_round_timer None r m); auto; [wf_go|ab_go].
Qed.

Lemma ab_endMatch c s : armed_but None s -> armed_but None (endMatch c s).
Proof.
  intros H. unfold endMatch.
  destruct (get_match s c) as [[r m]|] eqn:E; [|done].
  apply get_match_heap in E. ab_go.
  apply (ab_store_close None r m); auto; ab_side.
Qed.

Lemma ab_endRound c s : armed_but None s -> armed_but None (endRound c s).
Proof.
  intros H. unfold endRound.
  destruct (get_match s c) as [[r m]|] eqn:E; [|done].
  apply get_match_heap in E.
  set (m1 := match roundTimer m with Some _ => set_roundTimer None m | None => m end).
  assert (Hm1 : moveTimeout m1 = moveTimeout m) by (unfold m1; by destruct (roundTimer m)).
  rewrite Hm1.
  assert (Hw : armed_but None (store r
      (set_state roundEnd
         (match moveTimeout m with Some _ => set_moveTimeout None m1 | None => m1 end))
      (clearHandle (moveTimeout m) (clearHandle (roundTimer m) s)))).
  { apply (ab_store_close (Some r) r m); auto.
    - by rewrite ?heap_clearHandle.
    - unfold m1, handles_shrink.
      destruct (moveTimeout m) eqn:E1, (roundTimer m) eqn:E2; simpl; rewrite ?E1, ?E2; auto.
    - apply ab_clear_move; [by rewrite ?heap_clearHandle|]. by apply (ab_clear_round None r m). }
  destruct (totalRounds _ <=? currentRound _); ab_go.
Qed.

Lemma ab_createMatch sid rnd s : wf s -> armed_but None s -> armed_but None (createMatch sid rnd s).
Proof.
  intros Hwf H. unfold createMatch. ab_go.
  exact (ab_register (generateMatchCode rnd)
           (mkMatch (generateMatchCode rnd) sid None 1 4 (mkScores 0 0) waiting None None None
              None None (false, false))
           s Hwf eq_refl eq_refl eq_refl eq_refl H).
Qed.

Lemma ab_joinMatch sid c s : armed_but None s -> armed_but None (joinMatch sid c s).
Proof.
  intros H. unfold joinMatch.
  destruct (get_match s _) as [[r m]|] eqn:E; [|ab_go].
  apply get_match_heap in E.
  destruct (truthy (player2 m)); [ab_go|].
  apply ab_startRoundCountdown. ab_go. apply (ab_store_keep None r m); auto.
Qed.

Lemma ab_attackMove sid mv s : wf s -> armed_but None s -> armed_but None (attackMove sid mv s).
Proof.
  intros Hwf H. unfold attackMove.
  destruct (socket_match s sid) as [[[c r] m]|] eqn:E; [|done].
  apply socket_match_heap in E.
  destruct (negb _); [done|]. destruct (negb _); [done|].
  eapply (ab_attack r m); try reflexivity.
  - wf_go.
  - simpl. by rewrite ?heap_clearHandle.
  - ab_go. by apply ab_clear_move.
Qed.

Lemma ab_defendMove sid mv s : armed_but None s -> armed_but None (defendMove sid mv s).
Proof.
  intros H. unfold defendMove.
  destruct (socket_match s sid) as [[[c r] m]|] eqn:E; [|done].
  apply socket_match_heap in E.
  destruct (negb _); [done|]. destruct (negb _); [done|].
  destruct (currentMove m) as [cm|]; [|done].
  destruct (responded cm); [done|].
  set (m1 := if bool_decide _ then set_scores (award_point m) m else m).
  assert (Hm1 : moveTimeout m1 = moveTimeout m) by (unfold m1; by destruct (bool_decide _)).
  rewrite Hm1.
  apply (ab_store_close (Some r) r m); auto.
  - simpl. by rewrite ?heap_clearHandle.
  - unfold m1, handles_shrink.
    destruct (bool_decide _), (moveTimeout m) eqn:E1; simpl; rewrite ?E1; auto.
  - ab_go. by apply ab_clear_move.
Qed.

Lemma ab_proposeRematch sid s : armed_but None s -> armed_but None (proposeRematch sid s).
Proof.
  intros H. unfold proposeRematch.
  destruct (socket_match s sid) as [[[c r] m]|] eqn:E; [|done].
  apply socket_match_heap in E.
  destruct (negb _); [done|].
  destruct (bool_decide (socket_role s sid = Some Rplayer1));
    destruct (_ && _); ab_go; (apply (ab_store_keep None r m); auto; ab_go).
Qed.

Lemma ab_disconnect sid s : armed_but None s -> armed_but None (disconnect sid s).
Proof.
  intros H. unfold disconnect.
  destruct (socket_match _ sid) as [[[c r] m]|] eqn:E; [|ab_go].
  destruct (negb _); [ab_go|].
  assert (Hreg : matches s !! c = Some r).
  { unfold socket_match in E.
    destruct (sockets (update_socket sid socket_close s) !! sid) as [k|]; [|done].
    destruct (matchCode k) as [c0|]; [|done].
    destruct (get_match _ c0) as [[r0 m0]|] eqn:Eg; [|done]. injection E as -> -> ->.
    by apply get_match_registry in Eg. }
  apply socket_match_heap in E.
  apply (ab_unregister c r).
  - by destruct (roundTimer m), (moveTimeout m).
  - ab_go. apply ab_clear_move; [by rewrite ?heap_clearHandle|].
    apply (ab_clear_round None r m); [done|]. ab_go.
Qed.

Lemma ab_handle sid msg s : wf s -> armed_but None s -> armed_but None (handle sid msg s).
Proof.
  destruct msg; simpl;
    auto using ab_createMatch, ab_joinMatch, ab_attackMove, ab_defendMove,
      ab_proposeRematch, ab_disconnect.
Qed.

Lemma ab_fire a t s :
  t ∈ timers s -> wf s -> armed_but None s ->
  armed_but None (run_job t (clearTimer (tid t) (set_now a s))).
Proof.
  intros Hin Hwf H. unfold run_job. destruct (job t) as [c n|c n|r mv|c|r c|sid] eqn:Hj.
  - set (x := emit (ToRoom (Some c)) (countdownMsg n)
             (rearm t (CountdownTick c (n - 1)) (clearTimer (tid t) (set_now a s)))).
    assert (Hwx : wf x) by (apply wf_emit; by apply wf_rearm).
    assert (Hx : armed_but None x).
    { apply ab_emit. apply ab_rearm; auto; try exact I; rewrite Hj; exact I. }
    destruct (n - 1 <? 0); [|done].
    apply ab_startRound; [wf_go|].
    apply (ab_clear_plain None (mkTimer (tid t) (now (set_now a s) + 1000) (CountdownTick c (n - 1))));
      auto.
    + simpl. apply elem_of_app. right. by apply list_elem_of_singleton.
    + exact I.
  - assert (Hx : armed_but None (emit (ToRoom (Some c)) (roundTimerMsg (n - 1))
             (rearm t (RoundTick c (n - 1)) (clearTimer (tid t) (set_now a s))))).
    { apply ab_emit. apply ab_rearm; auto; try exact I; rewrite Hj; exact I. }
    destruct (n - 1 <=? 0); [|done]. by apply ab_endRound.
  - assert (Hx : armed_but (Some r) (clearTimer (tid t) (set_now a s))).
    { apply (ab_clear_timeout r mv); [wf_go|done|done|by apply ab_set_now]. }
    destruct (heap _ !! r) as [m|] eqn:Hr.
    2:{ apply (ab_settled r); [|done]. intros m0 mv0 Hm0. simpl in Hm0, Hr. congruence. }
    destruct (currentMove m) as [cm|] eqn:Hcm.
    2:{ apply (ab_settled r); [|done]. intros m0 mv0 Hm0. simpl in Hm0, Hr. congruence. }
    destruct (responded cm) eqn:Hresp.
    { apply (ab_settled r); [|done]. intros m0 mv0 Hm0. simpl in Hm0, Hr. congruence. }
    apply (ab_store_close (Some r) r m); auto; ab_side. ab_go.
  - apply ab_endMatch. apply ab_clear_plain; [wf_go|done|by rewrite Hj|by apply ab_set_now].
  - apply ab_startRoundCountdown.
    assert (Hx : armed_but None (clearTimer (tid t) (set_now a s))).
    { apply ab_clear_plain; [wf_go|done|by rewrite Hj|by apply ab_set_now]. }
    destruct (heap _ !! r) as [m|] eqn:Hr; [|done].
    apply (ab_store_keep None r m); auto.
  - assert (Hx : armed_but None (clearTimer (tid t) (set_now a s))).
    { apply ab_clear_plain; [wf_go|done|by rewrite Hj|by apply ab_set_now]. }
    destruct (socket_code _ sid); [|done]. by apply ab_startRoundCountdown.
Qed.

Lemma sound_step s a e s' : sound s -> step s a e = Some s' -> sound s'.
Proof.
  intros [Hwf H] Hs. split; [by apply (wf_step s a e)|].
  revert Hs. unfold step. destruct (a <? now s); [done|].
  destruct e as [sid|sid msg|h].
  - destruct (sockets _ !! sid); [done|]. intros [= <-]. ab_go.
  - destruct (is_connected _ sid); [|done]. intros [= <-].
    apply ab_handle; [wf_go|ab_go].
  - destruct (find_timer h _) as [t|] eqn:Hf; [|done].
    destruct (due t <=? a); [|done]. intros [= <-].
    apply find_timer_elem in Hf as [Hin <-]. by apply ab_fire.
Qed.

Lemma sound_run evs : forall s s', sound s -> run s evs = Some s' -> sound s'.
Proof.
  induction evs as [|[a e] evs IH]; simpl; intros s s' H.
  - by intros [= <-].
  - destruct (step s a e) as [s1|] eqn:E; [|done]. apply IH. by apply (sound_step s a e).
Qed.

(** In a state the server can reach, a registered match in state
    [playing] with an unanswered move has its reaction timeout pending,
    under the handle stored on the match. *)
Lemma pending_move_armed evs s c r m mv :
  run init evs = Some s ->
  get_match s c = Some (r, m) -> state m = playing ->
  currentMove m = Some mv -> responded mv = false ->
  exists t, moveTimeout m = Some (tid t) /\ find_timer (tid t) s = Some t
            /\ job t = MoveTimeout r (direction mv).
Proof.
  intros Hrun Hg Hp Hmv Hresp.
  destruct (sound_run evs init s sound_init Hrun) as [Hwf H].
  destruct (ab_armed _ _ H c r m mv) as (t & Ht & Hto & Hj); auto.
  exists t. split; [done|]. split; [|done].
  destruct (find_timer (tid t) s) as [u|] eqn:Hf.
  - apply find_timer_elem in Hf as [Hu Heq]. f_equal. by apply (tid_inj s).
  - exfalso. revert Hf. unfold find_timer. intros Hf.
    pose proof (find_none _ _ Hf t (proj1 (list_elem_of_In _ _) Ht)) as Hb.
    simpl in Hb. by rewrite bool_decide_eq_true_2 in Hb.
Qed.

(** *** What follows a disconnection *)

Lemma step_fire_absent s at_ h : find_timer h s = None -> step s at_ (Fire h) = None.
Proof.
  intros H. unfold step. destruct (at_ <? now s); [done|].
  change (find_timer h (set_now at_ s)) with (find_timer h s). by rewrite H.
Qed.

Lemma matches_clearHandle h s : matches (clearHandle h s) = matches s.
Proof. by destruct h. Qed.

Lemma sockets_clearHandle h s : sockets (clearHandle h s) = sockets s.
Proof. by destruct h. Qed.

Lemma matches_startRoundCountdown c s : matches (startRoundCountdown c s) = matches s.
Proof. unfold startRoundCountdown. by destruct (get_match s c) as [[r m]|]. Qed.

Lemma matches_startRound c s : matches (startRound c s) = matches s.
Proof. unfold startRound. by destruct (get_match s c) as [[r m]|]. Qed.

Lemma matches_endMatch c s : matches (endMatch c s) = matches s.
Proof. unfold endMatch. by destruct (get_match s c) as [[r m]|]. Qed.

Lemma matches_endRound c s : matches (endRound c s) = matches s.
Proof.
  unfold endRound. destruct (get_match s c) as [[r m]|]; [|done].
  destruct (totalRounds _ <=? currentRound _); simpl; by rewrite !matches_clearHandle.
Qed.

Lemma sockets_startRoundCountdown c s : sockets (startRoundCountdown c s) = sockets s.
Proof. unfold startRoundCountdown. by destruct (get_match s c) as [[r m]|]. Qed.

Lemma sockets_startRound c s : sockets (startRound c s) = sockets s.
Proof. unfold startRound. by destruct (get_match s c) as [[r m]|]. Qed.

Lemma sockets_endMatch c s : sockets (endMatch c s) = sockets s.
Proof. unfold endMatch. by destruct (get_match s c) as [[r m]|]. Qed.

Lemma sockets_endRound c s : sockets (endRound c s) = sockets s.
Proof.
  unfold endRound. destruct (get_match s c) as [[r m]|]; [|done].
  destruct (totalRounds _ <=? currentRound _); simpl; by rewrite !sockets_clearHandle.
Qed.

Lemma registry_run_job t s : matches (run_job t s) = matches s /\ sockets (run_job t s) = sockets s.
Proof.
  unfold run_job. destruct (job t) as [c n|c n|r mv|c|r c|p].
  - destruct (n - 1 <? 0); [|done]. by rewrite matches_startRound, sockets_startRound.
  - destruct (n - 1 <=? 0); [|done]. by rewrite matches_endRound, sockets_endRound.
  - destruct (heap s !! r) as [m|]; [|done]. destruct (currentMove m) as [mv'|]; [|done].
    by destruct (responded mv').
  - by rewrite matches_endMatch, sockets_endMatch.
  - rewrite matches_startRoundCountdown, sockets_startRoundCountdown.
    by destruct (heap s !! r).
  - destruct (socket_code s p); [|done].
    by rewrite matches_startRoundCountdown, sockets_startRoundCountdown.
Qed.

(** The registry gets an entry for [c] only from a ['createMatch'] that
    draws [c]. *)
Lemma registry_step s a e s' c :
  step s a e = Some s' -> matches s !! c = None -> draws c e = false ->
  matches s' !! c = None.
Proof.
  unfold step. destruct (a <? now s); [done|].
  destruct e as [sid|sid msg|h]; simpl.
  - destruct (sockets s !! sid); [done|]. by intros [= <-].
  - destruct (is_connected _ sid); [|done]. intros [= <-] Hc Hd.
    destruct msg as [rnd|code|mv|mv| |]; simpl.
    + unfold createMatch. simpl. rewrite lookup_insert_ne; [done|].
      by apply bool_decide_eq_false_1 in Hd.
    + unfold joinMatch. destruct (get_match _ _) as [[r m]|]; [|done].
      destruct (truthy (player2 m)); [done|]. by rewrite matches_startRoundCountdown.
    + unfold attackMove. destruct (socket_match _ sid) as [[[c' r] m]|]; [|done].
      destruct (negb _); [done|]. destruct (negb _); [done|]. simpl.
      by rewrite matches_clearHandle.
    + unfold defendMove. destruct (socket_match _ sid) as [[[c' r] m]|]; [|done].
      destruct (negb _); [done|]. destruct (negb _); [done|].
      destruct (currentMove m) as [mv'|]; [|done]. destruct (responded mv'); [done|].
      simpl. by rewrite matches_clearHandle.
    + unfold proposeRematch. destruct (socket_match _ sid) as [[[c' r] m]|]; [|done].
      destruct (negb _); [done|]. by destruct (bool_decide _), (_ && _).
    + unfold disconnect. destruct (socket_match _ sid) as [[[c' r] m]|]; [|done].
      destruct (negb _); [done|]. simpl. rewrite !matches_clearHandle. simpl.
      destruct (decide (c' = c)) as [->|Hne]; [apply lookup_delete_eq|].
      by rewrite lookup_delete_ne.
  - destruct (find_timer h _) as [t|]; [|done]. destruct (due t <=? a); [|done].
    intros [= <-] Hc _. by rewrite (proj1 (registry_run_job _ _)).
Qed.

Lemma registry_run c evs : forall s s',
  run s evs = Some s' -> matches s !! c = None -> none_of (draws c) evs = true ->
  matches s' !! c = None.
Proof.
  induction evs as [|[a e] evs IH]; simpl; intros s s'.
  - by intros [= <-].
  - destruct (step s a e) as [s1|] eqn:E; [|done]. intros Hrun Hc [Hd Hn]%andb_true_iff.
    apply (IH s1 s' Hrun); [|done].
    apply (registry_step s a e s1 c E Hc). by apply negb_true_iff.
Qed.

(** [socket.matchCode] is assigned by the socket's own ['createMatch']
    and ['joinMatch'] only. *)
Lemma socket_code_step s a e s' p :
  step s a e = Some s' -> assigns_code p e = false -> socket_code s' p = socket_code s p.
Proof.
  unfold step. destruct (a <? now s); [done|].
  destruct e as [sid|sid msg|h]; simpl.
  - destruct (sockets s !! sid) eqn:E; [done|]. intros [= <-] _. unfold socket_code. simpl.
    destruct (decide (sid = p)) as [->|Hne].
    + by rewrite lookup_insert_eq, E.
    + by rewrite lookup_insert_ne.
  - destruct (is_connected _ sid); [|done]. intros [= <-] Hd.
    destruct msg as [rnd|code|mv|mv| |]; simpl.
    + apply bool_decide_eq_false_1 in Hd. unfold createMatch.
      unfold socket_code. simpl. by rewrite lookup_alter_ne.
    + apply bool_decide_eq_false_1 in Hd. unfold joinMatch.
      destruct (get_match _ _) as [[r m]|]; [|done].
      destruct (truthy (player2 m)); [done|].
      unfold socket_code. rewrite sockets_startRoundCountdown. simpl.
      by rewrite lookup_alter_ne.
    + unfold attackMove. destruct (socket_match _ sid) as [[[c' r] m]|]; [|done].
      destruct (negb _); [done|]. destruct (negb _); [done|].
      unfold socket_code. simpl. by rewrite sockets_clearHandle.
    + unfold defendMove. destruct (socket_match _ sid) as [[[c' r] m]|]; [|done].
      destruct (negb _); [done|]. destruct (negb _); [done|].
      destruct (currentMove m) as [mv'|]; [|done]. destruct (responded mv'); [done|].
      unfold socket_code. simpl. by rewrite sockets_clearHandle.
    + unfold proposeRematch. destruct (socket_match _ sid) as [[[c' r] m]|]; [|done].
      destruct (negb _); [done|]. by destruct (bool_decide _), (_ && _).
    + unfold disconnect.
      assert (Hclose : forall x, socket_code (update_socket sid socket_close x) p = socket_code x p).
      { intros x. unfold socket_code. simpl. destruct (decide (sid = p)) as [->|Hne].
        - rewrite lookup_alter_eq. by destruct (sockets x !! p).
        - by rewrite lookup_alter_ne. }
      destruct (socket_match _ sid) as [[[c' r] m]|]; [|by rewrite Hclose].
      destruct (negb _); [by rewrite Hclose|].
      transitivity (socket_code (update_socket sid socket_close (set_now a s)) p);
        [|by rewrite Hclose].
      unfold socket_code. simpl. by rewrite !sockets_clearHandle.
  - destruct (find_timer h _) as [t|]; [|done]. destruct (due t <=? a); [|done].
    intros [= <-] _. unfold socket_code. by rewrite (proj2 (registry_run_job _ _)).
Qed.

Lemma socket_code_run p evs : forall s s',
  run s evs = Some s' -> none_of (assigns_code p) evs = true ->
  socket_code s' p = socket_code s p.
Proof.
  induction evs as [|[a e] evs IH]; simpl; intros s s'.
  - by intros [= <-].
  - destruct (step s a e) as [s1|] eqn:E; [|done]. intros Hrun [Hd Hn]%andb_true_iff.
    rewrite (IH s1 s' Hrun Hn). apply (socket_code_step s a e s1 p E).
    by apply negb_true_iff.
Qed.

(** The two intervals emit before any lookup. *)
Lemma interval_not_guarded x c t :
  matches x !! c = None ->
  (forall n, job t = CountdownTick c n ->
     out (run_job t x) = (out x ++ [(ToRoom (Some c), countdownMsg n)])%list)
  /\ (forall n, job t = RoundTick c n ->
     out (run_job t x) = (out x ++ [(ToRoom (Some c), roundTimerMsg (n - 1))])%list).
Proof.
  intros Hc. split; intros n Hj; unfold run_job; rewrite Hj.
  - destruct (n - 1 <? 0); [|done]. unfold startRound.
    by rewrite get_match_absent.
  - destruct (n - 1 <=? 0); [|done]. unfold endRound.
    by rewrite get_match_absent.
Qed.
Lemma filter_all {A} (P : A -> Prop) `{!forall x, Decision (P x)} (l : list A) :
  (forall x, P x) -> filter P l = l.
Proof.
  intros HP. induction l as [|x l IH]; [done|]. rewrite filter_cons_True by done. by rewrite IH.
Qed.

(** [disconnect] clears the two handles stored on the match object and
    no other timer. *)
Lemma timers_clear_stored h1 h2 s :
  timers (clearHandle h2 (clearHandle h1 s))
  = filter (fun t => h1 <> Some (tid t) /\ h2 <> Some (tid t)) (timers s).
Proof.
  destruct h1 as [a|], h2 as [b|]; simpl.
  - rewrite list_filter_filter. apply list_filter_iff. intros t. split.
    + intros [H1 H2]. split; congruence.
    + intros [H1 H2]. split; congruence.
  - apply list_filter_iff. intros t. split; [intros H; split; congruence|].
    intros [H _]. congruence.
  - apply list_filter_iff. intros t. split; [intros H; split; congruence|].
    intros [_ H]. congruence.
  - symmetry. by apply filter_all.
Qed.

Lemma disconnect_sockets s a sid s' p :
  step s a (Recv sid InDisconnect) = Some s' -> socket_code s' p = socket_code s p.
Proof. intros H. by apply (socket_code_step s a _ s' p H). Qed.

(** *** A pending move that gets no outcome *)

Lemma now_clearHandle h s : now (clearHandle h s) = now s.
Proof. by destruct h. Qed.

Lemma now_endRound c s : now (endRound c s) = now s.
Proof.
  unfold endRound. destruct (get_match s c) as [[r m]|]; [|done].
  destruct (totalRounds _ <=? currentRound _); simpl; by rewrite !now_clearHandle.
Qed.

Lemma disconnect_frame sid s :
  now (disconnect sid s) = now s
  /\ forall d, d <> sid -> is_connected (disconnect sid s) d = is_connected s d.
Proof.
  unfold disconnect.
  assert (Hk : forall d, d <> sid ->
            is_connected (update_socket sid socket_close s) d = is_connected s d).
  { intros d Hd. unfold is_connected. simpl. by rewrite lookup_alter_ne. }
  destruct (socket_match _ sid) as [[[c r] m]|]; [|by split].
  destruct (negb _); [by split|]. split.
  - simpl. by rewrite !now_clearHandle.
  - intros d Hd. rewrite <- (Hk d Hd). unfold is_connected. simpl.
    by rewrite !sockets_clearHandle.
Qed.

Section DroppedMove.
Variables (s : State) (d c : string) (r : nat) (m : Match) (mv : Move) (t : Timer).
Hypothesis Hwf : wf s.
Hypothesis Hconn : is_connected s d = true.
Hypothesis Hmatch : socket_match s d = Some (c, r, m).
Hypothesis Hplaying : state m = playing.
Hypothesis Hdefender : currentDefender m = Some d.
Hypothesis Hmove : currentMove m = Some mv.
Hypothesis Hhandle : moveTimeout m = Some (tid t).
Hypothesis Htimer : find_timer (tid t) s = Some t.

Lemma handle_is_old : (tid t < next_tid s)%nat.
Proof. apply (wf_tids s Hwf). by apply find_timer_elem in Htimer as [? _]. Qed.

(** The round ends first: [endRound] cancels the reaction timeout, and
    the state check of ['defendMove'] rejects the late answer. *)
Lemma round_end_first u n det at1 at2 :
  find_timer (tid u) s = Some u -> job u = RoundTick c n -> n <= 1 ->
  now s <= at1 -> due u <= at1 -> at1 <= at2 ->
  exists s1 s2 m1,
    step s at1 (Fire (tid u)) = Some s1
    /\ out s1 = (out s ++
         [(ToRoom (Some c), roundTimerMsg (n - 1));
          (ToRoom (Some c), roundEndMsg (currentRound m) (scores m))])%list
    /\ heap s1 !! r = Some m1
    /\ state m1 = roundEnd
    /\ scores m1 = scores m
    /\ (forall at_, step s1 at_ (Fire (tid t)) = None)
    /\ step s1 at2 (Recv d (InDefendMove det)) = Some s2
    /\ out s2 = out s1
    /\ heap s2 = heap s1.
Proof.
  intros Hu Hj Hn Ha Hdue Ha2.
  destruct (socket_match_code _ _ _ _ _ Hmatch) as [Hcode Hg].
  rewrite step_fire by done. unfold run_job. rewrite Hj.
  replace (n - 1 <=? 0) with true by (symmetry; apply Z.leb_le; lia).
  match goal with |- context [endRound c ?y] => set (x := y) end.
  assert (Hgx : get_match x c = Some (r, m)) by exact Hg.
  destruct (endRound_effect x c r m Hgx) as (m1 & Hh & Hst & _ & _ & _ & _ & Hsc & Ho & Ht).
  exists (endRound c x), (set_now at2 (endRound c x)), m1.
  split; [reflexivity|].
  split; [rewrite Ho; unfold x; simpl; by rewrite <- app_assoc|].
  split; [by rewrite Hh, lookup_insert_eq|].
  split; [done|]. split; [done|].
  split.
  { intros at_. apply step_fire_absent, find_timer_None. intros v Hv.
    rewrite Ht in Hv. apply elem_of_app in Hv as [Hv|Hv].
    - apply timers_clearHandle_sub in Hv as [_ Hv]. rewrite Hhandle in Hv. congruence.
    - pose proof handle_is_old as Hold.
      destruct (totalRounds m <=? currentRound m);
        apply list_elem_of_singleton in Hv; subst v; simpl; lia. }
  rewrite step_recv.
  - unfold handle. rewrite (defendMove_ignored _ d det c r m1); [done| |left; by rewrite Hst].
    apply (socket_match_update s _ d c r m m1); [|  |exact Hh|exact Hmatch].
    + simpl. by rewrite sockets_endRound.
    + simpl. by rewrite matches_endRound.
  - rewrite now_endRound. simpl. lia.
  - unfold is_connected. by rewrite sockets_endRound.
Qed.

(** The attacker sends another move first: ['attackMove'] cancels the
    reaction timeout and overwrites the move. *)
Lemma replaced_first att move at1 :
  is_connected s att = true -> socket_match s att = Some (c, r, m) ->
  currentAttacker m = Some att -> now s <= at1 ->
  exists s1 m1,
    step s at1 (Recv att (InAttackMove move)) = Some s1
    /\ out s1 = (out s ++
         [(ToRoom (currentDefender m), incomingMove move 2000);
          (ToRoom (currentAttacker m), moveSent move)])%list
    /\ heap s1 !! r = Some m1
    /\ currentMove m1 = Some (mkMove move at1 false)
    /\ scores m1 = scores m
    /\ (forall at_, step s1 at_ (Fire (tid t)) = None).
Proof.
  intros Hc Hm Hatt Ha. rewrite step_recv by done.
  unfold handle, attackMove.
  change (socket_match (set_now at1 s) att) with (socket_match s att).
  rewrite Hm, Hplaying, Hatt. rewrite !bool_decide_eq_true_2 by done. simpl.
  rewrite Hhandle. simpl.
  eexists _, _. split; [reflexivity|]. simpl.
  split; [by rewrite ?Hatt, <- app_assoc|].
  split; [by rewrite lookup_insert_eq|].
  split; [done|]. split; [done|].
  intros at_. apply step_fire_absent, find_timer_None. simpl. intros v Hv.
  apply elem_of_app in Hv as [Hv|Hv].
  - by apply list_elem_of_filter in Hv as [Hv _].
  - pose proof handle_is_old as Hold.
    apply list_elem_of_singleton in Hv. subst v. simpl. lia.
Qed.

(** A socket of the match disconnects first: [disconnect] cancels the
    reaction timeout and deletes the match, and the registry lookup of
    ['defendMove'] finds nothing. *)
Lemma disconnect_first p det at1 at2 :
  is_connected s p = true -> socket_match s p = Some (c, r, m) -> c <> EmptyString ->
  now s <= at1 -> at1 <= at2 ->
  exists s1,
    step s at1 (Recv p InDisconnect) = Some s1
    /\ out s1 = (out s ++ [(ToRoom (Some c), opponentDisconnected)])%list
    /\ heap s1 = heap s
    /\ (forall at_, step s1 at_ (Fire (tid t)) = None)
    /\ (p <> d ->
        exists s2, step s1 at2 (Recv d (InDefendMove det)) = Some s2
                   /\ out s2 = out s1 /\ heap s2 = heap s1)
    /\ (p = d -> step s1 at2 (Recv d (InDefendMove det)) = None).
Proof.
  intros Hc Hm Hne Ha Ha2.
  destruct (disconnect_effect s at1 p c r m Ha Hc Hm Hne)
    as (s1 & Hs & Hreg & _ & Hcl & Ho & Hh & Hcon).
  exists s1. split; [exact Hs|]. split; [exact Ho|]. split; [exact Hh|].
  split; [intros at_; apply step_fire_absent, Hcl; by right|].
  assert (Hs1 : s1 = disconnect p (set_now at1 s)).
  { rewrite step_recv in Hs by done. by injection Hs as <-. }
  split.
  - intros Hpd. exists (set_now at2 s1).
    destruct (disconnect_frame p (set_now at1 s)) as [Hnow Hk].
    rewrite step_recv.
    + rewrite (stale_message_silent (set_now at2 s1) c d (InDefendMove det)); [done| |  |exact I].
      * simpl. by rewrite Hreg, lookup_delete_eq.
      * change (socket_code (set_now at2 s1) d) with (socket_code s1 d).
        rewrite (disconnect_sockets s at1 p s1 d Hs).
        by destruct (socket_match_code _ _ _ _ _ Hmatch).
    + rewrite Hs1, Hnow. simpl. lia.
    + rewrite Hs1, Hk by done. exact Hconn.
  - intros ->. unfold step. destruct (at2 <? now s1); [done|].
    change (is_connected (set_now at2 s1) d) with (is_connected s1 d). by rewrite Hcon.
Qed.
End DroppedMove.

(** *** The claims on the reactive server *)

(** C1, as the code has it.  In every state the server can reach, a
    move that is pending in a registered match in state [playing] has its
    2000 ms reaction timeout armed, and the defender's ['defendMove'] and
    the firing of that timeout exclude each other.  If the response is
    handled first it emits ['moveResult'] and ['opponentResult'], awards
    at most one point, and the timeout is cancelled: it cannot run, and
    its callback would emit nothing.  If the timeout runs first it emits
    ['moveMissed'] and ['opponentMissed'] and changes no score, and the
    response that comes after it emits nothing and changes no match.  A
    move gets neither outcome when, before the response and the timeout,
    the round ends, the attacker sends another move, or a socket of the
    match disconnects.  Each of the three cancels the timeout, so that it
    cannot run, changes no score, and emits its own notifications only:
    ['roundTimer'] and ['roundEnd'], ['incomingMove'] and ['moveSent'] for
    the move that takes the place of the pending one, or
    ['opponentDisconnected'].  After the end of the round, and after the
    disconnection of another socket, the defender's ['defendMove'] emits
    nothing and changes no match; a defender that has disconnected sends
    nothing. *)
Theorem resolution_excludes_timeout evs s d c r m mv det :
  run init evs = Some s ->
  is_connected s d = true ->
  socket_match s d = Some (c, r, m) ->
  state m = playing ->
  currentDefender m = Some d ->
  currentMove m = Some mv ->
  responded mv = false ->
  exists t,
    moveTimeout m = Some (tid t)
    /\ find_timer (tid t) s = Some t
    /\ job t = MoveTimeout r (direction mv)
    /\ (forall at1, now s <= at1 ->
       exists s1 m1,
         step s at1 (Recv d (InDefendMove det)) = Some s1
         /\ out s1 = (out s ++
              [(ToRoom (currentDefender m),
                 moveResult (direction mv) det (bool_decide (det = direction mv))
                   (at1 - timestamp mv) (scores m1));
               (ToRoom (currentAttacker m),
                 opponentResult (direction mv) det (bool_decide (det = direction mv))
                   (at1 - timestamp mv) (scores m1))])%list
         /\ heap s1 !! r = Some m1
         /\ currentMove m1 = None
         /\ total_points m1
            = total_points m + (if bool_decide (det = direction mv) then 1 else 0)
         /\ (forall at2, step s1 at2 (Fire (tid t)) = None)
         /\ out (run_job t s1) = out s1)
    /\ (forall at1 at2, now s <= at1 -> due t <= at1 -> at1 <= at2 ->
       exists s1 s2 m1,
         step s at1 (Fire (tid t)) = Some s1
         /\ out s1 = (out s ++
              [(ToRoom (currentDefender m), moveMissed (direction mv));
               (ToRoom (currentAttacker m), opponentMissed (direction mv))])%list
         /\ heap s1 !! r = Some m1
         /\ currentMove m1 = None
         /\ scores m1 = scores m
         /\ step s1 at2 (Recv d (InDefendMove det)) = Some s2
         /\ out s2 = out s1
         /\ heap s2 = heap s1)
    /\ (forall u n at1 at2,
         find_timer (tid u) s = Some u -> job u = RoundTick c n -> n <= 1 ->
         now s <= at1 -> due u <= at1 -> at1 <= at2 ->
       exists s1 s2 m1,
         step s at1 (Fire (tid u)) = Some s1
         /\ out s1 = (out s ++
              [(ToRoom (Some c), roundTimerMsg (n - 1));
               (ToRoom (Some c), roundEndMsg (currentRound m) (scores m))])%list
         /\ heap s1 !! r = Some m1
         /\ state m1 = roundEnd
         /\ scores m1 = scores m
         /\ (forall at_, step s1 at_ (Fire (tid t)) = None)
         /\ step s1 at2 (Recv d (InDefendMove det)) = Some s2
         /\ out s2 = out s1
         /\ heap s2 = heap s1)
    /\ (forall att move at1,
         is_connected s att = true -> socket_match s att = Some (c, r, m) ->
         currentAttacker m = Some att -> now s <= at1 ->
       exists s1 m1,
         step s at1 (Recv att (InAttackMove move)) = Some s1
         /\ out s1 = (out s ++
              [(ToRoom (currentDefender m), incomingMove move 2000);
               (ToRoom (currentAttacker m), moveSent move)])%list
         /\ heap s1 !! r = Some m1
         /\ currentMove m1 = Some (mkMove move at1 false)
         /\ scores m1 = scores m
         /\ (forall at_, step s1 at_ (Fire (tid t)) = None))
    /\ (forall p at1 at2,
         is_connected s p = true -> socket_match s p = Some (c, r, m) ->
         c <> EmptyString -> now s <= at1 -> at1 <= at2 ->
       exists s1,
         step s at1 (Recv p InDisconnect) = Some s1
         /\ out s1 = (out s ++ [(ToRoom (Some c), opponentDisconnected)])%list
         /\ heap s1 = heap s
         /\ (forall at_, step s1 at_ (Fire (tid t)) = None)
         /\ (p <> d ->
             exists s2, step s1 at2 (Recv d (InDefendMove det)) = Some s2
                        /\ out s2 = out s1 /\ heap s2 = heap s1)
         /\ (p = d -> step s1 at2 (Recv d (InDefendMove det)) = None)).
Proof.
  intros Hrun Hc Hm Hp Hd Hmv Hr.
  destruct (socket_match_code _ _ _ _ _ Hm) as [_ Hg].
  destruct (pending_move_armed evs s c r m mv Hrun Hg Hp Hmv Hr) as (t & Hh & Ht & Hj).
  assert (Hwf : wf s) by (apply (wf_run evs init); [apply wf_init|done]).
  exists t. split; [exact Hh|]. split; [exact Ht|]. split; [exact Hj|]. split.
  { intros at1 Ha. by apply (response_first s d c r m mv t (direction mv)). }
  split.
  { intros at1 at2 H1 H2 H3. by apply (timeout_first s d c r m mv t (direction mv)). }
  split.
  { intros u n at1 at2. by apply (round_end_first s d c r m t). }
  split.
  { intros att move at1. by apply (replaced_first s c r m t). }
  intros p at1 at2. by apply (disconnect_first s d c r m t).
Qed.
Lemma resolution_excludes_timeout_witness :
  (run init (first_attack ++ [(5020, Fire 1%nat); (6020, Fire 1%nat)])%list
     = Some s_pending_late
   /\ is_connected s_pending_late "B" = true
   /\ socket_match s_pending_late "B" = Some ("ABC123", 0%nat, m_pending)
   /\ state m_pending = playing
   /\ currentDefender m_pending = Some "B"
   /\ currentMove m_pending = Some (mkMove "up" 4500 false)
   /\ responded (mkMove "up" 4500 false) = false)
  /\ find_timer 2 s_pending_late = Some (mkTimer 2 6500 (MoveTimeout 0 "up"))
  /\ (exists s1 m1,
        step s_pending_late 6499 (Recv "B" (InDefendMove "up")) = Some s1
        /\ step s1 6500 (Fire 2%nat) = None
        /\ heap s1 !! 0%nat = Some m1
        /\ total_points m1 = 1
        /\ out s1 = (out s_pending_late ++
             [(ToRoom (Some "B"), moveResult "up" "up" true 1999 (scores m1));
              (ToRoom (Some "A"), opponentResult "up" "up" true 1999 (scores m1))])%list)
  /\ (exists s1 s2,
        step s_pending_late 6500 (Fire 2%nat) = Some s1
        /\ step s1 6501 (Recv "B" (InDefendMove "up")) = Some s2
        /\ out s2 = (out s_pending_late ++
             [(ToRoom (Some "B"), moveMissed "up");
              (ToRoom (Some "A"), opponentMissed "up")])%list)
  /\ (exists s1,
        step s_pending_late 6100 (Recv "A" (InAttackMove "down")) = Some s1
        /\ step s1 6500 (Fire 2%nat) = None
        /\ out s1 = (out s_pending_late ++
             [(ToRoom (Some "B"), incomingMove "down" 2000);
              (ToRoom (Some "A"), moveSent "down")])%list)
  /\ (exists s1 s2,
        step s_pending_late 6100 (Recv "A" InDisconnect) = Some s1
        /\ step s1 6500 (Fire 2%nat) = None
        /\ step s1 6200 (Recv "B" (InDefendMove "up")) = Some s2
        /\ out s2 = (out s_pending_late ++
             [(ToRoom (Some "ABC123"), opponentDisconnected)])%list).
Proof.
  assert (H0 : run init (first_attack ++ [(5020, Fire 1%nat); (6020, Fire 1%nat)])%list
               = Some s_pending_late) by (vm_compute; reflexivity).
  assert (H1 : is_connected s_pending_late "B" = true) by (vm_compute; reflexivity).
  assert (H2 : socket_match s_pending_late "B" = Some ("ABC123", 0%nat, m_pending))
    by (vm_compute; reflexivity).
  assert (H3 : find_timer 2 s_pending_late = Some (mkTimer 2 6500 (MoveTimeout 0 "up")))
    by (vm_compute; reflexivity).
  assert (H4 : is_connected s_pending_late "A" = true) by (vm_compute; reflexivity).
  assert (H5 : socket_match s_pending_late "A" = Some ("ABC123", 0%nat, m_pending))
    by (vm_compute; reflexivity).
  assert (H6 : now s_pending_late <= 6100) by (vm_compute; discriminate).
  assert (H7 : "ABC123" <> EmptyString) by discriminate.
  assert (H8 : "A" <> "B") by discriminate.
  destruct (resolution_excludes_timeout _ s_pending_late "B" "ABC123" 0 m_pending
              (mkMove "up" 4500 false) "up"
              H0 H1 H2 eq_refl eq_refl eq_refl eq_refl)
    as (t & Hh & Ht & _ & Hfirst & Hlate & _ & Hnew & Hgone).
  assert (Hid : tid t = 2%nat) by (simpl in Hh; congruence).
  rewrite Hid in Ht, Hfirst, Hlate, Hnew, Hgone.
  assert (Heq : t = mkTimer 2 6500 (MoveTimeout 0 "up")) by congruence.
  split.
  { split; [exact H0|]. split; [exact H1|]. split; [exact H2|].
    split; [exact eq_refl|]. split; [exact eq_refl|]. split; exact eq_refl. }
  split; [exact H3|]. split.
  { destruct (Hfirst 6499) as (s1 & m1 & Hs & Ho & Hr & _ & Hp & Hf & _);
      [vm_compute; discriminate|].
    exists s1, m1. split; [exact Hs|]. split; [apply Hf|].
    split; [exact Hr|]. split; [exact Hp|]. exact Ho. }
  split.
  { destruct (Hlate 6500 6501) as (s1 & s2 & m1 & Hs & Ho & _ & _ & _ & Hs2 & Ho2 & _);
      [vm_compute; discriminate|rewrite Heq; simpl; lia|lia|].
    exists s1, s2. split; [exact Hs|]. split; [exact Hs2|]. by rewrite Ho2, Ho. }
  split.
  { destruct (Hnew "A" "down" 6100 H4 H5 eq_refl H6) as (s1 & m1 & Hs & Ho & _ & _ & _ & Hf).
    exists s1. split; [exact Hs|]. split; [apply Hf|]. exact Ho. }
  destruct (Hgone "A" 6100 6200 H4 H5 H7 H6) as (s1 & Hs & Ho & _ & Hf & Hother & _); [lia|].
  destruct (Hother H8) as (s2 & Hs2 & Ho2 & _).
  exists s1, s2. split; [exact Hs|]. split; [apply Hf|]. split; [exact Hs2|].
  by rewrite Ho2, Ho.
Defined.

(** C1 as stated fails: a move can get no outcome at all.  In the last
    second of round 1 "A" sends [up] (33500); the round ends on time
    (34020), which cancels the reaction timeout; "B" answers at 34100,
    within the 2000 ms.  Neither ['moveResult'] nor ['moveMissed'] is
    emitted for the move, and its timeout is no longer pending. *)
Lemma move_without_outcome_counterexample :
  run init last_second = Some s_last_second
  /\ run s_last_second late_attack = Some s_dropped
  /\ on_schedule init (last_second ++ late_attack) = true
  /\ (exists s1,
        step s_last_second 33500 (Recv "A" (InAttackMove "up")) = Some s1
        /\ get_match s1 "ABC123"
           = Some (0%nat,
                   mkMatch "ABC123" "A" (Some "B") 1 4 (mkScores 0 0) playing (Some "A")
                     (Some "B") (Some 1%nat) (Some (mkMove "up" 33500 false)) (Some 2%nat)
                     (false, false))
        /\ timers s1 = [mkTimer 1 34020 (RoundTick "ABC123" 1);
                        mkTimer 2 35500 (MoveTimeout 0 "up")])
  /\ out s_dropped
     = (out s_last_second ++
        [(ToRoom (Some "B"), incomingMove "up" 2000);
         (ToRoom (Some "A"), moveSent "up");
         (ToRoom (Some "ABC123"), roundTimerMsg 0);
         (ToRoom (Some "ABC123"), roundEndMsg 1 (mkScores 0 0))])%list
  /\ timers s_dropped = [mkTimer 3 37020 (NextRoundDelay 0 "ABC123")]
  /\ step s_dropped 35500 (Fire 2%nat) = None.
Proof.
  do 3 (split; [vm_compute; reflexivity|]).
  split.
  { eexists. split; [vm_compute; reflexivity|]. split; vm_compute; reflexivity. }
  do 2 (split; [vm_compute; reflexivity|]). vm_compute; reflexivity.
Qed.

(** C3, as the code has it: when a connected socket whose [matchCode]
    is the non-empty code of a registered match disconnects, the match is
    deleted from the registry, ['opponentDisconnected'] is emitted to the
    room of the match, and the two timers whose handles are stored on the
    match object (round timer, reaction timeout) are cancelled.  No other
    timer is cancelled: a countdown interval, a next-round, match-end or
    rematch delay, and a round timer whose handle the match object has
    lost, stay pending.  Every socket keeps its [matchCode], and no later
    event but a ['createMatch'] that draws the same code registers it
    again.  While the code is not registered: the next-round and
    match-end delays of the match find nothing and emit nothing; a rematch
    delay looks up the [matchCode] that its socket has when the delay
    runs, and emits nothing when that is still the code (a socket's
    [matchCode] changes only by its own ['createMatch'] and ['joinMatch']);
    ['attackMove'], ['defendMove'] and ['proposeRematch'] of a socket that
    has the code are ignored; the two intervals are not guarded: each run
    of a countdown interval emits ['countdown'] and each run of a round
    timer emits ['roundTimer'] to the room of the code. *)
Theorem disconnect_tears_down s a sid c r m :
  now s <= a ->
  is_connected s sid = true ->
  socket_match s sid = Some (c, r, m) ->
  c <> EmptyString ->
  exists s',
    step s a (Recv sid InDisconnect) = Some s'
    /\ matches s' = delete c (matches s)
    /\ matches s' !! c = None
    /\ out s' = (out s ++ [(ToRoom (Some c), opponentDisconnected)])%list
    /\ timers s'
       = filter (fun t => roundTimer m <> Some (tid t) /\ moveTimeout m <> Some (tid t))
           (timers s)
    /\ (forall h, roundTimer m = Some h \/ moveTimeout m = Some h ->
          find_timer h s' = None /\ forall at_, step s' at_ (Fire h) = None)
    /\ heap s' = heap s
    /\ is_connected s' sid = false
    /\ (forall p, socket_code s' p = socket_code s p)
    /\ (forall evs x, run s' evs = Some x -> none_of (draws c) evs = true ->
          matches x !! c = None)
    /\ (forall x evs x' p, run x evs = Some x' -> none_of (assigns_code p) evs = true ->
          socket_code x' p = socket_code x p)
    /\ (forall x t, matches x !! c = None -> looks_up x c (job t) ->
          out (run_job t x) = out x /\ matches (run_job t x) = matches x)
    /\ (forall x p msg, matches x !! c = None -> socket_code x p = Some c ->
          match_message msg -> handle p msg x = x)
    /\ (forall x t n, matches x !! c = None -> job t = CountdownTick c n ->
          out (run_job t x) = (out x ++ [(ToRoom (Some c), countdownMsg n)])%list)
    /\ (forall x t n, matches x !! c = None -> job t = RoundTick c n ->
          out (run_job t x) = (out x ++ [(ToRoom (Some c), roundTimerMsg (n - 1))])%list).
Proof.
  intros Ha Hc Hm Hne.
  destruct (disconnect_effect s a sid c r m Ha Hc Hm Hne)
    as (s' & Hs & Hreg & Ht & Hcl & Ho & Hh & Hcon).
  assert (Hnone : matches s' !! c = None) by (by rewrite Hreg, lookup_delete_eq).
  exists s'. split; [done|]. split; [done|]. split; [done|]. split; [done|].
  split; [by rewrite Ht, timers_clear_stored|].
  split.
  { intros h Hst. split; [by apply Hcl|]. intros at_. apply step_fire_absent. by apply Hcl. }
  split; [done|]. split; [done|].
  split; [intros p; by apply (disconnect_sockets s a sid)|].
  split; [intros evs x Hrun Hn; by apply (registry_run c evs s')|].
  split; [intros x evs x' p; apply socket_code_run|].
  split; [intros x t; apply stale_job_silent|].
  split; [intros x p msg; apply stale_message_silent|].
  split.
  - intros x t n Hx. by apply interval_not_guarded.
  - intros x t n Hx. by apply interval_not_guarded.
Qed.

Lemma disconnect_tears_down_witness :
  (now s_pending <= 4600
   /\ is_connected s_pending "B" = true
   /\ socket_match s_pending "B" = Some ("ABC123", 0%nat, m_pending)
   /\ "ABC123" <> EmptyString)
  /\ timers s_pending
     = [mkTimer 1 5020 (RoundTick "ABC123" 30); mkTimer 2 6500 (MoveTimeout 0 "up")]
  /\ exists s',
       step s_pending 4600 (Recv "B" InDisconnect) = Some s'
       /\ matches s' !! "ABC123" = None
       /\ out s' = (out s_pending ++ [(ToRoom (Some "ABC123"), opponentDisconnected)])%list
       /\ timers s' = []
       /\ step s' 5020 (Fire 1%nat) = None
       /\ step s' 6500 (Fire 2%nat) = None
       /\ handle "A" (InAttackMove "down") s' = s'.
Proof.
  assert (H1 : now s_pending <= 4600) by (vm_compute; discriminate).
  assert (H2 : is_connected s_pending "B" = true) by (vm_compute; reflexivity).
  assert (H3 : socket_match s_pending "B" = Some ("ABC123", 0%nat, m_pending))
    by (vm_compute; reflexivity).
  assert (H4 : "ABC123" <> EmptyString) by discriminate.
  assert (H5 : timers s_pending
               = [mkTimer 1 5020 (RoundTick "ABC123" 30); mkTimer 2 6500 (MoveTimeout 0 "up")])
    by (vm_compute; reflexivity).
  assert (H6 : socket_code s_pending "A" = Some "ABC123") by (vm_compute; reflexivity).
  split; [split; [exact H1|split; [exact H2|split; [exact H3|exact H4]]]|].
  split; [exact H5|].
  destruct (disconnect_tears_down s_pending 4600 "B" "ABC123" 0 m_pending H1 H2 H3 H4)
    as (s' & Hs & _ & Hreg & Ho & Ht & Hcl & _ & _ & Hk & _ & _ & _ & Hmsg & _).
  exists s'. split; [exact Hs|]. split; [exact Hreg|]. split; [exact Ho|].
  split; [rewrite Ht, H5; vm_compute; reflexivity|].
  split; [apply (Hcl 1%nat); left; reflexivity|].
  split; [apply (Hcl 2%nat); right; reflexivity|].
  apply (Hmsg s' "A" (InAttackMove "down") Hreg); [|exact I].
  rewrite Hk. exact H6.
Defined.

(** C3 as stated fails.  A disconnect during the countdown leaves the
    countdown interval pending, and its next run emits ['countdown'] to
    the room of the deleted match.  A disconnect between two rounds leaves
    the next-round delay pending.  A disconnect between a rematch handshake
    and the restart leaves the rematch delay pending; when the socket that
    completed the handshake has created a new match by then, the delay
    starts round 1 of that match, which has no second player. *)
Lemma disconnect_leaves_timers_counterexample :
  (exists s1 s2,
     step s_countdown 500 (Recv "B" InDisconnect) = Some s1
     /\ matches s1 !! "ABC123" = None
     /\ timers s1 = [mkTimer 0 1020 (CountdownTick "ABC123" 3)]
     /\ step s1 1020 (Fire 0%nat) = Some s2
     /\ out s2 = (out s1 ++ [(ToRoom (Some "ABC123"), countdownMsg 3)])%list)
  /\ (exists s1,
     step s_roundEnd 35000 (Recv "B" InDisconnect) = Some s1
     /\ matches s1 !! "ABC123" = None
     /\ timers s1 = [mkTimer 2 37020 (NextRoundDelay 0 "ABC123")])
  /\ (run s_matchEnd orphan_restart = Some s_orphan_restart
      /\ on_schedule s_matchEnd orphan_restart = true
      /\ matches s_orphan_restart !! "ABC123" = None
      /\ get_match s_orphan_restart "ZZZ999"
         = Some (1%nat, mkMatch "ZZZ999" "B" None 1 4 (mkScores 0 0) countdown (Some "B") None
                          None None None (false, false))
      /\ out s_orphan_restart
         = (out s_matchEnd ++
            [(ToRoom (Some "B"), rematchProposed); (ToRoom (Some "A"), rematchProposed);
             (ToRoom (Some "ABC123"), rematchStarting);
             (ToRoom (Some "ABC123"), opponentDisconnected);
             (ToSelf "B", matchCreated "ZZZ999");
             (ToRoom (Some "B"), roundStart 1 4 "attacker" 3);
             (ToRoom None, roundStart 1 4 "defender" 3)])%list
      /\ timers s_orphan_restart = [mkTimer 13 149200 (CountdownTick "ZZZ999" 3)]).
Proof.
  split.
  - eexists _, _. split; [vm_compute; reflexivity|].
    split; [vm_compute; reflexivity|]. split; [vm_compute; reflexivity|].
    split; vm_compute; reflexivity.
  - split.
    + eexists. split; [vm_compute; reflexivity|].
      split; vm_compute; reflexivity.
    + do 5 (split; [vm_compute; reflexivity|]). vm_compute; reflexivity.
Qed.

(** C5, as the code has it: a match object holds at most one move, and
    at most one reaction timeout is pending for it; a move is created
    only by an ['attackMove'] of the current attacker of a match in state
    [playing]; that handler does not look at the previous move: it cancels
    the timeout stored on the match and stores the new move in its place,
    emitting ['incomingMove'] and ['moveSent'] only. *)
Theorem one_move_per_match evs s a e s' :
  run init evs = Some s ->
  step s a e = Some s' ->
  (forall r t1 t2, t1 ∈ timers s' -> t2 ∈ timers s' ->
     is_move_timeout r t1 -> is_move_timeout r t2 -> t1 = t2)
  /\ (forall r m' mv, heap s' !! r = Some m' -> currentMove m' = Some mv ->
        (exists m, heap s !! r = Some m /\ currentMove m = Some mv)
        \/ (exists sid move c m,
              e = Recv sid (InAttackMove move)
              /\ socket_match s sid = Some (c, r, m)
              /\ state m = playing /\ currentAttacker m = Some sid
              /\ mv = mkMove move a false))
  /\ (forall sid move c r m,
        e = Recv sid (InAttackMove move) ->
        socket_match s sid = Some (c, r, m) ->
        state m = playing -> currentAttacker m = Some sid ->
        exists m',
          heap s' !! r = Some m'
          /\ currentMove m' = Some (mkMove move a false)
          /\ moveTimeout m' = Some (next_tid s)
          /\ timers s' = (timers (clearHandle (moveTimeout m) s) ++
                            [mkTimer (next_tid s) (a + 2000) (MoveTimeout r move)])%list
          /\ out s' = (out s ++
               [(ToRoom (currentDefender m), incomingMove move 2000);
                (ToRoom (currentAttacker m), moveSent move)])%list).
Proof.
  intros Hrun Hstep.
  assert (Hwf : wf s') by (apply (wf_step s a e); [apply (wf_run evs init)|]; auto using wf_init).
  split; [intros r t1 t2; by apply wf_one_move_timer|].
  split; [intros r m' mv; by apply step_move_origin|].
  intros sid move c r m -> Hm Hp Ha. revert Hstep. unfold step.
  destruct (a <? now s); [done|].
  destruct (is_connected _ sid); [|done]. simpl. unfold attackMove.
  change (socket_match (set_now a s) sid) with (socket_match s sid).
  rewrite Hm, Hp, Ha. rewrite !bool_decide_eq_true_2 by done. simpl.
  intros [= <-]. eexists. simpl. split; [by rewrite lookup_insert_eq|].
  destruct (moveTimeout m); simpl; rewrite ?Ha, <- ?app_assoc; done.
Qed.

Lemma one_move_per_match_witness :
  (run init first_attack = Some s_pending
   /\ step s_pending 4900 (Recv "A" (InAttackMove "down")) = Some s_replaced)
  /\ exists m',
       heap s_replaced !! 0%nat = Some m'
       /\ currentMove m' = Some (mkMove "down" 4900 false)
       /\ moveTimeout m' = Some 3%nat.
Proof.
  assert (H1 : run init first_attack = Some s_pending) by (vm_compute; reflexivity).
  assert (H2 : step s_pending 4900 (Recv "A" (InAttackMove "down")) = Some s_replaced)
    by (vm_compute; reflexivity).
  assert (H3 : socket_match s_pending "A" = Some ("ABC123", 0%nat, m_pending))
    by (vm_compute; reflexivity).
  split; [by split|].
  destruct (one_move_per_match first_attack s_pending 4900 _ s_replaced H1 H2)
    as (_ & _ & Hnew).
  destruct (Hnew "A" "down" "ABC123" 0%nat m_pending eq_refl H3 eq_refl eq_refl)
    as (m' & Hh & Hmv & Hto & _).
  exists m'. split; [exact Hh|]. split; [exact Hmv|]. rewrite Hto. vm_compute. reflexivity.
Defined.

(** C5 as stated fails: "A" sends [down] while its move [up] is still
    pending; a new move is created and the pending one is dropped. *)
Lemma attack_replaces_pending_counterexample :
  run init first_attack = Some s_pending
  /\ on_schedule init first_attack = true
  /\ heap s_pending !! 0%nat = Some m_pending
  /\ currentMove m_pending = Some (mkMove "up" 4500 false)
  /\ punctual s_pending 4900 (Recv "A" (InAttackMove "down")) = true
  /\ step s_pending 4900 (Recv "A" (InAttackMove "down")) = Some s_replaced
  /\ heap s_replaced !! 0%nat
     = Some (set_moveTimeout (Some 3%nat)
               (set_currentMove (Some (mkMove "down" 4900 false)) m_pending))
  /\ timers s_replaced
     = [mkTimer 1 5020 (RoundTick "ABC123" 30); mkTimer 3 6900 (MoveTimeout 0 "down")]
  /\ out s_replaced
     = (out s_pending ++ [(ToRoom (Some "B"), incomingMove "down" 2000);
                          (ToRoom (Some "A"), moveSent "down")])%list.
Proof. do 8 (split; [vm_compute; reflexivity|]). vm_compute; reflexivity. Qed.

(** C9 fails on the code: after the match has ended, both players
    propose a rematch twice within the second that precedes the restart.
    Two restart delays are pending, so two countdowns and then two round
    timers start; [match.roundTimer] holds the second one only.  At the
    end of round 1 [endRound] clears the handle stored on the match; the
    other round timer stays, finds [timeLeft <= 0] every second and
    calls [endRound] again, and each call leaves one more next-round
    delay behind.  These delays take the round number past
    [totalRounds]. *)
Theorem round_overruns_total_rounds :
  run init opening = Some s_countdown
  /\ elapse 140 s_countdown = Some s_matchEnd
  /\ get_match s_matchEnd "ABC123" = Some (0%nat, m_matchEnd)
  /\ run s_matchEnd rematch_twice = Some s_rematch_twice
  /\ on_schedule s_matchEnd rematch_twice = true
  /\ timers s_rematch_twice
     = [mkTimer 12 148200 (RematchDelay "B"); mkTimer 13 148400 (RematchDelay "B")]
  /\ (exists s m,
        elapse 10 s_rematch_twice = Some s
        /\ timers s = [mkTimer 16 153200 (RoundTick "ABC123" 30);
                       mkTimer 17 153400 (RoundTick "ABC123" 30)]
        /\ get_match s "ABC123" = Some (0%nat, m)
        /\ state m = playing /\ roundTimer m = Some 17%nat)
  /\ (exists s m,
        elapse 69 s_rematch_twice = Some s
        /\ timers s = [mkTimer 16 183200 (RoundTick "ABC123" 0);
                       mkTimer 18 185200 (NextRoundDelay 0 "ABC123")]
        /\ get_match s "ABC123" = Some (0%nat, m)
        /\ state m = roundEnd /\ roundTimer m = None /\ currentRound m = 1)
  /\ (exists s,
        elapse 71 s_rematch_twice = Some s
        /\ timers s = [mkTimer 18 185200 (NextRoundDelay 0 "ABC123");
                       mkTimer 19 186200 (NextRoundDelay 0 "ABC123");
                       mkTimer 16 185200 (RoundTick "ABC123" (-2));
                       mkTimer 20 187200 (NextRoundDelay 0 "ABC123")])
  /\ elapse 90 s_rematch_twice = Some s_overrun
  /\ exists m,
       get_match s_overrun "ABC123" = Some (0%nat, m)
       /\ totalRounds m = 4
       /\ currentRound m = 6.
Proof.
  do 6 (split; [vm_compute; reflexivity|]).
  split.
  { eexists _, _. split; [vm_compute; reflexivity|]. split; [reflexivity|].
    split; [vm_compute; reflexivity|]. split; reflexivity. }
  split.
  { eexists _, _. split; [vm_compute; reflexivity|]. split; [reflexivity|].
    split; [vm_compute; reflexivity|]. split; [reflexivity|]. split; reflexivity. }
  split.
  { eexists. split; [vm_compute; reflexivity|]. reflexivity. }
  split; [vm_compute; reflexivity|].
  eexists. split; [vm_compute; reflexivity|]. split; reflexivity.
Qed.

End ReactiveFacts.

(** ** The guessing server *)

Module GuessingFacts.
Import Guessing.
#[local] Arguments step : simpl never.

(** *** Scores *)

Lemma winner_of_not_player1 sc : score1 sc = 0 -> 0 <= score2 sc -> winner_of sc <> Wplayer1.
Proof.
  intros H1 H2. unfold winner_of.
  destruct (Z.ltb_spec (score2 sc) (score1 sc)); [lia|]. by destruct (_ <? _).
Qed.

Lemma count_correct_bound comb g : 0 <= count_correct (guess_results comb g) <= 4.
Proof.
  unfold count_correct, guess_results.
  pose proof (length_filter (fun x => correct x = true)
                (map (guess_at comb g) [0; 1; 2; 3]%nat)) as H.
  rewrite length_map in H. simpl in H |- *. lia.
Qed.

Lemma ok_init : scores_ok init.
Proof.
  split; simpl.
  - intros r m H. by rewrite lookup_empty in H.
  - intros t sc w H. by apply elem_of_nil in H.
Qed.

Lemma ok_same s s' : heap s' = heap s -> out s' = out s -> scores_ok s -> scores_ok s'.
Proof. unfold scores_ok. by intros -> ->. Qed.

Lemma ok_emit t e s : no_matchEnd e -> scores_ok s -> scores_ok (emit t e s).
Proof.
  intros He [H1 H2]. split; simpl; [done|].
  intros t' sc w [Hin|Hin%list_elem_of_singleton]%elem_of_app; [eauto|].
  injection Hin as _ <-. done.
Qed.

Lemma ok_emit_matchEnd t sc s :
  score1 sc = 0 -> 0 <= score2 sc -> scores_ok s -> scores_ok (emit t (matchEndMsg sc (winner_of sc)) s).
Proof.
  intros Hs1 Hs2 [H1 H2]. split; simpl; [done|].
  intros t' sc' w [Hin|Hin%list_elem_of_singleton]%elem_of_app; [eauto|].
  injection Hin as _ -> ->. split; [by apply winner_of_not_player1|done].
Qed.

Lemma ok_store r m s :
  score1 (scores m) = 0 -> 0 <= score2 (scores m) -> scores_ok s -> scores_ok (store r m s).
Proof.
  intros Hs1 Hs2 [H1 H2]. split; simpl; [|done].
  intros r0 m0. destruct (decide (r = r0)) as [<-|Hne].
  - rewrite lookup_insert_eq. by intros [= <-].
  - rewrite lookup_insert_ne by done. apply H1.
Qed.

Lemma ok_setTimer j d s : scores_ok s -> scores_ok (setTimer j d s).
Proof. by apply ok_same. Qed.
Lemma ok_clearTimer h s : scores_ok s -> scores_ok (clearTimer h s).
Proof. by apply ok_same. Qed.
Lemma ok_rearm t j s : scores_ok s -> scores_ok (rearm t j s).
Proof. by apply ok_same. Qed.
Lemma ok_set_now a s : scores_ok s -> scores_ok (set_now a s).
Proof. by apply ok_same. Qed.
Lemma ok_update_socket sid f s : scores_ok s -> scores_ok (update_socket sid f s).
Proof. by apply ok_same. Qed.
Lemma ok_set_matches v s : scores_ok s -> scores_ok (set_matches v s).
Proof. by apply ok_same. Qed.
Lemma ok_set_sockets v s : scores_ok s -> scores_ok (set_sockets v s).
Proof. by apply ok_same. Qed.
Lemma ok_set_next_ref v s : scores_ok s -> scores_ok (set_next_ref v s).
Proof. by apply ok_same. Qed.

Ltac ok_step :=
  lazymatch goal with
  | |- scores_ok (emit _ (matchEndMsg _ _) _) => fail
  | |- scores_ok (emit _ _ _) => apply ok_emit; [exact I|]
  | |- scores_ok (setTimer _ _ _) => apply ok_setTimer
  | |- scores_ok (clearTimer _ _) => apply ok_clearTimer
  | |- scores_ok (rearm _ _ _) => apply ok_rearm
  | |- scores_ok (set_now _ _) => apply ok_set_now
  | |- scores_ok (update_socket _ _ _) => apply ok_update_socket
  | |- scores_ok (set_matches _ _) => apply ok_set_matches
  | |- scores_ok (set_sockets _ _) => apply ok_set_sockets
  | |- scores_ok (set_next_ref _ _) => apply ok_set_next_ref
  end.

Ltac ok_go := repeat first [assumption | ok_step].

Lemma g_get_match_heap s c r m : get_match s c = Some (r, m) -> heap s !! r = Some m.
Proof.
  unfold get_match. intros H.
  destruct (matches s !! c) as [r'|]; [|done].
  destruct (heap s !! r') as [m'|] eqn:E; [|done].
  by injection H as -> ->.
Qed.

Lemma g_socket_match_heap s sid c r m :
  socket_match s sid = Some (c, r, m) -> heap s !! r = Some m.
Proof.
  unfold socket_match. intros H.
  destruct (sockets s !! sid) as [k|]; [|done].
  destruct (matchCode k) as [c'|]; [|done].
  destruct (get_match s c') as [[r' m']|] eqn:E; [|done].
  injection H as -> -> ->. by apply g_get_match_heap in E.
Qed.

Lemma ok_createMatch sid rnd s : scores_ok s -> scores_ok (createMatch sid rnd s).
Proof. intros H. unfold createMatch. ok_go. by apply ok_store. Qed.

Lemma ok_joinMatch sid c s : scores_ok s -> scores_ok (joinMatch sid c s).
Proof.
  intros H. unfold joinMatch.
  destruct (get_match s _) as [[r m]|] eqn:E; [|ok_go].
  apply g_get_match_heap in E. destruct (proj1 H r m E) as [H1 H2].
  destruct (truthy (player2 m)); ok_go. apply ok_store; [done..|ok_go].
Qed.

Lemma ok_submitCombination sid comb s : scores_ok s -> scores_ok (submitCombination sid comb s).
Proof.
  intros H. unfold submitCombination.
  destruct (socket_match s sid) as [[[c r] m]|] eqn:E; [|done].
  apply g_socket_match_heap in E. destruct (proj1 H r m E) as [H1 H2].
  destruct (negb _); [done|]. destruct (negb _); ok_go. by apply ok_store.
Qed.

Lemma ok_submitGuess sid g s s' :
  scores_ok s -> submitGuess sid g s = Done s' -> scores_ok s'.
Proof.
  intros H. unfold submitGuess.
  destruct (socket_match s sid) as [[[c r] m]|] eqn:E; [|by intros [= <-]].
  apply g_socket_match_heap in E. destruct (proj1 H r m E) as [H1 H2].
  destruct (negb _); [by intros [= <-]|].
  destruct (combination m) as [comb|]; [|done].
  pose proof (count_correct_bound comb g) as Hc.
  destruct (totalRounds _ <=? currentRound _); intros [= <-].
  - apply ok_emit_matchEnd; [done|simpl; lia|].
    apply ok_store; [done|simpl; lia|]. ok_go.
  - ok_go. apply ok_store; [done|simpl; lia|]. ok_go.
Qed.

Lemma ok_proposeRematch sid s : scores_ok s -> scores_ok (proposeRematch sid s).
Proof.
  intros H. unfold proposeRematch.
  destruct (socket_match s sid) as [[[c r] m]|] eqn:E; [|done].
  apply g_socket_match_heap in E. destruct (proj1 H r m E) as [H1 H2].
  destruct (negb _); [done|].
  destruct (bool_decide (socket_role s sid = Some Rplayer1));
    destruct (_ && _); ok_go; (apply ok_store; [done..|ok_go]).
Qed.

Lemma ok_disconnect sid s : scores_ok s -> scores_ok (disconnect sid s).
Proof.
  intros H. unfold disconnect.
  destruct (socket_match _ sid) as [[[c r] m]|]; [|ok_go].
  destruct (negb _); ok_go.
Qed.

Lemma ok_run_job t s : scores_ok s -> scores_ok (run_job t s).
Proof.
  intros H. unfold run_job. destruct (job t) as [sid r n|r|r].
  - destruct (n - 1 <? 0); [|ok_go].
    destruct (heap _ !! r) as [m|] eqn:E; [|ok_go].
    simpl in E. destruct (proj1 H r m E) as [H1 H2].
    ok_go. apply ok_store; [done..|ok_go].
  - destruct (heap s !! r) as [m|] eqn:E; [|done].
    destruct (proj1 H r m E) as [H1 H2].
    ok_go. apply ok_store; [done..|ok_go].
  - destruct (heap s !! r) as [m|] eqn:E; [|done]. ok_go.
Qed.

Lemma ok_step_ s a e s' : scores_ok s -> step s a e = Some (Done s') -> scores_ok s'.
Proof.
  intros H. unfold step. destruct (a <? now s); [done|].
  destruct e as [sid|sid msg|h].
  - destruct (sockets _ !! sid); [done|]. intros [= <-]. ok_go.
  - destruct (is_connected _ sid); [|done]. intros [= Hh]. revert Hh.
    destruct msg; simpl; try (intros [= <-]).
    + apply ok_createMatch. ok_go.
    + apply ok_joinMatch. ok_go.
    + apply ok_submitCombination. ok_go.
    + apply ok_submitGuess. ok_go.
    + apply ok_proposeRematch. ok_go.
    + apply ok_disconnect. ok_go.
  - destruct (find_timer h _) as [t|]; [|done].
    destruct (due t <=? a); [|done]. intros [= <-]. apply ok_run_job. ok_go.
Qed.

Lemma ok_run evs : forall s s', scores_ok s -> run s evs = Some (Done s') -> scores_ok s'.
Proof.
  induction evs as [|[a e] evs IH]; simpl; intros s s' H.
  - by intros [= <-].
  - destruct (step s a e) as [[s1|]|] eqn:E; [|by destruct evs|done].
    apply IH. by apply (ok_step_ s a e).
Qed.

(** *** Joining *)

Lemma g_joinMatch_cases s sid matchCode :
  let code := toUpperCase matchCode in
  let s' := joinMatch sid matchCode s in
  match get_match s code with
  | None => s' = emit (ToSelf sid) (joinError "Match not found") s
  | Some (r, m) =>
      if truthy (player2 m)
      then s' = emit (ToSelf sid) (joinError "Match is full") s
      else
        let m' := set_state inputting (set_player2 (Some sid) m) in
        heap s' = <[r := m']> (heap s)
        /\ matches s' = matches s
        /\ sockets s' = alter (fun k => socket_assign code Rplayer2 (socket_join code k)) sid (sockets s)
        /\ out s' = (out s ++
             [(ToRoom (Some code), matchStarted code (player1 m) (Some sid));
              (ToRoom (Some (player1 m)), inputCombination (currentRound m));
              (ToRoom (Some sid), waitingForCombination (currentRound m))])%list
        /\ timers s' = timers s
  end.
Proof.
  intros code s'. unfold s', joinMatch. fold code.
  destruct (get_match s code) as [[r m]|] eqn:E; [|done].
  destruct (truthy (player2 m)); [done|]. simpl.
  by rewrite <- !app_assoc.
Qed.

(** *** The rematch handshake *)

Lemma g_socket_match_update s s' sid c r m m' :
  sockets s' = sockets s -> matches s' = matches s -> heap s' = <[r := m']> (heap s) ->
  socket_match s sid = Some (c, r, m) -> socket_match s' sid = Some (c, r, m').
Proof.
  unfold socket_match, get_match. intros -> -> -> H.
  destruct (sockets s !! sid) as [k|]; [|done].
  destruct (matchCode k) as [c'|]; [|done].
  destruct (matches s !! c') as [r'|]; [|done].
  destruct (heap s !! r') as [m0|]; [|done].
  injection H as -> -> ->. by rewrite lookup_insert_eq.
Qed.

Lemma g_proposeRematch_ignored s sid c r m :
  socket_match s sid = Some (c, r, m) -> state m <> matchEnd -> proposeRematch sid s = s.
Proof. intros H Hs. unfold proposeRematch. rewrite H. by rewrite bool_decide_eq_false_2. Qed.

Lemma g_proposeRematch_first s sid c r m role :
  socket_match s sid = Some (c, r, m) -> socket_role s sid = Some role ->
  state m = matchEnd ->
  fst (rematchProposals (record_proposal role m)) && snd (rematchProposals (record_proposal role m)) = false ->
  proposeRematch sid s
  = store r (record_proposal role m)
      (emit (ToRoom (other_player role m)) (rematchProposed role) s).
Proof.
  intros H Hr Hs Hf. unfold proposeRematch. rewrite H, Hr, Hs.
  rewrite bool_decide_eq_true_2 by done. simpl.
  destruct role; simpl in *; by rewrite Hf.
Qed.

Lemma g_proposeRematch_second s sid c r m role :
  socket_match s sid = Some (c, r, m) -> socket_role s sid = Some role ->
  state m = matchEnd ->
  fst (rematchProposals (record_proposal role m)) && snd (rematchProposals (record_proposal role m)) = true ->
  proposeRematch sid s
  = setTimer (RematchDelay r) 1000
      (emit (ToRoom (Some c)) rematchStarting
         (store r (reset_match (record_proposal role m))
            (emit (ToRoom (other_player role m)) (rematchProposed role) s))).
Proof.
  intros H Hr Hs Hf. unfold proposeRematch. rewrite H, Hr, Hs.
  rewrite bool_decide_eq_true_2 by done. simpl.
  destruct role; simpl in *; by rewrite Hf.
Qed.

Section GuessHandshake.
Variables (s : State) (c : string) (r : nat) (m : Match).
Hypothesis Hend : state m = matchEnd.
Hypothesis Hnone : rematchProposals m = (false, false).

Lemma g_handshake_order x y rx ry :
  socket_match s x = Some (c, r, m) -> socket_match s y = Some (c, r, m) ->
  socket_role s x = Some rx -> socket_role s y = Some ry -> rx <> ry ->
  let s1 := proposeRematch x s in
  let s2 := proposeRematch y s1 in
  heap s1 = <[r := record_proposal rx m]> (heap s)
  /\ out s1 = (out s ++ [(ToRoom (other_player rx m), rematchProposed rx)])%list
  /\ timers s1 = timers s
  /\ heap s2 = <[r := reset_match (record_proposal ry (record_proposal rx m))]> (heap s)
  /\ out s2 = (out s1 ++ [(ToRoom (other_player ry m), rematchProposed ry);
                          (ToRoom (Some c), rematchStarting)])%list
  /\ timers s2 = (timers s ++ [mkTimer (next_tid s) (now s + 1000) (RematchDelay r)])%list
  /\ sockets s2 = sockets s /\ matches s2 = matches s.
Proof.
  intros Hx Hy Hrx Hry Hne s1 s2.
  assert (E1 : s1 = store r (record_proposal rx m)
                      (emit (ToRoom (other_player rx m)) (rematchProposed rx) s)).
  { apply (g_proposeRematch_first _ _ c); try done.
    destruct rx; simpl; rewrite Hnone; done. }
  assert (Hy1 : socket_match s1 y = Some (c, r, record_proposal rx m)).
  { apply (g_socket_match_update s _ _ _ _ m); [by rewrite E1..|done]. }
  assert (Hry1 : socket_role s1 y = Some ry) by (by rewrite E1).
  assert (E2 : s2 = setTimer (RematchDelay r) 1000
                      (emit (ToRoom (Some c)) rematchStarting
                         (store r (reset_match (record_proposal ry (record_proposal rx m)))
                            (emit (ToRoom (other_player ry (record_proposal rx m)))
                               (rematchProposed ry) s1)))).
  { apply (g_proposeRematch_second _ _ c); try done.
    - by destruct rx.
    - destruct rx, ry; simpl; try done. }
  rewrite E2, E1. simpl.
  split; [done|]. split; [done|]. split; [done|].
  split; [by rewrite insert_insert_eq|].
  split; [|done]. rewrite <- !app_assoc. by destruct rx.
Qed.
End GuessHandshake.

(** *** The claims on the guessing server *)

Lemma submitGuess_scores s sid g c r m comb s' :
  socket_match s sid = Some (c, r, m) ->
  socket_role s sid = Some Rplayer2 ->
  combination m = Some comb ->
  submitGuess sid g s = Done s' ->
  exists m',
    heap s' !! r = Some m'
    /\ scores m' = mkScores (score1 (scores m))
                     (score2 (scores m) + count_correct (guess_results comb g)).
Proof.
  intros Hm Hr Hc. unfold submitGuess. rewrite Hm, Hr, Hc.
  rewrite bool_decide_eq_true_2 by done. simpl.
  destruct (totalRounds m <=? currentRound m); intros [= <-]; simpl;
    eexists; (split; [by rewrite lookup_insert_eq|done]).
Qed.

(** The match-end branch of ['submitGuess']: in the last round the log
    ends with ['matchEnd'], carrying the new scores and their winner. *)
Lemma submitGuess_last_round s sid g c r m comb :
  socket_match s sid = Some (c, r, m) ->
  socket_role s sid = Some Rplayer2 ->
  combination m = Some comb ->
  totalRounds m <= currentRound m ->
  let sc := mkScores (score1 (scores m))
              (score2 (scores m) + count_correct (guess_results comb g)) in
  exists s',
    submitGuess sid g s = Done s'
    /\ last (out s') = Some (ToRoom (Some c), matchEndMsg sc (winner_of sc))
    /\ heap s' !! r = Some (set_state matchEnd (set_state roundEnd (set_scores sc m))).
Proof.
  intros Hm Hr Hc Hlast sc. unfold submitGuess. rewrite Hm, Hr, Hc.
  rewrite bool_decide_eq_true_2 by done. simpl.
  destruct (Z.leb_spec (totalRounds m) (currentRound m)) as [_|?]; [|lia].
  eexists. split; [reflexivity|]. simpl. split; [by rewrite last_snoc|].
  by rewrite lookup_insert_eq.
Qed.

(** C6 fails on the code: ['submitGuess'] checks the sender's role but
    not the state of the match.  Sent by player 2 before any combination
    has been set, it reads [match.combination[0]] of [null] and throws;
    sent a second time in the same round, it is scored again and a
    second ['roundResult'] goes out. *)
Theorem submitGuess_without_combination_throws :
  run init early_guess = Some TypeError
  /\ exists s1 s2 m1 m2,
       run init round_one = Some (Done s1)
       /\ heap s1 !! 0%nat = Some m1
       /\ state m1 = roundEnd /\ scores m1 = mkScores 0 2
       /\ run init second_guess = Some (Done s2)
       /\ heap s2 !! 0%nat = Some m2
       /\ scores m2 = mkScores 0 6
       /\ length (out s2) = S (length (out s1)).
Proof.
  split; [vm_compute; reflexivity|].
  eexists _, _, _, _. split; [vm_compute; reflexivity|].
  split; [vm_compute; reflexivity|]. split; [reflexivity|]. split; [reflexivity|].
  split; [vm_compute; reflexivity|]. split; [vm_compute; reflexivity|].
  split; [reflexivity|]. vm_compute; reflexivity.
Qed.

(** C10: in every state the guessing server reaches, player 1's score
    is 0 in every match and player 2's score is not negative; every
    ['matchEnd'] sent so far carries a score of 0 for player 1 and a
    winner other than player 1; and a ['submitGuess'] that is scored adds
    the number of correct guesses, between 0 and 4, to player 2's score
    and leaves player 1's score as it is. *)
Theorem player1_never_scores evs s :
  run init evs = Some (Done s) ->
  (forall r m, heap s !! r = Some m -> score1 (scores m) = 0 /\ 0 <= score2 (scores m))
  /\ (forall t sc w, (t, matchEndMsg sc w) ∈ out s -> w <> Wplayer1 /\ score1 sc = 0)
  /\ (forall sid g c r m comb s',
        socket_match s sid = Some (c, r, m) ->
        socket_role s sid = Some Rplayer2 ->
        combination m = Some comb ->
        submitGuess sid g s = Done s' ->
        exists m',
          heap s' !! r = Some m'
          /\ scores m' = mkScores 0 (score2 (scores m) + count_correct (guess_results comb g))
          /\ 0 <= count_correct (guess_results comb g) <= 4).
Proof.
  intros Hrun. destruct (ok_run evs init s ok_init Hrun) as [H1 H2].
  split; [done|]. split; [done|].
  intros sid g c r m comb s' Hm Hr Hc Hs.
  destruct (submitGuess_scores s sid g c r m comb s' Hm Hr Hc Hs) as (m' & Hh & Hsc).
  exists m'. split; [done|]. split; [|apply count_correct_bound].
  rewrite Hsc. f_equal. apply g_socket_match_heap in Hm. by apply (H1 r m).
Qed.

Lemma player1_never_scores_witness :
  run init full_match = Some (Done s_matchEnd)
  /\ heap s_matchEnd !! 0%nat = Some m_matchEnd
  /\ score1 (scores m_matchEnd) = 0
  /\ last (out s_matchEnd) = Some (ToRoom (Some "ABC123"), matchEndMsg (mkScores 0 5) Wplayer2)
  /\ Wplayer2 <> Wplayer1.
Proof.
  assert (H : run init full_match = Some (Done s_matchEnd)) by (vm_compute; reflexivity).
  assert (Hh : heap s_matchEnd !! 0%nat = Some m_matchEnd) by (vm_compute; reflexivity).
  assert (Hl : last (out s_matchEnd)
               = Some (ToRoom (Some "ABC123"), matchEndMsg (mkScores 0 5) Wplayer2))
    by (vm_compute; reflexivity).
  destruct (player1_never_scores full_match s_matchEnd H) as (H1 & H2 & _).
  split; [exact H|]. split; [exact Hh|]. split; [exact (proj1 (H1 _ _ Hh))|].
  split; [exact Hl|].
  apply last_Some in Hl as [l' Hl'].
  apply (H2 (ToRoom (Some "ABC123")) (mkScores 0 5)).
  rewrite Hl'. apply elem_of_app. right. apply list_elem_of_singleton. reflexivity.
Defined.

End GuessingFacts.

(** ** Claims that hold of both servers *)

(** C2: [endMatch] puts the match in state [matchEnd] and emits
    ['matchEnd'] to the room with the scores and the winner: player 1 iff
    score1 > score2, player 2 iff score2 > score1, tie iff they are equal;
    the match-end branch of the guessing server computes the same winner.
    In the last round of the guessing server ['submitGuess'] ends the log
    with ['matchEnd'] carrying the new scores and that winner.
    (3,1) gives player 1, (2,2) a tie, (0,4) player 2. *)
Theorem endMatch_reports_winner (s : Reactive.State) (c : string) (r : nat) (m : Reactive.Match) :
  Reactive.get_match s c = Some (r, m) ->
  let sc := Reactive.scores m in
  let w := Reactive.winner_of sc in
  Reactive.out (Reactive.endMatch c s)
    = (Reactive.out s ++ [(ToRoom (Some c), Reactive.matchEndMsg sc w)])%list
  /\ Reactive.get_match (Reactive.endMatch c s) c
    = Some (r, Reactive.set_state Reactive.matchEnd m)
  /\ (w = Wplayer1 <-> score1 sc > score2 sc)
  /\ (w = Wplayer2 <-> score2 sc > score1 sc)
  /\ (w = Wtie <-> score1 sc = score2 sc)
  /\ Guessing.winner_of sc = w
  /\ (forall (gs : Guessing.State) sid g gc gr gm comb,
        Guessing.socket_match gs sid = Some (gc, gr, gm) ->
        Guessing.socket_role gs sid = Some Rplayer2 ->
        Guessing.combination gm = Some comb ->
        Guessing.totalRounds gm <= Guessing.currentRound gm ->
        let gsc := mkScores (score1 (Guessing.scores gm))
                     (score2 (Guessing.scores gm)
                      + Guessing.count_correct (Guessing.guess_results comb g)) in
        exists gs',
          Guessing.submitGuess sid g gs = Guessing.Done gs'
          /\ last (Guessing.out gs')
             = Some (ToRoom (Some gc), Guessing.matchEndMsg gsc (Guessing.winner_of gsc)))
  /\ Reactive.winner_of (mkScores 3 1) = Wplayer1
  /\ Reactive.winner_of (mkScores 2 2) = Wtie
  /\ Reactive.winner_of (mkScores 0 4) = Wplayer2.
Proof.
  intros H sc w. unfold Reactive.endMatch. rewrite H. simpl.
  split; [done|]. split; [by apply (ReactiveFacts.get_match_store_eq _ _ _ m)|].
  split; [apply ReactiveFacts.winner_of_player1|].
  split; [apply ReactiveFacts.winner_of_player2|].
  split; [apply ReactiveFacts.winner_of_tie|]. split; [done|]. split; [|done].
  intros gs sid g gc gr gm comb Hm Hr Hc Hl.
  destruct (GuessingFacts.submitGuess_last_round gs sid g gc gr gm comb Hm Hr Hc Hl)
    as (gs' & Hs & Ho & _).
  by exists gs'.
Qed.

Lemma endMatch_reports_winner_witness :
  Reactive.get_match Reactive.s_matchEnd "ABC123" = Some (0%nat, Reactive.m_matchEnd)
  /\ Reactive.out (Reactive.endMatch "ABC123" Reactive.s_matchEnd)
     = (Reactive.out Reactive.s_matchEnd
        ++ [(ToRoom (Some "ABC123"), Reactive.matchEndMsg (mkScores 0 0) Wtie)])%list.
Proof.
  assert (H : Reactive.get_match Reactive.s_matchEnd "ABC123"
              = Some (0%nat, Reactive.m_matchEnd)) by (vm_compute; reflexivity).
  split; [exact H|].
  exact (proj1 (endMatch_reports_winner Reactive.s_matchEnd "ABC123" 0 Reactive.m_matchEnd H)).
Defined.

(** C4, as the code has it: ['createMatch'] stores the new match, in
    state [waiting] with the sender as player 1, under the code made of
    the first six digits after ["0."] of the base-36 text of the random
    draw, in upper case: upper-case letters and digits only, six of them
    when the text has six digits or more.  The registry is not consulted:
    whatever was stored under that code is replaced.  ['joinMatch'] looks
    the code up in upper case. *)
Theorem createMatch_code (s : Reactive.State) (sid frac : string) :
  string_forall base36_digit frac = true ->
  let c := generateMatchCode ("0." ++ frac) in
  let s' := Reactive.createMatch sid ("0." ++ frac) s in
  String.length c = Nat.min 6 (String.length frac)
  /\ string_forall upper_alnum c = true
  /\ Reactive.get_match s' c
     = Some (Reactive.next_ref s,
             Reactive.mkMatch c sid None 1 4 (mkScores 0 0) Reactive.waiting
               None None None None None (false, false))
  /\ (forall sid' code,
        Reactive.joinMatch sid' code s = Reactive.joinMatch sid' (toUpperCase code) s).
Proof.
  intros H c s'. split; [apply generateMatchCode_length|].
  split; [by apply generateMatchCode_alnum|]. split.
  - unfold s', Reactive.createMatch, Reactive.get_match. simpl. fold c.
    by rewrite !lookup_insert_eq.
  - intros sid' code. unfold Reactive.joinMatch. by rewrite toUpperCase_idem.
Qed.

Lemma createMatch_code_witness :
  string_forall base36_digit "abc123xyz4k" = true
  /\ generateMatchCode "0.abc123xyz4k" = "ABC123"
  /\ Reactive.get_match (Reactive.createMatch "A" "0.abc123xyz4k" Reactive.init) "ABC123"
     = Some (0%nat,
             Reactive.mkMatch "ABC123" "A" None 1 4 (mkScores 0 0) Reactive.waiting
               None None None None None (false, false)).
Proof.
  split; [reflexivity|]. split; [reflexivity|].
  exact (proj1 (proj2 (proj2
    (createMatch_code Reactive.init "A" "abc123xyz4k" eq_refl)))).
Defined.

(** C4 as stated fails: a third socket draws a number whose text starts
    with the digits of a live match's code and ['createMatch'] replaces
    the registry entry of that match; the draw 0.5, whose base-36 text is
    ["0.i"], gives a code of one character. *)
Lemma createMatch_collision_counterexample :
  Reactive.get_match Reactive.s_countdown "ABC123"
  = Some (0%nat,
          Reactive.mkMatch "ABC123" "A" (Some "B") 1 4 (mkScores 0 0) Reactive.countdown
            (Some "A") (Some "B") None None None (false, false))
  /\ generateMatchCode "0.abc123a07qf" = "ABC123"
  /\ (exists s',
        Reactive.run Reactive.s_countdown
          [(30, Reactive.Connect "C");
           (40, Reactive.Recv "C" (Reactive.InCreateMatch "0.abc123a07qf"))] = Some s'
        /\ Reactive.get_match s' "ABC123"
           = Some (1%nat,
                   Reactive.mkMatch "ABC123" "C" None 1 4 (mkScores 0 0) Reactive.waiting
                     None None None None None (false, false)))
  /\ generateMatchCode "0.i" = "I".
Proof.
  split; [vm_compute; reflexivity|]. split; [reflexivity|]. split; [|reflexivity].
  eexists. split; vm_compute; reflexivity.
Qed.

(** C7: ['joinMatch'] looks the code up in upper case.  With no such
    match the sender gets ['joinError'] "Match not found" and nothing else
    changes; with player 2 already set the sender gets ['joinError']
    "Match is full" and nothing else changes; otherwise the sender becomes
    player 2 and joins the room, ['matchStarted'] is emitted to the room
    with both ids, and the first round begins: the reactive server assigns
    the roles, enters [countdown], sends ['roundStart'] to attacker and
    defender and starts the countdown interval; the guessing server
    enters [inputting] and asks player 1 for a combination. *)
Theorem joinMatch_outcomes :
  (forall (s : Reactive.State) (sid matchCode : string),
     let code := toUpperCase matchCode in
     let s' := Reactive.joinMatch sid matchCode s in
     match Reactive.get_match s code with
     | None => s' = Reactive.emit (ToSelf sid) (Reactive.joinError "Match not found") s
     | Some (r, m) =>
         if truthy (Reactive.player2 m)
         then s' = Reactive.emit (ToSelf sid) (Reactive.joinError "Match is full") s
         else
           let m' := Reactive.set_state Reactive.countdown
                       (Reactive.with_roles (Reactive.set_player2 (Some sid) m)) in
           Reactive.heap s' = <[r := m']> (Reactive.heap s)
           /\ Reactive.player2 m' = Some sid
           /\ Reactive.matches s' = Reactive.matches s
           /\ Reactive.sockets s'
              = alter (fun k => socket_assign code Rplayer2 (socket_join code k)) sid
                  (Reactive.sockets s)
           /\ Reactive.out s' = (Reactive.out s ++
                [(ToRoom (Some code),
                   Reactive.matchStarted code (Reactive.player1 m) (Some sid));
                 (ToRoom (Reactive.currentAttacker m'),
                   Reactive.roundStart (Reactive.currentRound m) (Reactive.totalRounds m)
                     "attacker" 3);
                 (ToRoom (Reactive.currentDefender m'),
                   Reactive.roundStart (Reactive.currentRound m) (Reactive.totalRounds m)
                     "defender" 3)])%list
           /\ Reactive.timers s' = (Reactive.timers s ++
                [Reactive.mkTimer (Reactive.next_tid s) (Reactive.now s + 1000)
                   (Reactive.CountdownTick code 3)])%list
     end)
  /\ (forall (s : Guessing.State) (sid matchCode : string),
     let code := toUpperCase matchCode in
     let s' := Guessing.joinMatch sid matchCode s in
     match Guessing.get_match s code with
     | None => s' = Guessing.emit (ToSelf sid) (Guessing.joinError "Match not found") s
     | Some (r, m) =>
         if truthy (Guessing.player2 m)
         then s' = Guessing.emit (ToSelf sid) (Guessing.joinError "Match is full") s
         else
           let m' := Guessing.set_state Guessing.inputting
                       (Guessing.set_player2 (Some sid) m) in
           Guessing.heap s' = <[r := m']> (Guessing.heap s)
           /\ Guessing.matches s' = Guessing.matches s
           /\ Guessing.sockets s'
              = alter (fun k => socket_assign code Rplayer2 (socket_join code k)) sid
                  (Guessing.sockets s)
           /\ Guessing.out s' = (Guessing.out s ++
                [(ToRoom (Some code),
                   Guessing.matchStarted code (Guessing.player1 m) (Some sid));
                 (ToRoom (Some (Guessing.player1 m)),
                   Guessing.inputCombination (Guessing.currentRound m));
                 (ToRoom (Some sid),
                   Guessing.waitingForCombination (Guessing.currentRound m))])%list
           /\ Guessing.timers s' = Guessing.timers s
     end).
Proof.
  split.
  - intros s sid matchCode. apply ReactiveFacts.joinMatch_cases.
  - intros s sid matchCode. apply GuessingFacts.g_joinMatch_cases.
Qed.

(** C8: ['proposeRematch'] does nothing unless the match is in state
    [matchEnd].  In [matchEnd] with no proposal recorded, the proposal of
    one player [x] records that player's flag, emits ['rematchProposed']
    to the other player and resets nothing; the proposal of the other
    player [y] that follows resets the match once (round 1, scores 0-0,
    both flags cleared), emits ['rematchStarting'] to the room and
    schedules one delay of 1000 ms.  When that delay fires the reactive
    server starts the countdown of round 1; the guessing server, already
    in [inputting], asks player 1 for the combination of round 1.  The
    two players may propose in either order. *)
Theorem rematch_handshake :
  (forall (s : Reactive.State) (c : string) (r : nat) (m : Reactive.Match)
          (x y : string) (rx ry : Role),
     Reactive.socket_match s x = Some (c, r, m) ->
     Reactive.socket_match s y = Some (c, r, m) ->
     Reactive.socket_role s x = Some rx ->
     Reactive.socket_role s y = Some ry ->
     rx <> ry ->
     (Reactive.state m <> Reactive.matchEnd -> Reactive.proposeRematch x s = s)
     /\ (Reactive.state m = Reactive.matchEnd ->
         Reactive.rematchProposals m = (false, false) ->
         let s1 := Reactive.proposeRematch x s in
         let s2 := Reactive.proposeRematch y s1 in
         let m1 := Reactive.record_proposal rx m in
         let m2 := Reactive.reset_match (Reactive.record_proposal ry m1) in
         let t := Reactive.mkTimer (Reactive.next_tid s) (Reactive.now s + 1000)
                    (Reactive.RematchDelay y) in
         Reactive.heap s1 = <[r := m1]> (Reactive.heap s)
         /\ Reactive.currentRound m1 = Reactive.currentRound m
         /\ Reactive.scores m1 = Reactive.scores m
         /\ Reactive.out s1
            = (Reactive.out s ++
                 [(ToRoom (Reactive.other_player rx m), Reactive.rematchProposed)])%list
         /\ Reactive.timers s1 = Reactive.timers s
         /\ Reactive.heap s2 = <[r := m2]> (Reactive.heap s)
         /\ Reactive.currentRound m2 = 1
         /\ Reactive.scores m2 = mkScores 0 0
         /\ Reactive.rematchProposals m2 = (false, false)
         /\ Reactive.out s2
            = (Reactive.out s1 ++
                 [(ToRoom (Reactive.other_player ry m), Reactive.rematchProposed);
                  (ToRoom (Some c), Reactive.rematchStarting)])%list
         /\ Reactive.timers s2 = (Reactive.timers s ++ [t])%list
         /\ Reactive.run_job t s2 = Reactive.startRoundCountdown c s2
         /\ Reactive.heap (Reactive.startRoundCountdown c s2)
            = <[r := Reactive.set_state Reactive.countdown (Reactive.with_roles m2)]>
                (Reactive.heap s2)))
  /\ (forall (s : Guessing.State) (c : string) (r : nat) (m : Guessing.Match)
          (x y : string) (rx ry : Role),
     Guessing.socket_match s x = Some (c, r, m) ->
     Guessing.socket_match s y = Some (c, r, m) ->
     Guessing.socket_role s x = Some rx ->
     Guessing.socket_role s y = Some ry ->
     rx <> ry ->
     (Guessing.state m <> Guessing.matchEnd -> Guessing.proposeRematch x s = s)
     /\ (Guessing.state m = Guessing.matchEnd ->
         Guessing.rematchProposals m = (false, false) ->
         let s1 := Guessing.proposeRematch x s in
         let s2 := Guessing.proposeRematch y s1 in
         let m1 := Guessing.record_proposal rx m in
         let m2 := Guessing.reset_match (Guessing.record_proposal ry m1) in
         let t := Guessing.mkTimer (Guessing.next_tid s) (Guessing.now s + 1000)
                    (Guessing.RematchDelay r) in
         Guessing.heap s1 = <[r := m1]> (Guessing.heap s)
         /\ Guessing.currentRound m1 = Guessing.currentRound m
         /\ Guessing.scores m1 = Guessing.scores m
         /\ Guessing.out s1
            = (Guessing.out s ++
                 [(ToRoom (Guessing.other_player rx m), Guessing.rematchProposed rx)])%list
         /\ Guessing.timers s1 = Guessing.timers s
         /\ Guessing.heap s2 = <[r := m2]> (Guessing.heap s)
         /\ Guessing.currentRound m2 = 1
         /\ Guessing.scores m2 = mkScores 0 0
         /\ Guessing.rematchProposals m2 = (false, false)
         /\ Guessing.state m2 = Guessing.inputting
         /\ Guessing.out s2
            = (Guessing.out s1 ++
                 [(ToRoom (Guessing.other_player ry m), Guessing.rematchProposed ry);
                  (ToRoom (Some c), Guessing.rematchStarting)])%list
         /\ Guessing.timers s2 = (Guessing.timers s ++ [t])%list
         /\ Guessing.out (Guessing.run_job t s2)
            = (Guessing.out s2 ++
                 [(ToRoom (Some (Guessing.player1 m)), Guessing.inputCombination 1);
                  (ToRoom (Guessing.player2 m), Guessing.waitingForCombination 1)])%list)).
Proof.
  split.
  - intros s c r m x y rx ry Hx Hy Hrx Hry Hne. split.
    { intros Hst. by apply (ReactiveFacts.proposeRematch_ignored s x c r m). }
    intros Hend Hnone s1 s2 m1 m2 t.
    destruct (ReactiveFacts.handshake_order s c r m Hend Hnone x y rx ry Hx Hy Hrx Hry Hne)
      as (Hh1 & Ho1 & Ht1 & Hh2 & Ho2 & Ht2 & Hk2 & Hg2).
    fold s1 in Hh1, Ho1, Ht1, Hh2, Ho2, Ht2, Hk2, Hg2.
    fold s2 in Hh2, Ho2, Ht2, Hk2, Hg2. fold m1 in Hh1, Hh2. fold m2 in Hh2.
    assert (Hy2 : Reactive.socket_match s2 y = Some (c, r, m2))
      by (by apply (ReactiveFacts.socket_match_update s s2 y c r m m2)).
    apply ReactiveFacts.socket_match_code in Hy2 as [Hc2 Hm2].
    destruct (ReactiveFacts.startRoundCountdown_effect s2 c r m2 Hm2) as (Hh3 & _).
    split; [done|]. split; [by destruct rx|]. split; [by destruct rx|].
    split; [done|]. split; [done|]. split; [done|]. split; [done|]. split; [done|].
    split; [done|]. split; [done|]. split; [done|]. split; [|done].
    unfold Reactive.run_job. simpl. by rewrite Hc2.
  - intros s c r m x y rx ry Hx Hy Hrx Hry Hne. split.
    { intros Hst. by apply (GuessingFacts.g_proposeRematch_ignored s x c r m). }
    intros Hend Hnone s1 s2 m1 m2 t.
    destruct (GuessingFacts.g_handshake_order s c r m Hend Hnone x y rx ry Hx Hy Hrx Hry Hne)
      as (Hh1 & Ho1 & Ht1 & Hh2 & Ho2 & Ht2 & Hk2 & Hg2).
    fold s1 in Hh1, Ho1, Ht1, Hh2, Ho2, Ht2, Hk2, Hg2.
    fold s2 in Hh2, Ho2, Ht2, Hk2, Hg2. fold m1 in Hh1, Hh2. fold m2 in Hh2.
    split; [done|]. split; [by destruct rx|]. split; [by destruct rx|].
    split; [done|]. split; [done|]. split; [done|]. split; [done|]. split; [done|].
    split; [done|]. split; [done|]. split; [done|]. split; [done|].
    unfold Guessing.run_job. simpl. rewrite Hh2, lookup_insert_eq. simpl.
    rewrite <- app_assoc. by destruct rx, ry.
Qed.

Lemma rematch_handshake_witness :
  (Reactive.socket_match Reactive.s_matchEnd "A" = Some ("ABC123", 0%nat, Reactive.m_matchEnd)
   /\ Reactive.socket_match Reactive.s_matchEnd "B" = Some ("ABC123", 0%nat, Reactive.m_matchEnd)
   /\ Reactive.socket_role Reactive.s_matchEnd "A" = Some Rplayer1
   /\ Reactive.socket_role Reactive.s_matchEnd "B" = Some Rplayer2
   /\ Rplayer1 <> Rplayer2
   /\ Reactive.state Reactive.m_matchEnd = Reactive.matchEnd
   /\ Reactive.rematchProposals Reactive.m_matchEnd = (false, false))
  /\ (Guessing.socket_match Guessing.s_matchEnd "B" = Some ("ABC123", 0%nat, Guessing.m_matchEnd)
   /\ Guessing.socket_match Guessing.s_matchEnd "A" = Some ("ABC123", 0%nat, Guessing.m_matchEnd)
   /\ Guessing.socket_role Guessing.s_matchEnd "B" = Some Rplayer2
   /\ Guessing.socket_role Guessing.s_matchEnd "A" = Some Rplayer1
   /\ Rplayer2 <> Rplayer1
   /\ Guessing.state Guessing.m_matchEnd = Guessing.matchEnd
   /\ Guessing.rematchProposals Guessing.m_matchEnd = (false, false))
  /\ Reactive.timers
       (Reactive.proposeRematch "B" (Reactive.proposeRematch "A" Reactive.s_matchEnd))
     = [Reactive.mkTimer 12 148020 (Reactive.RematchDelay "B")]
  /\ Guessing.timers
       (Guessing.proposeRematch "A" (Guessing.proposeRematch "B" Guessing.s_matchEnd))
     = [Guessing.mkTimer 5 45000 (Guessing.RematchDelay 0)].
Proof.
  assert (R1 : Reactive.socket_match Reactive.s_matchEnd "A"
               = Some ("ABC123", 0%nat, Reactive.m_matchEnd)) by (vm_compute; reflexivity).
  assert (R2 : Reactive.socket_match Reactive.s_matchEnd "B"
               = Some ("ABC123", 0%nat, Reactive.m_matchEnd)) by (vm_compute; reflexivity).
  assert (R3 : Reactive.socket_role Reactive.s_matchEnd "A" = Some Rplayer1)
    by (vm_compute; reflexivity).
  assert (R4 : Reactive.socket_role Reactive.s_matchEnd "B" = Some Rplayer2)
    by (vm_compute; reflexivity).
  assert (R5 : Rplayer1 <> Rplayer2) by discriminate.
  assert (G1 : Guessing.socket_match Guessing.s_matchEnd "B"
               = Some ("ABC123", 0%nat, Guessing.m_matchEnd)) by (vm_compute; reflexivity).
  assert (G2 : Guessing.socket_match Guessing.s_matchEnd "A"
               = Some ("ABC123", 0%nat, Guessing.m_matchEnd)) by (vm_compute; reflexivity).
  assert (G3 : Guessing.socket_role Guessing.s_matchEnd "B" = Some Rplayer2)
    by (vm_compute; reflexivity).
  assert (G4 : Guessing.socket_role Guessing.s_matchEnd "A" = Some Rplayer1)
    by (vm_compute; reflexivity).
  assert (G5 : Rplayer2 <> Rplayer1) by discriminate.
  destruct rematch_handshake as [HR HG].
  split; [by repeat split|]. split; [by repeat split|]. split.
  - destruct (HR Reactive.s_matchEnd "ABC123" 0%nat Reactive.m_matchEnd "A" "B"
                Rplayer1 Rplayer2 R1 R2 R3 R4 R5) as [_ H].
    destruct (H eq_refl eq_refl) as (_ & _ & _ & _ & _ & _ & _ & _ & _ & _ & Ht & _).
    rewrite Ht. vm_compute. reflexivity.
  - destruct (HG Guessing.s_matchEnd "ABC123" 0%nat Guessing.m_matchEnd "B" "A"
                Rplayer2 Rplayer1 G1 G2 G3 G4 G5) as [_ H].
    destruct (H eq_refl eq_refl) as (_ & _ & _ & _ & _ & _ & _ & _ & _ & _ & _ & Ht & _).
    rewrite Ht. vm_compute. reflexivity.
Defined.

(** * Runs of the reactive server *)

Module ReactiveRuns.
Import Reactive.
Import ReactiveFacts.
#[local] Arguments step : simpl never.

Lemma find_timer_rearmed h d j (l : list Timer) s :
  timers s = (filter (fun t => tid t <> h) l ++ [mkTimer h d j])%list ->
  find_timer h s = Some (mkTimer h d j).
Proof.
  unfold find_timer. intros ->. induction l as [|t l IH]; simpl.
  - by rewrite bool_decide_eq_true_2.
  - rewrite filter_cons. destruct (decide (tid t <> h)) as [Hne|Heq]; [|done].
    simpl. by rewrite bool_decide_eq_false_2.
Qed.

Lemma filter_rearmed h (u : Timer) (l : list Timer) :
  tid u = h ->
  filter (fun t => tid t <> h) (filter (fun t => tid t <> h) l ++ [u])%list
  = filter (fun t => tid t <> h) l.
Proof.
  intros Hu. rewrite filter_app, list_filter_filter.
  rewrite filter_cons, decide_False by (by intros ?). simpl. rewrite app_nil_r.
  apply list_filter_iff. intros x. tauto.
Qed.

Lemma on_time_cons d a rest :
  on_time d (a :: rest) = true -> d <= a /\ on_time (a + 1000) rest = true.
Proof. simpl. intros [H1 H2]%andb_true_iff. split; [lia|done]. Qed.

Lemma on_time_later d d' times : d' <= d -> on_time d times = true -> on_time d' times = true.
Proof.
  destruct times as [|a rest]; [done|]. simpl.
  intros Hd [H1 H2]%andb_true_iff. apply andb_true_iff. split; [lia|done].
Qed.

Lemma run_app s evs1 evs2 :
  run s (evs1 ++ evs2) = match run s evs1 with Some s1 => run s1 evs2 | None => None end.
Proof.
  revert s. induction evs1 as [|[a e] evs1 IH]; intros s; simpl; [done|].
  destruct (step s a e); [apply IH|done].
Qed.

(** One run of the countdown interval before the last. *)
Lemma countdown_tick s c h d k a :
  find_timer h s = Some (mkTimer h d (CountdownTick c k)) ->
  1 <= k -> now s <= a -> d <= a ->
  exists s1,
    step s a (Fire h) = Some s1
    /\ find_timer h s1 = Some (mkTimer h (a + 1000) (CountdownTick c (k - 1)))
    /\ out s1 = (out s ++ [(ToRoom (Some c), countdownMsg k)])%list
    /\ heap s1 = heap s /\ matches s1 = matches s /\ sockets s1 = sockets s
    /\ next_tid s1 = next_tid s /\ now s1 = a
    /\ filter (fun t => tid t <> h) (timers s1) = filter (fun t => tid t <> h) (timers s).
Proof.
  intros Hf Hk Ha Hd.
  pose proof (step_fire s a (mkTimer h d (CountdownTick c k)) Ha Hf Hd) as Hs.
  cbn [tid] in Hs. rewrite Hs. clear Hs.
  unfold run_job. simpl.
  destruct (Z.ltb_spec (k - 1) 0) as [?|_]; [lia|].
  eexists. split; [reflexivity|]. simpl.
  split; [by apply (find_timer_rearmed _ _ _ (timers s))|].
  repeat (split; [done|]). by apply filter_rearmed.
Qed.

(** The last run of the countdown interval. *)
Lemma countdown_last s c r m h d a :
  find_timer h s = Some (mkTimer h d (CountdownTick c 0)) ->
  get_match s c = Some (r, m) ->
  now s <= a -> d <= a ->
  exists s1,
    step s a (Fire h) = Some s1
    /\ out s1 = (out s ++ [(ToRoom (Some c), countdownMsg 0);
                           (ToRoom (currentAttacker m), startAttacking 30 (currentRound m));
                           (ToRoom (currentDefender m), startDefending 30 (currentRound m))])%list
    /\ heap s1 = <[r := set_roundTimer (Some (next_tid s))
                          (set_currentMove None (set_state playing m))]> (heap s)
    /\ timers s1 = (filter (fun t => tid t <> h) (timers s)
                    ++ [mkTimer (next_tid s) (a + 1000) (RoundTick c 30)])%list
    /\ matches s1 = matches s /\ sockets s1 = sockets s.
Proof.
  intros Hf Hm Ha Hd.
  pose proof (step_fire s a (mkTimer h d (CountdownTick c 0)) Ha Hf Hd) as Hs.
  cbn [tid] in Hs. rewrite Hs. clear Hs.
  unfold run_job. simpl. unfold startRound.
  match goal with |- context [get_match ?x c] =>
    change (get_match x c) with (get_match s c) end.
  rewrite Hm. eexists. split; [reflexivity|]. simpl.
  split; [by rewrite <- !app_assoc|]. split; [done|].
  split; [|done]. f_equal. by apply filter_rearmed.
Qed.

Lemma countdown_runs_from n : forall s c r m h d times,
  find_timer h s = Some (mkTimer h d (CountdownTick c (Z.of_nat n))) ->
  get_match s c = Some (r, m) ->
  length times = S n ->
  on_time (Z.max (now s) d) times = true ->
  exists s',
    run s (ticks h times) = Some s'
    /\ out s' = (out s ++ map (fun k => (ToRoom (Some c), countdownMsg k)) (count_down n)
                 ++ [(ToRoom (currentAttacker m), startAttacking 30 (currentRound m));
                     (ToRoom (currentDefender m), startDefending 30 (currentRound m))])%list
    /\ heap s' = <[r := set_roundTimer (Some (next_tid s))
                          (set_currentMove None (set_state playing m))]> (heap s)
    /\ timers s' = (filter (fun t => tid t <> h) (timers s)
                    ++ [mkTimer (next_tid s) (List.last times 0 + 1000) (RoundTick c 30)])%list
    /\ matches s' = matches s /\ sockets s' = sockets s.
Proof.
  induction n as [|k IH]; intros s c r m h d times Hf Hm Hlen Hon.
  - destruct times as [|a [|? ?]]; try done.
    apply on_time_cons in Hon as [Ha _].
    destruct (countdown_last s c r m h d a Hf Hm) as (s1 & Hs & Ho & Hh & Ht & Hmm & Hk);
      [lia|lia|].
    exists s1. simpl. rewrite Hs. by repeat split.
  - destruct times as [|a rest]; [done|]. injection Hlen as Hlen.
    apply on_time_cons in Hon as [Ha Hrest].
    destruct (countdown_tick s c h d (Z.of_nat (S k)) a Hf)
      as (s1 & Hs & Hf1 & Ho1 & Hh1 & Hm1 & Hk1 & Hn1 & Hnow1 & Hfl1); [lia|lia|lia|].
    replace (Z.of_nat (S k) - 1) with (Z.of_nat k) in Hf1 by lia.
    destruct (IH s1 c r m h (a + 1000) rest Hf1) as (s' & Hrun & Ho & Hh & Ht & Hmm & Hk').
    { rewrite <- Hm. by apply get_match_same. }
    { done. }
    { rewrite Hnow1. eapply on_time_later; [|exact Hrest]. lia. }
    exists s'. simpl. rewrite Hs. split; [exact Hrun|].
    rewrite Ho, Ho1, Hh, Hh1, Hn1, Ht, Hfl1, Hn1, Hmm, Hm1, Hk', Hk1.
    split; [by rewrite <- !app_assoc|]. split; [done|].
    split; [|done]. destruct rest; [done|]. done.
Qed.

(** *** What a turn of the loop leaves alone *)

Section Evolve.
Variable R : Match -> Match -> Prop.
Hypothesis Hrefl : forall m, R m m.
Hypothesis Htrans : forall a b c, R a b -> R b c -> R a c.
Hypothesis H_state : forall v m, R m (set_state v m).
Hypothesis H_roles : forall a d m, R m (set_roles a d m).
Hypothesis H_roundTimer : forall v m, R m (set_roundTimer v m).
Hypothesis H_currentMove : forall v m, R m (set_currentMove v m).
Hypothesis H_moveTimeout : forall v m, R m (set_moveTimeout v m).
Hypothesis H_round : forall v m, R m (set_currentRound v m).

Lemma ev_refl s : evolves R s s.
Proof. intros r m H. eauto. Qed.

Lemma ev_same s x x' : heap x' = heap x -> evolves R s x -> evolves R s x'.
Proof. unfold evolves. by intros ->. Qed.

Lemma ev_store s x r m0 m0' :
  heap x !! r = Some m0 -> R m0 m0' -> evolves R s x -> evolves R s (store r m0' x).
Proof.
  intros Hr HR H r0 m Hm. destruct (H r0 m Hm) as (m1 & Hm1 & HR1). simpl.
  destruct (decide (r = r0)) as [<-|Hne].
  - rewrite lookup_insert_eq. exists m0'. split; [done|].
    apply (Htrans _ m1); [done|]. congruence.
  - rewrite lookup_insert_ne by done. eauto.
Qed.

Lemma ev_store_new s x r m0' :
  heap x !! r = None -> evolves R s x -> evolves R s (store r m0' x).
Proof.
  intros Hr H r0 m Hm. destruct (H r0 m Hm) as (m1 & Hm1 & HR1). simpl.
  rewrite lookup_insert_ne by congruence. eauto.
Qed.

Lemma ev_trans s x y : evolves R s x -> evolves R x y -> evolves R s y.
Proof.
  intros H1 H2 r m Hm. destruct (H1 r m Hm) as (m1 & Hm1 & HR1).
  destruct (H2 r m1 Hm1) as (m2 & Hm2 & HR2). eauto.
Qed.

Lemma ev_clearHandle s x h : evolves R s x -> evolves R s (clearHandle h x).
Proof. apply ev_same, heap_clearHandle. Qed.
Lemma ev_emit s x t e : evolves R s x -> evolves R s (emit t e x).
Proof. by apply ev_same. Qed.
Lemma ev_setTimer s x j d : evolves R s x -> evolves R s (setTimer j d x).
Proof. by apply ev_same. Qed.
Lemma ev_clearTimer s x h : evolves R s x -> evolves R s (clearTimer h x).
Proof. by apply ev_same. Qed.
Lemma ev_rearm s x t j : evolves R s x -> evolves R s (rearm t j x).
Proof. by apply ev_same. Qed.
Lemma ev_set_now s x a : evolves R s x -> evolves R s (set_now a x).
Proof. by apply ev_same. Qed.
Lemma ev_update_socket s x sid f : evolves R s x -> evolves R s (update_socket sid f x).
Proof. by apply ev_same. Qed.
Lemma ev_set_matches s x v : evolves R s x -> evolves R s (set_matches v x).
Proof. by apply ev_same. Qed.
Lemma ev_set_sockets s x v : evolves R s x -> evolves R s (set_sockets v x).
Proof. by apply ev_same. Qed.
Lemma ev_set_next_ref s x v : evolves R s x -> evolves R s (set_next_ref v x).
Proof. by apply ev_same. Qed.

Ltac ev_step :=
  lazymatch goal with
  | |- evolves _ ?s ?s => apply ev_refl
  | |- evolves _ _ (clearHandle _ _) => apply ev_clearHandle
  | |- evolves _ _ (emit _ _ _) => apply ev_emit
  | |- evolves _ _ (setTimer _ _ _) => apply ev_setTimer
  | |- evolves _ _ (clearTimer _ _) => apply ev_clearTimer
  | |- evolves _ _ (rearm _ _ _) => apply ev_rearm
  | |- evolves _ _ (set_now _ _) => apply ev_set_now
  | |- evolves _ _ (update_socket _ _ _) => apply ev_update_socket
  | |- evolves _ _ (set_matches _ _) => apply ev_set_matches
  | |- evolves _ _ (set_sockets _ _) => apply ev_set_sockets
  | |- evolves _ _ (set_next_ref _ _) => apply ev_set_next_ref
  end.

Ltac ev_go := repeat first [assumption | ev_step].

Ltac chain :=
  repeat first
    [ apply Hrefl
    | apply H_state | apply H_roles | apply H_roundTimer | apply H_currentMove
    | apply H_moveTimeout | apply H_round
    | (eapply Htrans; [|apply H_state])
    | (eapply Htrans; [|apply H_roles])
    | (eapply Htrans; [|apply H_roundTimer])
    | (eapply Htrans; [|apply H_currentMove])
    | (eapply Htrans; [|apply H_moveTimeout])
    | (eapply Htrans; [|apply H_round]) ].

Lemma ev_startRoundCountdown s x c : evolves R s x -> evolves R s (startRoundCountdown c x).
Proof.
  intros H. unfold startRoundCountdown.
  destruct (get_match x c) as [[r m]|] eqn:E; [|done].
  apply get_match_heap in E. ev_go. apply (ev_store _ _ r m); [done| |done]. chain.
Qed.

Lemma ev_startRound s x c : evolves R s x -> evolves R s (startRound c x).
Proof.
  intros H. unfold startRound.
  destruct (get_match x c) as [[r m]|] eqn:E; [|done].
  apply get_match_heap in E. apply (ev_store _ _ r m); [done| |ev_go]. chain.
Qed.

Lemma ev_endMatch s x c : evolves R s x -> evolves R s (endMatch c x).
Proof.
  intros H. unfold endMatch.
  destruct (get_match x c) as [[r m]|] eqn:E; [|done].
  apply get_match_heap in E. ev_go. apply (ev_store _ _ r m); [done| |done]. chain.
Qed.

Lemma ev_endRound s x c : evolves R s x -> evolves R s (endRound c x).
Proof.
  intros H. unfold endRound.
  destruct (get_match x c) as [[r m]|] eqn:E; [|done].
  apply get_match_heap in E.
  assert (evolves R s (store r
      (set_state roundEnd
         (match moveTimeout (match roundTimer m with Some _ => set_roundTimer None m | None => m end)
          with Some _ => set_moveTimeout None
                 (match roundTimer m with Some _ => set_roundTimer None m | None => m end)
          | None => match roundTimer m with Some _ => set_roundTimer None m | None => m end end))
      (clearHandle (moveTimeout (match roundTimer m with Some _ => set_roundTimer None m | None => m end))
         (clearHandle (roundTimer m) x)))).
  { apply (ev_store _ _ r m); [by rewrite !heap_clearHandle| |ev_go].
    destruct (roundTimer m); simpl; destruct (moveTimeout m); chain. }
  destruct (totalRounds _ <=? currentRound _); ev_go.
Qed.

Lemma ev_createMatch s sid rnd : wf s -> evolves R s (createMatch sid rnd s).
Proof.
  intros Hwf. unfold createMatch. ev_go. apply ev_store_new; [|ev_go].
  destruct (heap s !! next_ref s) eqn:E; [|done]. apply (wf_refs _ Hwf) in E. lia.
Qed.

Lemma ev_joinMatch s sid c :
  (forall v m, truthy (player2 m) = false -> R m (set_player2 v m)) ->
  evolves R s (joinMatch sid c s).
Proof.
  intros Hp2. unfold joinMatch.
  destruct (get_match s _) as [[r m]|] eqn:E; [|ev_go].
  apply get_match_heap in E.
  destruct (truthy (player2 m)) eqn:Ht; [ev_go|].
  apply ev_startRoundCountdown. ev_go. apply (ev_store _ _ r m); [done|by apply Hp2|ev_go].
Qed.

Lemma ev_attackMove s sid mv : evolves R s (attackMove sid mv s).
Proof.
  unfold attackMove.
  destruct (socket_match s sid) as [[[c r] m]|] eqn:E; [|ev_go].
  apply socket_match_heap in E.
  destruct (negb _); [ev_go|]. destruct (negb _); [ev_go|].
  apply (ev_store _ _ r m); [simpl; by rewrite heap_clearHandle| |ev_go]. chain.
Qed.

Lemma ev_defendMove s sid mv :
  (forall v m, R m (set_scores v m)) -> evolves R s (defendMove sid mv s).
Proof.
  intros Hsc. unfold defendMove.
  destruct (socket_match s sid) as [[[c r] m]|] eqn:E; [|ev_go].
  apply socket_match_heap in E.
  destruct (negb _); [ev_go|]. destruct (negb _); [ev_go|].
  destruct (currentMove m) as [cm|]; [|ev_go].
  destruct (responded cm); [ev_go|].
  apply (ev_store _ _ r m); [simpl; by rewrite heap_clearHandle| |ev_go].
  destruct (bool_decide _); simpl; destruct (moveTimeout m); chain;
    try (eapply Htrans; [apply Hsc|chain]).
Qed.

Lemma ev_proposeRematch s sid :
  (forall v m, R m (set_scores v m)) -> (forall v m, R m (set_rematchProposals v m)) ->
  evolves R s (proposeRematch sid s).
Proof.
  intros Hsc Hrp. unfold proposeRematch.
  destruct (socket_match s sid) as [[[c r] m]|] eqn:E; [|ev_go].
  apply socket_match_heap in E.
  destruct (negb _); [ev_go|].
  destruct (bool_decide (socket_role s sid = Some Rplayer1));
    destruct (_ && _); ev_go; (apply (ev_store _ _ r m); [done| |ev_go]);
    repeat first [apply Hrefl
                 | (eapply Htrans; [|first [apply Hrp | apply Hsc | apply H_round]])].
Qed.

Lemma ev_disconnect s sid : evolves R s (disconnect sid s).
Proof.
  unfold disconnect.
  destruct (socket_match _ sid) as [[[c r] m]|]; [|ev_go].
  destruct (negb _); ev_go.
Qed.

Lemma ev_run_job s x t : evolves R s x -> evolves R s (run_job t x).
Proof.
  intros H. unfold run_job. destruct (job t) as [c n|c n|r mv|c|r c|sid].
  - destruct (n - 1 <? 0); [|ev_go]. apply ev_startRound. ev_go.
  - destruct (n - 1 <=? 0); [|ev_go]. apply ev_endRound. ev_go.
  - destruct (heap x !! r) as [m|] eqn:Hr; [|done].
    destruct (currentMove m) as [cm|]; [|done].
    destruct (responded cm); [done|].
    apply (ev_store _ _ r m); [done| |ev_go]. chain.
  - by apply ev_endMatch.
  - apply ev_startRoundCountdown.
    destruct (heap x !! r) as [m|] eqn:Hr; [|done].
    apply (ev_store _ _ r m); [done| |done]. chain.
  - destruct (socket_code x sid); [|done]. by apply ev_startRoundCountdown.
Qed.

Lemma ev_fire s a h s' : step s a (Fire h) = Some s' -> evolves R s s'.
Proof.
  unfold step. destruct (a <? now s); [done|].
  destruct (find_timer h _) as [t|]; [|done].
  destruct (due t <=? a); [|done]. intros [= <-]. apply ev_run_job. ev_go.
Qed.

Lemma ev_connect s a sid s' : step s a (Connect sid) = Some s' -> evolves R s s'.
Proof.
  unfold step. destruct (a <? now s); [done|].
  destruct (sockets _ !! sid); [done|]. intros [= <-]. ev_go.
Qed.

Lemma ev_recv s a sid msg s' :
  wf s ->
  (forall v m, truthy (player2 m) = false -> R m (set_player2 v m)) ->
  (forall v m, R m (set_scores v m)) -> (forall v m, R m (set_rematchProposals v m)) ->
  step s a (Recv sid msg) = Some s' -> evolves R s s'.
Proof.
  intros Hwf Hp2 Hsc Hrp. unfold step. destruct (a <? now s); [done|].
  destruct (is_connected _ sid); [|done]. intros [= <-].
  apply (ev_trans _ (set_now a s)); [ev_go|].
  destruct msg; simpl.
  - apply ev_createMatch. by apply wf_set_now.
  - by apply ev_joinMatch.
  - apply ev_attackMove.
  - by apply ev_defendMove.
  - by apply ev_proposeRematch.
  - apply ev_disconnect.
Qed.
End Evolve.

Lemma same_identity_refl m : same_identity m m.
Proof. by repeat split. Qed.

Lemma same_identity_trans a b c : same_identity a b -> same_identity b c -> same_identity a c.
Proof.
  intros (H1 & H2 & H3 & H4) (K1 & K2 & K3 & K4).
  repeat split; try congruence.
  intros Ht. rewrite K4; [by apply H4|]. rewrite H4; done.
Qed.

Lemma identity_step s a e s' : wf s -> step s a e = Some s' -> evolves same_identity s s'.
Proof.
  intros Hwf Hs. destruct e as [sid|sid msg|h].
  - apply (ev_connect _ same_identity_refl _ a sid). exact Hs.
  - apply (ev_recv _ same_identity_refl same_identity_trans) with (a := a) (sid := sid) (msg := msg);
      try done; try (by intros; repeat split).
    intros v m Hf. repeat split. simpl. congruence.
  - apply (ev_fire _ same_identity_refl same_identity_trans) with (a := a) (h := h); try done;
      by intros; repeat split.
Qed.

Lemma identity_run evs : forall s s',
  wf s -> run s evs = Some s' -> evolves same_identity s s'.
Proof.
  induction evs as [|[a e] evs IH]; simpl; intros s s' Hwf.
  - intros [= <-]. apply ev_refl, same_identity_refl.
  - destruct (step s a e) as [s1|] eqn:E; [|done]. intros Hrun.
    apply (ev_trans _ same_identity_trans _ s1).
    + by apply (identity_step s a e).
    + apply IH; [by apply (wf_step s a e)|done].
Qed.

Lemma same_scores_step s a e s' :
  wf s -> step s a e = Some s' ->
  (forall d det, e <> Recv d (InDefendMove det)) ->
  (forall p, e <> Recv p InProposeRematch) ->
  evolves same_scores s s'.
Proof.
  intros Hwf Hs Hnd Hnp.
  assert (Hrefl : forall m, same_scores m m) by done.
  assert (Htrans : forall a b c, same_scores a b -> same_scores b c -> same_scores a c)
    by (unfold same_scores; congruence).
  destruct e as [sid|sid msg|h].
  - by apply (ev_connect _ Hrefl _ a sid).
  - revert Hs. unfold step. destruct (a <? now s); [done|].
    destruct (is_connected _ sid); [|done]. intros [= <-].
    apply (ev_trans _ Htrans _ (set_now a s)); [by apply ev_set_now, ev_refl|].
    destruct msg; simpl.
    + apply ev_createMatch; [done|by apply wf_set_now].
    + by apply ev_joinMatch.
    + by apply ev_attackMove.
    + by destruct (Hnd sid detectedMove).
    + by destruct (Hnp sid).
    + by apply ev_disconnect.
  - by apply (ev_fire _ Hrefl Htrans) with (a := a) (h := h).
Qed.

(** X1: the countdown of a round.  An interval of
    [startRoundCountdown] that holds the count [n] for a registered match
    runs [n + 1] times, one second or more apart: it emits ['countdown']
    with [n], [n - 1], ..., [0] to the room, and its last run clears the
    interval and starts the round: the match is in [playing] with no move,
    ['startAttacking'] and ['startDefending'] go to the attacker and the
    defender, and the round timer is armed with 30 seconds. *)
Theorem countdown_runs s c r m h d n times :
  find_timer h s = Some (mkTimer h d (CountdownTick c (Z.of_nat n))) ->
  get_match s c = Some (r, m) ->
  length times = S n ->
  on_time (Z.max (now s) d) times = true ->
  exists s',
    run s (ticks h times) = Some s'
    /\ out s' = (out s ++ map (fun k => (ToRoom (Some c), countdownMsg k)) (count_down n)
                 ++ [(ToRoom (currentAttacker m), startAttacking 30 (currentRound m));
                     (ToRoom (currentDefender m), startDefending 30 (currentRound m))])%list
    /\ heap s' = <[r := set_roundTimer (Some (next_tid s))
                          (set_currentMove None (set_state playing m))]> (heap s)
    /\ timers s' = (filter (fun t => tid t <> h) (timers s)
                    ++ [mkTimer (next_tid s) (List.last times 0 + 1000) (RoundTick c 30)])%list
    /\ matches s' = matches s /\ sockets s' = sockets s.
Proof. apply countdown_runs_from. Qed.

Lemma countdown_runs_witness :
  (find_timer 0 s_countdown = Some (mkTimer 0 1020 (CountdownTick "ABC123" (Z.of_nat 3)))
   /\ get_match s_countdown "ABC123" = Some (0%nat, m_countdown)
   /\ length [1020; 2020; 3020; 4020] = 4%nat
   /\ on_time (Z.max (now s_countdown) 1020) [1020; 2020; 3020; 4020] = true)
  /\ exists s',
       run s_countdown (ticks 0 [1020; 2020; 3020; 4020]) = Some s'
       /\ out s' = (out s_countdown
            ++ [(ToRoom (Some "ABC123"), countdownMsg 3); (ToRoom (Some "ABC123"), countdownMsg 2);
                (ToRoom (Some "ABC123"), countdownMsg 1); (ToRoom (Some "ABC123"), countdownMsg 0);
                (ToRoom (Some "A"), startAttacking 30 1);
                (ToRoom (Some "B"), startDefending 30 1)])%list
       /\ heap s' !! 0%nat = Some m_playing.
Proof.
  assert (H1 : find_timer 0 s_countdown
               = Some (mkTimer 0 1020 (CountdownTick "ABC123" (Z.of_nat 3))))
    by (vm_compute; reflexivity).
  assert (H2 : get_match s_countdown "ABC123" = Some (0%nat, m_countdown))
    by (vm_compute; reflexivity).
  assert (H3 : on_time (Z.max (now s_countdown) 1020) [1020; 2020; 3020; 4020] = true)
    by (vm_compute; reflexivity).
  split; [split; [exact H1|split; [exact H2|split; [exact eq_refl|exact H3]]]|].
  destruct (countdown_runs s_countdown "ABC123" 0 m_countdown 0 1020 3
              [1020; 2020; 3020; 4020] H1 H2 eq_refl H3)
    as (s' & Hrun & Hout & Hheap & _).
  exists s'. split; [exact Hrun|]. split; [exact Hout|].
  rewrite Hheap, lookup_insert_eq. vm_compute. reflexivity.
Defined.

(** One run of a round timer before the last. *)
Lemma round_tick s c h d k a :
  find_timer h s = Some (mkTimer h d (RoundTick c k)) ->
  2 <= k -> now s <= a -> d <= a ->
  exists s1,
    step s a (Fire h) = Some s1
    /\ find_timer h s1 = Some (mkTimer h (a + 1000) (RoundTick c (k - 1)))
    /\ out s1 = (out s ++ [(ToRoom (Some c), roundTimerMsg (k - 1))])%list
    /\ heap s1 = heap s /\ matches s1 = matches s /\ sockets s1 = sockets s
    /\ next_tid s1 = next_tid s /\ now s1 = a
    /\ filter (fun t => tid t <> h) (timers s1) = filter (fun t => tid t <> h) (timers s).
Proof.
  intros Hf Hk Ha Hd.
  pose proof (step_fire s a (mkTimer h d (RoundTick c k)) Ha Hf Hd) as Hs.
  cbn [tid] in Hs. rewrite Hs. clear Hs.
  unfold run_job. simpl.
  destruct (Z.leb_spec (k - 1) 0) as [?|_]; [lia|].
  eexists. split; [reflexivity|]. simpl.
  split; [by apply (find_timer_rearmed _ _ _ (timers s))|].
  repeat (split; [done|]). by apply filter_rearmed.
Qed.

Lemma set_moveTimeout_None m : moveTimeout m = None -> set_moveTimeout None m = m.
Proof. destruct m. simpl. by intros ->. Qed.

(** The last run of the round timer of a match. *)
Lemma round_last s c r m h d a :
  find_timer h s = Some (mkTimer h d (RoundTick c 1)) ->
  get_match s c = Some (r, m) -> roundTimer m = Some h ->
  now s <= a -> d <= a ->
  exists s1,
    step s a (Fire h) = Some s1
    /\ out s1 = (out s ++ [(ToRoom (Some c), roundTimerMsg 0);
                           (ToRoom (Some c), roundEndMsg (currentRound m) (scores m))])%list
    /\ heap s1 = <[r := set_state roundEnd (set_moveTimeout None (set_roundTimer None m))]> (heap s)
    /\ timers s1 = (timers (clearHandle (moveTimeout m) (clearTimer h s))
         ++ [if totalRounds m <=? currentRound m
             then mkTimer (next_tid s) (a + 2000) (EndMatchDelay c)
             else mkTimer (next_tid s) (a + 3000) (NextRoundDelay r c)])%list
    /\ matches s1 = matches s /\ sockets s1 = sockets s.
Proof.
  intros Hf Hm Hrt Ha Hd.
  pose proof (step_fire s a (mkTimer h d (RoundTick c 1)) Ha Hf Hd) as Hs.
  cbn [tid] in Hs. rewrite Hs. clear Hs.
  unfold run_job. simpl. unfold endRound.
  match goal with |- context [get_match ?x c] =>
    change (get_match x c) with (get_match s c) end.
  rewrite Hm, Hrt. simpl.
  assert (Hfl : forall mt, timers (clearHandle mt (clearTimer h
            (emit (ToRoom (Some c)) (roundTimerMsg 0)
               (rearm (mkTimer h d (RoundTick c 1)) (RoundTick c 0)
                  (clearTimer h (set_now a s))))))
          = timers (clearHandle mt (clearTimer h s))).
  { intros [mt|]; simpl; by rewrite filter_rearmed. }
  destruct (moveTimeout m) as [mt|] eqn:Hmt; simpl;
    destruct (totalRounds m <=? currentRound m); simpl;
    (eexists; split; [reflexivity|]); simpl;
    rewrite ?filter_rearmed by done; rewrite <- ?app_assoc; simpl;
    repeat split; try done;
    rewrite set_moveTimeout_None by done; done.
Qed.

(** X2: the 30 seconds of a round.  The round timer of a registered
    match, holding [n + 1] seconds, runs [n + 1] times, one second or more
    apart, with nothing else happening: it emits ['roundTimer'] with [n],
    ..., [0] to the room, and the run that reaches 0 ends the round: both
    handles of the match are cleared, the match is in [roundEnd],
    ['roundEnd'] carries the round and the scores, and one delay is
    scheduled, 2000 ms to the end of the match in the last round, 3000 ms
    to the next round otherwise. *)
Theorem round_timer_runs s c r m h d n times :
  find_timer h s = Some (mkTimer h d (RoundTick c (Z.of_nat (S n)))) ->
  get_match s c = Some (r, m) ->
  roundTimer m = Some h ->
  length times = S n ->
  on_time (Z.max (now s) d) times = true ->
  exists s',
    run s (ticks h times) = Some s'
    /\ out s' = (out s ++ map (fun k => (ToRoom (Some c), roundTimerMsg k)) (count_down n)
                 ++ [(ToRoom (Some c), roundEndMsg (currentRound m) (scores m))])%list
    /\ heap s' = <[r := set_state roundEnd (set_moveTimeout None (set_roundTimer None m))]> (heap s)
    /\ timers s' = (timers (clearHandle (moveTimeout m) (clearTimer h s))
         ++ [if totalRounds m <=? currentRound m
             then mkTimer (next_tid s) (List.last times 0 + 2000) (EndMatchDelay c)
             else mkTimer (next_tid s) (List.last times 0 + 3000) (NextRoundDelay r c)])%list
    /\ matches s' = matches s /\ sockets s' = sockets s.
Proof.
  revert s d times. induction n as [|k IH]; intros s d times Hf Hm Hrt Hlen Hon.
  - destruct times as [|a [|? ?]]; try done.
    apply on_time_cons in Hon as [Ha _].
    destruct (round_last s c r m h d a Hf Hm Hrt) as (s1 & Hs & Ho & Hh & Ht & Hmm & Hk);
      [lia|lia|].
    exists s1. simpl. rewrite Hs. by repeat split.
  - destruct times as [|a rest]; [done|]. injection Hlen as Hlen.
    apply on_time_cons in Hon as [Ha Hrest].
    destruct (round_tick s c h d (Z.of_nat (S (S k))) a Hf)
      as (s1 & Hs & Hf1 & Ho1 & Hh1 & Hm1 & Hk1 & Hn1 & Hnow1 & Hfl1); [lia|lia|lia|].
    replace (Z.of_nat (S (S k)) - 1) with (Z.of_nat (S k)) in Hf1, Ho1 by lia.
    destruct (IH s1 (a + 1000) rest Hf1) as (s' & Hrun & Ho & Hh & Ht & Hmm & Hk').
    { rewrite <- Hm. by apply get_match_same. }
    { done. }
    { done. }
    { rewrite Hnow1. eapply on_time_later; [|exact Hrest]. lia. }
    exists s'. simpl. rewrite Hs. split; [exact Hrun|].
    rewrite Ho, Ho1, Hh, Hh1, Ht, Hn1, Hmm, Hm1, Hk', Hk1.
    split; [by rewrite <- !app_assoc|]. split; [done|].
    split; [|done].
    assert (Hcl : timers (clearHandle (moveTimeout m) (clearTimer h s1))
                  = timers (clearHandle (moveTimeout m) (clearTimer h s))).
    { destruct (moveTimeout m); simpl; by rewrite Hfl1. }
    rewrite Hcl. by destruct rest.
Qed.

Lemma round_timer_runs_witness :
  (find_timer 1 s_playing = Some (mkTimer 1 5020 (RoundTick "ABC123" (Z.of_nat 30)))
   /\ get_match s_playing "ABC123" = Some (0%nat, m_playing)
   /\ roundTimer m_playing = Some 1%nat
   /\ length (every_second 5020 30) = 30%nat
   /\ on_time (Z.max (now s_playing) 5020) (every_second 5020 30) = true)
  /\ exists s',
       run s_playing (ticks 1 (every_second 5020 30)) = Some s'
       /\ heap s' !! 0%nat = Some m_roundEnd
       /\ timers s' = [mkTimer 2 37020 (NextRoundDelay 0 "ABC123")]
       /\ last (out s') = Some (ToRoom (Some "ABC123"), roundEndMsg 1 (mkScores 0 0)).
Proof.
  assert (H1 : find_timer 1 s_playing
               = Some (mkTimer 1 5020 (RoundTick "ABC123" (Z.of_nat 30))))
    by (vm_compute; reflexivity).
  assert (H2 : get_match s_playing "ABC123" = Some (0%nat, m_playing))
    by (vm_compute; reflexivity).
  assert (H3 : on_time (Z.max (now s_playing) 5020) (every_second 5020 30) = true)
    by (vm_compute; reflexivity).
  split; [split; [exact H1|split; [exact H2|split; [exact eq_refl|split; [exact eq_refl|exact H3]]]]|].
  destruct (round_timer_runs s_playing "ABC123" 0 m_playing 1 5020 29
              (every_second 5020 30) H1 H2 eq_refl eq_refl H3)
    as (s' & Hrun & Hout & Hheap & Htim & _).
  exists s'. split; [exact Hrun|].
  split; [rewrite Hheap, lookup_insert_eq; vm_compute; reflexivity|].
  split; [rewrite Htim; vm_compute; reflexivity|].
  rewrite Hout, app_assoc. apply last_snoc.
Defined.

(** X3: where a change of scores comes from.  In a state the server can
    reach, a turn of the loop keeps every match object, and leaves its
    scores as they were unless the turn is the ['defendMove'] of the
    current defender answering the pending move of a match in [playing]
    with the expected direction (one point, to the defender's side), or a
    ['proposeRematch'] on a match in [matchEnd] (both scores back to 0).
    No timer, ['attackMove'], ['joinMatch'], ['createMatch'] or
    ['disconnect'] changes a score. *)
Theorem scores_change_origin evs s a e s' r m :
  run init evs = Some s ->
  step s a e = Some s' ->
  heap s !! r = Some m ->
  exists m',
    heap s' !! r = Some m'
    /\ (scores m' = scores m
        \/ (exists d det mv,
              e = Recv d (InDefendMove det) /\ state m = playing
              /\ currentDefender m = Some d /\ currentMove m = Some mv
              /\ responded mv = false /\ det = direction mv
              /\ scores m' = award_point m)
        \/ (exists p, e = Recv p InProposeRematch /\ state m = matchEnd
              /\ scores m' = mkScores 0 0)).
Proof.
  intros Hrun Hs Hr.
  assert (Hwf : wf s) by (by apply (wf_run evs init s wf_init)).
  destruct e as [sid|sid msg|h].
  1, 3: (destruct (same_scores_step s a _ s' Hwf Hs) with (r := r) (m := m)
           as (m' & Hm' & Hsc); [done|done|done|]; exists m'; split; [done|by left]).
  destruct msg as [rnd|c|mv|det| |].
  1, 2, 3, 6: (destruct (same_scores_step s a _ s' Hwf Hs) with (r := r) (m := m)
           as (m' & Hm' & Hsc); [done|done|done|]; exists m'; split; [done|by left]).
  - revert Hs. unfold step. destruct (a <? now s); [done|].
    destruct (is_connected _ sid); [|done]. intros [= <-]. simpl. unfold defendMove.
    change (socket_match (set_now a s) sid) with (socket_match s sid).
    destruct (socket_match s sid) as [[[c r0] m0]|] eqn:E; [|eauto].
    apply socket_match_heap in E.
    destruct (bool_decide (state m0 = playing)) eqn:Hp; simpl; [|eauto].
    destruct (bool_decide (Some sid = currentDefender m0)) eqn:Hd; simpl; [|eauto].
    destruct (currentMove m0) as [cm|] eqn:Hcm; [|eauto].
    destruct (responded cm) eqn:Hresp; [eauto|].
    apply bool_decide_eq_true_1 in Hp, Hd.
    simpl. destruct (decide (r0 = r)) as [->|Hne].
    + rewrite lookup_insert_eq. assert (m0 = m) by congruence. subst m0.
      eexists. split; [reflexivity|].
      destruct (bool_decide (det = direction cm)) eqn:Hdet.
      * apply bool_decide_eq_true_1 in Hdet. right. left. exists sid, det, cm.
        split; [done|]. split; [done|]. split; [done|]. split; [done|].
        split; [done|]. split; [done|]. simpl. by destruct (moveTimeout m).
      * left. simpl. by destruct (moveTimeout m).
    + rewrite lookup_insert_ne by done. exists m. split; [|by left].
      by rewrite heap_clearHandle.
  - revert Hs. unfold step. destruct (a <? now s); [done|].
    destruct (is_connected _ sid); [|done]. intros [= <-]. simpl. unfold proposeRematch.
    change (socket_match (set_now a s) sid) with (socket_match s sid).
    destruct (socket_match s sid) as [[[c r0] m0]|] eqn:E; [|eauto].
    apply socket_match_heap in E.
    destruct (bool_decide (state m0 = matchEnd)) eqn:Hp; simpl; [|eauto].
    apply bool_decide_eq_true_1 in Hp.
    destruct (decide (r0 = r)) as [->|Hne].
    + assert (m0 = m) by congruence. subst m0.
      destruct (bool_decide (socket_role _ sid = Some Rplayer1)); simpl;
        destruct (rematchProposals m) as [[] []]; simpl; rewrite lookup_insert_eq;
        (eexists; split; [reflexivity|]); simpl; eauto 8.
    + destruct (bool_decide (socket_role _ sid = Some Rplayer1)); simpl;
        destruct (rematchProposals m0) as [[] []]; simpl;
        rewrite lookup_insert_ne by done; eauto.
Qed.

Lemma scores_change_origin_witness :
  let s' := reach (step s_pending_late 6499 (Recv "B" (InDefendMove "up"))) in
  (run init (first_attack ++ [(5020, Fire 1%nat); (6020, Fire 1%nat)])%list = Some s_pending_late
   /\ step s_pending_late 6499 (Recv "B" (InDefendMove "up")) = Some s'
   /\ heap s_pending_late !! 0%nat = Some m_pending)
  /\ exists m',
       heap s' !! 0%nat = Some m'
       /\ (scores m' = scores m_pending
           \/ (exists d det mv,
                 Recv "B" (InDefendMove "up") = Recv d (InDefendMove det)
                 /\ state m_pending = playing
                 /\ currentDefender m_pending = Some d /\ currentMove m_pending = Some mv
                 /\ responded mv = false /\ det = direction mv
                 /\ scores m' = award_point m_pending)
           \/ (exists p, Recv "B" (InDefendMove "up") = Recv p InProposeRematch
                 /\ state m_pending = matchEnd /\ scores m' = mkScores 0 0)).
Proof.
  intros s'.
  assert (H1 : run init (first_attack ++ [(5020, Fire 1%nat); (6020, Fire 1%nat)])%list
               = Some s_pending_late) by (vm_compute; reflexivity).
  assert (H2 : step s_pending_late 6499 (Recv "B" (InDefendMove "up")) = Some s')
    by (vm_compute; reflexivity).
  assert (H3 : heap s_pending_late !! 0%nat = Some m_pending) by (vm_compute; reflexivity).
  split; [split; [exact H1|split; [exact H2|exact H3]]|].
  exact (scores_change_origin _ _ _ _ _ _ _ H1 H2 H3).
Defined.

(** X4: what identifies a match never changes.  From a state the server
    can reach, whatever events follow, every match object is still there
    with the same code, the same [player1] and the same [totalRounds], and
    with the same [player2] once it has one. *)
Theorem match_identity_kept evs0 s evs s' r m :
  run init evs0 = Some s ->
  run s evs = Some s' ->
  heap s !! r = Some m ->
  exists m',
    heap s' !! r = Some m'
    /\ code m' = code m /\ player1 m' = player1 m /\ totalRounds m' = totalRounds m
    /\ (truthy (player2 m) = true -> player2 m' = player2 m).
Proof.
  intros H0 Hrun Hr.
  assert (Hwf : wf s) by (by apply (wf_run evs0 init s wf_init)).
  destruct (identity_run evs s s' Hwf Hrun r m Hr) as (m' & Hm' & Hid).
  exists m'. by split.
Qed.

Lemma match_identity_kept_witness :
  (run init opening = Some s_countdown
   /\ run s_countdown (countdown_ticks ++ [(4500, Recv "A" (InAttackMove "up"))])%list
      = Some s_pending
   /\ heap s_countdown !! 0%nat = Some m_countdown)
  /\ exists m',
       heap s_pending !! 0%nat = Some m'
       /\ code m' = "ABC123" /\ player1 m' = "A" /\ totalRounds m' = 4
       /\ (truthy (Some "B") = true -> player2 m' = Some "B").
Proof.
  assert (H1 : run init opening = Some s_countdown) by (vm_compute; reflexivity).
  assert (H2 : run s_countdown (countdown_ticks ++ [(4500, Recv "A" (InAttackMove "up"))])%list
               = Some s_pending) by (vm_compute; reflexivity).
  assert (H3 : heap s_countdown !! 0%nat = Some m_countdown) by (vm_compute; reflexivity).
  split; [split; [exact H1|split; [exact H2|exact H3]]|].
  exact (match_identity_kept _ _ _ _ _ _ H1 H2 H3).
Defined.

(** X5: a third player cannot join.  Once the match registered under a
    code has a second player, then in every later state in which the code
    still names that match object, ['joinMatch'] with the code, in any
    letter case, is answered with ['joinError'] 'Match is full' to the
    sender and changes nothing else. *)
Theorem full_match_stays_full evs0 s evs s' c r m j typed :
  run init evs0 = Some s ->
  get_match s c = Some (r, m) ->
  truthy (player2 m) = true ->
  run s evs = Some s' ->
  matches s' !! c = Some r ->
  toUpperCase typed = c ->
  joinMatch j typed s' = emit (ToSelf j) (joinError "Match is full") s'.
Proof.
  intros H0 Hg Hp2 Hrun Hreg Hc.
  assert (Hwf : wf s) by (by apply (wf_run evs0 init s wf_init)).
  destruct (identity_run evs s s' Hwf Hrun r m (get_match_heap _ _ _ _ Hg))
    as (m' & Hm' & _ & _ & _ & Hkeep).
  unfold joinMatch, get_match. rewrite Hc, Hreg, Hm'.
  by rewrite (Hkeep Hp2), Hp2.
Qed.

Lemma full_match_stays_full_witness :
  (run init opening = Some s_countdown
   /\ get_match s_countdown "ABC123" = Some (0%nat, m_countdown)
   /\ truthy (player2 m_countdown) = true
   /\ run s_countdown (countdown_ticks ++ [(4500, Recv "A" (InAttackMove "up"))])%list
      = Some s_pending
   /\ matches s_pending !! "ABC123" = Some 0%nat
   /\ toUpperCase "aBc123" = "ABC123")
  /\ joinMatch "C" "aBc123" s_pending
     = emit (ToSelf "C") (joinError "Match is full") s_pending.
Proof.
  assert (H1 : run init opening = Some s_countdown) by (vm_compute; reflexivity).
  assert (H2 : get_match s_countdown "ABC123" = Some (0%nat, m_countdown))
    by (vm_compute; reflexivity).
  assert (H3 : run s_countdown (countdown_ticks ++ [(4500, Recv "A" (InAttackMove "up"))])%list
               = Some s_pending) by (vm_compute; reflexivity).
  assert (H4 : matches s_pending !! "ABC123" = Some 0%nat) by (vm_compute; reflexivity).
  split; [split; [exact H1|split; [exact H2|split; [exact eq_refl|
          split; [exact H3|split; [exact H4|exact eq_refl]]]]]|].
  exact (full_match_stays_full _ _ _ _ _ _ _ "C" "aBc123" H1 H2 eq_refl H3 H4 eq_refl).
Defined.

(** X6: a message changes no match but its own.  A message from a
    socket leaves every match object untouched except the one it is about:
    the new object for ['createMatch'], the match registered under the
    given code for ['joinMatch'], the match registered under the sender's
    [matchCode] for the other messages. *)
Theorem message_touches_own_match s a sid msg s' r :
  step s a (Recv sid msg) = Some s' ->
  target s sid msg <> Some r ->
  heap s' !! r = heap s !! r.
Proof.
  unfold step. destruct (a <? now s); [done|].
  destruct (is_connected _ sid); [|done]. intros [= <-] Ht.
  destruct msg as [rnd|c|mv|det| |]; cbn [handle target] in *.
  - unfold createMatch. simpl. rewrite lookup_insert_ne; [done|congruence].
  - pose proof (joinMatch_cases (set_now a s) sid c) as Hj. cbv zeta in Hj.
    change (get_match (set_now a s) (toUpperCase c)) with (get_match s (toUpperCase c)) in Hj.
    destruct (get_match s (toUpperCase c)) as [[r0 m0]|]; [|rewrite Hj; reflexivity].
    destruct (truthy (player2 m0)); [rewrite Hj; reflexivity|].
    destruct Hj as (Hh & _). rewrite Hh. simpl in *.
    rewrite lookup_insert_ne; [done|congruence].
  - unfold attackMove. change (socket_match (set_now a s) sid) with (socket_match s sid).
    destruct (socket_match s sid) as [[[c r0] m0]|]; [|done].
    destruct (negb _); [done|]. destruct (negb _); [done|]. simpl in *.
    rewrite lookup_insert_ne by congruence. by rewrite heap_clearHandle.
  - unfold defendMove. change (socket_match (set_now a s) sid) with (socket_match s sid).
    destruct (socket_match s sid) as [[[c r0] m0]|]; [|done].
    destruct (negb _); [done|]. destruct (negb _); [done|].
    destruct (currentMove m0) as [cm|]; [|done]. destruct (responded cm); [done|].
    simpl in *. rewrite lookup_insert_ne by congruence. by rewrite heap_clearHandle.
  - unfold proposeRematch. change (socket_match (set_now a s) sid) with (socket_match s sid).
    destruct (socket_match s sid) as [[[c r0] m0]|]; [|done].
    destruct (negb _); [done|]. simpl in *.
    destruct (bool_decide _); simpl; destruct (rematchProposals m0) as [[] []]; simpl;
      rewrite lookup_insert_ne by congruence; done.
  - unfold disconnect.
    destruct (socket_match (update_socket sid socket_close (set_now a s)) sid)
      as [[[c r0] m0]|]; [|reflexivity].
    destruct (negb _); [reflexivity|]. simpl. by rewrite !heap_clearHandle.
Qed.

Lemma message_touches_own_match_witness :
  let s := reach (run s_pending [(4600, Connect "C"); (4700, Recv "C" (InCreateMatch "0.zzz999"))]) in
  let s' := reach (step s 6000 (Recv "B" (InDefendMove "up"))) in
  (step s 6000 (Recv "B" (InDefendMove "up")) = Some s'
   /\ target s "B" (InDefendMove "up") <> Some 1%nat)
  /\ heap s' !! 1%nat = heap s !! 1%nat
  /\ is_Some (heap s !! 1%nat).
Proof.
  intros s s'.
  assert (H1 : step s 6000 (Recv "B" (InDefendMove "up")) = Some s')
    by (vm_compute; reflexivity).
  assert (H2 : target s "B" (InDefendMove "up") <> Some 1%nat)
    by (vm_compute; discriminate).
  split; [split; [exact H1|exact H2]|].
  split; [exact (message_touches_own_match _ _ _ _ _ _ H1 H2)|].
  vm_compute. eexists. reflexivity.
Defined.

(** X7: creating, then joining.  Whatever the state, after
    ['createMatch'] by [a] the code of the new match, typed in any
    letter case, lets [b] join it: the code then names a match with
    [player1 = a] and [player2 = b], in [countdown] for round 1 of 4 with
    [a] attacking and [b] defending; ['matchCreated'] went to [a],
    ['matchStarted'] to the room, ['roundStart'] to each player with the
    role, and the countdown interval is armed. *)
Theorem create_then_join s a b rnd typed :
  toUpperCase typed = generateMatchCode rnd ->
  let c := generateMatchCode rnd in
  let s2 := joinMatch b typed (createMatch a rnd s) in
  get_match s2 c
  = Some (next_ref s,
          mkMatch c a (Some b) 1 4 (mkScores 0 0) countdown (Some a) (Some b)
            None None None (false, false))
  /\ out s2 = (out s ++
       [(ToSelf a, matchCreated c);
        (ToRoom (Some c), matchStarted c a (Some b));
        (ToRoom (Some a), roundStart 1 4 "attacker" 3);
        (ToRoom (Some b), roundStart 1 4 "defender" 3)])%list
  /\ timers s2 = (timers s ++ [mkTimer (next_tid s) (now s + 1000) (CountdownTick c 3)])%list.
Proof.
  intros Hc c s2.
  pose proof (joinMatch_cases (createMatch a rnd s) b typed) as Hj. cbv zeta in Hj.
  rewrite Hc in Hj. fold c in Hj.
  assert (Hg : get_match (createMatch a rnd s) c
               = Some (next_ref s, mkMatch c a None 1 4 (mkScores 0 0) waiting
                                     None None None None None (false, false))).
  { unfold createMatch, get_match. simpl. fold c. by rewrite !lookup_insert_eq. }
  rewrite Hg in Hj. simpl in Hj.
  destruct Hj as (Hh & _ & Hm & _ & Ho & Ht). fold s2 in Hh, Hm, Ho, Ht.
  split; [|split].
  - unfold get_match. rewrite Hm, Hh. simpl. fold c. by rewrite !lookup_insert_eq.
  - rewrite Ho. simpl. fold c. by rewrite <- app_assoc.
  - by rewrite Ht.
Qed.

Lemma create_then_join_witness :
  toUpperCase "abc123" = generateMatchCode "0.abc123xyz4k"
  /\ get_match (joinMatch "B" "abc123" (createMatch "A" "0.abc123xyz4k" init)) "ABC123"
     = Some (0%nat, m_countdown).
Proof.
  split; [vm_compute; reflexivity|].
  destruct (create_then_join init "A" "B" "0.abc123xyz4k" "abc123") as (Hg & _);
    [vm_compute; reflexivity|].
  exact Hg.
Defined.

(** X8: a match that was disconnected cannot be joined.  When a
    connected socket whose [matchCode] is the non-empty code of a
    registered match disconnects, a ['joinMatch'] with that code, in any
    letter case, is answered with ['joinError'] 'Match not found'. *)
Theorem join_after_disconnect s a sid c r m j typed :
  now s <= a -> is_connected s sid = true ->
  socket_match s sid = Some (c, r, m) -> c <> EmptyString ->
  toUpperCase typed = c ->
  exists s',
    step s a (Recv sid InDisconnect) = Some s'
    /\ joinMatch j typed s' = emit (ToSelf j) (joinError "Match not found") s'.
Proof.
  intros Ha Hc Hm Hne Ht.
  destruct (disconnect_effect s a sid c r m Ha Hc Hm Hne) as (s' & Hs & Hreg & _).
  exists s'. split; [exact Hs|].
  unfold joinMatch. rewrite Ht, get_match_absent; [done|].
  rewrite Hreg. apply lookup_delete_eq.
Qed.

Lemma join_after_disconnect_witness :
  (now s_pending <= 5000 /\ is_connected s_pending "A" = true
   /\ socket_match s_pending "A"
      = Some ("ABC123", 0%nat, m_pending)
   /\ "ABC123" <> EmptyString /\ toUpperCase "abc123" = "ABC123")
  /\ exists s',
       step s_pending 5000 (Recv "A" InDisconnect) = Some s'
       /\ joinMatch "C" "abc123" s' = emit (ToSelf "C") (joinError "Match not found") s'.
Proof.
  assert (H1 : now s_pending <= 5000) by (vm_compute; discriminate).
  assert (H2 : is_connected s_pending "A" = true) by (vm_compute; reflexivity).
  assert (H3 : socket_match s_pending "A"
               = Some ("ABC123", 0%nat, m_pending))
    by (vm_compute; reflexivity).
  assert (H4 : "ABC123" <> EmptyString) by discriminate.
  split; [split; [exact H1|split; [exact H2|split; [exact H3|split; [exact H4|exact eq_refl]]]]|].
  exact (join_after_disconnect _ _ _ _ _ _ "C" "abc123" H1 H2 H3 H4 eq_refl).
Defined.

Lemma rem2_next n : 0 <= n -> (Z.rem (n + 1) 2 =? 1) = negb (Z.rem n 2 =? 1).
Proof.
  intros Hn. rewrite !Z.rem_mod_nonneg by lia.
  pose proof (Z.mod_pos_bound n 2). pose proof (Z.mod_pos_bound (n + 1) 2).
  pose proof (Z.div_mod n 2). pose proof (Z.div_mod (n + 1) 2).
  destruct (Z.eqb_spec ((n + 1) mod 2) 1), (Z.eqb_spec (n mod 2) 1); simpl; lia.
Qed.

(** X9: the roles alternate.  When the next-round delay of a registered
    match runs, and the match carries the roles of its round (player 1
    attacks in odd rounds), the round number rises by one, the attacker
    and the defender change places, and the match is in [countdown]. *)
Theorem next_round_swaps_roles x t c r m :
  job t = NextRoundDelay r c ->
  get_match x c = Some (r, m) ->
  0 <= currentRound m ->
  currentAttacker m = currentAttacker (with_roles m) ->
  currentDefender m = currentDefender (with_roles m) ->
  exists m',
    heap (run_job t x) !! r = Some m'
    /\ currentRound m' = currentRound m + 1
    /\ currentAttacker m' = currentDefender m
    /\ currentDefender m' = currentAttacker m
    /\ state m' = countdown
    /\ scores m' = scores m.
Proof.
  intros Hj Hg Hr Ha Hd.
  rewrite (nextRoundDelay_effect x t c r m Hj Hg), lookup_insert_eq.
  eexists. split; [reflexivity|].
  rewrite Ha, Hd. unfold with_roles. simpl. rewrite rem2_next by done.
  by destruct (Z.rem (currentRound m) 2 =? 1).
Qed.

Lemma next_round_swaps_roles_witness :
  (job (mkTimer 2 37020 (NextRoundDelay 0 "ABC123")) = NextRoundDelay 0 "ABC123"
   /\ get_match s_roundEnd "ABC123" = Some (0%nat, m_roundEnd)
   /\ 0 <= currentRound m_roundEnd
   /\ currentAttacker m_roundEnd = currentAttacker (with_roles m_roundEnd)
   /\ currentDefender m_roundEnd = currentDefender (with_roles m_roundEnd))
  /\ exists m',
       heap (run_job (mkTimer 2 37020 (NextRoundDelay 0 "ABC123")) s_roundEnd) !! 0%nat = Some m'
       /\ currentRound m' = 2
       /\ currentAttacker m' = Some "B"
       /\ currentDefender m' = Some "A"
       /\ state m' = countdown
       /\ scores m' = mkScores 0 0.
Proof.
  assert (H2 : get_match s_roundEnd "ABC123" = Some (0%nat, m_roundEnd))
    by (vm_compute; reflexivity).
  assert (H3 : 0 <= currentRound m_roundEnd) by (vm_compute; discriminate).
  split; [split; [exact eq_refl|split; [exact H2|split; [exact H3|split; exact eq_refl]]]|].
  exact (next_round_swaps_roles s_roundEnd (mkTimer 2 37020 (NextRoundDelay 0 "ABC123"))
           "ABC123" 0 m_roundEnd eq_refl H2 H3 eq_refl eq_refl).
Defined.
End ReactiveRuns.

(** * Runs of the guessing server *)

Module GuessingRuns.
Import Guessing.
Import GuessingFacts.
Import ReactiveRuns.
#[local] Arguments step : simpl never.

Lemma g_step_recv s at_ sid msg :
  now s <= at_ -> is_connected s sid = true ->
  step s at_ (Recv sid msg) = Some (handle sid msg (set_now at_ s)).
Proof.
  intros Hat Hc. unfold step.
  destruct (Z.ltb_spec at_ (now s)) as [?|_]; [lia|].
  change (is_connected (set_now at_ s) sid) with (is_connected s sid). by rewrite Hc.
Qed.

Lemma g_step_fire s at_ t :
  now s <= at_ -> find_timer (tid t) s = Some t -> due t <= at_ ->
  step s at_ (Fire (tid t)) = Some (Done (run_job t (clearTimer (tid t) (set_now at_ s)))).
Proof.
  intros Hat Hf Hd. unfold step.
  destruct (Z.ltb_spec at_ (now s)) as [?|_]; [lia|].
  change (find_timer (tid t) (set_now at_ s)) with (find_timer (tid t) s). rewrite Hf.
  by destruct (Z.leb_spec (due t) at_) as [_|?]; [|lia].
Qed.

Lemma g_find_timer_rearmed h d j (l : list Timer) s :
  timers s = (filter (fun t => tid t <> h) l ++ [mkTimer h d j])%list ->
  find_timer h s = Some (mkTimer h d j).
Proof.
  unfold find_timer. intros ->. induction l as [|t l IH]; simpl.
  - by rewrite bool_decide_eq_true_2.
  - rewrite filter_cons. destruct (decide (tid t <> h)) as [Hne|Heq]; [|done].
    simpl. by rewrite bool_decide_eq_false_2.
Qed.

Lemma g_filter_rearmed h (u : Timer) (l : list Timer) :
  tid u = h ->
  filter (fun t => tid t <> h) (filter (fun t => tid t <> h) l ++ [u])%list
  = filter (fun t => tid t <> h) l.
Proof.
  intros Hu. rewrite filter_app, list_filter_filter.
  rewrite filter_cons, decide_False by (by intros ?). simpl. rewrite app_nil_r.
  apply list_filter_iff. intros x. tauto.
Qed.

(** *** Invariants of the match objects *)

Section HeapInvariant.
Variable P : Match -> Prop.
Hypothesis HP_new : forall c sid,
  P (mkMatch c sid None 1 3 (mkScores 0 0) None waiting (false, false)).
Hypothesis HP_player2 : forall v m, P m -> P (set_player2 v m).
Hypothesis HP_state : forall v m, P m -> P (set_state v m).
Hypothesis HP_scores : forall v m, P m -> P (set_scores v m).
Hypothesis HP_round : forall v m, P m -> P (set_currentRound v m).
Hypothesis HP_proposals : forall v m, P m -> P (set_rematchProposals v m).
Hypothesis HP_no_combination : forall m, P m -> P (set_combination None m).
Hypothesis HP_combination : forall comb m,
  P m -> length comb = 4%nat -> P (set_combination (Some comb) m).

Lemma ha_same s s' : heap s' = heap s -> heap_all P s -> heap_all P s'.
Proof. unfold heap_all. by intros ->. Qed.

Lemma ha_store r m s : P m -> heap_all P s -> heap_all P (store r m s).
Proof.
  intros Hm H r0 m0. simpl. destruct (decide (r = r0)) as [<-|Hne].
  - rewrite lookup_insert_eq. by intros [= <-].
  - rewrite lookup_insert_ne by done. apply H.
Qed.

Lemma ha_emit t e s : heap_all P s -> heap_all P (emit t e s).
Proof. by apply ha_same. Qed.
Lemma ha_setTimer j d s : heap_all P s -> heap_all P (setTimer j d s).
Proof. by apply ha_same. Qed.
Lemma ha_clearTimer h s : heap_all P s -> heap_all P (clearTimer h s).
Proof. by apply ha_same. Qed.
Lemma ha_rearm t j s : heap_all P s -> heap_all P (rearm t j s).
Proof. by apply ha_same. Qed.
Lemma ha_set_now a s : heap_all P s -> heap_all P (set_now a s).
Proof. by apply ha_same. Qed.
Lemma ha_update_socket sid f s : heap_all P s -> heap_all P (update_socket sid f s).
Proof. by apply ha_same. Qed.
Lemma ha_set_matches v s : heap_all P s -> heap_all P (set_matches v s).
Proof. by apply ha_same. Qed.
Lemma ha_set_sockets v s : heap_all P s -> heap_all P (set_sockets v s).
Proof. by apply ha_same. Qed.
Lemma ha_set_next_ref v s : heap_all P s -> heap_all P (set_next_ref v s).
Proof. by apply ha_same. Qed.

Ltac ha_step :=
  lazymatch goal with
  | |- heap_all _ (emit _ _ _) => apply ha_emit
  | |- heap_all _ (setTimer _ _ _) => apply ha_setTimer
  | |- heap_all _ (clearTimer _ _) => apply ha_clearTimer
  | |- heap_all _ (rearm _ _ _) => apply ha_rearm
  | |- heap_all _ (set_now _ _) => apply ha_set_now
  | |- heap_all _ (update_socket _ _ _) => apply ha_update_socket
  | |- heap_all _ (set_matches _ _) => apply ha_set_matches
  | |- heap_all _ (set_sockets _ _) => apply ha_set_sockets
  | |- heap_all _ (set_next_ref _ _) => apply ha_set_next_ref
  end.

Ltac ha_go := repeat first [assumption | ha_step].

Ltac P_go :=
  repeat first
    [ assumption | apply HP_new | apply HP_player2 | apply HP_state | apply HP_scores
    | apply HP_round | apply HP_proposals | apply HP_no_combination ].

Lemma ha_init : heap_all P init.
Proof. intros r m H. simpl in H. by rewrite lookup_empty in H. Qed.

Lemma ha_handle sid msg s s' :
  heap_all P s -> handle sid msg s = Done s' -> heap_all P s'.
Proof.
  intros H. destruct msg as [rnd|c|comb|g| |]; simpl.
  - intros [= <-]. unfold createMatch. ha_go. apply ha_store; [P_go|ha_go].
  - intros [= <-]. unfold joinMatch.
    destruct (get_match s _) as [[r m]|] eqn:E; [|ha_go].
    apply g_get_match_heap in E. pose proof (H r m E).
    destruct (truthy (player2 m)); ha_go. apply ha_store; [P_go|ha_go].
  - intros [= <-]. unfold submitCombination.
    destruct (socket_match s sid) as [[[c r] m]|] eqn:E; [|done].
    apply g_socket_match_heap in E. pose proof (H r m E).
    destruct (negb _); [done|].
    destruct (bool_decide (length comb = 4%nat)) eqn:Hl; simpl; ha_go.
    apply bool_decide_eq_true_1 in Hl.
    apply ha_store; [|ha_go]. apply HP_state. by apply HP_combination.
  - unfold submitGuess.
    destruct (socket_match s sid) as [[[c r] m]|] eqn:E; [|by intros [= <-]].
    apply g_socket_match_heap in E. pose proof (H r m E).
    destruct (negb _); [by intros [= <-]|].
    destruct (combination m) as [comb|]; [|done].
    destruct (totalRounds _ <=? currentRound _); intros [= <-]; ha_go;
      (apply ha_store; [P_go|ha_go]).
  - intros [= <-]. unfold proposeRematch.
    destruct (socket_match s sid) as [[[c r] m]|] eqn:E; [|done].
    apply g_socket_match_heap in E. pose proof (H r m E).
    destruct (negb _); [done|].
    destruct (bool_decide (socket_role s sid = Some Rplayer1));
      destruct (_ && _); ha_go; (apply ha_store; [P_go|ha_go]).
  - intros [= <-]. unfold disconnect.
    destruct (socket_match _ sid) as [[[c r] m]|]; [|ha_go].
    destruct (negb _); ha_go.
Qed.

Lemma ha_run_job t s : heap_all P s -> heap_all P (run_job t s).
Proof.
  intros H. unfold run_job. destruct (job t) as [sid r n|r|r].
  - destruct (n - 1 <? 0); [|ha_go].
    destruct (heap _ !! r) as [m|] eqn:E; [|ha_go].
    simpl in E. pose proof (H r m E).
    ha_go. apply ha_store; [P_go|ha_go].
  - destruct (heap s !! r) as [m|] eqn:E; [|done].
    pose proof (H r m E). ha_go. apply ha_store; [P_go|ha_go].
  - destruct (heap s !! r) as [m|] eqn:E; [|done]. ha_go.
Qed.

Lemma ha_step s a e s' : heap_all P s -> step s a e = Some (Done s') -> heap_all P s'.
Proof.
  intros H. unfold step. destruct (a <? now s); [done|].
  destruct e as [sid|sid msg|h].
  - destruct (sockets _ !! sid); [done|]. intros [= <-]. ha_go.
  - destruct (is_connected _ sid); [|done]. intros [= Hh].
    apply (ha_handle sid msg (set_now a s)); [ha_go|done].
  - destruct (find_timer h _) as [t|]; [|done].
    destruct (due t <=? a); [|done]. intros [= <-]. apply ha_run_job. ha_go.
Qed.

Lemma ha_run evs : forall s s', heap_all P s -> run s evs = Some (Done s') -> heap_all P s'.
Proof.
  induction evs as [|[a e] evs IH]; simpl; intros s s' H.
  - by intros [= <-].
  - destruct (step s a e) as [[s1|]|] eqn:E; [|by destruct evs|done].
    apply IH. by apply (ha_step s a e).
Qed.
End HeapInvariant.

Lemma four_moves_run evs s : run init evs = Some (Done s) -> heap_all four_moves s.
Proof.
  apply ha_run; [..|apply ha_init]; unfold four_moves; simpl; try done.
  intros comb m _ Hl comb' [= <-]. done.
Qed.

(** *** Scoring a guess *)

Lemma count_correct_sum comb g :
  count_correct (guess_results comb g)
  = (if bool_decide (g !! 0%nat = comb !! 0%nat) then 1 else 0)
    + (if bool_decide (g !! 1%nat = comb !! 1%nat) then 1 else 0)
    + (if bool_decide (g !! 2%nat = comb !! 2%nat) then 1 else 0)
    + (if bool_decide (g !! 3%nat = comb !! 3%nat) then 1 else 0).
Proof.
  unfold count_correct, guess_results, guess_at. cbn [map].
  rewrite !filter_cons, filter_nil. cbn [correct].
  destruct (bool_decide (g !! 0%nat = comb !! 0%nat)),
           (bool_decide (g !! 1%nat = comb !! 1%nat)),
           (bool_decide (g !! 2%nat = comb !! 2%nat)),
           (bool_decide (g !! 3%nat = comb !! 3%nat)); reflexivity.
Qed.

Lemma take4_lookups (comb g : list string) :
  length comb = 4%nat ->
  take 4 g = comb <->
  g !! 0%nat = comb !! 0%nat /\ g !! 1%nat = comb !! 1%nat
  /\ g !! 2%nat = comb !! 2%nat /\ g !! 3%nat = comb !! 3%nat.
Proof.
  destruct comb as [|c0 [|c1 [|c2 [|c3 [|]]]]]; try done. intros _.
  destruct g as [|g0 [|g1 [|g2 [|g3 rest]]]]; simpl; split;
    first [ by intros (?&?&?&?); simplify_eq
          | by intros H; inversion H ].
Qed.

Lemma count_correct_full comb g :
  length comb = 4%nat ->
  count_correct (guess_results comb g) = 4 <-> take 4 g = comb.
Proof.
  intros Hlen. rewrite (take4_lookups comb g Hlen), count_correct_sum.
  repeat case_bool_decide; split; try lia; try tauto.
Qed.

Lemma guess_results_reported comb g :
  length comb = 4%nat ->
  Forall (fun res => is_Some (expected res) /\ guessed res <> EmptyString)
    (guess_results comb g).
Proof.
  destruct comb as [|c0 [|c1 [|c2 [|c3 [|]]]]]; try done. intros _.
  unfold guess_results, guess_at. simpl.
  repeat apply Forall_cons_2; try apply Forall_nil_2;
    (split; [by eexists|]); simpl;
    match goal with |- context [g !! ?i] => destruct (g !! i) as [x|] end;
    try done; by case_bool_decide.
Qed.

(** X10: a guess is scored against four moves.  In a state the server
    can reach, a stored combination has exactly four moves; so when
    player 2's ['submitGuess'] is scored, each of the four positions has an
    expected move, a missing or empty guess is reported as ['none'], and
    the points added to player 2's score are the number of positions that
    match: between 0 and 4, and 4 exactly when the first four guesses are
    the combination. *)
Theorem guess_scored_on_four_moves evs s sid g c r m comb :
  run init evs = Some (Done s) ->
  socket_match s sid = Some (c, r, m) ->
  socket_role s sid = Some Rplayer2 ->
  combination m = Some comb ->
  let n := count_correct (guess_results comb g) in
  length comb = 4%nat
  /\ 0 <= n <= 4
  /\ (n = 4 <-> take 4 g = comb)
  /\ Forall (fun res => is_Some (expected res) /\ guessed res <> EmptyString)
       (guess_results comb g)
  /\ exists s' m',
       submitGuess sid g s = Done s'
       /\ heap s' !! r = Some m'
       /\ scores m' = mkScores (score1 (scores m)) (score2 (scores m) + n)
       /\ (ToRoom (Some c),
           roundResult (currentRound m) comb g (guess_results comb g) n (scores m')) ∈ out s'.
Proof.
  intros Hrun Hm Hr Hc n.
  assert (Hlen : length comb = 4%nat).
  { apply (four_moves_run evs s Hrun r m (g_socket_match_heap _ _ _ _ _ Hm)). done. }
  split; [done|]. split; [apply count_correct_bound|].
  split; [by apply count_correct_full|]. split; [by apply guess_results_reported|].
  unfold submitGuess. rewrite Hm, Hr, Hc. rewrite bool_decide_eq_true_2 by done. simpl.
  destruct (totalRounds m <=? currentRound m); eexists _, _;
    (split; [reflexivity|]); simpl; rewrite lookup_insert_eq;
    (split; [reflexivity|]); (split; [reflexivity|]); simpl.
  - apply elem_of_app. left. apply elem_of_app. right. by apply list_elem_of_singleton.
  - apply elem_of_app. right. by apply list_elem_of_singleton.
Qed.

Lemma guess_scored_on_four_moves_witness :
  (run init guessing_started = Some (Done s_guessing)
   /\ socket_match s_guessing "B" = Some ("ABC123", 0%nat, m_guessing)
   /\ socket_role s_guessing "B" = Some Rplayer2
   /\ combination m_guessing = Some ["up"; "down"; "left"; "right"])
  /\ count_correct (guess_results ["up"; "down"; "left"; "right"] ["up"; "down"; "right"]) = 2
  /\ exists s' m',
       submitGuess "B" ["up"; "down"; "right"] s_guessing = Done s'
       /\ heap s' !! 0%nat = Some m'
       /\ scores m' = mkScores 0 2.
Proof.
  assert (H1 : run init guessing_started = Some (Done s_guessing)) by (vm_compute; reflexivity).
  assert (H2 : socket_match s_guessing "B" = Some ("ABC123", 0%nat, m_guessing))
    by (vm_compute; reflexivity).
  assert (H3 : socket_role s_guessing "B" = Some Rplayer2) by (vm_compute; reflexivity).
  split; [split; [exact H1|split; [exact H2|split; [exact H3|exact eq_refl]]]|].
  split; [vm_compute; reflexivity|].
  destruct (guess_scored_on_four_moves _ _ _ ["up"; "down"; "right"] _ _ _ _ H1 H2 H3 eq_refl)
    as (_ & _ & _ & _ & s' & m' & Hs & Hh & Hsc & _).
  exists s', m'. split; [exact Hs|]. split; [exact Hh|]. exact Hsc.
Defined.

(** *** The countdown before the guessing *)

Lemma g_countdown_tick s sid r h d k a :
  find_timer h s = Some (mkTimer h d (CountdownTick sid r k)) ->
  1 <= k -> now s <= a -> d <= a ->
  exists s1,
    step s a (Fire h) = Some (Done s1)
    /\ find_timer h s1 = Some (mkTimer h (a + 1000) (CountdownTick sid r (k - 1)))
    /\ out s1 = (out s ++ [(ToRoom (socket_code s sid), countdownMsg k)])%list
    /\ heap s1 = heap s /\ matches s1 = matches s /\ sockets s1 = sockets s
    /\ next_tid s1 = next_tid s /\ now s1 = a
    /\ filter (fun t => tid t <> h) (timers s1) = filter (fun t => tid t <> h) (timers s).
Proof.
  intros Hf Hk Ha Hd.
  pose proof (g_step_fire s a (mkTimer h d (CountdownTick sid r k)) Ha Hf Hd) as Hs.
  cbn [tid] in Hs. rewrite Hs. clear Hs.
  unfold run_job. simpl.
  destruct (Z.ltb_spec (k - 1) 0) as [?|_]; [lia|].
  eexists. split; [reflexivity|]. simpl.
  split; [by apply (g_find_timer_rearmed _ _ _ (timers s))|].
  repeat (split; [done|]). by apply g_filter_rearmed.
Qed.

Lemma g_countdown_last s sid r m h d a :
  find_timer h s = Some (mkTimer h d (CountdownTick sid r 0)) ->
  heap s !! r = Some m ->
  now s <= a -> d <= a ->
  exists s1,
    step s a (Fire h) = Some (Done s1)
    /\ out s1 = (out s ++ [(ToRoom (socket_code s sid), countdownMsg 0);
                           (ToRoom (player2 m), startGuessing 8 (currentRound m));
                           (ToRoom (Some (player1 m)), opponentGuessing 8)])%list
    /\ heap s1 = <[r := set_state guessing m]> (heap s)
    /\ timers s1 = filter (fun t => tid t <> h) (timers s)
    /\ matches s1 = matches s /\ sockets s1 = sockets s
    /\ next_tid s1 = next_tid s /\ now s1 = a.
Proof.
  intros Hf Hm Ha Hd.
  pose proof (g_step_fire s a (mkTimer h d (CountdownTick sid r 0)) Ha Hf Hd) as Hs.
  cbn [tid] in Hs. rewrite Hs. clear Hs.
  unfold run_job. simpl. rewrite Hm.
  eexists. split; [reflexivity|]. simpl.
  split; [by rewrite <- !app_assoc|]. split; [done|].
  split; [|done]. by apply g_filter_rearmed.
Qed.

Lemma g_countdown_runs_from sid r m h n : forall s d times,
  find_timer h s = Some (mkTimer h d (CountdownTick sid r (Z.of_nat n))) ->
  heap s !! r = Some m ->
  length times = S n ->
  on_time (Z.max (now s) d) times = true ->
  exists s',
    run s (ticks h times) = Some (Done s')
    /\ out s' = (out s
         ++ map (fun k => (ToRoom (socket_code s sid), countdownMsg k)) (count_down n)
         ++ [(ToRoom (player2 m), startGuessing 8 (currentRound m));
             (ToRoom (Some (player1 m)), opponentGuessing 8)])%list
    /\ heap s' = <[r := set_state guessing m]> (heap s)
    /\ timers s' = filter (fun t => tid t <> h) (timers s)
    /\ matches s' = matches s /\ sockets s' = sockets s
    /\ next_tid s' = next_tid s /\ now s' = List.last times 0.
Proof.
  induction n as [|k IH]; intros s d times Hf Hm Hlen Hon.
  - destruct times as [|a [|? ?]]; try done.
    apply on_time_cons in Hon as [Ha _].
    destruct (g_countdown_last s sid r m h d a Hf Hm)
      as (s1 & Hs & Ho & Hh & Ht & Hmm & Hk & Hn & Hnow); [lia|lia|].
    exists s1. simpl. rewrite Hs. by repeat split.
  - destruct times as [|a rest]; [done|]. injection Hlen as Hlen.
    apply on_time_cons in Hon as [Ha Hrest].
    destruct (g_countdown_tick s sid r h d (Z.of_nat (S k)) a Hf)
      as (s1 & Hs & Hf1 & Ho1 & Hh1 & Hm1 & Hk1 & Hn1 & Hnow1 & Hfl1); [lia|lia|lia|].
    replace (Z.of_nat (S k) - 1) with (Z.of_nat k) in Hf1 by lia.
    destruct (IH s1 (a + 1000) rest Hf1)
      as (s' & Hrun & Ho & Hh & Ht & Hmm & Hk' & Hn' & Hnow').
    { by rewrite Hh1. }
    { done. }
    { rewrite Hnow1. eapply on_time_later; [|exact Hrest]. lia. }
    exists s'. simpl. rewrite Hs. split; [exact Hrun|].
    assert (Hsc : socket_code s1 sid = socket_code s sid)
      by (unfold socket_code; by rewrite Hk1).
    rewrite Ho, Ho1, Hh, Hh1, Ht, Hfl1, Hmm, Hm1, Hk', Hk1, Hn', Hn1, Hnow', Hsc.
    split; [by rewrite <- !app_assoc|]. repeat (split; [done|]). by destruct rest.
Qed.

(** X11: the countdown before the guessing.  The interval that
    ['submitCombination'] starts, holding the count [n] and the match
    object, runs [n + 1] times, one second or more apart: it emits
    ['countdown'] with [n], ..., [0] to the room of the sender's code, and
    its last run clears the interval, puts the match in [guessing] and sends
    ['startGuessing'] (8 seconds) to player 2 and ['opponentGuessing'] to
    player 1. *)
Theorem guess_countdown_runs s sid r m h d n times :
  find_timer h s = Some (mkTimer h d (CountdownTick sid r (Z.of_nat n))) ->
  heap s !! r = Some m ->
  length times = S n ->
  on_time (Z.max (now s) d) times = true ->
  exists s',
    run s (ticks h times) = Some (Done s')
    /\ out s' = (out s
         ++ map (fun k => (ToRoom (socket_code s sid), countdownMsg k)) (count_down n)
         ++ [(ToRoom (player2 m), startGuessing 8 (currentRound m));
             (ToRoom (Some (player1 m)), opponentGuessing 8)])%list
    /\ heap s' = <[r := set_state guessing m]> (heap s)
    /\ timers s' = filter (fun t => tid t <> h) (timers s)
    /\ matches s' = matches s /\ sockets s' = sockets s
    /\ next_tid s' = next_tid s /\ now s' = List.last times 0.
Proof. apply g_countdown_runs_from. Qed.

Lemma guess_countdown_runs_witness :
  (find_timer 0 s_combination = Some (mkTimer 0 1500 (CountdownTick "A" 0 (Z.of_nat 3)))
   /\ heap s_combination !! 0%nat = Some m_combination
   /\ length [1500; 2500; 3500; 4500] = 4%nat
   /\ on_time (Z.max (now s_combination) 1500) [1500; 2500; 3500; 4500] = true)
  /\ exists s',
       run s_combination (ticks 0 [1500; 2500; 3500; 4500]) = Some (Done s')
       /\ out s' = (out s_combination
            ++ [(ToRoom (Some "ABC123"), countdownMsg 3); (ToRoom (Some "ABC123"), countdownMsg 2);
                (ToRoom (Some "ABC123"), countdownMsg 1); (ToRoom (Some "ABC123"), countdownMsg 0);
                (ToRoom (Some "B"), startGuessing 8 1);
                (ToRoom (Some "A"), opponentGuessing 8)])%list
       /\ heap s' !! 0%nat = Some m_guessing.
Proof.
  assert (H1 : find_timer 0 s_combination
               = Some (mkTimer 0 1500 (CountdownTick "A" 0 (Z.of_nat 3))))
    by (vm_compute; reflexivity).
  assert (H2 : heap s_combination !! 0%nat = Some m_combination) by (vm_compute; reflexivity).
  assert (H3 : on_time (Z.max (now s_combination) 1500) [1500; 2500; 3500; 4500] = true)
    by (vm_compute; reflexivity).
  split; [split; [exact H1|split; [exact H2|split; [exact eq_refl|exact H3]]]|].
  destruct (guess_countdown_runs s_combination "A" 0 m_combination 0 1500 3
              [1500; 2500; 3500; 4500] H1 H2 eq_refl H3)
    as (s' & Hrun & Hout & Hheap & _).
  exists s'. split; [exact Hrun|].
  split; [rewrite Hout; vm_compute; reflexivity|].
  rewrite Hheap, lookup_insert_eq. vm_compute. reflexivity.
Defined.

(** *** Disconnection *)





(** *** A whole round *)

Lemma oh_same s s' :
  timers s' = timers s -> next_tid s' = next_tid s -> old_handles s -> old_handles s'.
Proof. unfold old_handles. by intros -> ->. Qed.

Lemma oh_setTimer j d s : old_handles s -> old_handles (setTimer j d s).
Proof.
  intros H t. simpl. intros [Ht| ->%list_elem_of_singleton]%elem_of_app; simpl; [|lia].
  specialize (H t Ht). lia.
Qed.

Lemma oh_clearTimer h s : old_handles s -> old_handles (clearTimer h s).
Proof. intros H t. simpl. intros [_ Ht]%list_elem_of_filter. by apply H. Qed.

Lemma oh_rearm t j s : (tid t < next_tid s)%nat -> old_handles s -> old_handles (rearm t j s).
Proof.
  intros Hlt H u. simpl. intros [Hu| ->%list_elem_of_singleton]%elem_of_app; [by apply H|done].
Qed.

Lemma oh_emit t e s : old_handles s -> old_handles (emit t e s).
Proof. by apply oh_same. Qed.
Lemma oh_store r m s : old_handles s -> old_handles (store r m s).
Proof. by apply oh_same. Qed.
Lemma oh_set_now a s : old_handles s -> old_handles (set_now a s).
Proof. by apply oh_same. Qed.
Lemma oh_update_socket sid f s : old_handles s -> old_handles (update_socket sid f s).
Proof. by apply oh_same. Qed.
Lemma oh_set_matches v s : old_handles s -> old_handles (set_matches v s).
Proof. by apply oh_same. Qed.
Lemma oh_set_sockets v s : old_handles s -> old_handles (set_sockets v s).
Proof. by apply oh_same. Qed.
Lemma oh_set_next_ref v s : old_handles s -> old_handles (set_next_ref v s).
Proof. by apply oh_same. Qed.

Ltac oh_step :=
  lazymatch goal with
  | |- old_handles (emit _ _ _) => apply oh_emit
  | |- old_handles (store _ _ _) => apply oh_store
  | |- old_handles (setTimer _ _ _) => apply oh_setTimer
  | |- old_handles (clearTimer _ _) => apply oh_clearTimer
  | |- old_handles (set_now _ _) => apply oh_set_now
  | |- old_handles (update_socket _ _ _) => apply oh_update_socket
  | |- old_handles (set_matches _ _) => apply oh_set_matches
  | |- old_handles (set_sockets _ _) => apply oh_set_sockets
  | |- old_handles (set_next_ref _ _) => apply oh_set_next_ref
  end.

Ltac oh_go := repeat first [assumption | oh_step].

Lemma oh_handle sid msg s s' : old_handles s -> handle sid msg s = Done s' -> old_handles s'.
Proof.
  intros H. destruct msg as [rnd|c|comb|g| |]; simpl.
  - intros [= <-]. unfold createMatch. oh_go.
  - intros [= <-]. unfold joinMatch.
    destruct (get_match s _) as [[r m]|]; [|oh_go]. destruct (truthy _); oh_go.
  - intros [= <-]. unfold submitCombination.
    destruct (socket_match s sid) as [[[c r] m]|]; [|done].
    destruct (negb _); [done|]. destruct (negb _); oh_go.
  - unfold submitGuess.
    destruct (socket_match s sid) as [[[c r] m]|]; [|by intros [= <-]].
    destruct (negb _); [by intros [= <-]|].
    destruct (combination m) as [comb|]; [|done].
    destruct (totalRounds _ <=? currentRound _); intros [= <-]; oh_go.
  - intros [= <-]. unfold proposeRematch.
    destruct (socket_match s sid) as [[[c r] m]|]; [|done].
    destruct (negb _); [done|].
    destruct (bool_decide _); destruct (_ && _); oh_go.
  - intros [= <-]. unfold disconnect.
    destruct (socket_match _ sid) as [[[c r] m]|]; [|oh_go].
    destruct (negb _); oh_go.
Qed.

Lemma oh_step_ s a e s' : old_handles s -> step s a e = Some (Done s') -> old_handles s'.
Proof.
  intros H. unfold step. destruct (a <? now s); [done|].
  destruct e as [sid|sid msg|h].
  - destruct (sockets _ !! sid); [done|]. intros [= <-]. oh_go.
  - destruct (is_connected _ sid); [|done]. intros [= Hh].
    apply (oh_handle sid msg (set_now a s)); [oh_go|done].
  - destruct (find_timer h _) as [t|] eqn:Hf; [|done].
    destruct (due t <=? a); [|done]. intros [= <-].
    assert (Hlt : (tid t < next_tid s)%nat).
    { apply H. unfold find_timer in Hf. apply find_some in Hf as [Hin _].
      by apply list_elem_of_In. }
    unfold run_job. destruct (job t) as [sid r n|r|r].
    + assert (old_handles (emit (ToRoom (socket_code
                 (rearm t (CountdownTick sid r (n - 1)) (clearTimer h (set_now a s))) sid))
               (countdownMsg n)
               (rearm t (CountdownTick sid r (n - 1)) (clearTimer h (set_now a s)))))
        by (apply oh_emit, oh_rearm; [done|oh_go]).
      destruct (n - 1 <? 0); [|done].
      destruct (heap _ !! r); oh_go.
    + destruct (heap _ !! r); oh_go.
    + destruct (heap _ !! r); oh_go.
Qed.

Lemma oh_run evs : forall s s', old_handles s -> run s evs = Some (Done s') -> old_handles s'.
Proof.
  induction evs as [|[a e] evs IH]; simpl; intros s s' H.
  - by intros [= <-].
  - destruct (step s a e) as [[s1|]|] eqn:E; [|by destruct evs|done].
    apply IH. by apply (oh_step_ s a e).
Qed.

Lemma oh_reachable evs s : run init evs = Some (Done s) -> old_handles s.
Proof. apply oh_run. intros t Ht. by apply elem_of_nil in Ht. Qed.

Lemma find_new (l : list Timer) h d j :
  (forall t, t ∈ l -> (tid t < h)%nat) ->
  List.find (fun t => bool_decide (tid t = h)) (l ++ [mkTimer h d j])%list
  = Some (mkTimer h d j).
Proof.
  induction l as [|t l IH]; intros H; simpl.
  - by rewrite bool_decide_eq_true_2.
  - rewrite bool_decide_eq_false_2.
    + apply IH. intros u Hu. apply H. by right.
    + assert (tid t < h)%nat by (apply H; left). lia.
Qed.

Lemma g_find_timer_new s s1 d j :
  old_handles s ->
  timers s1 = (timers s ++ [mkTimer (next_tid s) d j])%list ->
  find_timer (next_tid s) s1 = Some (mkTimer (next_tid s) d j).
Proof. intros H Ht. unfold find_timer. rewrite Ht. by apply find_new. Qed.

Lemma filter_all_kept (l : list Timer) h :
  (forall t, t ∈ l -> (tid t < h)%nat) -> filter (fun t => tid t <> h) l = l.
Proof.
  induction l as [|t l IH]; intros H; [done|].
  rewrite filter_cons_True.
  - f_equal. apply IH. intros u Hu. apply H. by right.
  - assert (tid t < h)%nat by (apply H; left). lia.
Qed.

Lemma g_filter_new s d j h :
  old_handles s -> (next_tid s <= h)%nat ->
  filter (fun t => tid t <> h) (timers s ++ [mkTimer h d j])%list = timers s.
Proof.
  intros H Hh. rewrite filter_app, filter_cons, decide_False by (by intros ?).
  simpl. rewrite app_nil_r. apply filter_all_kept.
  intros t Ht. specialize (H t Ht). lia.
Qed.

Lemma g_run_app s evs1 evs2 s1 :
  run s evs1 = Some (Done s1) -> run s (evs1 ++ evs2) = run s1 evs2.
Proof.
  revert s. induction evs1 as [|[a e] evs1 IH]; intros s; simpl.
  - by intros [= <-].
  - destruct (step s a e) as [[s0|]|]; [apply IH|by destruct evs1|done].
Qed.

Lemma on_time_last d times : on_time d times = true -> times <> [] -> d <= List.last times 0.
Proof.
  revert d. induction times as [|a rest IH]; intros d; [done|].
  intros [Ha Hrest]%on_time_cons _. destruct rest as [|b rest']; [done|].
  assert (a + 1000 <= List.last (b :: rest') 0) by (by apply IH).
  change (List.last (a :: b :: rest') 0) with (List.last (b :: rest') 0). lia.
Qed.

(** X13: a round from end to end.  In a state the server can reach, for
    a match both of whose players are connected, before its last round:
    player 1's four-move combination, the four runs of the countdown
    (one second or more apart), player 2's guess and the next-round delay
    (3000 ms or more later) leave the match in [inputting] for the next
    round, with no combination, player 2's score raised by the number of
    matching positions, no timer left over, and exactly these messages
    sent, in this order: ['getReady'], ['watchingOpponent'], ['countdown']
    3, 2, 1, 0, ['startGuessing'], ['opponentGuessing'], ['roundResult'],
    ['inputCombination'], ['waitingForCombination']. *)
Theorem round_from_end_to_end evs s p1 p2 c r m comb g t0 times t5 t6 :
  run init evs = Some (Done s) ->
  is_connected s p1 = true -> is_connected s p2 = true ->
  socket_match s p1 = Some (c, r, m) -> socket_match s p2 = Some (c, r, m) ->
  socket_role s p1 = Some Rplayer1 -> socket_role s p2 = Some Rplayer2 ->
  length comb = 4%nat ->
  currentRound m < totalRounds m ->
  now s <= t0 -> length times = 4%nat -> on_time (t0 + 1000) times = true ->
  List.last times 0 <= t5 -> t5 + 3000 <= t6 ->
  let n := count_correct (guess_results comb g) in
  let sc := mkScores (score1 (scores m)) (score2 (scores m) + n) in
  exists s',
    run s (round_events p1 p2 (next_tid s) comb g t0 times t5 t6) = Some (Done s')
    /\ heap s' = <[r := mkMatch (code m) (player1 m) (player2 m) (currentRound m + 1)
                          (totalRounds m) sc None inputting (rematchProposals m)]> (heap s)
    /\ timers s' = timers s
    /\ out s' = (out s ++
         [(ToRoom (player2 m), getReady (currentRound m) 3);
          (ToRoom (Some (player1 m)), watchingOpponent (currentRound m));
          (ToRoom (Some c), countdownMsg 3); (ToRoom (Some c), countdownMsg 2);
          (ToRoom (Some c), countdownMsg 1); (ToRoom (Some c), countdownMsg 0);
          (ToRoom (player2 m), startGuessing 8 (currentRound m));
          (ToRoom (Some (player1 m)), opponentGuessing 8);
          (ToRoom (Some c), roundResult (currentRound m) comb g (guess_results comb g) n sc);
          (ToRoom (Some (player1 m)), inputCombination (currentRound m + 1));
          (ToRoom (player2 m), waitingForCombination (currentRound m + 1))])%list.
Proof.
  intros Hrun Hc1 Hc2 Hm1 Hm2 Hr1 Hr2 Hlen Hround Ht0 Hlt Hon Ht5 Ht6 n sc.
  pose proof (oh_reachable evs s Hrun) as Hold.
  unfold round_events. simpl.
  (* the combination *)
  rewrite g_step_recv by done. simpl. unfold submitCombination.
  change (socket_match (set_now t0 s) p1) with (socket_match s p1).
  change (socket_role (set_now t0 s) p1) with (socket_role s p1).
  rewrite Hm1, Hr1. rewrite !bool_decide_eq_true_2 by done. simpl.
  set (m1 := set_state countdown (set_combination (Some comb) m)).
  set (s1 := setTimer (CountdownTick p1 r 3) 1000 _).
  assert (Hcode1 : socket_code s p1 = Some c /\ socket_code s p2 = Some c).
  { split; [revert Hm1|revert Hm2]; unfold socket_match, socket_code;
      intros H; (destruct (sockets s !! _) as [k|]; [|done]);
      (destruct (matchCode k) as [c'|]; [|done]);
      (destruct (get_match s c') as [[r' m']|]; [|done]); by injection H as -> _ _. }
  destruct Hcode1 as [Hcode1 Hcode2].
  (* the countdown *)
  destruct (g_countdown_runs_from p1 r m1 (next_tid s) 3 s1 (t0 + 1000) times)
    as (s2 & Hrun2 & Ho2 & Hh2 & Htm2 & Hmm2 & Hk2 & Hn2 & Hnow2).
  { apply (g_find_timer_new (set_now t0 s)); [by apply oh_set_now|done]. }
  { unfold s1. simpl. apply lookup_insert_eq. }
  { done. }
  { replace (Z.max (now s1) (t0 + 1000)) with (t0 + 1000) by (unfold s1; simpl; lia). done. }
  rewrite (g_run_app _ _ _ _ Hrun2). simpl.
  assert (Hnow2' : t0 + 1000 <= now s2).
  { rewrite Hnow2. apply on_time_last; [done|]. by destruct times. }
  (* the guess *)
  assert (Hsm2 : socket_match s2 p2 = Some (c, r, set_state guessing m1)).
  { apply (g_socket_match_update s s2 p2 c r m);
      [by rewrite Hk2|by rewrite Hmm2| |done].
    rewrite Hh2. unfold s1. simpl. by rewrite insert_insert_eq. }
  rewrite g_step_recv; [|lia|unfold is_connected; rewrite Hk2; exact Hc2].
  simpl. unfold submitGuess.
  change (socket_match (set_now t5 s2) p2) with (socket_match s2 p2).
  change (socket_role (set_now t5 s2) p2) with (socket_role s2 p2).
  rewrite Hsm2.
  assert (Hr2' : socket_role s2 p2 = Some Rplayer2) by (unfold socket_role; by rewrite Hk2).
  rewrite Hr2'. rewrite bool_decide_eq_true_2 by done. simpl.
  destruct (Z.leb_spec (totalRounds m) (currentRound m)) as [?|_]; [lia|].
  set (m3 := set_state roundEnd _).
  set (s3 := setTimer (NextRoundDelay r) 3000 _).
  (* the delay *)
  assert (Hf3 : find_timer (S (next_tid s)) s3
                = Some (mkTimer (S (next_tid s)) (t5 + 3000) (NextRoundDelay r))).
  { unfold find_timer, s3. simpl. rewrite Htm2, Hn2. unfold s1. simpl.
    rewrite g_filter_new by (done || lia).
    apply find_new. intros t Ht. specialize (Hold t Ht). lia. }
  pose proof (g_step_fire s3 t6 (mkTimer (S (next_tid s)) (t5 + 3000) (NextRoundDelay r))) as Hs3.
  cbn [tid due] in Hs3. rewrite Hs3; [|unfold s3; simpl; lia|done|lia]. clear Hs3.
  unfold run_job. simpl. rewrite lookup_insert_eq.
  eexists. split; [reflexivity|]. simpl.
  split; [|split].
  - rewrite Hh2. unfold s1. simpl. by rewrite !insert_insert_eq.
  - rewrite Htm2, Hn2. unfold s1. simpl. rewrite g_filter_new by (done || lia).
    rewrite filter_app, filter_cons, decide_False by (by intros ?).
    simpl. rewrite app_nil_r. apply filter_all_kept.
    intros t Ht. specialize (Hold t Ht). lia.
  - rewrite Ho2. unfold s1, socket_code. simpl.
    fold (socket_code s p1). rewrite Hcode1. simpl. by rewrite <- !app_assoc.
Qed.

Lemma round_from_end_to_end_witness :
  (run init opening = Some (Done s_inputting)
   /\ is_connected s_inputting "A" = true /\ is_connected s_inputting "B" = true
   /\ socket_match s_inputting "A" = Some ("ABC123", 0%nat, m_inputting)
   /\ socket_match s_inputting "B" = Some ("ABC123", 0%nat, m_inputting)
   /\ socket_role s_inputting "A" = Some Rplayer1
   /\ socket_role s_inputting "B" = Some Rplayer2
   /\ length ["up"; "down"; "left"; "right"] = 4%nat
   /\ currentRound m_inputting < totalRounds m_inputting
   /\ now s_inputting <= 500 /\ length [1500; 2500; 3500; 4500] = 4%nat
   /\ on_time (500 + 1000) [1500; 2500; 3500; 4500] = true
   /\ List.last [1500; 2500; 3500; 4500] 0 <= 12500 /\ 12500 + 3000 <= 15500)
  /\ exists s',
       run s_inputting
         (round_events "A" "B" (next_tid s_inputting) ["up"; "down"; "left"; "right"]
            ["up"; "down"; "right"; "none"] 500 [1500; 2500; 3500; 4500] 12500 15500)
       = Some (Done s')
       /\ heap s' !! 0%nat
          = Some (mkMatch "ABC123" "A" (Some "B") 2 3 (mkScores 0 2) None inputting (false, false))
       /\ timers s' = [].
Proof.
  assert (H1 : run init opening = Some (Done s_inputting)) by (vm_compute; reflexivity).
  assert (H2 : is_connected s_inputting "A" = true) by (vm_compute; reflexivity).
  assert (H3 : is_connected s_inputting "B" = true) by (vm_compute; reflexivity).
  assert (H4 : socket_match s_inputting "A" = Some ("ABC123", 0%nat, m_inputting))
    by (vm_compute; reflexivity).
  assert (H5 : socket_match s_inputting "B" = Some ("ABC123", 0%nat, m_inputting))
    by (vm_compute; reflexivity).
  assert (H6 : socket_role s_inputting "A" = Some Rplayer1) by (vm_compute; reflexivity).
  assert (H7 : socket_role s_inputting "B" = Some Rplayer2) by (vm_compute; reflexivity).
  assert (H8 : currentRound m_inputting < totalRounds m_inputting) by (vm_compute; reflexivity).
  assert (H9 : now s_inputting <= 500) by (vm_compute; discriminate).
  assert (H10 : on_time (500 + 1000) [1500; 2500; 3500; 4500] = true) by (vm_compute; reflexivity).
  assert (H11 : List.last [1500; 2500; 3500; 4500] 0 <= 12500) by (vm_compute; discriminate).
  assert (H12 : 12500 + 3000 <= 15500) by (vm_compute; discriminate).
  split.
  { split; [exact H1|]. split; [exact H2|]. split; [exact H3|]. split; [exact H4|].
    split; [exact H5|]. split; [exact H6|]. split; [exact H7|]. split; [exact eq_refl|].
    split; [exact H8|]. split; [exact H9|]. split; [exact eq_refl|]. split; [exact H10|].
    split; [exact H11|exact H12]. }
  destruct (round_from_end_to_end opening s_inputting "A" "B" "ABC123" 0 m_inputting
              ["up"; "down"; "left"; "right"] ["up"; "down"; "right"; "none"]
              500 [1500; 2500; 3500; 4500] 12500 15500
              H1 H2 H3 H4 H5 H6 H7 eq_refl H8 H9 eq_refl H10 H11 H12)
    as (s' & Hrun & Hheap & Htim & _).
  exists s'. split; [exact Hrun|].
  split; [rewrite Hheap, lookup_insert_eq; vm_compute; reflexivity|].
  rewrite Htim. vm_compute. reflexivity.
Defined.
End GuessingRuns.

(** * The pages *)

Lemma primary_direction_is_direction dx dy : is_direction (primary_direction dx dy).
Proof.
  unfold primary_direction, is_direction.
  destruct (js_gt _ _); [destruct (PrimFloat.ltb dy 0)|destruct (PrimFloat.ltb dx 0)]; auto.
Qed.

Module ReactClientFacts.
Import ReactClient.

Lemma filter_snoc_defend l e :
  length (List.filter is_defendMove (l ++ [e]))
  = (length (List.filter is_defendMove l) + (if is_defendMove e then 1 else 0))%nat.
Proof. rewrite List.filter_app, length_app. simpl. by destruct (is_defendMove e). Qed.

Lemma answers_same s s' :
  emitted s' = emitted s -> currentExpectedMove s' = currentExpectedMove s ->
  hasRespondedToMove s' = hasRespondedToMove s -> answers s' = answers s.
Proof. unfold answers, can_respond. by intros -> -> ->. Qed.

Lemma answers_processHeadMovement x y ind s :
  can_respond s = true -> answers (processHeadMovement x y ind s) = answers s.
Proof.
  intros Hc. unfold processHeadMovement.
  destruct (centerPosition s) as [center|]; [|done].
  destruct (hasRespondedToMove s) eqn:Hr; [done|].
  destruct (js_gt _ _); [|by apply answers_same].
  destruct ind; [|by apply answers_same].
  unfold answers, can_respond in *. simpl. rewrite filter_snoc_defend. simpl.
  rewrite Hr in *. destruct (truthy (currentExpectedMove s)); [simpl; lia|done].
Qed.

Ltac answers_crush :=
  unfold answers, can_respond; simpl; rewrite ?filter_snoc_defend; simpl;
  repeat case_match; simpl in *; try lia; try done.

Lemma answers_step s e s' :
  step s e = Some s' ->
  (answers s' <= answers s + (if is_incomingMove e then 1 else 0))%nat.
Proof.
  destruct e as [msg|det ind|key| |code| |h|i ok]; simpl.
  - intros [= <-]. destruct msg; simpl; repeat case_match; answers_crush.
  - intros [= <-]. unfold onFaceResults.
    destruct det as [[|d ds]|]; try lia.
    destruct (isCalibrating s); [answers_crush|].
    destruct (isTracking s); simpl; [|lia].
    destruct (bool_decide _); simpl; [|lia].
    destruct (truthy (currentExpectedMove s)) eqn:Ht; simpl; [|lia].
    destruct (hasRespondedToMove s) eqn:Hr; simpl; [lia|].
    rewrite answers_processHeadMovement; [lia|]. unfold can_respond. by rewrite Ht, Hr.
  - intros [= <-]. unfold keydown. destruct (negb _); [lia|].
    destruct (keyMap key) as [[mv|]|]; answers_crush.
  - intros [= <-]. answers_crush.
  - destruct (bool_decide _); intros [= <-]; answers_crush.
  - intros [= <-]. answers_crush.
  - destruct (List.find _ _) as [[h' j]|]; [|done]. intros [= <-].
    destruct j; answers_crush.
  - destruct (cameraCalls s !! i) as [call|]; [|done]. intros [= <-].
    destruct call, ok; answers_crush.
Qed.

Lemma answers_run evs : forall s s',
  run s evs = Some s' -> (answers s' <= answers s + incoming evs)%nat.
Proof.
  induction evs as [|e evs IH]; simpl; intros s s'.
  - intros [= <-]. unfold incoming. simpl. lia.
  - destruct (step s e) as [s1|] eqn:E; [|done]. intros Hrun.
    apply answers_step in E. apply IH in Hrun. unfold incoming in *. simpl.
    destruct (is_incomingMove e); simpl; lia.
Qed.

Lemma directions_same s s' : emitted s' = emitted s -> directions_only s -> directions_only s'.
Proof. unfold directions_only. by intros ->. Qed.

Lemma directions_emit s e :
  (forall d, e = EmitDefendMove d -> is_direction d) ->
  directions_only s -> directions_only (emit e s).
Proof.
  intros He H d. simpl. intros [Hin|Hin%list_elem_of_singleton]%elem_of_app; [by apply H|].
  by apply He.
Qed.

Lemma directions_step s e s' : step s e = Some s' -> directions_only s -> directions_only s'.
Proof.
  destruct e as [msg|det ind|key| |code| |h|i ok]; simpl.
  - intros [= <-] H. destruct msg; simpl; try done.
    + destruct (bool_decide _); [done|]. by destruct (cameraInitialized s).
    + by destruct (cameraInitialized s).
  - intros [= <-] H. unfold onFaceResults.
    destruct det as [[|d ds]|]; try done.
    destruct (isCalibrating s); [done|]. destruct (_ && _); [|done].
    unfold processHeadMovement. destruct (centerPosition s); [|done].
    destruct (hasRespondedToMove s); [done|]. destruct (js_gt _ _); [|done].
    destruct ind; [|done].
    apply directions_emit; [|done]. intros d0 [= <-]. apply primary_direction_is_direction.
  - intros [= <-] H. unfold keydown. destruct (negb _); [done|].
    destruct (keyMap key) as [[mv|]|]; try done; by apply directions_emit.
  - intros [= <-] H. by apply directions_emit.
  - destruct (bool_decide _); intros [= <-] H; [by apply directions_emit|done].
  - intros [= <-] H. by apply directions_emit.
  - destruct (List.find _ _) as [[h' j]|]; [|done]. intros [= <-] H. by destruct j.
  - destruct (cameraCalls s !! i) as [call|]; [|done]. intros [= <-] H.
    by destruct call, ok.
Qed.

Lemma directions_run evs : forall s s',
  run s evs = Some s' -> directions_only s -> directions_only s'.
Proof.
  induction evs as [|e evs IH]; simpl; intros s s'.
  - by intros [= <-].
  - destruct (step s e) as [s1|] eqn:E; [|done]. intros Hrun H.
    apply (IH s1 s' Hrun). by apply (directions_step s e).
Qed.

(** X14: one answer per move.  Whatever the page of the reactive game
    is sent and shown, the ['defendMove'] it emits, plus one while it can
    still answer the move it holds, never exceed those it had before plus
    the ['incomingMove'] received since: at most one ['defendMove'] answers
    an ['incomingMove'], and once it is emitted no other follows before
    the next ['incomingMove'].  Each ['defendMove'] carries one of [up],
    [down], [left], [right]. *)
Theorem one_answer_per_move evs0 s evs s' :
  run init evs0 = Some s ->
  run s evs = Some s' ->
  (answers s' <= answers s + incoming evs)%nat
  /\ (answers s <= incoming evs0)%nat
  /\ (forall d, EmitDefendMove d ∈ emitted s' -> is_direction d).
Proof.
  intros H0 H1. split; [by apply answers_run|]. split.
  - apply answers_run in H0. unfold answers at 2 in H0. simpl in H0. lia.
  - apply (directions_run evs s s' H1). apply (directions_run evs0 init s H0).
    intros d Hd. by apply elem_of_nil in Hd.
Qed.

Lemma one_answer_per_move_witness :
  let s := default init (run init (take 5 defending)) in
  let s' := default init (run init defending) in
  (run init (take 5 defending) = Some s /\ run s (drop 5 defending) = Some s')
  /\ emitted s' = [EmitDefendMove "left"]
  /\ (answers s' <= answers s + incoming (drop 5 defending))%nat
  /\ (answers s <= incoming (take 5 defending))%nat.
Proof.
  intros s s'.
  assert (H0 : run init (take 5 defending) = Some s) by (vm_compute; reflexivity).
  assert (H1 : run s (drop 5 defending) = Some s') by (vm_compute; reflexivity).
  split; [split; [exact H0|exact H1]|].
  split; [vm_compute; reflexivity|].
  destruct (one_answer_per_move _ _ _ _ H0 H1) as (Ha & Hb & _).
  split; [exact Ha|exact Hb].
Defined.

Lemma role_step s e s' :
  step s e = Some s' ->
  playerRole s' = playerRole s \/ (is_matchCreated e = true /\ playerRole s' = Some Rplayer1).
Proof.
  destruct e as [msg|det ind|key| |code| |h|i ok]; simpl.
  - intros [= <-]. destruct msg; simpl; auto.
    + destruct (bool_decide _); auto. destruct (cameraInitialized s); auto.
    + destruct (cameraInitialized s); auto.
  - intros [= <-]. left. unfold onFaceResults.
    destruct det as [[|d ds]|]; try done.
    destruct (isCalibrating s); [done|]. destruct (_ && _); [|done].
    unfold processHeadMovement. destruct (centerPosition s); [|done].
    destruct (hasRespondedToMove s); [done|]. by destruct (js_gt _ _), ind.
  - intros [= <-]. left. unfold keydown. destruct (negb _); [done|].
    by destruct (keyMap key) as [[mv|]|].
  - intros [= <-]. by left.
  - destruct (bool_decide _); intros [= <-]; by left.
  - intros [= <-]. by left.
  - destruct (List.find _ _) as [[h' j]|]; [|done]. intros [= <-]. left. by destruct j.
  - destruct (cameraCalls s !! i) as [call|]; [|done]. intros [= <-]. left.
    by destruct call, ok.
Qed.

Lemma role_run evs : forall s s',
  run s evs = Some s' ->
  (playerRole s' = Some Rplayer1 \/ playerRole s' = playerRole s)
  /\ (existsb is_matchCreated evs = false -> playerRole s' = playerRole s).
Proof.
  induction evs as [|e evs IH]; simpl; intros s s'.
  - intros [= <-]. auto.
  - destruct (step s e) as [s1|] eqn:E; [|done]. intros Hrun.
    destruct (IH s1 s' Hrun) as [H1 H2]. apply role_step in E. split.
    + destruct H1 as [?|H1]; [by left|]. rewrite H1. destruct E as [E|[_ E]]; auto.
    + intros [He Hevs]%orb_false_iff. rewrite (H2 Hevs).
      destruct E as [E|[E _]]; [done|congruence].
Qed.

(** X15: who is told 'You Win'.  The page of the reactive game sets its
    [playerRole] in one place, to [player1], when it is told that its match
    was created.  So at ['matchEnd'] the result title gets the class
    [winner] exactly when the page created the match and [player1] has
    won; a page that was never sent ['matchCreated'], as the page of the
    player who joined, gets [loser] for every result that is not a tie,
    also when [player2] has won. *)
Theorem winner_shown_to_creator_only evs s sc w s' :
  run init evs = Some s ->
  step s (Message (matchEndMsg sc w)) = Some s' ->
  (titleClass s' = Some "winner" <-> playerRole s = Some Rplayer1 /\ w = Wplayer1)
  /\ (existsb is_matchCreated evs = false ->
      titleClass s' = Some (if bool_decide (w = Wtie) then EmptyString else "loser")).
Proof.
  intros Hrun [= <-]. simpl.
  destruct (role_run evs init s Hrun) as [Hrole Hnone]. simpl in Hrole, Hnone.
  unfold result_class. split.
  - destruct Hrole as [->| ->]; destruct w; simpl; split; try done;
      try (by intros [? ?]); by intros [= ?].
  - intros Hevs. rewrite (Hnone Hevs). by destruct w.
Qed.

Lemma winner_shown_to_creator_only_witness :
  let evs := [Message matchStarted; Message (roundStart 1 4 "defender" 3)] in
  let s := default init (run init evs) in
  let s' := default init (step s (Message (matchEndMsg (mkScores 0 3) Wplayer2))) in
  (run init evs = Some s
   /\ step s (Message (matchEndMsg (mkScores 0 3) Wplayer2)) = Some s')
  /\ titleClass s' = Some "loser".
Proof.
  intros evs s s'.
  assert (H0 : run init evs = Some s) by (vm_compute; reflexivity).
  assert (H1 : step s (Message (matchEndMsg (mkScores 0 3) Wplayer2)) = Some s')
    by (vm_compute; reflexivity).
  split; [split; [exact H0|exact H1]|].
  destruct (winner_shown_to_creator_only evs s (mkScores 0 3) Wplayer2 s' H0 H1) as [_ H].
  apply H. vm_compute. reflexivity.
Defined.
End ReactClientFacts.

Module GuessClientFacts.
Import GuessClient.

Lemma no_repeat_snoc l d : no_repeat l -> last l <> Some d -> no_repeat (l ++ [d]).
Proof.
  induction l as [|a [|b l] IH]; simpl; intros H Hl; [done|split; [congruence|done]|].
  destruct H as [Hab H]. split; [done|]. apply IH; [done|]. exact Hl.
Qed.

Lemma page_ok_init : page_ok init.
Proof.
  split; simpl; try lia.
  - exists [], 0%nat. by repeat split.
  - intros comb H. by apply elem_of_nil in H.
  - intros g H. by apply elem_of_nil in H.
Qed.

(** A block that leaves the two lists and the emitted messages alone. *)
Lemma page_ok_same s s' :
  currentCombination s' = currentCombination s -> detectedMoves s' = detectedMoves s ->
  emitted s' = emitted s -> page_ok s -> page_ok s'.
Proof. intros H1 H2 H3 [? ? ? ? ?]. split; rewrite ?H1, ?H2, ?H3; done. Qed.

Lemma page_ok_no_moves s s' :
  (length (currentCombination s') <= 4)%nat -> detectedMoves s' = [] ->
  emitted s' = emitted s -> page_ok s -> page_ok s'.
Proof.
  intros H1 H2 H3 [? ? ? ? ?]. split; rewrite ?H2, ?H3; try done; simpl; try lia.
  exists [], 0%nat. by repeat split.
Qed.

Lemma page_ok_emit s e :
  (forall comb, e = EmitSubmitCombination comb -> length comb = 4%nat) ->
  (forall g, e = EmitSubmitGuess g -> length g = 4%nat /\ guess_shape g) ->
  page_ok s -> page_ok (emit e s).
Proof.
  intros Hc Hg [? ? ? ? ?]. split; simpl; try done.
  - intros comb [Hin|Hin%list_elem_of_singleton]%elem_of_app; auto.
  - intros g [Hin|Hin%list_elem_of_singleton]%elem_of_app; auto.
Qed.

Lemma detect_direction_is_direction dx dy d :
  detect_direction dx dy = Some d -> is_direction d.
Proof.
  unfold detect_direction. destruct (js_gt _ _); [|done]. destruct (js_gt _ _); [|done].
  intros [= <-]. apply primary_direction_is_direction.
Qed.

Lemma page_ok_processHeadPosition x y t s : page_ok s -> page_ok (processHeadPosition x y t s).
Proof.
  intros H. unfold processHeadPosition.
  destruct (centerPosition s) as [center|]; [|done].
  destruct (negb (isTracking s) || (4 <=? length (detectedMoves s))%nat) eqn:Hg; [done|].
  apply orb_false_iff in Hg as [_ Hlt%Nat.leb_gt].
  destruct (detect_direction _ _) as [d|] eqn:Hd; [|by apply (page_ok_same s)].
  apply detect_direction_is_direction in Hd. simpl.
  destruct (bool_decide (Some d = lastDirection s)); simpl; [|by apply (page_ok_same s)].
  destruct (HOLD_TIME_REQUIRED <=? _); [|by apply (page_ok_same s)].
  destruct (bool_decide (last (detectedMoves s) <> Some d)) eqn:Hlast; simpl;
    [|by apply (page_ok_same s)].
  apply bool_decide_eq_true_1 in Hlast.
  destruct H as [H1 (moves & k & Hm & Hdir & Hrep & Hk) H3 H4 H5].
  assert (k = 0%nat) by (destruct k; [done|]; rewrite Hk in Hlt by done; lia).
  subst k. simpl in Hm. rewrite app_nil_r in Hm.
  split; simpl; try done.
  - exists (moves ++ [d])%list, 0%nat. rewrite Hm. simpl. rewrite app_nil_r.
    split; [done|]. split; [apply Forall_app; split; [done|by apply Forall_singleton]|].
    split; [|done]. apply no_repeat_snoc; [done|]. by rewrite <- Hm.
  - rewrite length_app. simpl. lia.
Qed.

Lemma page_ok_guess_tick h n s : page_ok s -> page_ok (guess_tick h n s).
Proof.
  intros H. unfold guess_tick. destruct (n - 1 <=? 0); [|by apply (page_ok_same s)].
  destruct H as [H1 (moves & k & Hm & Hdir & Hrep & Hk) H3 H4 H5].
  assert (Hfour : length (detectedMoves s ++
                    replicate (4 - length (detectedMoves s)) "none") = 4%nat)
    by (rewrite length_app, length_replicate; lia).
  assert (Hshape : exists moves' k',
             (detectedMoves s ++ replicate (4 - length (detectedMoves s)) "none")%list
             = (moves' ++ replicate k' "none")%list
             /\ Forall is_direction moves' /\ no_repeat moves').
  { destruct (decide (k = 0%nat)) as [->|Hne].
    - simpl in Hm. rewrite app_nil_r in Hm. rewrite Hm. eauto.
    - rewrite (Hk Hne). simpl. rewrite app_nil_r. rewrite Hm. eauto. }
  split; simpl; try done.
  - destruct Hshape as (moves' & k' & E & ? & ?). exists moves', k'.
    repeat split; try done.
  - lia.
  - intros comb [Hin|Hin%list_elem_of_singleton]%elem_of_app; [auto|done].
  - intros g [Hin|Hin%list_elem_of_singleton]%elem_of_app; [auto|].
    injection Hin as ->. split; [done|]. exact Hshape.
Qed.

Lemma page_ok_after_getReady s : page_ok s -> page_ok (after_getReady s).
Proof.
  intros H. apply (page_ok_no_moves s); [apply (ok_combination _ H)|done|done|done].
Qed.

Lemma page_ok_set_combination c s :
  (length c <= 4)%nat -> page_ok s -> page_ok (set_currentCombination c s).
Proof. intros Hc [? ? ? ? ?]. by split. Qed.

Lemma page_ok_step s a e s' : step s a e = Some s' -> page_ok s -> page_ok s'.
Proof.
  destruct e as [msg|det| |code|mv| | | |h|h|i ok]; simpl.
  - intros [= <-] H. destruct msg; simpl; repeat case_match;
      first [ done
            | by apply (page_ok_same s)
            | by apply page_ok_after_getReady
            | by apply page_ok_set_combination; [simpl; lia|]
            | (apply (page_ok_no_moves s);
               [first [apply (ok_combination _ H) | simpl; lia]|done|done|done]) ].
  - intros [= <-] H. unfold onFaceResults.
    destruct det as [[|d ds]|]; try done.
    destruct (isCalibrating s); [by apply (page_ok_same s)|]. destruct (_ && _); [|done].
    by apply page_ok_processHeadPosition.
  - intros [= <-] H. by apply page_ok_emit.
  - destruct (bool_decide _); intros [= <-] H; [by apply page_ok_emit|done].
  - destruct (Nat.ltb_spec (length (currentCombination s)) 4) as [Hl|Hl];
      intros [= <-] Hok; [|done].
    apply page_ok_set_combination; [|done]. rewrite length_app. simpl. lia.
  - intros [= <-] H. apply page_ok_set_combination; [simpl; lia|done].
  - destruct (bool_decide (length (currentCombination s) = 4%nat)) eqn:E;
      intros [= <-] H; [|done].
    apply bool_decide_eq_true_1 in E. apply page_ok_emit; [|done|done].
    by intros comb [= <-].
  - intros [= <-] H. by apply page_ok_emit.
  - destruct (bool_decide _); [|done]. intros [= <-] H. by apply (page_ok_same s).
  - destruct (List.find _ _) as [[h' n]|]; [|done]. intros [= <-] H.
    by apply page_ok_guess_tick.
  - destruct (cameraCalls s !! i) as [call|]; [|done]. intros [= <-] H.
    destruct call, ok; first [by apply (page_ok_same s)
                             | apply page_ok_after_getReady; by apply (page_ok_same s)].
Qed.

Lemma page_ok_run evs : forall s s', run s evs = Some s' -> page_ok s -> page_ok s'.
Proof.
  induction evs as [|[a e] evs IH]; simpl; intros s s'.
  - by intros [= <-].
  - destruct (step s a e) as [s1|] eqn:E; [|done]. intros Hrun H.
    apply (IH s1 s' Hrun). by apply (page_ok_step s a e).
Qed.

(** X16: the page only submits whole combinations.  Whatever is
    clicked and received, the combination being chosen on the page of the
    guessing game never has more than four moves, and every
    ['submitCombination'] the page emits carries exactly four: the server's
    ['submitCombination'] handler never answers it with
    ['combinationError']. *)
Theorem page_submits_four_moves evs s comb :
  run init evs = Some s ->
  (length (currentCombination s) <= 4)%nat
  /\ (EmitSubmitCombination comb ∈ emitted s ->
      length comb = 4%nat
      /\ forall x sid t msg,
           (t, Guessing.combinationError msg)
             ∈ Guessing.out (Guessing.submitCombination sid comb x) ->
           (t, Guessing.combinationError msg) ∈ Guessing.out x).
Proof.
  intros Hrun. pose proof (page_ok_run evs init s Hrun page_ok_init) as H.
  split; [apply (ok_combination _ H)|]. intros Hin.
  pose proof (ok_submitted _ H comb Hin) as Hlen. split; [done|].
  intros x sid t msg. unfold Guessing.submitCombination.
  destruct (Guessing.socket_match x sid) as [[[c r] m]|]; [|done].
  destruct (negb _); [done|]. rewrite bool_decide_eq_true_2 by done. simpl.
  rewrite !elem_of_app, !list_elem_of_singleton. intros [[?|?]|?]; [done|done|done].
Qed.

Lemma page_submits_four_moves_witness :
  let s := default init (run init choosing) in
  run init choosing = Some s
  /\ emitted s = [EmitSubmitCombination ["up"; "down"; "left"; "right"]]
  /\ (length (currentCombination s) <= 4)%nat
  /\ length ["up"; "down"; "left"; "right"] = 4%nat.
Proof.
  intros s.
  assert (H0 : run init choosing = Some s) by (vm_compute; reflexivity).
  assert (H1 : emitted s = [EmitSubmitCombination ["up"; "down"; "left"; "right"]])
    by (vm_compute; reflexivity).
  split; [exact H0|]. split; [exact H1|].
  destruct (page_submits_four_moves choosing s ["up"; "down"; "left"; "right"] H0) as [Ha Hb].
  split; [exact Ha|]. apply Hb. rewrite H1. apply list_elem_of_singleton. reflexivity.
Defined.

(** X17: the shape of a guess.  Every ['submitGuess'] the page of the
    guessing game emits carries exactly four entries: the head moves that
    were registered, each one of [up], [down], [left], [right] and none the
    same as the one before it, followed by ['none'] up to four.  While it
    tracks, the page never holds more than four detected moves. *)
Theorem guess_has_four_entries evs s g :
  run init evs = Some s ->
  (length (detectedMoves s) <= 4)%nat
  /\ (EmitSubmitGuess g ∈ emitted s -> length g = 4%nat /\ guess_shape g).
Proof.
  intros Hrun. pose proof (page_ok_run evs init s Hrun page_ok_init) as H.
  split; [apply (ok_length _ H)|apply (ok_guessed _ H)].
Qed.

Lemma guess_has_four_entries_witness :
  let s := default init (run init guessing_session) in
  run init guessing_session = Some s
  /\ emitted s = [EmitSubmitGuess ["left"; "up"; "none"; "none"]]
  /\ length ["left"; "up"; "none"; "none"] = 4%nat
  /\ guess_shape ["left"; "up"; "none"; "none"].
Proof.
  intros s.
  assert (H0 : run init guessing_session = Some s) by (vm_compute; reflexivity).
  assert (H1 : emitted s = [EmitSubmitGuess ["left"; "up"; "none"; "none"]])
    by (vm_compute; reflexivity).
  split; [exact H0|]. split; [exact H1|].
  destruct (guess_has_four_entries guessing_session s ["left"; "up"; "none"; "none"] H0)
    as [_ Hb].
  apply Hb. rewrite H1. apply list_elem_of_singleton. reflexivity.
Defined.
End GuessClientFacts.
